(* ===== verification/_CoqProject ===== *)
-Q . S2P
Prelude.v
Utf8.v
Transition.v
Http.v
Json.v
Context.v
Handlers.v
Path.v
Router.v
Middleware.v
App.v
Coverage.v
Logging.v
Client.v
ApiDoc.v
Contract.v
Conformance.v
Session.v
Server.v
System.v
