(* ===== verification/Prelude.v ===== *)
(** * A verification development for go-restful-api-example

    The program (src/main.go, 134 lines of Go) is a REST skeleton on the gin
    web framework.  [main] builds a gin engine, registers eight routes (a
    redirect at the root, the swagger UI, a health probe and five routes of
    the resource "Gopher" under the group [/gophers]) and serves on port
    8000.  The five gopher handlers are stubs ("TODO: Implement this"): they
    ignore the request and answer a fixed status with a zero-valued body.
    Comments in the format of swag before [main] and before each handler
    document the API; the swagger UI is generated from them.

    ** The parts of the program and where they are modelled

    Code of src/main.go, translated statement by statement:

    - [Handlers]: the struct [Gopher] with its JSON tags (lines 52 to 56)
      and the seven handlers: the function literal registered at the root
      ([RootRedirect], lines 30 to 32) and [CreateGopher], [GetGophers],
      [GetGopherByID], [UpdateGopher], [DeleteGopher], [HealthCheck].  A Go
      handler mutates the context it is given; the model passes the context
      through ([gin.HandlerFunc] is a function from a context to a context,
      or a panic with the context as it was left).
    - [App]: the package clause and the imports (lines 1 to 11) as data,
      with the name the file refers to each package by; and the function
      [main] (lines 27 to 50): [routes] is the sequence
      of registrations in source order, in the error monad because a
      registration panics on a malformed or conflicting path; [engine] is
      what they build from [gin.Default()]; [table] lists the routes that
      result and [routed] the interface they define; [main] goes on to
      [r.Run(":8000")], where the answer of the operating system to the
      attempt to listen is a parameter, and ends in [Serving], [Fatal] (the
      [log.Fatalf] of line 48) or [Crashed].
    - [Coverage]: the requests outside the interface: [redirected] lists
      the six families of paths that [gin.Default()] answers with a
      trailing-slash redirect (the empty path among them); gin's 404 is
      the answer to the rest.
    - [Logging]: [serve], the engine of [main] as [r.Run] serves each
      request: behind the logger and the recovery that [gin.Default()]
      (line 28) installs, with the lines they print.
    - [ApiDoc]: the annotations (lines 13 to 26 and the comment block of
      each handler) as records, one definition per block, with the meaning
      of an operation: the requests it is for and the responses that keep
      the promise of [@Success] and [@Produce].

    Libraries the program calls, modelled from their documented behaviour
    (they are not under src/):

    - [Http]: net/http as far as the program reaches it: requests and
      responses as records, the header as a finite map, the status texts,
      [bodyAllowedForStatus] and [http.Redirect].  The escaping and cleaning
      of URLs is behind the interface [http.UrlOps], whose laws say that a
      plain path is left alone.
    - [Utf8]: unicode/utf8: one step of [DecodeRuneInString] with the
      table of first bytes and accept ranges, the runes of a string,
      [ValidString], [EncodeRune], and the string made valid UTF-8.
    - [Json]: encoding/json: JSON values, the class [Marshal] of Go values
      that have one, the text of the encoder, which escapes a string rune
      by rune as [appendString] does, and a reader of that text
      ([decode]).
    - [Context]: gin's response writer as a state machine (the status gin
      records, the size with its sentinel -1, what has gone to the wire) with
      its invariant [writer_ok] and its transition relation [writer_step],
      the context, and [c.Status], [c.JSON], [c.Redirect] and
      [c.AbortWithStatus]; the renderers are instances of the class
      [gin.Render].  [size_ok] is the second invariant of the writer: the
      size accounts for the body.  [WellBehaved] is the interface the
      engine's theorems ask of a handler.
    - [Path]: route patterns as lists of segments (literal, [:name],
      [*name]), the matcher, and [path.Clean], [path.Join] and gin's
      [joinPaths], by which a route group computes the path it registers.
    - [Router]: gin's engine: [addRoute] with its panics, lookup
      ([getValue]), the trailing-slash recommendation, [handleHTTPRequest]
      with the default 404, the recovery middleware ([run]) and
      [ServeHTTP]; [respond] is what the client receives.
    - [Middleware]: the handler chain of [gin.Default()]: [Logger] and
      [Recovery] as functions of the rest of the chain (their call of
      [c.Next()]), the lines they print as a list beside the outcome, and
      [ServeHTTP_logged], the engine serving through them.
    - [Client]: the side of net/http's [Client] that the redirects are for:
      [next_request] (which status keeps the method and the body, where the
      [Location] leads) and [follow], the chain of requests.
    - [Server]: what [r.Run] starts: net/http serves every request in a
      goroutine of its own, and gin's [ServeHTTP] takes a context from the
      pool of the engine, resets it, runs the handlers and puts it back.
      The state holds the requests in flight ([task]), the pool and the
      lines printed; [server_step] is the transition relation, with a rule
      for each action of a goroutine (a request is accepted, its handlers
      run, a line is printed, the response is completed), and [exec] and
      [run_schedule] are the same as functions of a schedule.
    - [System]: the server of [Server] and clients as [Client] has them,
      as one transition system ([sys_step]): a client sends its request,
      waits for the complete response, and ends or follows the redirect
      while it has requests left.

    The specification:

    - [Contract]: the store and the operations that sections 3 to 8 of the
      specification ask of a complete implementation, as an abstract
      machine.  It is not code of the repository.
    - [Conformance]: the program against that contract, call by call.
    - [Session]: the two over a sequence of calls: [session] is the
      program answering the requests of a client in turn, [answers]
      ([Contract]) the contract doing so with its store.

    [Prelude] (this file) holds what the others share: Go panics as values
    ([result], with stdpp's monad notation), splitting a string at a
    separator and joining it back, lists of tagged items, the tactics, and
    the hint database [gopher].  [Transition] holds the interface
    [Measured] of a transition system with an invariant and a measure that
    every step lowers by one, and what follows for every such system;
    [Server] and [System] are its instances.

    ** What the theorems show

    - Registration ([App]): the eight registrations succeed; any of them
      repeated would panic; a further route that gin accepts changes no
      lookup of the interface; the names of the imports are distinct and
      the docs package alone is imported for its initialisation.
    - Routing ([App]): lookup implements [routed] exactly ([dispatch_iff]);
      no two routes match a common request, so the order of registration is
      irrelevant; requests of other methods get gin's 404; paths of the
      gophers with a slash too many are redirected.
    - Patterns ([Path]): the parser of registered paths accepts exactly the
      well-formed patterns, and a pattern prints as the path it was read
      from ([parse_pattern_iff]); [path.Clean] is idempotent.
    - Coverage ([Coverage]): outside the interface the engine recommends
      a path exactly for the redirects of [redirected]; every request is of
      the interface, or redirected, or answered 404, and 404 answers no
      other request; every redirect leads to a route of its method, except
      that of /gophers//, which for PUT and DELETE ends in a 404.
    - Responses ([App]): status, header and body of the answer of every
      route, for every request that reaches it, every value of [:id]
      included; the statuses the program can answer at all; that the
      status, the size and the length of the body stay within their bounds
      ([response_within_bounds]).
    - Logging ([Logging]): the logger changes no response
      ([logging_transparent]); what is logged for every request
      ([access_logged]): a line with the status of the response for a
      request of the interface, none for a redirect of gin, a line with
      404 for the rest; the line of a DELETE is printed before its header
      is sent; a panic of the swagger handler is reported, answered 500 and
      logged as such, unless the header had been sent, and then what was
      sent stays.
    - Redirects ([Client]): the chains of redirects of the program end
      ([redirects_terminate]): two redirects and those of the swagger UI
      are enough, and two are needed (GET //).
    - Concurrency ([Server]): in every reachable state a request is
      answered, and has printed, what [serve] gives for it alone, whatever
      the schedule and the contexts the pool hands out, and no connection is
      dropped ([requests_isolated], by rule induction on [server_step]);
      every schedule of the goroutines ends after exactly [work] steps
      ([schedule_drains]); the responses are then those of [session] and the
      output is a permutation of the logs of the requests, the lines of each
      in their order ([concurrent_refines_session]); a client that follows
      redirects ends where it would alone ([client_undisturbed]).
    - The whole ([System]): the server and its clients come to an end under
      every schedule, after exactly the steps the chains of requests take
      ([system_terminates]); every state they reach can be continued to the
      end, and at the end every client has what [follow] gives it alone
      with the engine ([clients_served]); with Go's client and tame
      requests every client has its answer ([tame_clients_answered]); the
      server has then seen the requests of all the chains and printed the
      lines of each ([system_log]); a response is received only when the
      lines of its request are printed ([logged_before_received]).
    - Encoding ([Utf8], [Json], [Handlers]): [EncodeRune] gives back the
      bytes of every valid encoding ([EncodeRune_decode]); the text of a
      JSON value reads back as the value with its strings made valid UTF-8
      ([decode_encode]); so the text of a gopher whose id and name are
      valid UTF-8 reads back as the gopher ([Gopher_text_roundtrip]), and
      gophers that differ in bytes that are no UTF-8 share a text
      ([invalid_ids_share_text]).
    - Documentation ([ApiDoc]): the annotations and the registrations
      describe the same operations, every request an operation is for
      receives the documented response, the documented host is the address
      [main] listens on; and the responses do not depend on the request.
    - Contract ([Conformance]): the program answers the status the contract
      has for success, in every state of the store; it meets the contract on
      the health probe and on the list of an empty store, and parts with it
      on every failure and on every body that carries a gopher.  Over a
      sequence of calls ([Session]) the statuses agree exactly when no call
      fails; the example scenario of section 8 of the specification is
      answered 201, 200, 204, 200 where the contract has 201, 200, 204,
      404.

    Each theorem that has hypotheses is applied to a concrete request in the
    section [Witnesses] of its file, with [http.url_ops_plain] for the URL
    functions and the handler [idle] at the swagger route.

    ** Bounds and assumptions

    The program has no loop and no recursion, and every function of the
    model but three is structurally recursive on a string or a list.  The
    runes of a string ([utf8.runes]) take fuel, one unit for each rune;
    they are given the length of the string, which is enough because every
    rune has a byte at least ([runes_from_fuel]).  The
    reader of JSON values ([decode]) takes fuel, one unit for each call; it
    is given the length of the text, which is enough because every call
    that succeeds reads a character ([decode_encode] holds for every
    value).  The client ([follow]) takes the number of redirects it may
    follow; Go's client allows nine, and [redirects_terminate] shows that
    the program needs two beside those of the swagger UI, which is a
    parameter ([ui_settles]).  The server takes no fuel: [work] counts the
    steps the goroutines of a state still have to take (one for the
    handlers, one for each line, one for the end of the task), every step
    but the arrival of a request takes one from it, and a schedule is a
    finite list of events.  In [System] the arrivals are the requests of the
    clients, and [sys_todo] counts them in: a client has the fuel of
    [follow] (nine redirects for Go's client), so its chain is finite
    whatever the engine answers.  A handler runs as one step of its
    goroutine: the handlers of the program are functions of the context
    and share nothing, so the model has no interleaving inside a handler,
    and that the schedules end ([schedule_drains], [system_terminates]) is
    a property of this model, not of net/http.  The theorem on redirects is about tame requests (no
    query, no forwarded prefix, path segments plain or empty): beyond
    them the [Location] of a redirect is a value of the abstract URL
    functions.  Status codes and sizes are [Z] (Go's [int]); the only
    arithmetic on them is the size of the body, which grows by the length
    of what is written, so no overflow arises.  Strings are sequences of
    bytes.

    A request ([http.Request]) is the record the engine receives, with the
    URL as a path and a raw query: a request line in origin form, or a
    request built by a test.  A request line in absolute form has a scheme
    and a host as well; the engine routes it by its path all the same, and
    where it redirects, the [Location] has the scheme and the host before
    the path of the theorems.

    A response ([http.Response]) is the status, the header and the body as
    the handlers of the engine hand them to net/http.  When the server sends
    them it adds what the handlers leave to it: the [Date] header, and
    [Content-Length] or, for a body beyond its buffer, chunking.  They are
    not in the model: a header the theorems give as empty is one in which
    the program has set nothing.

    The model looks a request up segment by segment, in the order of
    registration, where gin walks a radix tree with priorities.  The two
    agree when every wildcard fills a whole segment and no two patterns of a
    method match a common path; both hold of the program ([table_disjoint]).
    A parameter matches one segment that is not empty.  A path without a
    leading slash has no segments and finds no route; of these the tree
    recommends a redirect for the empty path alone, when the method has a
    route at the root ([tsr_path_empty]).  The reader of JSON strings
    leaves out the escapes of surrogates, which the encoder does not write,
    and takes bytes outside ASCII as they are, which is what encoding/json
    does on valid UTF-8.

    ** Not modelled

    The network (listening, connections and their reuse, timeouts,
    shutdown, the parsing of requests: a request enters as a record and a
    response leaves as one).  The handler of the swagger UI and the generated
    docs package: neither is under src/, the versions of gin-swagger differ
    in what they answer (a missing document is a panic in one and a 500 in
    another), and what swag generates depends on its version; the route is
    modelled and its handler is a parameter of every theorem, with the
    interface [WellBehaved] where a theorem needs one.  What the logger prints of the clock and
    the connection (time stamp, latency, client address), the notices gin
    prints in debug mode (the routes at start-up, a redirect, a status set
    after the header is sent), and the parts of
    gin the program leaves switched off (method-not-allowed answers,
    fixed-path redirects).  The spec's store (section 5 asks for a lock
    around it) has no counterpart in the code: [Contract] has it as the
    specification describes it, sequentially. *)

From Stdlib Require Import ZArith Ascii String List Lia.
From stdpp Require Import base tactics option list strings.

(** The scope of the development's notations: the arrows of the transition
    systems, [s =[ ev ]=> s'] for a step and [s =[ evs ]=>* s'] for a
    sequence of them, which [Server] and [System] declare for their
    relations. *)
Declare Scope go_scope.
Delimit Scope go_scope with go.

(** Comparisons of Go integers stay folded under [cbn] and [simpl] unless both
    sides are numerals, so that the lemmas on them ([Z.eqb_spec],
    [Z.ltb_spec]) still apply to a comparison with a variable. *)
#[global] Arguments Z.eqb !_ !_.
#[global] Arguments Z.ltb !_ !_.
#[global] Arguments Z.leb !_ !_.

(** ** Go panics as values

    A Go function either returns or panics with a message.  [result] is the
    error monad of the development; [x ← r; k] is stdpp's bind notation. *)

Inductive result (A : Type) : Type :=
| Ok (a : A)
| Panic (msg : string).
Arguments Ok {A} a.
Arguments Panic {A} msg.

#[export] Instance result_ret : MRet result := @Ok.
#[export] Instance result_bind : MBind result := fun A B f r =>
  match r with Ok a => f a | Panic m => Panic m end.
#[export] Instance result_fmap : FMap result := fun A B f r =>
  match r with Ok a => Ok (f a) | Panic m => Panic m end.

#[export] Instance result_eq_dec `{EqDecision A} : EqDecision (result A).
Proof. solve_decision. Defined.

Definition is_ok {A} (r : result A) : bool :=
  match r with Ok _ => true | Panic _ => false end.

(** [recover r h] is Go's [defer func() { if e := recover(); e != nil {...} }]:
    the value of [r], or what the deferred function makes of the panic. *)
Definition recover {A} (r : result A) (h : string -> A) : A :=
  match r with Ok a => a | Panic m => h m end.

(** ** Strings: splitting at a separator *)

Fixpoint contains_char (c : ascii) (s : string) : bool :=
  match s with
  | EmptyString => false
  | String a s' => if decide (a = c) then true else contains_char c s'
  end.

(** [split_on c s] is Go's [strings.Split(s, string(c))]: the pieces of [s]
    between occurrences of [c]; never empty. *)
Fixpoint split_on (c : ascii) (s : string) : list string :=
  match s with
  | EmptyString => [EmptyString]
  | String a s' =>
      if decide (a = c) then EmptyString :: split_on c s'
      else match split_on c s' with
           | [] => [String a EmptyString]
           | x :: xs => String a x :: xs
           end
  end.

(** [join_with c l] is Go's [strings.Join(l, string(c))]. *)
Fixpoint join_with (c : ascii) (l : list string) : string :=
  match l with
  | [] => EmptyString
  | [x] => x
  | x :: xs => x +:+ String c (join_with c xs)
  end.

Definition last_char (s : string) : option ascii :=
  match String.rev s with
  | EmptyString => None
  | String a _ => Some a
  end.

(** The list without its last element, if that is the empty string. *)
Definition without_final_empty (l : list string) : option (list string) :=
  match reverse l with
  | "" :: rbase => Some (reverse rbase)
  | _ => None
  end.

(** [strip_prefix p s]: what follows [p] in [s], if [s] starts with [p]
    (Go's [strings.CutPrefix]). *)
Fixpoint strip_prefix (p s : string) : option string :=
  match p, s with
  | EmptyString, _ => Some s
  | String a p', String b s' => if decide (a = b) then strip_prefix p' s' else None
  | _, _ => None
  end.

(** ** Tactics *)

(** Case analysis on the first [result] that a [match] of the goal inspects. *)
Ltac case_result :=
  match goal with
  | |- context [match ?r with Ok _ => _ | Panic _ => _ end] =>
      let E := fresh "E" in destruct r eqn:E
  end.

(** Case analysis on membership in a list that is written out: one goal
    per element, with the equation in [H]. *)
Ltac list_cases H :=
  repeat (apply elem_of_cons in H as [H|H]); [..|by apply elem_of_nil in H].

(** Membership in a list that is written out, by the position of the
    element (for lists whose elements cannot be compared). *)
Ltac list_at i := apply (list_elem_of_lookup_2 _ i); reflexivity.

(** Membership in a list that is written out, and inclusion of such lists,
    by evaluation. *)
Ltac list_decide := by apply (bool_decide_unpack _).

(** Unfold the monad operations of [result]. *)
Ltac result_simpl :=
  unfold mbind, mret, fmap, result_bind, result_ret, result_fmap in *; cbn in *.

(** Turn the boolean tests of Go conditions into propositions that [lia]
    and [congruence] read. *)
Ltac bool_to_prop :=
  repeat match goal with
  | H : (_ <? _)%Z = true |- _ => apply Z.ltb_lt in H
  | H : (_ <? _)%Z = false |- _ => apply Z.ltb_ge in H
  | H : (_ <=? _)%Z = true |- _ => apply Z.leb_le in H
  | H : (_ <=? _)%Z = false |- _ => apply Z.leb_gt in H
  | H : (_ =? _)%Z = true |- _ => apply Z.eqb_eq in H
  | H : (_ =? _)%Z = false |- _ => apply Z.eqb_neq in H
  | H : _ && _ = true |- _ => apply andb_true_iff in H; destruct H
  | H : _ || _ = false |- _ => apply orb_false_iff in H; destruct H
  | H : negb _ = true |- _ => apply negb_true_iff in H
  | H : negb _ = false |- _ => apply negb_false_iff in H
  | H : bool_decide _ = true |- _ => apply bool_decide_eq_true in H
  | H : bool_decide _ = false |- _ => apply bool_decide_eq_false in H
  end.

Create HintDb gopher.
Create Rewrite HintDb gopher.

(** ** Lemmas on [result] *)

Lemma result_bind_ok {A B} (a : A) (k : A -> result B) : (Ok a ≫= k) = k a.
Proof. reflexivity. Qed.

Lemma result_bind_panic {A B} (m : string) (k : A -> result B) :
  (Panic m ≫= k) = Panic m.
Proof. reflexivity. Qed.

Lemma result_bind_inv {A B} (r : result A) (k : A -> result B) (b : B) :
  (r ≫= k) = Ok b <-> exists a, r = Ok a /\ k a = Ok b.
Proof.
  destruct r as [a|m]; cbn; split.
  - intros Hk. by exists a.
  - by intros (a' & [= <-] & Hk).
  - done.
  - by intros (a' & [=] & _).
Qed.

Lemma is_ok_bind {A B} (r : result A) (k : A -> result B) :
  is_ok (r ≫= k) = true <-> exists a, r = Ok a /\ is_ok (k a) = true.
Proof.
  destruct r as [a|m]; cbn; split; try done.
  - intros Hk. by exists a.
  - by intros (a' & [= <-] & Hk).
  - by intros (a' & [=] & _).
Qed.

#[export] Hint Rewrite @result_bind_ok @result_bind_panic : gopher.

(** ** Lemmas on strings *)

Lemma app_String a s t : String a s +:+ t = String a (s +:+ t).
Proof. reflexivity. Qed.

Lemma app_empty_l t : "" +:+ t = t.
Proof. reflexivity. Qed.

Lemma app_empty_r s : s +:+ "" = s.
Proof. induction s as [|a s IH]; [done|]. by rewrite app_String, IH. Qed.

Lemma str_app_assoc s t u : (s +:+ t) +:+ u = s +:+ (t +:+ u).
Proof. induction s as [|a s IH]; [done|]. by rewrite !app_String, IH. Qed.

Lemma strip_prefix_app p s : strip_prefix p (p +:+ s) = Some s.
Proof.
  induction p as [|a p IH]; [by destruct s|].
  rewrite app_String. cbn [strip_prefix]. by rewrite decide_True.
Qed.

Lemma str_length_app s t :
  String.length (s +:+ t) = String.length s + String.length t.
Proof. induction s as [|a s IH]; [done|]. rewrite app_String. cbn. by rewrite IH. Qed.

(** Bring a concatenation of strings into its normal form, nested to the
    right with the literal characters in front. *)
Lemma list_subseteq_weaken {A} (l1 l2 : list A) x : l1 ⊆ l2 -> x ∈ l1 -> x ∈ l2.
Proof. intros Hl. apply Hl. Qed.

(** A list related to a list of four has four elements, related in turn. *)
Lemma Forall2_four {A B} (R : A -> B -> Prop) a b c d l :
  Forall2 R [a; b; c; d] l ->
  exists w x y z, l = [w; x; y; z] /\ R a w /\ R b x /\ R c y /\ R d z.
Proof.
  intros (w & l1 & Hw & (x & l2 & Hx & (y & l3 & Hy & (z & l4 & Hz & Hn
    & ->)%Forall2_cons_inv_l & ->)%Forall2_cons_inv_l & ->)%Forall2_cons_inv_l
    & ->)%Forall2_cons_inv_l.
  apply Forall2_nil_inv_l in Hn as ->. by exists w, x, y, z.
Qed.

Lemma reverse_eq_nil {A} (l : list A) : reverse l = [] -> l = [].
Proof. intros Hl%(f_equal reverse). by rewrite reverse_involutive in Hl. Qed.

(** ** Sums over a list, and lists of tagged items *)

(** Replacing an element of a list changes the sum of a measure by the
    difference of the two elements. *)
Lemma sum_list_fmap_insert {A} (f : A -> nat) l i x y :
  l !! i = Some x -> sum_list (f <$> <[i:=y]> l) + f x = sum_list (f <$> l) + f y.
Proof.
  revert i. induction l as [|a l IH]; intros [|i] Hi; simplify_eq/=; [lia|].
  specialize (IH _ Hi). lia.
Qed.

Lemma sum_list_fmap_zero {A} (f : A -> nat) l :
  sum_list (f <$> l) = 0 <-> Forall (fun x => f x = 0) l.
Proof.
  induction l as [|a l IH]; cbn; [by split|].
  rewrite Forall_cons, <- IH. lia.
Qed.

(** A function of the positions of a list that agrees with a function of
    its elements. *)
Lemma fmap_seq_lookup {A B} (f : nat -> B) (g : A -> B) (l : list A) :
  (forall i x, l !! i = Some x -> f i = g x) -> f <$> seq 0 (length l) = g <$> l.
Proof.
  induction l as [|x l IH] using rev_ind; intros Hl; [done|].
  rewrite length_app, seq_app, !fmap_app. f_equal.
  - apply IH. intros i y Hi. apply Hl. by apply lookup_app_l_Some.
  - cbn. f_equal. apply Hl. by rewrite list_lookup_middle.
Qed.

(** Replacing an element of a list of which each gives a list: what the old
    element gave beyond the new. *)
Lemma bind_insert_Permutation {A B} (f : A -> list B) l i x y d :
  l !! i = Some x -> f x ≡ₚ d ++ f y -> l ≫= f ≡ₚ d ++ (<[i:=y]> l ≫= f).
Proof.
  revert i. induction l as [|a l IH]; intros [|i] Hi Hf; simplify_eq/=.
  - by rewrite Hf, (assoc (++)).
  - rewrite (IH _ Hi Hf), !(assoc (++)). f_equiv. apply (comm (++)).
Qed.

Lemma concat_fmap_bind {A B} (f : A -> list B) (l : list A) : concat (f <$> l) = l ≫= f.
Proof. induction l as [|a l IH]; [done|]. cbn. by rewrite IH. Qed.

(** The items of a list that carry the tag [i], in their order: a list of
    tagged items is a permutation of its items taken tag by tag. *)
Section Tagged.
Context {A : Type}.
Implicit Types (l : list (nat * A)).

Definition tagged (i : nat) l : list A := (filter (fun x => x.1 = i) l).*2.

Lemma tagged_app i l1 l2 : tagged i (l1 ++ l2) = tagged i l1 ++ tagged i l2.
Proof. unfold tagged. by rewrite filter_app, fmap_app. Qed.

Lemma tagged_snoc i j a l :
  tagged i (l ++ [(j, a)]) = tagged i l ++ (if decide (j = i) then [a] else []).
Proof.
  rewrite tagged_app. f_equal. unfold tagged. rewrite filter_cons, filter_nil. cbn.
  by case_decide.
Qed.

Lemma tagged_unused n i l : Forall (fun x => x.1 < n) l -> n <= i -> tagged i l = [].
Proof.
  intros Hl Hi. unfold tagged. induction Hl as [|x l Hx _ IH]; [done|].
  rewrite filter_cons_False by lia. done.
Qed.

Lemma tagged_filter i n l : i <> n -> tagged i (filter (fun x => x.1 <> n) l) = tagged i l.
Proof.
  intros Hi. unfold tagged. rewrite list_filter_filter. f_equal.
  apply list_filter_iff. intros x. lia.
Qed.

Lemma tagged_split n l :
  Forall (fun x => x.1 < n) l -> l.*2 ≡ₚ concat ((fun i => tagged i l) <$> seq 0 n).
Proof.
  revert l. induction n as [|n IH]; intros l Hl.
  - destruct Hl as [|x l Hx _]; [done|lia].
  - rewrite seq_S, fmap_app, concat_app. cbn. rewrite app_nil_r.
    rewrite <- (filter_app_complement (fun x => x.1 = n) l) at 1.
    rewrite fmap_app, Permutation_app_comm. f_equiv; [|done].
    rewrite (IH (filter (fun x => x.1 <> n) l)).
    + apply Permutation_refl'. f_equal. apply list_fmap_ext.
      intros k i [-> Hi]%lookup_seq. apply tagged_filter. lia.
    + apply Forall_forall. intros x [Hx Hin]%list_elem_of_filter.
      rewrite Forall_forall in Hl. specialize (Hl _ Hin). lia.
Qed.
End Tagged.

Lemma without_final_empty_Some l base :
  without_final_empty l = Some base <-> l = base ++ [""].
Proof.
  unfold without_final_empty. split.
  - destruct (reverse l) as [|[|a x] rbase] eqn:Hr; try done. intros [= <-].
    by rewrite <- (reverse_involutive l), Hr, reverse_cons.
  - intros ->. by rewrite reverse_snoc, reverse_involutive.
Qed.

Lemma without_final_empty_None l : without_final_empty l = None <-> last l <> Some "".
Proof.
  destruct (without_final_empty l) as [base|] eqn:E.
  - apply without_final_empty_Some in E as ->. rewrite last_snoc. by split.
  - split; [|done]. intros _ Hl. apply last_Some in Hl as [base ->].
    by rewrite (proj2 (without_final_empty_Some _ base)) in E.
Qed.

Ltac str_normalize := repeat rewrite ?str_app_assoc, ?app_String, ?app_empty_l.

#[export] Hint Rewrite app_String app_empty_l app_empty_r str_app_assoc : gopher.

Section Split.
Context (c : ascii).
Implicit Types (s t : string) (l : list string).

Lemma contains_char_app s t :
  contains_char c (s +:+ t) = contains_char c s || contains_char c t.
Proof.
  induction s as [|a s IH]; [done|]. rewrite app_String. cbn.
  by case_decide.
Qed.

Lemma split_on_not_nil s : split_on c s <> [].
Proof.
  destruct s as [|a s]; cbn; [done|].
  case_decide; [done|]. by destruct (split_on c s).
Qed.

Lemma split_on_cons s : exists x xs, split_on c s = x :: xs.
Proof.
  pose proof (split_on_not_nil s). destruct (split_on c s) as [|x xs]; [done|eauto].
Qed.

(** A string without the separator is one piece. *)
Lemma split_on_sep_head s : split_on c (String c s) = "" :: split_on c s.
Proof. cbn. by rewrite decide_True. Qed.

Lemma split_on_no_sep s : contains_char c s = false -> split_on c s = [s].
Proof.
  induction s as [|a s IH]; cbn; [done|].
  case_decide; [done|]. intros Hs. by rewrite (IH Hs).
Qed.

Lemma split_on_one_piece s x : split_on c s = [x] -> contains_char c s = false /\ x = s.
Proof.
  revert x. induction s as [|a s IH]; intros x; cbn.
  - by intros [= <-].
  - case_decide.
    + destruct (split_on_cons s) as (y & ys & ->). done.
    + destruct (split_on c s) as [|y ys] eqn:E; [by apply split_on_not_nil in E|].
      intros [= <- ->]. destruct (IH y eq_refl) as [-> ->]. done.
Qed.

(** No piece contains the separator. *)
Lemma split_on_pieces s : Forall (fun x => contains_char c x = false) (split_on c s).
Proof.
  induction s as [|a s IH]; cbn; [by repeat constructor|].
  case_decide as Hac.
  - by constructor.
  - destruct (split_on c s) as [|x xs].
    + repeat constructor. cbn. case_decide; congruence.
    + inv IH. constructor; [|done]. cbn. case_decide; congruence.
Qed.

(** A prefix without the separator stays in the first piece. *)
Lemma split_on_app_no_sep s t :
  contains_char c s = false ->
  split_on c (s +:+ t) =
    match split_on c t with
    | [] => [s]
    | x :: xs => (s +:+ x) :: xs
    end.
Proof.
  destruct (split_on_cons t) as (x & xs & E).
  induction s as [|a s IH]; cbn.
  - intros _. by rewrite app_empty_l, E.
  - case_decide; [done|]. intros Hs. rewrite app_String. cbn.
    case_decide; [done|]. rewrite (IH Hs). by rewrite E.
Qed.

(** Splitting distributes over a separator. *)
Lemma split_on_app_sep s t :
  split_on c (s +:+ String c t) = split_on c s ++ split_on c t.
Proof.
  induction s as [|a s IH].
  - rewrite app_empty_l. cbn. by case_decide.
  - rewrite app_String. cbn. case_decide.
    + by rewrite IH.
    + rewrite IH. destruct (split_on_cons s) as (x & xs & ->). done.
Qed.

Lemma join_with_cons x y l :
  join_with c (x :: y :: l) = x +:+ String c (join_with c (y :: l)).
Proof. reflexivity. Qed.

Lemma join_with_head x l : exists t, join_with c (x :: l) = x +:+ t.
Proof. destruct l; [exists ""; by rewrite app_empty_r|by eexists]. Qed.

(** Joining the pieces gives the string back. *)
Lemma join_split s : join_with c (split_on c s) = s.
Proof.
  induction s as [|a s IH]; cbn; [done|].
  destruct (split_on_cons s) as (x & xs & E). rewrite E in IH |- *.
  case_decide as Hac.
  - subst a. by rewrite join_with_cons, IH.
  - destruct xs as [|y ys]; cbn in *; by rewrite <- IH.
Qed.

(** Splitting a join of pieces without separators gives the pieces back. *)
Lemma split_join l :
  l <> [] -> Forall (fun x => contains_char c x = false) l ->
  split_on c (join_with c l) = l.
Proof.
  induction l as [|x l IH]; [done|]. intros _ Hl. inv Hl.
  destruct l as [|y ys].
  - cbn. by apply split_on_no_sep.
  - rewrite join_with_cons, split_on_app_sep, IH by done.
    by rewrite split_on_no_sep.
Qed.

Lemma split_on_inj s t : split_on c s = split_on c t -> s = t.
Proof. intros H. by rewrite <- (join_split s), H, join_split. Qed.

End Split.

#[export] Hint Resolve split_on_not_nil split_on_pieces : gopher.
#[export] Hint Rewrite join_split : gopher.

(** The last character of a string, as Go's [s[len(s)-1]]. *)
Lemma rev_app_app s t u : String.rev_app s t +:+ u = String.rev_app s (t +:+ u).
Proof. revert t. induction s as [|a s IH]; intros t; cbn; [done|]. by rewrite IH. Qed.

Lemma rev_app_snoc s a t :
  String.rev_app (s +:+ String a "") t = String a (String.rev_app s "") +:+ t.
Proof.
  revert t. induction s as [|b s IH]; intros t; [done|].
  rewrite app_String. cbn [String.rev_app]. rewrite IH, !app_String.
  f_equal. by rewrite !rev_app_app.
Qed.

Lemma last_char_snoc s a : last_char (s +:+ String a "") = Some a.
Proof. unfold last_char, String.rev. by rewrite rev_app_snoc. Qed.

Lemma last_char_empty : last_char "" = None.
Proof. reflexivity. Qed.
