(* ===== verification/Utf8.v ===== *)
(** * Utf8: the runes of a Go string (package unicode/utf8)

    A Go string is a sequence of bytes; encoding/json reads it rune by
    rune.  [utf8.decode] is one step of [utf8.DecodeRuneInString]: the rune
    at the head of a string, the bytes that encode it and what follows
    them, with the table [first] and its accept ranges for the second byte.
    A byte that starts no valid encoding is the rune [RuneError] of width
    one.  [utf8.runes] is the sequence of these steps over a string (what
    [for range s] yields), [utf8.ValidString] that none of them is invalid,
    [utf8.EncodeRune] the bytes of a rune, and [utf8.coerce] the string with
    every invalid byte replaced by the encoding of [RuneError] (Go's
    [string([]rune(s))]).

    The lemmas: a step splits the string ([decode_split]); the bytes of the
    runes are the string ([concat_runes]); every step is of one of three
    kinds ([decode_kind]); [EncodeRune] gives back the bytes of every valid
    encoding ([EncodeRune_decode]), which is what the accept ranges of the
    table are for; a valid string is left as it is ([coerce_valid]). *)

From Stdlib Require Import NArith ZArith Ascii String List Lia.
From stdpp Require Import base tactics option list strings.
From S2P Require Import Prelude.
#[local] Open Scope N_scope.

Module utf8.

Definition RuneError : N := 0xFFFD.
Definition RuneSelf : N := 0x80.
Definition MaxRune : N := 0x10FFFF.

(** The range of a continuation byte. *)
Definition locb : N := 0x80.
Definition hicb : N := 0xBF.

(** The table [first] with [acceptRanges]: for the first byte of an
    encoding of more than one byte, its width and the range of its second
    byte; [None] for the bytes that start no such encoding. *)
Definition first (s0 : N) : option (nat * N * N) :=
  if s0 <? 0xC2 then None
  else if s0 <? 0xE0 then Some (2%nat, locb, hicb)
  else if s0 =? 0xE0 then Some (3%nat, 0xA0, hicb)
  else if s0 =? 0xED then Some (3%nat, locb, 0x9F)
  else if s0 <? 0xF0 then Some (3%nat, locb, hicb)
  else if s0 =? 0xF0 then Some (4%nat, 0x90, hicb)
  else if s0 <? 0xF4 then Some (4%nat, locb, hicb)
  else if s0 =? 0xF4 then Some (4%nat, locb, 0x8F)
  else None.

Definition byte (a : ascii) : N := N_of_ascii a.

Definition outside (lo hi : N) (a : ascii) : bool := (byte a <? lo) || (hi <? byte a).

(** [s & mask], as a rune. *)
Definition masked (mask : N) (a : ascii) : N := N.land (byte a) mask.

Definition rune2 (a0 a1 : ascii) : N :=
  N.lor (N.shiftl (masked 0x1F a0) 6) (masked 0x3F a1).

Definition rune3 (a0 a1 a2 : ascii) : N :=
  N.lor (N.lor (N.shiftl (masked 0x0F a0) 12) (N.shiftl (masked 0x3F a1) 6)) (masked 0x3F a2).

Definition rune4 (a0 a1 a2 a3 : ascii) : N :=
  N.lor (N.lor (N.lor (N.shiftl (masked 0x07 a0) 18) (N.shiftl (masked 0x3F a1) 12))
           (N.shiftl (masked 0x3F a2) 6))
    (masked 0x3F a3).

(** One step of [DecodeRuneInString]: the rune at the head of [s], its
    bytes, and the rest of [s].  A string that ends before the width of its
    first byte is invalid whichever byte is missing. *)
Definition decode (s : string) : N * string * string :=
  match s with
  | EmptyString => (RuneError, "", "")%string
  | String a0 r0 =>
      let invalid := (RuneError, String a0 "", r0) in
      if byte a0 <? RuneSelf then (byte a0, String a0 "", r0)
      else
        match first (byte a0), r0 with
        | Some (sz, lo, hi), String a1 r1 =>
            if outside lo hi a1 then invalid
            else if (sz <=? 2)%nat then (rune2 a0 a1, String a0 (String a1 ""), r1)
            else
              match r1 with
              | String a2 r2 =>
                  if outside locb hicb a2 then invalid
                  else if (sz <=? 3)%nat
                       then (rune3 a0 a1 a2, String a0 (String a1 (String a2 "")), r2)
                       else
                         match r2 with
                         | String a3 r3 =>
                             if outside locb hicb a3 then invalid
                             else (rune4 a0 a1 a2 a3,
                                   String a0 (String a1 (String a2 (String a3 ""))), r3)
                         | EmptyString => invalid
                         end
              | EmptyString => invalid
              end
        | _, _ => invalid
        end
  end.

(** [utf8.DecodeRuneInString(s)]: the rune and its width. *)
Definition DecodeRuneInString (s : string) : N * nat :=
  let '(c, bytes, _) := decode s in (c, String.length bytes).

(** The runes of a string with their bytes, in order; the fuel is the
    number of steps, and the length of the string is enough, since every
    step takes a byte at least. *)
Fixpoint runes_from (fuel : nat) (s : string) : list (N * string) :=
  match fuel, s with
  | S n, String _ _ => let '(c, bytes, rest) := decode s in (c, bytes) :: runes_from n rest
  | _, _ => []
  end.

Definition runes (s : string) : list (N * string) := runes_from (String.length s) s.

(** The test of the package for a byte that is no encoding:
    [c == RuneError && size == 1]. *)
Definition invalid (r : N * string) : bool :=
  (r.1 =? RuneError) && (String.length r.2 =? 1)%nat.

(** [utf8.ValidString(s)]. *)
Definition ValidString (s : string) : bool := forallb (fun r => negb (invalid r)) (runes s).

Definition of_byte (n : N) : ascii := ascii_of_N n.

(** [utf8.EncodeRune]: the bytes of a rune; those of [RuneError] for a
    surrogate and for a rune out of range. *)
Definition EncodeRune (r : N) : string :=
  if r <=? 0x7F then String (of_byte r) ""
  else if r <=? 0x7FF then
    String (of_byte (N.lor 0xC0 (N.shiftr r 6)))
      (String (of_byte (N.lor 0x80 (N.land r 0x3F))) "")
  else if (MaxRune <? r) || ((0xD800 <=? r) && (r <=? 0xDFFF)) then
    String "239" (String "191" (String "189" ""))
  else if r <=? 0xFFFF then
    String (of_byte (N.lor 0xE0 (N.shiftr r 12)))
      (String (of_byte (N.lor 0x80 (N.land (N.shiftr r 6) 0x3F)))
         (String (of_byte (N.lor 0x80 (N.land r 0x3F))) ""))
  else
    String (of_byte (N.lor 0xF0 (N.shiftr r 18)))
      (String (of_byte (N.lor 0x80 (N.land (N.shiftr r 12) 0x3F)))
         (String (of_byte (N.lor 0x80 (N.land (N.shiftr r 6) 0x3F)))
            (String (of_byte (N.lor 0x80 (N.land r 0x3F))) ""))).

(** The bytes a rune of the string becomes when the string is made valid:
    its own, or those of [RuneError]. *)
Definition coerce_rune (r : N * string) : string :=
  if invalid r then EncodeRune RuneError else r.2.

Fixpoint str_concat (l : list string) : string :=
  match l with
  | [] => ""
  | x :: l' => x +:+ str_concat l'
  end.

(** The string with each invalid byte replaced: [string([]rune(s))]. *)
Definition coerce (s : string) : string := str_concat (coerce_rune <$> runes s).

(** Every byte is outside ASCII. *)
Fixpoint all_high (s : string) : bool :=
  match s with
  | EmptyString => true
  | String a s' => (RuneSelf <=? byte a) && all_high s'
  end.

(** The three kinds of a step: a byte of ASCII, a byte that is no
    encoding, and an encoding of two bytes or more, which [EncodeRune]
    writes for its rune. *)
Inductive kind : N * string -> Prop :=
| kind_ascii a : byte a < RuneSelf -> kind (byte a, String a "")
| kind_invalid a : RuneSelf <= byte a -> kind (RuneError, String a "")
| kind_encoded c bytes :
    (1 < String.length bytes)%nat -> all_high bytes = true -> RuneSelf <= c ->
    EncodeRune c = bytes -> kind (c, bytes).

(** ** A step splits the string *)

Lemma decode_split s c bytes rest :
  decode s = (c, bytes, rest) -> s = bytes +:+ rest.
Proof. unfold decode. intros Hd. repeat case_match; by simplify_eq. Qed.

Lemma decode_bytes a s c bytes rest :
  decode (String a s) = (c, bytes, rest) -> exists t, bytes = String a t.
Proof. unfold decode. intros Hd. repeat case_match; simplify_eq; by eexists. Qed.

Lemma decode_rest a s c bytes rest :
  decode (String a s) = (c, bytes, rest) -> (String.length rest <= String.length s)%nat.
Proof.
  intros Hd. destruct (decode_bytes _ _ _ _ _ Hd) as [t ->].
  apply decode_split, (f_equal String.length) in Hd.
  rewrite app_String in Hd. cbn [String.length] in Hd. rewrite str_length_app in Hd. lia.
Qed.

(** ** The runes do not depend on the fuel *)

Lemma runes_from_fuel n m s :
  (String.length s <= n)%nat -> (String.length s <= m)%nat -> runes_from n s = runes_from m s.
Proof.
  revert m s. induction n as [|n IH]; intros [|m] [|a s]; cbn [String.length]; try done; try lia.
  intros Hn Hm. cbn [runes_from]. destruct (decode (String a s)) as [[c bytes] rest] eqn:Hd.
  apply decode_rest in Hd. f_equal. apply IH; lia.
Qed.

Lemma runes_cons a s :
  runes (String a s) =
    let '(c, bytes, rest) := decode (String a s) in (c, bytes) :: runes rest.
Proof.
  unfold runes. cbn [String.length runes_from].
  destruct (decode (String a s)) as [[c bytes] rest] eqn:Hd. apply decode_rest in Hd.
  f_equal. by apply runes_from_fuel.
Qed.

Lemma decode_ascii a s : byte a < RuneSelf -> decode (String a s) = (byte a, String a "", s).
Proof. intros Ha%N.ltb_lt. unfold decode. by rewrite Ha. Qed.

Lemma runes_ascii a s :
  byte a < RuneSelf -> runes (String a s) = (byte a, String a "") :: runes s.
Proof. intros Ha. by rewrite runes_cons, decode_ascii. Qed.

(** Induction along the runes of a string. *)
Lemma runes_ind (P : string -> Prop) :
  P ""%string ->
  (forall a s c bytes rest,
     decode (String a s) = (c, bytes, rest) -> P rest -> P (String a s)) ->
  forall s, P s.
Proof.
  intros Hnil Hcons s. remember (String.length s) as n eqn:Hn.
  revert s Hn. induction (lt_wf n) as [n _ IH]. intros [|a s] ->; [done|].
  destruct (decode (String a s)) as [[c bytes] rest] eqn:Hd.
  apply (Hcons _ _ _ _ _ Hd). apply (IH (String.length rest)); [|done].
  apply decode_rest in Hd. cbn. lia.
Qed.

Lemma concat_runes s : str_concat ((fun r => r.2) <$> runes s) = s.
Proof.
  induction s as [|a s c bytes rest Hd IH] using runes_ind; [done|].
  rewrite runes_cons, Hd. cbn. rewrite IH. symmetry. by eapply decode_split.
Qed.

(** ** Masks, shifts and unions of disjoint bit fields, as arithmetic *)

(** [lia] reads [/] and [mod] by a numeral. *)
#[local] Ltac Zify.zify_convert_to_euclidean_division_equations_flag ::= constr:(true).

Lemma byte_bound a : byte a < 256.
Proof. apply N_ascii_bounded. Qed.

Lemma of_byte_byte a : of_byte (byte a) = a.
Proof. apply ascii_N_embedding. Qed.

Lemma of_byte_eq n a : n = byte a -> of_byte n = a.
Proof. intros ->. apply of_byte_byte. Qed.

Lemma lor_add a y n k : k = 2 ^ n -> a mod k = 0 -> y < k -> N.lor a y = a + y.
Proof.
  intros -> Ha Hy. rewrite N.add_nocarry_lxor, N.lxor_lor; try done; apply N.bits_inj_0; intros m;
    rewrite N.land_spec; destruct (N.lt_ge_cases m n) as [Hm|Hm].
  all: try (rewrite (N.div_mod a (2 ^ n)), Ha, N.add_0_r, N.mul_comm, N.mul_pow2_bits_low by (done || lia); done).
  all: rewrite <- (N.mod_small y (2 ^ n)) by done; by rewrite N.mod_pow2_bits_high, andb_false_r.
Qed.

Lemma land_mod a n k : k = 2 ^ n -> N.land a (k - 1) = a mod k.
Proof. intros ->. by rewrite <- N.land_ones, N.ones_equiv, N.sub_1_r. Qed.

Lemma shiftl_mul a n k : k = 2 ^ n -> N.shiftl a n = a * k.
Proof. intros ->. apply N.shiftl_mul_pow2. Qed.

Lemma shiftr_div a n k : k = 2 ^ n -> N.shiftr a n = a / k.
Proof. intros ->. apply N.shiftr_div_pow2. Qed.

(** The bit operations of the goal, written with [*], [/], [mod] and [+]. *)
Ltac fields :=
  unfold masked;
  change 0x3F with (64 - 1); change 0x1F with (32 - 1);
  change 0x0F with (16 - 1); change 0x07 with (8 - 1);
  rewrite ?(land_mod _ 6 64), ?(land_mod _ 5 32), ?(land_mod _ 4 16), ?(land_mod _ 3 8),
    ?(shiftl_mul _ 6 64), ?(shiftl_mul _ 12 4096), ?(shiftl_mul _ 18 262144),
    ?(shiftr_div _ 6 64), ?(shiftr_div _ 12 4096), ?(shiftr_div _ 18 262144) by done.

Lemma rune2_value a0 a1 : rune2 a0 a1 = (byte a0 mod 32) * 64 + byte a1 mod 64.
Proof. unfold rune2. fields. apply (lor_add _ _ 6 64); [done|lia..]. Qed.

Lemma rune3_value a0 a1 a2 :
  rune3 a0 a1 a2 = (byte a0 mod 16) * 4096 + (byte a1 mod 64) * 64 + byte a2 mod 64.
Proof.
  unfold rune3. fields.
  rewrite (lor_add (_ * 4096) _ 12 4096), (lor_add _ _ 6 64); [done|done|lia..].
Qed.

Lemma rune4_value a0 a1 a2 a3 :
  rune4 a0 a1 a2 a3 =
    (byte a0 mod 8) * 262144 + (byte a1 mod 64) * 4096 + (byte a2 mod 64) * 64 + byte a3 mod 64.
Proof.
  unfold rune4. fields.
  rewrite (lor_add (_ * 262144) _ 18 262144), (lor_add (_ + _ * 4096) _ 12 4096),
    (lor_add _ _ 6 64); [done|done|lia|lia|done|lia..].
Qed.

(** ** [EncodeRune] inverts the decoding

    The accept ranges of [first] keep the runes of two bytes above
    U+007F, those of three above U+07FF and off the surrogates, and those
    of four between U+10000 and [MaxRune]: the encodings that [EncodeRune]
    writes, and no other. *)

Lemma EncodeRune1 a : byte a < RuneSelf -> EncodeRune (byte a) = String a "".
Proof.
  unfold RuneSelf, EncodeRune. intros Ha.
  by rewrite (proj2 (N.leb_le _ _)), of_byte_byte by lia.
Qed.

Lemma EncodeRune2 a0 a1 :
  0xC2 <= byte a0 < 0xE0 -> 0x80 <= byte a1 <= 0xBF ->
  EncodeRune (rune2 a0 a1) = String a0 (String a1 "").
Proof.
  intros H0 H1. rewrite rune2_value. unfold EncodeRune. set (c := _ + _).
  rewrite (proj2 (N.leb_gt c _)), (proj2 (N.leb_le c 0x7FF)) by lia. fields.
  rewrite (lor_add 0xC0 _ 5 32), (lor_add 0x80 _ 6 64) by (done || lia).
  repeat first [apply of_byte_eq; lia | f_equal].
Qed.

Lemma EncodeRune3 a0 a1 a2 :
  0xE0 <= byte a0 < 0xF0 -> 0x80 <= byte a1 <= 0xBF -> 0x80 <= byte a2 <= 0xBF ->
  (byte a0 = 0xE0 -> 0xA0 <= byte a1) -> (byte a0 = 0xED -> byte a1 <= 0x9F) ->
  EncodeRune (rune3 a0 a1 a2) = String a0 (String a1 (String a2 "")).
Proof.
  intros H0 H1 H2 Hlo Hhi. rewrite rune3_value. unfold EncodeRune, MaxRune. set (c := _ + _).
  rewrite (proj2 (N.leb_gt c 0x7F)), (proj2 (N.leb_gt c 0x7FF)), (proj2 (N.ltb_ge _ c)),
    (proj2 (N.leb_le c 0xFFFF)) by lia.
  replace ((0xD800 <=? c) && (c <=? 0xDFFF)) with false
    by (symmetry; apply andb_false_iff; rewrite N.leb_gt, N.leb_gt; lia).
  cbn [orb]. fields.
  rewrite (lor_add 0xE0 _ 4 16), !(lor_add 0x80 _ 6 64) by (done || lia).
  repeat first [apply of_byte_eq; lia | f_equal].
Qed.

Lemma EncodeRune4 a0 a1 a2 a3 :
  0xF0 <= byte a0 <= 0xF4 ->
  0x80 <= byte a1 <= 0xBF -> 0x80 <= byte a2 <= 0xBF -> 0x80 <= byte a3 <= 0xBF ->
  (byte a0 = 0xF0 -> 0x90 <= byte a1) -> (byte a0 = 0xF4 -> byte a1 <= 0x8F) ->
  EncodeRune (rune4 a0 a1 a2 a3) = String a0 (String a1 (String a2 (String a3 ""))).
Proof.
  intros H0 H1 H2 H3 Hlo Hhi. rewrite rune4_value. unfold EncodeRune, MaxRune. set (c := _ + _).
  rewrite (proj2 (N.leb_gt c 0x7F)), (proj2 (N.leb_gt c 0x7FF)), (proj2 (N.ltb_ge _ c)),
    (proj2 (N.leb_gt c 0xDFFF)), (proj2 (N.leb_gt c 0xFFFF)), andb_false_r by lia.
  cbn [orb]. fields.
  rewrite (lor_add 0xF0 _ 3 8), !(lor_add 0x80 _ 6 64) by (done || lia).
  repeat first [apply of_byte_eq; lia | f_equal].
Qed.

(** ** The kinds of a step *)

Lemma first_Some s0 sz lo hi :
  first s0 = Some (sz, lo, hi) ->
  0x80 <= lo /\ hi <= 0xBF /\
  ((sz = 2%nat /\ 0xC2 <= s0 < 0xE0)
   \/ (sz = 3%nat /\ 0xE0 <= s0 < 0xF0
       /\ (s0 = 0xE0 -> 0xA0 <= lo) /\ (s0 = 0xED -> hi <= 0x9F))
   \/ (sz = 4%nat /\ 0xF0 <= s0 <= 0xF4
       /\ (s0 = 0xF0 -> 0x90 <= lo) /\ (s0 = 0xF4 -> hi <= 0x8F))).
Proof.
  unfold first, locb, hicb.
  repeat (case_match; [|]); intros [= <- <- <-];
    repeat match goal with
    | H : (_ <? _) = true |- _ => apply N.ltb_lt in H
    | H : (_ <? _) = false |- _ => apply N.ltb_ge in H
    | H : (_ =? _) = true |- _ => apply N.eqb_eq in H
    | H : (_ =? _) = false |- _ => apply N.eqb_neq in H
    end; lia.
Qed.

Lemma inside_range lo hi a : outside lo hi a = false <-> lo <= byte a <= hi.
Proof. unfold outside. rewrite orb_false_iff, !N.ltb_ge. lia. Qed.

Lemma rune_high a0 a1 c t :
  0xC2 <= byte a0 -> 0x80 <= byte a1 -> all_high t = true ->
  EncodeRune c = String a0 (String a1 t) -> kind (c, String a0 (String a1 t)).
Proof.
  intros H0 H1 Ht He. apply kind_encoded; [cbn; lia| |..|done].
  - cbn. unfold RuneSelf. by rewrite !(proj2 (N.leb_le _ _)) by lia.
  - destruct (N.le_gt_cases RuneSelf c) as [|Hc]; [done|].
    unfold EncodeRune, RuneSelf in *. by rewrite (proj2 (N.leb_le c _)) in He by lia.
Qed.

Lemma decode_kind a s c bytes rest :
  decode (String a s) = (c, bytes, rest) -> kind (c, bytes).
Proof.
  unfold decode. destruct (N.ltb_spec (byte a) RuneSelf) as [Ha|Ha];
    [intros [= <- <- <-]; by apply kind_ascii|].
  pose proof (kind_invalid a Ha) as Hinv.
  destruct (first (byte a)) as [[[sz lo] hi]|] eqn:Hf; [|by intros [= <- <- <-]].
  apply first_Some in Hf as (Hlo & Hhi & Hsz).
  destruct s as [|a1 r1]; [by intros [= <- <- <-]|].
  destruct (outside lo hi a1) eqn:Hi1; [by intros [= <- <- <-]|]. apply inside_range in Hi1.
  destruct Hsz as [[-> H0]|[(-> & H0 & ? & ?)|(-> & H0 & ? & ?)]]; cbn [Nat.leb].
  { intros [= <- <- <-]. apply rune_high; [lia..|done|apply EncodeRune2; lia]. }
  all: destruct r1 as [|a2 r2]; [by intros [= <- <- <-]|].
  all: destruct (outside locb hicb a2) eqn:Hi2; [by intros [= <- <- <-]|].
  all: apply inside_range in Hi2; unfold locb, hicb in Hi2.
  { intros [= <- <- <-]. apply rune_high; [lia..| |apply EncodeRune3; lia].
    cbn. unfold RuneSelf. by rewrite (proj2 (N.leb_le _ _)) by lia. }
  destruct r2 as [|a3 r3]; [by intros [= <- <- <-]|].
  destruct (outside locb hicb a3) eqn:Hi3; [by intros [= <- <- <-]|].
  apply inside_range in Hi3. unfold locb, hicb in Hi3.
  intros [= <- <- <-]. apply rune_high; [lia..| |apply EncodeRune4; lia].
  cbn. unfold RuneSelf. by rewrite !(proj2 (N.leb_le _ _)) by lia.
Qed.

Lemma runes_kind s : Forall kind (runes s).
Proof.
  induction s as [|a s c bytes rest Hd IH] using runes_ind; [constructor|].
  rewrite runes_cons, Hd. constructor; [by eapply decode_kind|done].
Qed.

(** [EncodeRune] gives back the bytes of every encoding of the string. *)
Lemma EncodeRune_decode r s : r ∈ runes s -> invalid r = false -> EncodeRune r.1 = r.2.
Proof.
  intros Hr%(proj1 (Forall_forall _ _) (runes_kind s)). destruct Hr as [a Ha|a Ha|c bytes]; cbn.
  - intros _. by apply EncodeRune1.
  - done.
  - done.
Qed.

(** ** Valid strings *)

Lemma coerce_rune_valid r : invalid r = false -> coerce_rune r = r.2.
Proof. unfold coerce_rune. by intros ->. Qed.

(** A valid string is left as it is. *)
Lemma coerce_valid s : ValidString s = true -> coerce s = s.
Proof.
  unfold ValidString, coerce. intros Hv. rewrite <- (concat_runes s) at 2. f_equal.
  apply list_fmap_ext. intros i r Hr. apply coerce_rune_valid, negb_true_iff.
  rewrite forallb_forall in Hv. by eapply Hv, list_elem_of_In, list_elem_of_lookup_2.
Qed.

(** Only the empty string becomes empty. *)
Lemma coerce_empty s : coerce s = ""%string -> s = ""%string.
Proof.
  destruct s as [|a s]; [done|]. unfold coerce. rewrite runes_cons.
  destruct (decode (String a s)) as [[c bytes] rest] eqn:Hd. cbn.
  destruct (decode_bytes _ _ _ _ _ Hd) as [t ->]. unfold coerce_rune. by case_match.
Qed.

(** ** The decoder at concrete strings *)

(** U+20AC in three bytes; an overlong encoding of U+0000, a surrogate and
    a rune beyond [MaxRune], none of which is UTF-8; a string that ends
    inside an encoding. *)
Example DecodeRune_examples :
  DecodeRuneInString (String "226" (String "130" (String "172" "x"))) = (0x20AC, 3%nat)
  /\ DecodeRuneInString (String "192" (String "128" "")) = (RuneError, 1%nat)
  /\ DecodeRuneInString (String "237" (String "160" (String "128" ""))) = (RuneError, 1%nat)
  /\ DecodeRuneInString (String "244" (String "144" (String "128" (String "128" ""))))
     = (RuneError, 1%nat)
  /\ DecodeRuneInString (String "226" (String "130" "")) = (RuneError, 1%nat).
Proof. by vm_compute. Qed.

(** The encoding of U+FFFD itself is valid; an invalid byte becomes it. *)
Example coerce_examples :
  ValidString (EncodeRune RuneError) = true
  /\ ValidString (String "a" (String "255" "b")) = false
  /\ coerce (String "a" (String "255" "b")) = ("a" +:+ EncodeRune RuneError +:+ "b")%string.
Proof. by vm_compute. Qed.

End utf8.
