(* ===== verification/Transition.v ===== *)
(** * Transition: systems whose steps use up a measure

    The server ([Server]) and the server with its clients ([System]) are
    transition systems that come to an end by the same argument: an
    invariant of the states, and a count of the steps still to be taken that
    every step lowers by one.  [Measured] is that argument as an interface:
    a component shows that its step relation has an invariant and a
    measure, and the lemmas of this file give what follows for every such
    system: the invariant holds along every run, a run of [n] steps uses up
    [n] of the measure, no run goes on for ever ([sn]), and, if a state with
    work left can take a step, every run can be completed, and a run that
    cannot go on has taken exactly as many steps as the measure said. *)

From Stdlib Require Import Arith Lia.
From stdpp Require Import base tactics relations.

Class Measured {A : Type} (R : relation A) (I : A -> Prop) (m : A -> nat) : Prop := {
  measured_inv s s' : I s -> R s s' -> I s';
  measured_step s s' : I s -> R s s' -> m s = S (m s')
}.

Section Measured.
Context {A : Type} (R : relation A) (I : A -> Prop) (m : A -> nat) `{!Measured R I m}.
Implicit Types (s : A) (n : nat).

Lemma measured_rtc s s' : I s -> rtc R s s' -> I s'.
Proof.
  intros Hi Hr. induction Hr as [|s s1 s' Hx _ IH]; [done|].
  apply IH. by eapply measured_inv.
Qed.

Lemma measured_nsteps n s s' : I s -> nsteps R n s s' -> I s' /\ n + m s' = m s.
Proof.
  intros Hi Hr. induction Hr as [|n s s1 s' Hx _ IH]; [done|].
  destruct (IH (measured_inv _ _ Hi Hx)) as [Hi' Hm].
  pose proof (measured_step _ _ Hi Hx). split; [done|lia].
Qed.

(** No run from a state of the invariant goes on for ever. *)
Lemma measured_sn s : I s -> sn R s.
Proof.
  remember (m s) as k eqn:Hk. revert s Hk.
  induction k as [k IH] using lt_wf_ind. intros s -> Hi.
  constructor. intros s' Hx. unfold flip in Hx. pose proof (measured_step _ _ Hi Hx).
  eapply IH; [|done|by eapply measured_inv]. lia.
Qed.

Lemma measured_zero_nf s : I s -> m s = 0 -> nf R s.
Proof. intros Hi Hz [s' Hx]. pose proof (measured_step _ _ Hi Hx). lia. Qed.

(** ** With progress *)

Section Progress.
Hypothesis progress : forall s, I s -> m s <> 0 -> red R s.

Lemma measured_nf_zero s : I s -> nf R s -> m s = 0.
Proof. intros Hi Hn. destruct (decide (m s = 0)); [done|]. by destruct Hn; apply progress. Qed.

(** A run to the end, of as many steps as the measure says. *)
Lemma measured_wn s : I s -> exists s', nsteps R (m s) s s' /\ I s' /\ m s' = 0.
Proof.
  remember (m s) as k eqn:Hk. revert s Hk.
  induction k as [|k IH]; intros s Hk Hi.
  - exists s. split; [constructor|done].
  - destruct (progress s Hi) as [s1 Hx]; [lia|].
    pose proof (measured_step _ _ Hi Hx).
    destruct (IH s1) as (s' & Hr & Hi' & Hz); [lia|by eapply measured_inv|].
    exists s'. split; [by econstructor|done].
Qed.

(** Every run that cannot go on has that many steps. *)
Lemma measured_complete s s' : I s -> rtc R s s' -> nf R s' -> nsteps R (m s) s s'.
Proof.
  intros Hi [n Hr]%rtc_nsteps Hn.
  destruct (measured_nsteps _ _ _ Hi Hr) as [Hi' Hm].
  rewrite (measured_nf_zero _ Hi' Hn) in Hm. by replace (m s) with n by lia.
Qed.

End Progress.
End Measured.
