(* ===== verification/Http.v ===== *)
(** * Http: the part of Go's net/http that the program touches

    src/main.go names [http.StatusMovedPermanently], [http.StatusCreated],
    [http.StatusOK] and [http.StatusNoContent]; gin calls [http.Redirect] for
    [c.Redirect] and for its trailing-slash redirect.  This file models those
    and the data they work on: the header map, the request, the interface
    [ResponseWriter].  None of this is code of the repository: it is modelled
    from the documented behaviour of the library.

    What net/http and net/url do to a URL before it becomes a [Location]
    header (resolving a relative URL, [path.Clean], percent-escaping) is not
    modelled as code: the class [UrlOps] names the three functions and states
    the one law the development needs, that they leave a plain absolute path
    unchanged. *)

From Stdlib Require Import ZArith Ascii String List Lia.
From stdpp Require Import base tactics option list strings gmap.
From S2P Require Import Prelude.
#[local] Open Scope Z_scope.

Module http.

(** ** Constants of the package *)

Abbreviation MethodGet := "GET" (only parsing).
Abbreviation MethodHead := "HEAD" (only parsing).
Abbreviation MethodPost := "POST" (only parsing).
Abbreviation MethodPut := "PUT" (only parsing).
Abbreviation MethodDelete := "DELETE" (only parsing).
Abbreviation MethodConnect := "CONNECT" (only parsing).

Abbreviation StatusOK := 200 (only parsing).
Abbreviation StatusCreated := 201 (only parsing).
Abbreviation StatusNoContent := 204 (only parsing).
Abbreviation StatusMultipleChoices := 300 (only parsing).
Abbreviation StatusMovedPermanently := 301 (only parsing).
Abbreviation StatusNotModified := 304 (only parsing).
Abbreviation StatusTemporaryRedirect := 307 (only parsing).
Abbreviation StatusPermanentRedirect := 308 (only parsing).
Abbreviation StatusBadRequest := 400 (only parsing).
Abbreviation StatusNotFound := 404 (only parsing).
Abbreviation StatusConflict := 409 (only parsing).
Abbreviation StatusInternalServerError := 500 (only parsing).

(** [http.StatusText]: the reason phrase of a status code, the empty string
    for a code the package does not know. *)
Definition StatusText (code : Z) : string :=
  match code with
  | 100 => "Continue"
  | 101 => "Switching Protocols"
  | 102 => "Processing"
  | 103 => "Early Hints"
  | 200 => "OK"
  | 201 => "Created"
  | 202 => "Accepted"
  | 203 => "Non-Authoritative Information"
  | 204 => "No Content"
  | 205 => "Reset Content"
  | 206 => "Partial Content"
  | 207 => "Multi-Status"
  | 208 => "Already Reported"
  | 226 => "IM Used"
  | 300 => "Multiple Choices"
  | 301 => "Moved Permanently"
  | 302 => "Found"
  | 303 => "See Other"
  | 304 => "Not Modified"
  | 305 => "Use Proxy"
  | 307 => "Temporary Redirect"
  | 308 => "Permanent Redirect"
  | 400 => "Bad Request"
  | 401 => "Unauthorized"
  | 402 => "Payment Required"
  | 403 => "Forbidden"
  | 404 => "Not Found"
  | 405 => "Method Not Allowed"
  | 406 => "Not Acceptable"
  | 407 => "Proxy Authentication Required"
  | 408 => "Request Timeout"
  | 409 => "Conflict"
  | 410 => "Gone"
  | 411 => "Length Required"
  | 412 => "Precondition Failed"
  | 413 => "Request Entity Too Large"
  | 414 => "Request URI Too Long"
  | 415 => "Unsupported Media Type"
  | 416 => "Requested Range Not Satisfiable"
  | 417 => "Expectation Failed"
  | 418 => "I'm a teapot"
  | 421 => "Misdirected Request"
  | 422 => "Unprocessable Entity"
  | 423 => "Locked"
  | 424 => "Failed Dependency"
  | 425 => "Too Early"
  | 426 => "Upgrade Required"
  | 428 => "Precondition Required"
  | 429 => "Too Many Requests"
  | 431 => "Request Header Fields Too Large"
  | 451 => "Unavailable For Legal Reasons"
  | 500 => "Internal Server Error"
  | 501 => "Not Implemented"
  | 502 => "Bad Gateway"
  | 503 => "Service Unavailable"
  | 504 => "Gateway Timeout"
  | 505 => "HTTP Version Not Supported"
  | 506 => "Variant Also Negotiates"
  | 507 => "Insufficient Storage"
  | 508 => "Loop Detected"
  | 510 => "Not Extended"
  | 511 => "Network Authentication Required"
  | _ => ""
  end.

(** [bodyAllowedForStatus]: informational responses, 204 and 304 carry no
    body.  net/http and gin each have a copy of this function. *)
Definition bodyAllowedForStatus (status : Z) : bool :=
  if (100 <=? status) && (status <=? 199) then false
  else if status =? StatusNoContent then false
  else if status =? StatusNotModified then false
  else true.
#[global] Arguments bodyAllowedForStatus : simpl never.

(** ** The header map

    [http.Header] is [map[string][]string].  The keys the program and gin set
    are written in canonical form already, so canonicalisation is the
    identity on them and is left out. *)

Abbreviation Header := (gmap string (list string)) (only parsing).

(** [h.Set(k, v)]: replace what the key holds by the single value. *)
Definition Set_ (k v : string) (h : Header) : Header := <[k := [v]]> h.

(** [h.Get(k)]: the first value of the key, or the empty string. *)
Definition Get (k : string) (h : Header) : string :=
  match h !! k with
  | Some (v :: _) => v
  | _ => ""
  end.

(** [_, ok := h[k]]: whether the key is present at all. *)
Definition Has (k : string) (h : Header) : bool := bool_decide (is_Some (h !! k)).

(** ** Requests *)

(** A request as the engine receives it.  Its URL is a path and a raw
    query, as that of a request line in origin form ([GET /path?query]) and
    of a request built by a test.  A request line in absolute form gives
    the URL a scheme and a host as well, which the record leaves out: where
    the program redirects such a request, the [Location] has them before
    the path that the theorems give. *)
Record Request := mkRequest {
  Method : string;
  Path : string;          (* r.URL.Path, decoded *)
  RawQuery : string;      (* r.URL.RawQuery *)
  ReqHeader : Header;     (* r.Header *)
  Body : string           (* the bytes of r.Body *)
}.

#[global] Instance Request_eq_dec : EqDecision Request.
Proof. solve_decision. Defined.

(** ** Responses, as they leave the server *)

Record Response := mkResponse {
  StatusCode : Z;
  RespHeader : Header;
  RespBody : string
}.

#[global] Instance Response_eq_dec : EqDecision Response.
Proof. solve_decision. Defined.

(** ** What the library does to URLs *)

Definition is_plain_char (a : ascii) : bool :=
  let n := Ascii.N_of_ascii a in
  ((48 <=? n) && (n <=? 57) || (65 <=? n) && (n <=? 90)
   || (97 <=? n) && (n <=? 122))%N
  || bool_decide (a = "-"%char) || bool_decide (a = "_"%char)
  || bool_decide (a = "."%char).

Fixpoint all_plain (s : string) : bool :=
  match s with
  | EmptyString => true
  | String a s' => is_plain_char a && all_plain s'
  end.

(** A segment that [path.Clean] keeps as it is. *)
Definition plain_segment (s : string) : bool :=
  all_plain s && negb (bool_decide (s = "")) && negb (bool_decide (s = "."))
  && negb (bool_decide (s = "..")).

(** A plain path: absolute, made of letters, digits and [-_.], without empty,
    [.] or [..] segments; one trailing slash is allowed.  [/] itself is
    plain. *)
Definition plain_path (p : string) : bool :=
  match split_on "/" p with
  | "" :: segs =>
      match reverse segs with
      | [] => false
      | last :: others =>
          forallb plain_segment others
          && (plain_segment last || bool_decide (last = ""))
      end
  | _ => false
  end.

Class UrlOps := {
  (** [u.String()] of a request URL, from its path and its raw query. *)
  url_string : string -> string -> string;
  (** What [http.Redirect] makes of its [url] argument before it becomes
      the [Location] header: resolved against the request path when it is
      relative, cleaned by [path.Clean] (a trailing slash kept), non-ASCII
      bytes escaped. *)
  redirect_target : string -> string;
  (** [htmlEscape] of the package. *)
  html_escape : string -> string;
  (** The path gin redirects to when the request carries the header
      [X-Forwarded-Prefix]: the cleaned, filtered prefix, a slash, and the
      path; the path alone when the prefix cleans to [.]. *)
  forwarded_prefix : string -> string -> string;
  url_string_plain p : plain_path p = true -> url_string p "" = p;
  redirect_target_plain p : plain_path p = true -> redirect_target p = p;
  html_escape_plain p : plain_path p = true -> html_escape p = p
}.

(** The instance that is right on plain paths and leaves every other string
    alone; it lets the model run on examples. *)
Definition url_ops_plain : UrlOps := {|
  url_string p q := if bool_decide (q = "") then p else p +:+ "?" +:+ q;
  redirect_target p := p;
  html_escape p := p;
  forwarded_prefix prefix p :=
    if bool_decide (prefix = "") then p else prefix +:+ "/" +:+ p;
  url_string_plain _ _ := eq_refl;
  redirect_target_plain _ _ := eq_refl;
  html_escape_plain _ _ := eq_refl
|}.

(** ** The interface [http.ResponseWriter] *)

Class ResponseWriter (W : Type) := {
  GetHeader : W -> Header;                  (* w.Header(), read *)
  SetHeader : string -> string -> W -> W;   (* w.Header().Set(k, v) *)
  WriteHeader : Z -> W -> W;
  Write : string -> W -> W
}.

Definition lf : string := String "010"%char "".
Definition dquote : string := String "034"%char "".

(** [http.Redirect(w, r, url, code)].  The [Location] header is set; a
    response that has no [Content-Type] yet gets one for GET and HEAD, and a
    short HTML body for GET ([fmt.Fprintln] adds the second line feed). *)
Definition Redirect `{UrlOps} `{ResponseWriter W}
    (w : W) (r : Request) (url : string) (code : Z) : W :=
  let url := redirect_target url in
  let hadCT := Has "Content-Type" (GetHeader w) in
  let w := SetHeader "Location" url w in
  let w :=
    if negb hadCT && (bool_decide (Method r = MethodGet)
                      || bool_decide (Method r = MethodHead))
    then SetHeader "Content-Type" "text/html; charset=utf-8" w
    else w in
  let w := WriteHeader code w in
  if negb hadCT && bool_decide (Method r = MethodGet)
  then Write ("<a href=" +:+ dquote +:+ html_escape url +:+ dquote +:+ ">"
              +:+ StatusText code +:+ "</a>." +:+ lf +:+ lf) w
  else w.

End http.

(** ** Lemmas *)

Lemma bodyAllowedForStatus_spec (status : Z) :
  http.bodyAllowedForStatus status = false <->
  (100 <= status <= 199) \/ status = 204 \/ status = 304.
Proof. unfold http.bodyAllowedForStatus. repeat case_match; lia. Qed.

Lemma header_Get_Set k v h : http.Get k (http.Set_ k v h) = v.
Proof. unfold http.Get, http.Set_. by rewrite lookup_insert_eq. Qed.

Lemma header_Get_Set_ne k k' v h :
  k <> k' -> http.Get k' (http.Set_ k v h) = http.Get k' h.
Proof. intros Hk. unfold http.Get, http.Set_. by rewrite lookup_insert_ne. Qed.

Lemma header_Has_Set k v h : http.Has k (http.Set_ k v h) = true.
Proof.
  unfold http.Has, http.Set_. apply bool_decide_eq_true.
  rewrite lookup_insert_eq. by eexists.
Qed.

Lemma header_Has_Set_ne k k' v h :
  k <> k' -> http.Has k' (http.Set_ k v h) = http.Has k' h.
Proof. intros Hk. unfold http.Has, http.Set_. by rewrite lookup_insert_ne. Qed.

Lemma header_Has_empty k : http.Has k ∅ = false.
Proof.
  unfold http.Has. apply bool_decide_eq_false.
  rewrite lookup_empty. by intros [? ?].
Qed.

Lemma header_Set_Set k v v' h :
  http.Set_ k v (http.Set_ k v' h) = http.Set_ k v h.
Proof. unfold http.Set_. apply insert_insert_eq. Qed.

#[export] Hint Rewrite header_Get_Set header_Has_Set header_Has_empty
  header_Set_Set : gopher.
#[export] Hint Rewrite header_Get_Set_ne header_Has_Set_ne using congruence : gopher.

(** A plain path stays what it is through all three URL functions. *)
Lemma plain_url_fixed `{http.UrlOps} p :
  http.plain_path p = true ->
  http.url_string p "" = p /\ http.redirect_target p = p /\ http.html_escape p = p.
Proof.
  intros Hp. by rewrite http.url_string_plain, http.redirect_target_plain,
    http.html_escape_plain.
Qed.
