(* ===== verification/Json.v ===== *)
(** * Json: JSON values and the text encoding/json writes for them

    [c.JSON(code, obj)] hands [obj] to [json.Marshal].  The program marshals
    three values: a [Gopher] struct, an empty slice of them, and the map
    [gin.H{"status": "ok"}].  [json] is the type of JSON values these
    become, [encode] the compact text of the encoder, and [Marshal] the class
    of Go values that have a JSON form (the interface the encoder finds by
    reflection).  The program has no numeric field, so numbers are left out.

    [encode] escapes strings as [appendString] of encoding/json does with
    its default [EscapeHTML], rune by rune ([Utf8]): the quote, the
    backslash, control characters, and [<], [>], [&] are escaped; a byte
    that is no UTF-8 is written as the escape of U+FFFD; U+2028 and U+2029
    are escaped; every other rune is copied.  Backspace and form feed are
    written in their short form, as Go 1.22 and later do.

    [read_string] reads a string literal back, up to its closing quote.
    What it reads of the text of a string is the string made valid UTF-8
    ([read_string_escape]): the string itself when it is valid, and
    otherwise the string with U+FFFD for every byte that was none, which
    is where the encoding loses information.  [decode] reads a whole value
    back ([decode_encode]): the text of a response determines the value
    the handler marshalled, up to invalid bytes in its strings. *)

From Stdlib Require Import ZArith NArith Ascii String List Lia.
From stdpp Require Import base tactics option list strings gmap sorting.
From S2P Require Import Prelude Utf8 Http.

Unset Elimination Schemes.
Inductive json : Type :=
| JNull
| JBool (b : bool)
| JString (s : string)
| JArray (l : list json)
| JObject (l : list (string * json)).
Set Elimination Schemes.

(** The class of Go values that [json.Marshal] can encode. *)
Class Marshal (A : Type) := marshal : A -> json.
#[global] Hint Mode Marshal ! : typeclass_instances.

#[export] Instance Marshal_json : Marshal json := fun j => j.
#[export] Instance Marshal_string : Marshal string := JString.
#[export] Instance Marshal_bool : Marshal bool := JBool.

(** A slice that is not nil: [[]T{...}].  (A nil slice encodes as [null].) *)
#[export] Instance Marshal_slice `{Marshal A} : Marshal (list A) :=
  fun l => JArray (marshal <$> l).

(** Keys of a Go map are encoded in sorted order. *)
Definition key_le (x y : string * json) : Prop := String.le x.1 y.1.

#[export] Instance key_le_dec : RelDecision key_le.
Proof. intros x y. unfold key_le. apply _. Defined.

(** [map[string]any], the type of [gin.H]. *)
#[export] Instance Marshal_map : Marshal (gmap string json) :=
  fun m => JObject (merge_sort key_le (map_to_list m)).

(** ** The encoder's text *)

Definition hex_digit (n : N) : string :=
  String.substring (N.to_nat n) 1 "0123456789abcdef".

Definition escape_byte (a : ascii) : string :=
  match a with
  | "034"%char => "\" +:+ http.dquote
  | "\"%char => "\\"
  | "008"%char => "\b"
  | "012"%char => "\f"
  | "010"%char => "\n"
  | "013"%char => "\r"
  | "009"%char => "\t"
  | "<"%char => "\u003c"
  | ">"%char => "\u003e"
  | "&"%char => "\u0026"
  | _ =>
      let n := Ascii.N_of_ascii a in
      if (n <? 32)%N then "\u00" +:+ hex_digit (n / 16) +:+ hex_digit (n mod 16)
      else String a ""
  end.

(** One turn of the loop of [appendString]: a byte below [utf8.RuneSelf]
    goes through [escape_byte]; otherwise the rune at the head is decoded,
    and written as [\ufffd] if it is no encoding, escaped if it is U+2028
    or U+2029, and copied if not. *)
Definition escape_rune (r : N * string) : string :=
  match r.2 with
  | String a _ =>
      if (utf8.byte a <? utf8.RuneSelf)%N then escape_byte a
      else if utf8.invalid r then "\ufffd"
      else if (r.1 =? 0x2028)%N || (r.1 =? 0x2029)%N
           then "\u202" +:+ hex_digit (N.land r.1 0xF)
           else r.2
  | EmptyString => ""
  end.

Definition escape (s : string) : string :=
  utf8.str_concat (escape_rune <$> utf8.runes s).

Definition encode_string (s : string) : string :=
  http.dquote +:+ escape s +:+ http.dquote.

Fixpoint encode (j : json) : string :=
  match j with
  | JNull => "null"
  | JBool true => "true"
  | JBool false => "false"
  | JString s => encode_string s
  | JArray l => "[" +:+ join_with "," (map encode l) +:+ "]"
  | JObject l =>
      "{" +:+ join_with ","
                (map (fun kv => encode_string kv.1 +:+ ":" +:+ encode kv.2) l)
          +:+ "}"
  end.

(** [json.Marshal(v)]: the bytes of the JSON form of [v]. *)
Definition Marshal_bytes `{Marshal A} (v : A) : string := encode (marshal v).

(** ** Reading a string back *)

Definition hex_value (a : ascii) : option N :=
  let n := Ascii.N_of_ascii a in
  if ((48 <=? n) && (n <=? 57))%N then Some (n - 48)%N
  else if ((97 <=? n) && (n <=? 102))%N then Some (n - 87)%N
  else if ((65 <=? n) && (n <=? 70))%N then Some (n - 55)%N
  else None.

(** The character a two-character escape stands for. *)
Definition unescape_char (c : ascii) : option ascii :=
  match c with
  | "034"%char => Some "034"%char
  | "\"%char => Some "\"%char
  | "/"%char => Some "/"%char
  | "b"%char => Some "008"%char
  | "f"%char => Some "012"%char
  | "n"%char => Some "010"%char
  | "r"%char => Some "013"%char
  | "t"%char => Some "009"%char
  | _ => None
  end.

(** The rune of four hexadecimal digits. *)
Definition getu4 (a b c d : ascii) : option N :=
  h3 ← hex_value a; h2 ← hex_value b; h1 ← hex_value c; h0 ← hex_value d;
  Some (((h3 * 16 + h2) * 16 + h1) * 16 + h0)%N.

Definition is_surrogate (r : N) : bool := ((0xD800 <=? r) && (r <? 0xE000))%N.

(** [read_string s] reads the body of a JSON string up to its closing
    quote: the string it stands for, and what follows the quote.  A [\u]
    escape stands for the UTF-8 encoding of its rune; the reader leaves out
    the escapes of surrogates, which the encoder does not write.  Bytes
    outside ASCII are taken as they are: the texts of the encoder are valid
    UTF-8, which the decoder of encoding/json leaves alone. *)
Fixpoint read_string (s : string) : option (string * string) :=
  match s with
  | EmptyString => None
  | String "034"%char rest => Some (EmptyString, rest)
  | String "\"%char (String "u"%char (String a (String b (String c (String d rest))))) =>
      match getu4 a b c d with
      | Some u =>
          if is_surrogate u then None
          else '(t, r) ← read_string rest; Some (utf8.EncodeRune u +:+ t, r)
      | None => None
      end
  | String "\"%char (String c rest) =>
      a ← unescape_char c; '(t, r) ← read_string rest; Some (String a t, r)
  | String a rest =>
      if (Ascii.N_of_ascii a <? 32)%N then None
      else '(t, r) ← read_string rest; Some (String a t, r)
  end.

Lemma read_string_escape_byte a s :
  read_string (escape_byte a +:+ s)
  = '(t, r) ← read_string s; Some (String a t, r).
Proof.
  destruct a as [[] [] [] [] [] [] [] []]; reflexivity.
Qed.

(** Bytes outside ASCII are read as they are. *)
Lemma read_string_high bytes s :
  utf8.all_high bytes = true ->
  read_string (bytes +:+ s) = '(t, r) ← read_string s; Some (bytes +:+ t, r).
Proof.
  induction bytes as [|a bytes IH]; cbn [utf8.all_high];
    [intros _; rewrite app_empty_l; by destruct (read_string s) as [[]|]|].
  intros [Ha%N.leb_le Hb]%andb_true_iff. rewrite app_String.
  transitivity ('(t, r) ← read_string (bytes +:+ s); Some (String a t, r)).
  - revert Ha. unfold utf8.RuneSelf, utf8.byte.
    destruct a as [[] [] [] [] [] [] [] []]; intros Ha; first [reflexivity|by vm_compute in Ha].
  - rewrite IH by done. by destruct (read_string s) as [[]|].
Qed.

(** What the encoder writes for a rune reads back as the bytes of the
    rune, or as those of U+FFFD if it was none. *)
Lemma read_string_escape_rune r s :
  utf8.kind r ->
  read_string (escape_rune r +:+ s)
  = '(t, rest) ← read_string s; Some (utf8.coerce_rune r +:+ t, rest).
Proof.
  destruct 1 as [a Ha|a Ha|c bytes Hl Hh Hc He]; unfold escape_rune, utf8.coerce_rune; cbn [fst snd].
  - apply N.ltb_lt in Ha as Ha'. rewrite Ha', read_string_escape_byte.
    replace (utf8.invalid _) with false; [done|].
    unfold utf8.invalid, utf8.RuneSelf, utf8.RuneError in *. cbn. symmetry.
    apply andb_false_iff. left. apply N.eqb_neq. lia.
  - apply N.ltb_ge in Ha. rewrite Ha.
    change (utf8.invalid (utf8.RuneError, String a "")) with true. reflexivity.
  - destruct bytes as [|a0 bytes]; [cbn in Hl; lia|]. cbn [utf8.all_high] in Hh.
    apply andb_true_iff in Hh as [H0%N.leb_le Hh']. rewrite (proj2 (N.ltb_ge _ _)) by done.
    replace (utf8.invalid _) with false
      by (unfold utf8.invalid; destruct bytes; [cbn in Hl; lia|by rewrite andb_false_r]).
    destruct (N.eqb_spec c 0x2028) as [->|_]; [by rewrite <- He|].
    destruct (N.eqb_spec c 0x2029) as [->|_]; [by rewrite <- He|]. cbn [orb].
    apply read_string_high. cbn. by rewrite Hh', (proj2 (N.leb_le _ _)).
Qed.

Lemma read_string_runes l rest :
  Forall utf8.kind l ->
  read_string (utf8.str_concat (escape_rune <$> l) +:+ String "034"%char rest)
  = Some (utf8.str_concat (utf8.coerce_rune <$> l), rest).
Proof.
  induction 1 as [|r l Hr _ IH]; [done|]. cbn [fmap list_fmap utf8.str_concat].
  by rewrite str_app_assoc, read_string_escape_rune, IH.
Qed.

(** What the encoder writes for a string reads back as the string made
    valid UTF-8. *)
Lemma read_string_escape s rest :
  read_string (escape s +:+ String "034"%char rest) = Some (utf8.coerce s, rest).
Proof. apply read_string_runes, utf8.runes_kind. Qed.

(** The encoder writes valid strings that differ differently. *)
Lemma escape_inj s t :
  utf8.ValidString s = true -> utf8.ValidString t = true -> escape s = escape t -> s = t.
Proof.
  intros Hs Ht Heq. pose proof (read_string_escape s "") as Hr.
  rewrite Heq, read_string_escape, !utf8.coerce_valid in Hr by done. congruence.
Qed.

(** ** Reading a value back

    [decode] reads the compact text the encoder writes: no white space
    between the tokens, no numbers.  The three readers take fuel, one unit
    for each call; the length of the text is enough, since every call that
    succeeds reads a character. *)

Fixpoint decode_value (fuel : nat) (s : string) : option (json * string) :=
  match fuel with
  | O => None
  | S n =>
      match s with
      | String "n" rest => r ← strip_prefix "ull" rest; Some (JNull, r)
      | String "t" rest => r ← strip_prefix "rue" rest; Some (JBool true, r)
      | String "f" rest => r ← strip_prefix "alse" rest; Some (JBool false, r)
      | String "034" rest => '(t, r) ← read_string rest; Some (JString t, r)
      | String "[" (String "]" rest) => Some (JArray [], rest)
      | String "[" rest => '(l, r) ← decode_elements n rest; Some (JArray l, r)
      | String "{" (String "}" rest) => Some (JObject [], rest)
      | String "{" rest => '(l, r) ← decode_members n rest; Some (JObject l, r)
      | _ => None
      end
  end
with decode_elements (fuel : nat) (s : string) : option (list json * string) :=
  match fuel with
  | O => None
  | S n =>
      '(j, r) ← decode_value n s;
      match r with
      | String "," r' => '(l, r'') ← decode_elements n r'; Some (j :: l, r'')
      | String "]" r' => Some ([j], r')
      | _ => None
      end
  end
with decode_members (fuel : nat) (s : string) : option (list (string * json) * string) :=
  match fuel with
  | O => None
  | S n =>
      match s with
      | String "034" rest =>
          '(k, r) ← read_string rest;
          match r with
          | String ":" r' =>
              '(j, r'') ← decode_value n r';
              match r'' with
              | String "," r3 => '(l, r4) ← decode_members n r3; Some ((k, j) :: l, r4)
              | String "}" r3 => Some ([(k, j)], r3)
              | _ => None
              end
          | _ => None
          end
      | _ => None
      end
  end.

(** [decode s]: the value the whole of [s] stands for. *)
Definition decode (s : string) : option json :=
  '(j, r) ← decode_value (String.length s) s;
  if bool_decide (r = "") then Some j else None.


(** ** The round trip *)

(** The value with its strings made valid UTF-8: what the text of a value
    stands for. *)
Fixpoint coerce_json (j : json) : json :=
  match j with
  | JString s => JString (utf8.coerce s)
  | JArray l => JArray (map coerce_json l)
  | JObject l => JObject (map (fun kv => (utf8.coerce kv.1, coerce_json kv.2)) l)
  | _ => j
  end.

Definition coerce_member (kv : string * json) : string * json :=
  (utf8.coerce kv.1, coerce_json kv.2).

(** A member of an object, as the encoder writes it. *)
Definition member_text (kv : string * json) : string :=
  encode_string kv.1 +:+ ":" +:+ encode kv.2.

Lemma encode_JArray l : encode (JArray l) = String "[" (join_with "," (map encode l) +:+ "]").
Proof. reflexivity. Qed.

Lemma encode_JObject l :
  encode (JObject l) = String "{" (join_with "," (map member_text l) +:+ "}").
Proof. reflexivity. Qed.

Lemma encode_string_text s : encode_string s = String "034" (escape s +:+ String "034" "").
Proof. reflexivity. Qed.

(** No value starts with a closing bracket, and each has a character. *)
Lemma encode_head j : exists a t, encode j = String a t /\ a <> "]"%char.
Proof. destruct j as [|[]|s|l|l]; by eexists _, _. Qed.

Lemma length_encode j : (1 <= String.length (encode j))%nat.
Proof. destruct (encode_head j) as (a & t & -> & _). cbn. lia. Qed.

Lemma length_member_text k j :
  (3 + String.length (encode j) <= String.length (member_text (k, j)))%nat.
Proof.
  unfold member_text. cbn [fst snd]. rewrite encode_string_text, !str_length_app.
  cbn [String.length]. rewrite !str_length_app. cbn. lia.
Qed.

Lemma decode_value_array n (a : ascii) s :
  a <> "]"%char ->
  decode_value (S n) (String "[" (String a s))
  = '(l, r) ← decode_elements n (String a s); Some (JArray l, r).
Proof. intros Ha. destruct a as [[] [] [] [] [] [] [] []]; done. Qed.

Lemma decode_value_object n s :
  decode_value (S n) (String "{" (String "034" s))
  = '(l, r) ← decode_members n (String "034" s); Some (JObject l, r).
Proof. reflexivity. Qed.

Lemma elements_head x (l : list string) s :
  exists a t, join_with "," (encode x :: l) +:+ s = String a t /\ a <> "]"%char.
Proof.
  destruct (join_with_head "," (encode x) l) as [u ->].
  destruct (encode_head x) as (a & t & -> & Ha).
  exists a, (t +:+ (u +:+ s)). split; [by str_normalize|done].
Qed.

Lemma members_head kv (l : list string) s :
  exists t, join_with "," (member_text kv :: l) +:+ s = String "034" t.
Proof.
  destruct (join_with_head "," (member_text kv) l) as [u ->].
  unfold member_text. rewrite encode_string_text. str_normalize. by eexists.
Qed.

(** One unit of fuel more reads what is one character longer. *)
Section Step.
Variable n : nat.
Hypothesis IHv : forall j rest,
  (String.length (encode j) <= n)%nat ->
  decode_value n (encode j +:+ rest) = Some (coerce_json j, rest).
Hypothesis IHe : forall l rest,
  l <> [] -> (String.length (join_with "," (map encode l)) < n)%nat ->
  decode_elements n (join_with "," (map encode l) +:+ String "]" rest)
  = Some (map coerce_json l, rest).
Hypothesis IHm : forall l rest,
  l <> [] -> (String.length (join_with "," (map member_text l)) < n)%nat ->
  decode_members n (join_with "," (map member_text l) +:+ String "}" rest)
  = Some (map coerce_member l, rest).

Lemma step_elements l rest :
  l <> [] -> (String.length (join_with "," (map encode l)) < S n)%nat ->
  decode_elements (S n) (join_with "," (map encode l) +:+ String "]" rest)
  = Some (map coerce_json l, rest).
Proof.
  destruct l as [|x [|y l]]; [done|..]; intros _ Hlen; cbn [map] in *.
  - cbn [join_with] in *. cbn [decode_elements]. rewrite IHv by lia. done.
  - rewrite join_with_cons, str_length_app in *. cbn [String.length] in Hlen.
    pose proof (length_encode x).
    rewrite str_app_assoc, app_String. cbn [decode_elements]. rewrite IHv by lia.
    cbn. rewrite (IHe (y :: l)) by (done || cbn [map]; lia). done.
Qed.

Lemma step_members l rest :
  l <> [] -> (String.length (join_with "," (map member_text l)) < S n)%nat ->
  decode_members (S n) (join_with "," (map member_text l) +:+ String "}" rest)
  = Some (map coerce_member l, rest).
Proof.
  assert (forall k j s, decode_members (S n) (member_text (k, j) +:+ s)
            = '(j', r) ← decode_value n (encode j +:+ s);
              match r with
              | String "," r3 =>
                  '(l, r4) ← decode_members n r3; Some ((utf8.coerce k, j') :: l, r4)
              | String "}" r3 => Some ([(utf8.coerce k, j')], r3)
              | _ => None
              end) as Hstep.
  { intros k j s. unfold member_text. cbn [fst snd]. rewrite encode_string_text.
    str_normalize. cbn [decode_members]. by rewrite read_string_escape. }
  pose proof length_member_text as Hlen'.
  destruct l as [|[k j] [|y l]]; [done|..]; intros _ Hlen; cbn [map] in *.
  - cbn [join_with] in *. specialize (Hlen' k j). rewrite Hstep, IHv by lia. done.
  - rewrite join_with_cons, str_length_app in *. cbn [String.length] in Hlen.
    specialize (Hlen' k j). rewrite str_app_assoc, app_String, Hstep, IHv by lia.
    cbn. rewrite (IHm (y :: l)) by (done || cbn [map]; lia). done.
Qed.

Lemma step_value j rest :
  (String.length (encode j) <= S n)%nat ->
  decode_value (S n) (encode j +:+ rest) = Some (coerce_json j, rest).
Proof.
  destruct j as [|[]|s|[|x l]|[|kv l]]; try reflexivity.
  - intros _. cbn [encode]. rewrite encode_string_text. str_normalize. cbn [decode_value].
    by rewrite read_string_escape.
  - rewrite encode_JArray. cbn [String.length]. rewrite str_length_app. cbn [String.length].
    intros Hlen. str_normalize.
    destruct (elements_head x (map encode l) (String "]" rest)) as (a & t & Ht & Ha).
    cbn [map]. rewrite Ht, decode_value_array, <- Ht by done.
    rewrite (IHe (x :: l)) by (done || lia). done.
  - rewrite encode_JObject. cbn [String.length]. rewrite str_length_app. cbn [String.length].
    intros Hlen. str_normalize.
    destruct (members_head kv (map member_text l) (String "}" rest)) as [t Ht].
    cbn [map]. rewrite Ht, decode_value_object, <- Ht.
    rewrite (IHm (kv :: l)) by (done || lia). done.
Qed.

End Step.

(** With fuel for every character, a value reads back. *)
Lemma decode_value_fuel n :
  (forall j rest,
     (String.length (encode j) <= n)%nat ->
     decode_value n (encode j +:+ rest) = Some (coerce_json j, rest))
  /\ (forall l rest,
        l <> [] -> (String.length (join_with "," (map encode l)) < n)%nat ->
        decode_elements n (join_with "," (map encode l) +:+ String "]" rest)
        = Some (map coerce_json l, rest))
  /\ (forall l rest,
        l <> [] -> (String.length (join_with "," (map member_text l)) < n)%nat ->
        decode_members n (join_with "," (map member_text l) +:+ String "}" rest)
        = Some (map coerce_member l, rest)).
Proof.
  induction n as [|n (IHv & IHe & IHm)].
  - split_and!; [|intros; lia..]. intros j rest Hlen. pose proof (length_encode j). lia.
  - split_and!; [by apply step_value|by apply step_elements|by apply step_members].
Qed.

(** [decode] reads the text of a value as the value made valid UTF-8. *)
Lemma decode_encode j : decode (encode j) = Some (coerce_json j).
Proof.
  unfold decode. rewrite <- (app_empty_r (encode j)) at 2.
  by rewrite (proj1 (decode_value_fuel _)).
Qed.

(** Values with the same text differ in the invalid bytes of their
    strings at most. *)
Lemma encode_inj j1 j2 : encode j1 = encode j2 -> coerce_json j1 = coerce_json j2.
Proof. intros Heq%(f_equal decode). rewrite !decode_encode in Heq. congruence. Qed.

(** The text of an array tells whether it is empty. *)
Lemma encode_JArray_nil l : encode (JArray l) = "[]" -> l = [].
Proof. intros Heq%(encode_inj _ (JArray [])). by destruct l. Qed.

(** ** Lemmas *)

(** A string of plain characters needs no escape. *)
Lemma escape_byte_plain a : http.is_plain_char a = true -> escape_byte a = String a "".
Proof.
  destruct a as [[] [] [] [] [] [] [] []]; vm_compute; congruence.
Qed.

Lemma plain_char_ascii a : http.is_plain_char a = true -> (utf8.byte a < utf8.RuneSelf)%N.
Proof. destruct a as [[] [] [] [] [] [] [] []]; by vm_compute. Qed.

(** A byte of ASCII at the head is escaped by itself. *)
Lemma escape_ascii a s :
  (utf8.byte a < utf8.RuneSelf)%N -> escape (String a s) = escape_byte a +:+ escape s.
Proof.
  intros Ha. unfold escape. rewrite utf8.runes_ascii by done. cbn.
  unfold escape_rune. cbn [snd]. by rewrite (proj2 (N.ltb_lt _ _)).
Qed.

Lemma escape_plain s : http.all_plain s = true -> escape s = s.
Proof.
  induction s as [|a s IH]; [done|]. cbn [http.all_plain].
  intros [Ha Hs]%andb_true_iff.
  by rewrite escape_ascii, escape_byte_plain, IH by (done || by apply plain_char_ascii).
Qed.

Lemma encode_string_plain s :
  http.all_plain s = true -> encode_string s = http.dquote +:+ s +:+ http.dquote.
Proof. intros Hs. unfold encode_string. by rewrite escape_plain. Qed.

Lemma marshal_slice_nil `{Marshal A} : marshal (@nil A) = JArray [].
Proof. reflexivity. Qed.

Lemma marshal_slice_length `{Marshal A} (l : list A) :
  exists js, marshal l = JArray js /\ length js = length l.
Proof. exists (marshal <$> l). split; [done|]. apply length_fmap. Qed.

Lemma marshal_map_singleton (k : string) (v : json) :
  marshal ({[ k := v ]} : gmap string json) = JObject [(k, v)].
Proof.
  unfold marshal, Marshal_map. by rewrite map_to_list_singleton.
Qed.

#[export] Hint Rewrite @marshal_slice_nil marshal_map_singleton : gopher.
