(* ===== verification/Context.v ===== *)
(** * Context: gin's response writer and request context

    A gin handler is a [func(c *gin.Context)]: it reads the request from [c]
    and answers through [c.Writer].  This file models the writer as the small
    state machine it is, the context around it, and the operations of
    [*gin.Context] that src/main.go calls: [c.JSON], [c.Redirect] and
    [c.Status].  It is a model of gin (response_writer.go, context.go,
    render/json.go, render/redirect.go), not of code of the repository.

    gin's [responseWriter] wraps the writer of net/http.  The two layers are
    one record here: [rw_status] and [rw_size] are gin's fields (size is -1
    until the header is written), [rw_header] is the header map handlers
    change, and [rw_wire] and [rw_body] are what net/http has sent: the status
    line with a snapshot of the header, taken when the header is written, and
    the body bytes.  net/http panics on a status code outside 100..999; the
    writer is modelled for codes inside that range, and [App] proves that the
    program uses no other.

    The lemmas give the invariant of the writer ([writer_ok]) and show that
    every operation keeps it; [writer_step] presents the operations as a
    transition system, along whose runs what is sent stays sent, the body
    only grows and the size accounts for it ([size_ok]: the body has as many
    bytes as gin has counted, none for a HEAD); the section [Fresh] computes
    what [c.Status], [c.JSON] and
    [c.Redirect] leave in a writer that has just been reset. *)

From Stdlib Require Import ZArith Ascii String List Lia.
From stdpp Require Import base tactics option list strings gmap relations.
From S2P Require Import Prelude Http Json.
#[local] Open Scope Z_scope.

Module gin.

(** ** The response writer *)

Abbreviation noWritten := (-1) (only parsing).
Abbreviation defaultStatus := 200 (only parsing).

Record responseWriter := mkWriter {
  rw_method : string;
  rw_header : http.Header;
  rw_status : Z;
  rw_size : Z;
  rw_wire : option (Z * gmap string (list string));
  rw_body : string
}.

#[global] Instance responseWriter_eq_dec : EqDecision responseWriter.
Proof. solve_decision. Defined.

(** [w.reset(writer)], for a request of the given method. *)
Definition reset (method : string) : responseWriter :=
  mkWriter method ∅ defaultStatus noWritten None "".

Definition Written (w : responseWriter) : bool := negb (rw_size w =? noWritten).

(** [w.WriteHeader(code)]: gin only records the code, and ignores a change
    once the header is written (it logs a warning). *)
Definition WriteHeader (code : Z) (w : responseWriter) : responseWriter :=
  if (0 <? code) && negb (rw_status w =? code) then
    if Written w then w
    else mkWriter (rw_method w) (rw_header w) code (rw_size w) (rw_wire w) (rw_body w)
  else w.

(** [w.WriteHeaderNow()]: the status line and the header go to the wire. *)
Definition WriteHeaderNow (w : responseWriter) : responseWriter :=
  if Written w then w
  else mkWriter (rw_method w) (rw_header w) (rw_status w) 0
         (Some (rw_status w, rw_header w)) (rw_body w).

(** [w.Write(data)]: the header is written first if it was not; net/http
    refuses body bytes for a status that allows none (gin then counts none)
    and swallows those of a response to HEAD. *)
Definition Write (data : string) (w : responseWriter) : responseWriter :=
  let w := WriteHeaderNow w in
  if http.bodyAllowedForStatus (rw_status w) then
    mkWriter (rw_method w) (rw_header w) (rw_status w)
      (rw_size w + Z.of_nat (String.length data)) (rw_wire w)
      (if bool_decide (rw_method w = http.MethodHead) then rw_body w
       else rw_body w +:+ data)
  else w.

Definition SetHeader (k v : string) (w : responseWriter) : responseWriter :=
  mkWriter (rw_method w) (http.Set_ k v (rw_header w)) (rw_status w) (rw_size w)
    (rw_wire w) (rw_body w).

#[global] Instance responseWriter_ResponseWriter : http.ResponseWriter responseWriter := {|
  http.GetHeader := rw_header;
  http.SetHeader := SetHeader;
  http.WriteHeader := WriteHeader;
  http.Write := Write
|}.

(** What the client receives, once the header is written. *)
Definition response (w : responseWriter) : option http.Response :=
  match rw_wire w with
  | Some (st, h) => Some (http.mkResponse st h (rw_body w))
  | None => None
  end.

(** ** The context *)

Record Context := mkContext {
  Request : http.Request;
  Params : list (string * string);
  Writer : responseWriter;
  Aborted : bool
}.

(** A handler returns or panics; either way the context is what it has made
    of it by then. *)
Inductive outcome : Type :=
| Returned (c : Context)
| Panicked (msg : string) (c : Context).

Definition HandlerFunc : Type := Context -> outcome.

Definition context_of (o : outcome) : Context :=
  match o with Returned c => c | Panicked _ c => c end.

Definition panicked (o : outcome) : bool :=
  match o with Returned _ => false | Panicked _ _ => true end.

Definition with_writer (c : Context) (w : responseWriter) : Context :=
  mkContext (Request c) (Params c) w (Aborted c).

(** [c.Param(key)]: the value of the first parameter of that name, or the
    empty string. *)
Definition Param (key : string) (c : Context) : string :=
  match list_find (fun kv => kv.1 = key) (Params c) with
  | Some (_, kv) => kv.2
  | None => ""
  end.

(** [c.Status(code)]. *)
Definition Status (code : Z) (c : Context) : Context :=
  with_writer c (WriteHeader code (Writer c)).

(** [c.Abort()]. *)
Definition Abort (c : Context) : Context :=
  mkContext (Request c) (Params c) (Writer c) true.

(** [c.AbortWithStatus(code)]. *)
Definition AbortWithStatus (code : Z) (c : Context) : Context :=
  Abort (with_writer c (WriteHeaderNow (WriteHeader code (Writer c)))).

(** ** Renderers: the interface [render.Render] *)

Class Render (R : Type) := {
  RenderTo : R -> responseWriter -> result responseWriter;
  WriteContentType : R -> responseWriter -> responseWriter
}.

(** [writeContentType(w, value)]: set [Content-Type] unless it is set. *)
Definition writeContentType (value : string) (w : responseWriter) : responseWriter :=
  match rw_header w !! "Content-Type" with
  | Some (_ :: _) => w
  | _ => SetHeader "Content-Type" value w
  end.

Definition jsonContentType : string := "application/json; charset=utf-8".

(** [render.JSON{Data: obj}]. *)
Record JSONRender (A : Type) := mkJSON { Data : A }.
Arguments mkJSON {A} Data.
Arguments Data {A} _.

#[global] Instance JSONRender_Render `{Marshal A} : Render (JSONRender A) := {|
  RenderTo r w := Ok (Write (Marshal_bytes (Data r)) (writeContentType jsonContentType w));
  WriteContentType r w := writeContentType jsonContentType w
|}.

(** [render.Redirect{Code, Location, Request}]: it panics on a code that is
    neither a redirection (300 to 308) nor 201. *)
Record RedirectRender := mkRedirect {
  Code : Z;
  Location : string;
  RedirectRequest : http.Request
}.

#[global] Instance RedirectRender_Render `{http.UrlOps} : Render RedirectRender := {|
  RenderTo r w :=
    if ((Code r <? http.StatusMultipleChoices) || (http.StatusPermanentRedirect <? Code r))
       && negb (Code r =? http.StatusCreated)
    then Panic "Cannot redirect with status code"
    else Ok (http.Redirect w (RedirectRequest r) (Location r) (Code r));
  WriteContentType r w := w
|}.

(** [c.Render(code, r)]. *)
Definition RenderWith `{Render R} (code : Z) (r : R) (c : Context) : outcome :=
  let c := Status code c in
  if negb (http.bodyAllowedForStatus code) then
    Returned (with_writer c (WriteHeaderNow (WriteContentType r (Writer c))))
  else
    match RenderTo r (Writer c) with
    | Ok w => Returned (with_writer c w)
    | Panic msg => Panicked msg c
    end.

(** [c.JSON(code, obj)]. *)
Definition JSON `{Marshal A} (code : Z) (obj : A) : HandlerFunc :=
  RenderWith code (mkJSON obj).

(** [c.Redirect(code, location)]. *)
Definition Redirect `{http.UrlOps} (code : Z) (location : string) : HandlerFunc :=
  fun c => RenderWith (-1) (mkRedirect code location (Request c)) c.

End gin.

(** ** The writer's invariant

    The size is -1 exactly as long as nothing is on the wire; once the header
    is written, the status recorded by gin is the status sent. *)

Definition writer_ok (w : gin.responseWriter) : Prop :=
  -1 <= gin.rw_size w /\
  match gin.rw_wire w with
  | Some (st, _) => gin.rw_size w <> -1 /\ st = gin.rw_status w
  | None => gin.rw_size w = -1 /\ gin.rw_body w = ""
  end.

#[export] Instance writer_ok_dec w : Decision (writer_ok w).
Proof. unfold writer_ok. destruct (gin.rw_wire w) as [[st h]|]; apply _. Defined.

(** Unfold the writer operations and split on their tests. *)
Ltac writer_simpl :=
  unfold gin.Write, gin.WriteHeaderNow, gin.WriteHeader, gin.SetHeader,
    gin.Written, gin.reset in *; cbn in *.

Ltac writer_cases :=
  writer_simpl; repeat (case_match; cbn in *); bool_to_prop; simplify_eq;
  try done; try lia.

Section Writer.
Implicit Types (w : gin.responseWriter) (code : Z) (data k v : string).

Lemma reset_ok method : writer_ok (gin.reset method).
Proof. by unfold writer_ok. Qed.

Lemma Written_true w : gin.Written w = true <-> gin.rw_size w <> -1.
Proof. unfold gin.Written. destruct (Z.eqb_spec (gin.rw_size w) (-1)); naive_solver. Qed.

Lemma Written_false w : gin.Written w = false <-> gin.rw_size w = -1.
Proof. unfold gin.Written. destruct (Z.eqb_spec (gin.rw_size w) (-1)); naive_solver. Qed.

Lemma Written_wire w : writer_ok w -> gin.Written w = true <-> is_Some (gin.rw_wire w).
Proof.
  intros [_ Hw]. rewrite Written_true.
  destruct (gin.rw_wire w) as [[st h]|]; destruct Hw as [Hsz Hst].
  - split; [by eexists|done].
  - split; [done|]. by intros [x [=]].
Qed.

(** Nothing of the body exists before the header is sent. *)
Lemma unwritten_body w : writer_ok w -> gin.Written w = false -> gin.rw_body w = "".
Proof.
  intros [_ Hw] Hs%Written_false. destruct (gin.rw_wire w) as [[st h]|]; by destruct Hw.
Qed.

(** A status set after the header is written is ignored. *)
Lemma WriteHeader_Written code w : gin.Written w = true -> gin.WriteHeader code w = w.
Proof. intros Hw. unfold gin.WriteHeader. rewrite Hw. by case_match. Qed.

Lemma WriteHeader_status code w :
  gin.Written w = false -> 0 < code -> gin.rw_status (gin.WriteHeader code w) = code.
Proof. intros Hw Hc. unfold gin.WriteHeader. rewrite Hw. writer_cases. Qed.

Lemma WriteHeader_set code w :
  gin.Written w = false -> 0 < code ->
  gin.WriteHeader code w =
    gin.mkWriter (gin.rw_method w) (gin.rw_header w) code (gin.rw_size w)
      (gin.rw_wire w) (gin.rw_body w).
Proof.
  intros Hw Hc. unfold gin.WriteHeader. rewrite Hw, (proj2 (Z.ltb_lt 0 code) Hc).
  destruct (Z.eqb_spec (gin.rw_status w) code) as [<-|Hne]; cbn; [by destruct w|done].
Qed.

Lemma WriteHeader_nonpos code w : code <= 0 -> gin.WriteHeader code w = w.
Proof. intros Hc. unfold gin.WriteHeader. writer_cases. Qed.

Lemma WriteHeaderNow_Written w : gin.Written (gin.WriteHeaderNow w) = true.
Proof. unfold gin.WriteHeaderNow. destruct (gin.Written w) eqn:E; [done|]. done. Qed.

Lemma WriteHeaderNow_idem w :
  gin.WriteHeaderNow (gin.WriteHeaderNow w) = gin.WriteHeaderNow w.
Proof.
  unfold gin.WriteHeaderNow at 1. by rewrite WriteHeaderNow_Written.
Qed.

Lemma WriteHeaderNow_sent w : gin.Written w = true -> gin.WriteHeaderNow w = w.
Proof. intros Hw. unfold gin.WriteHeaderNow. by rewrite Hw. Qed.

Lemma WriteHeader_ok code w : writer_ok w -> writer_ok (gin.WriteHeader code w).
Proof.
  intros [Hs Hw]. unfold gin.WriteHeader.
  destruct (_ && _); [|done]. destruct (gin.Written w) eqn:E; [done|].
  apply Written_false in E. split; cbn; [done|].
  destruct (gin.rw_wire w) as [[st h]|]; [|done]. by destruct Hw.
Qed.

Lemma WriteHeaderNow_ok w : writer_ok w -> writer_ok (gin.WriteHeaderNow w).
Proof.
  intros [Hs Hw]. unfold gin.WriteHeaderNow.
  destruct (gin.Written w) eqn:E; [done|]. split; cbn; [lia|done].
Qed.

Lemma Write_ok data w : writer_ok w -> writer_ok (gin.Write data w).
Proof.
  intros Hok%WriteHeaderNow_ok. unfold gin.Write.
  pose proof (WriteHeaderNow_Written w) as Hn%Written_true.
  destruct (gin.WriteHeaderNow w) as [m h st sz wire body]; cbn in *.
  case_match; [|done]. destruct Hok as [Hs Hw]; cbn in *.
  destruct wire as [[st' h']|]; [|by destruct Hw].
  split; cbn; lia.
Qed.

Lemma Write_Written data w : writer_ok w -> gin.Written (gin.Write data w) = true.
Proof.
  intros Hok. apply Written_true.
  pose proof (WriteHeaderNow_ok w Hok) as [Hs _].
  pose proof (WriteHeaderNow_Written w) as Hn%Written_true.
  unfold gin.Write. case_match; cbn; lia.
Qed.

Lemma SetHeader_ok k v w : writer_ok w -> writer_ok (gin.SetHeader k v w).
Proof. by intros [Hs Hw]. Qed.

(** What is on the wire stays there: no operation changes the status line
    or the header once they are sent. *)
Lemma WriteHeader_wire code w : gin.rw_wire (gin.WriteHeader code w) = gin.rw_wire w.
Proof. unfold gin.WriteHeader. by repeat case_match. Qed.

Lemma SetHeader_wire k v w : gin.rw_wire (gin.SetHeader k v w) = gin.rw_wire w.
Proof. done. Qed.

Lemma WriteHeaderNow_wire w x :
  gin.rw_wire w = Some x -> writer_ok w -> gin.rw_wire (gin.WriteHeaderNow w) = Some x.
Proof.
  intros Hx Hok. unfold gin.WriteHeaderNow.
  assert (gin.Written w = true) as ->; [|done].
  apply Written_wire; [done|]. by rewrite Hx.
Qed.

Lemma Write_wire data w : gin.rw_wire (gin.Write data w) = gin.rw_wire (gin.WriteHeaderNow w).
Proof. unfold gin.Write. by case_match. Qed.

(** The body only grows. *)
Lemma Write_body data w :
  exists suffix, gin.rw_body (gin.Write data w) = gin.rw_body w +:+ suffix.
Proof.
  unfold gin.Write, gin.WriteHeaderNow.
  repeat case_match; cbn; try (by exists ""; rewrite app_empty_r); by exists data.
Qed.

(** The status and the header that go to the wire are those of the moment. *)
Lemma WriteHeaderNow_fresh w :
  gin.Written w = false ->
  gin.rw_wire (gin.WriteHeaderNow w) = Some (gin.rw_status w, gin.rw_header w).
Proof. intros Hw. unfold gin.WriteHeaderNow. by rewrite Hw. Qed.

End Writer.

#[export] Hint Resolve reset_ok WriteHeader_ok WriteHeaderNow_ok Write_ok
  SetHeader_ok : gopher.

(** ** The writer as a transition system

    A handler has the writer behind an interface: it can set a header,
    record a status, send the header and write body bytes, and nothing
    else.  [writer_step] is one such operation and [writer_steps] any number
    of them; what holds of every step holds of whatever a handler does with
    the writer. *)

Inductive writer_step : gin.responseWriter -> gin.responseWriter -> Prop :=
| step_SetHeader k v w : writer_step w (gin.SetHeader k v w)
| step_WriteHeader code w : writer_step w (gin.WriteHeader code w)
| step_WriteHeaderNow w : writer_step w (gin.WriteHeaderNow w)
| step_Write data w : writer_step w (gin.Write data w).

Definition writer_steps : relation gin.responseWriter := rtc writer_step.

#[export] Hint Constructors writer_step : gopher.

Section Steps.
Implicit Types (w : gin.responseWriter).

Lemma writer_steps_refl w : writer_steps w w.
Proof. apply rtc_refl. Qed.

Lemma writer_steps_then w w1 w2 : writer_steps w w1 -> writer_step w1 w2 -> writer_steps w w2.
Proof. intros Hs H1. by eapply rtc_r. Qed.

(** The invariant holds along every run. *)
Lemma writer_step_ok w w' : writer_step w w' -> writer_ok w -> writer_ok w'.
Proof. destruct 1; auto with gopher. Qed.

Lemma writer_steps_ok w w' : writer_steps w w' -> writer_ok w -> writer_ok w'.
Proof. induction 1; eauto using writer_step_ok. Qed.

(** What is sent stays sent: the status line and the header on the wire are
    final. *)
Lemma writer_step_wire w w' x :
  writer_step w w' -> writer_ok w -> gin.rw_wire w = Some x -> gin.rw_wire w' = Some x.
Proof.
  destruct 1; intros Hok Hx.
  - done.
  - by rewrite WriteHeader_wire.
  - by apply WriteHeaderNow_wire.
  - rewrite Write_wire. by apply WriteHeaderNow_wire.
Qed.

Lemma writer_steps_wire w w' x :
  writer_steps w w' -> writer_ok w -> gin.rw_wire w = Some x -> gin.rw_wire w' = Some x.
Proof. induction 1; eauto using writer_step_wire, writer_step_ok. Qed.

(** The body only grows. *)
Lemma writer_step_body w w' :
  writer_step w w' -> exists suffix, gin.rw_body w' = gin.rw_body w +:+ suffix.
Proof.
  destruct 1; try apply Write_body; exists ""; rewrite app_empty_r; [done| |].
  - unfold gin.WriteHeader. by repeat case_match.
  - unfold gin.WriteHeaderNow. by case_match.
Qed.

Lemma writer_steps_body w w' :
  writer_steps w w' -> exists suffix, gin.rw_body w' = gin.rw_body w +:+ suffix.
Proof.
  induction 1 as [w|w w1 w2 H1 _ [t2 ->]]; [exists ""; by rewrite app_empty_r|].
  destruct (writer_step_body _ _ H1) as [t1 ->]. exists (t1 +:+ t2). by rewrite str_app_assoc.
Qed.

(** gin counts what it hands to net/http, and net/http sends it, unless
    the request is a HEAD: the body the client receives has the length of
    the size recorded (none while it is -1), and a response to HEAD has no
    body whatever the size. *)
Definition size_ok (w : gin.responseWriter) : Prop :=
  Z.of_nat (String.length (gin.rw_body w)) =
    if bool_decide (gin.rw_method w = http.MethodHead) then 0
    else Z.max 0 (gin.rw_size w).

#[export] Instance size_ok_dec w : Decision (size_ok w).
Proof. unfold size_ok. apply _. Defined.

Lemma reset_size_ok method : size_ok (gin.reset method).
Proof. unfold size_ok. cbn. case_bool_decide; lia. Qed.

Lemma SetHeader_size_ok k v w : size_ok w -> size_ok (gin.SetHeader k v w).
Proof. done. Qed.

Lemma WriteHeader_size_ok code w : size_ok w -> size_ok (gin.WriteHeader code w).
Proof. unfold gin.WriteHeader. by repeat case_match. Qed.

Lemma WriteHeaderNow_size_ok w : size_ok w -> size_ok (gin.WriteHeaderNow w).
Proof.
  unfold gin.WriteHeaderNow. destruct (gin.Written w) eqn:E; [done|].
  apply Written_false in E. unfold size_ok. cbn. by rewrite E.
Qed.

Lemma Write_size_ok data w : writer_ok w -> size_ok w -> size_ok (gin.Write data w).
Proof.
  intros [Hs _]%WriteHeaderNow_ok Hsz%WriteHeaderNow_size_ok.
  pose proof (WriteHeaderNow_Written w) as Hn%Written_true. unfold gin.Write.
  destruct (gin.WriteHeaderNow w) as [m h st sz wire body]; unfold size_ok in *; cbn in *.
  destruct (http.bodyAllowedForStatus st); cbn; [|done].
  case_bool_decide; rewrite ?str_length_app; lia.
Qed.

(** The method of the request is not the writer's to change. *)
Lemma writer_step_method w w' : writer_step w w' -> gin.rw_method w' = gin.rw_method w.
Proof.
  destruct 1; unfold gin.WriteHeader, gin.Write, gin.WriteHeaderNow;
    by repeat case_match.
Qed.

Lemma writer_steps_method w w' : writer_steps w w' -> gin.rw_method w' = gin.rw_method w.
Proof. induction 1 as [|w w1 w2 H1%writer_step_method _ IH]; congruence. Qed.

Lemma writer_step_size w w' : writer_step w w' -> writer_ok w -> size_ok w -> size_ok w'.
Proof.
  destruct 1; auto using SetHeader_size_ok, WriteHeader_size_ok, WriteHeaderNow_size_ok,
    Write_size_ok.
Qed.

Lemma writer_steps_size w w' : writer_steps w w' -> writer_ok w -> size_ok w -> size_ok w'.
Proof. induction 1; eauto using writer_step_size, writer_step_ok. Qed.

End Steps.

#[export] Hint Resolve writer_steps_refl writer_steps_then : gopher.
#[export] Hint Rewrite WriteHeaderNow_Written WriteHeaderNow_idem
  WriteHeader_wire SetHeader_wire Write_wire : gopher.

(** ** The operations on a fresh writer

    [ServeHTTP] resets the writer before the handlers run, so this is the
    state in which the handler of a route finds it. *)

Section Fresh.
Context `{http.UrlOps}.
Implicit Types (c : gin.Context) (code : Z).

Definition fresh (c : gin.Context) : Prop :=
  gin.Writer c = gin.reset (http.Method (gin.Request c)).

#[export] Instance fresh_dec c : Decision (fresh c).
Proof. unfold fresh. apply _. Defined.

Lemma fresh_ok c : fresh c -> writer_ok (gin.Writer c).
Proof. intros ->. apply reset_ok. Qed.

Lemma writeContentType_empty value m st sz wire body :
  gin.writeContentType value (gin.mkWriter m ∅ st sz wire body)
  = gin.mkWriter m {[ "Content-Type" := [value] ]} st sz wire body.
Proof. reflexivity. Qed.

(** [c.Status(code)] on a fresh writer records the code and sends nothing. *)
Lemma Status_fresh code c :
  fresh c -> 0 < code ->
  gin.Writer (gin.Status code c)
  = gin.mkWriter (http.Method (gin.Request c)) ∅ code (-1) None "".
Proof.
  intros Hc Hpos. unfold gin.Status. cbn. rewrite Hc.
  by rewrite WriteHeader_set.
Qed.

(** [c.JSON(code, obj)] on a fresh writer, for a status that allows a body:
    the status and the JSON content type go to the wire, followed by the
    encoding of [obj] (not for HEAD). *)
Lemma JSON_fresh `{Marshal A} code (obj : A) c :
  fresh c -> 0 < code -> http.bodyAllowedForStatus code = true ->
  gin.JSON code obj c =
    gin.Returned (gin.with_writer c
      (let h : gmap string (list string) := {[ "Content-Type" := [gin.jsonContentType] ]} in
       let bytes := Marshal_bytes obj in
       gin.mkWriter (http.Method (gin.Request c)) h code
         (Z.of_nat (String.length bytes)) (Some (code, h))
         (if bool_decide (http.Method (gin.Request c) = "HEAD") then "" else bytes))).
Proof.
  intros Hc Hpos Hbody. destruct c as [r p w a]. unfold fresh in Hc. cbn in Hc. subst w.
  unfold gin.JSON, gin.RenderWith. rewrite Hbody. cbn [negb].
  unfold gin.Status, gin.with_writer. cbn [gin.Writer gin.Request gin.Params gin.Aborted].
  rewrite WriteHeader_set by done. cbn. rewrite writeContentType_empty.
  unfold gin.Write, gin.WriteHeaderNow, gin.Written. cbn. by rewrite Hbody.
Qed.

(** [c.JSON] with a status that allows no body sends the header alone. *)
Lemma JSON_fresh_no_body `{Marshal A} code (obj : A) c :
  fresh c -> 0 < code -> http.bodyAllowedForStatus code = false ->
  gin.JSON code obj c =
    gin.Returned (gin.with_writer c
      (let h : gmap string (list string) := {[ "Content-Type" := [gin.jsonContentType] ]} in
       gin.mkWriter (http.Method (gin.Request c)) h code 0 (Some (code, h)) "")).
Proof.
  intros Hc Hpos Hbody. destruct c as [r p w a]. unfold fresh in Hc. cbn in Hc. subst w.
  unfold gin.JSON, gin.RenderWith. rewrite Hbody. cbn [negb].
  unfold gin.Status, gin.with_writer. cbn [gin.Writer gin.Request gin.Params gin.Aborted].
  rewrite WriteHeader_set by done. cbn. by rewrite writeContentType_empty.
Qed.

(** [c.Redirect] panics on a code that is no redirection, and touches
    nothing. *)
Lemma Redirect_bad_code code location c :
  (code < 300 \/ 308 < code) -> code <> 201 ->
  exists msg, gin.Redirect code location c = gin.Panicked msg c.
Proof.
  intros Hr Hc. unfold gin.Redirect, gin.RenderWith. cbn.
  assert (((code <? 300) || (308 <? code)) && negb (code =? 201) = true) as ->.
  { apply andb_true_iff. split.
    - apply orb_true_iff. destruct Hr; [left|right]; by apply Z.ltb_lt.
    - apply negb_true_iff. by apply Z.eqb_neq. }
  eexists. f_equal. by destruct c as [r p w a].
Qed.

Lemma Redirect_good_code code location c :
  (300 <= code <= 308 \/ code = 201) ->
  gin.Redirect code location c =
    gin.Returned (gin.with_writer c (http.Redirect (gin.Writer c) (gin.Request c) location code)).
Proof.
  intros Hr. unfold gin.Redirect, gin.RenderWith. cbn.
  assert (((code <? 300) || (308 <? code)) && negb (code =? 201) = false) as ->.
  { apply andb_false_iff. destruct Hr as [Hr| ->]; [left|by right].
    apply orb_false_iff. split; [apply Z.ltb_ge|apply Z.ltb_ge]; lia. }
  by destruct c as [r p w a].
Qed.

(** [http.Redirect] on a fresh writer: [Location] is set; GET and HEAD get
    an HTML content type; the status is recorded; for GET the short HTML body
    is written, which sends the header. *)
Lemma http_Redirect_fresh r url code :
  0 < code -> http.bodyAllowedForStatus code = true ->
  http.Redirect (gin.reset (http.Method r)) r url code =
    (let m := http.Method r in
     let target := http.redirect_target url in
     let h0 : gmap string (list string) := {[ "Location" := [target] ]} in
     let h : gmap string (list string) :=
       if bool_decide (m = "GET") || bool_decide (m = "HEAD")
       then <[ "Content-Type" := ["text/html; charset=utf-8"] ]> h0 else h0 in
     let body := "<a href=" +:+ http.dquote +:+ http.html_escape target +:+ http.dquote
                 +:+ ">" +:+ http.StatusText code +:+ "</a>." +:+ http.lf +:+ http.lf in
     if bool_decide (m = "GET")
     then gin.mkWriter m h code (Z.of_nat (String.length body)) (Some (code, h)) body
     else gin.mkWriter m h code (-1) None "").
Proof.
  intros Hpos Hbody. unfold http.Redirect. cbn [http.GetHeader gin.reset gin.rw_header].
  rewrite header_Has_empty. cbn [negb andb].
  assert (forall w, gin.Written w = false ->
            http.WriteHeader code w = gin.mkWriter (gin.rw_method w) (gin.rw_header w)
              code (gin.rw_size w) (gin.rw_wire w) (gin.rw_body w)) as Hset.
  { intros w Hw. by apply WriteHeader_set. }
  repeat case_bool_decide; cbn [orb]; rewrite Hset by done; cbn;
    unfold gin.Write, gin.WriteHeaderNow, gin.Written; cbn;
    rewrite ?Hbody; try done; try congruence.
  rewrite bool_decide_eq_false_2 by congruence. by rewrite Z.add_0_l.
Qed.

(** The same, as a function of the method alone. *)
Definition redirect_writer (m : string) (code : Z) (url : string) : gin.responseWriter :=
  http.Redirect (gin.reset m) (http.mkRequest m "" "" ∅ "") url code.

Lemma http_Redirect_writer r url code :
  http.Redirect (gin.reset (http.Method r)) r url code
  = redirect_writer (http.Method r) code url.
Proof. reflexivity. Qed.

(** The response [http.Redirect] produces on a fresh writer, once the header
    is sent. *)
Definition redirect_response (m : string) (code : Z) (url : string) : http.Response :=
  let target := http.redirect_target url in
  let h0 : gmap string (list string) := {[ "Location" := [target] ]} in
  http.mkResponse code
    (if bool_decide (m = "GET") || bool_decide (m = "HEAD")
     then <[ "Content-Type" := ["text/html; charset=utf-8"] ]> h0 else h0)
    (if bool_decide (m = "GET")
     then "<a href=" +:+ http.dquote +:+ http.html_escape target +:+ http.dquote
          +:+ ">" +:+ http.StatusText code +:+ "</a>." +:+ http.lf +:+ http.lf
     else "").

Lemma response_Redirect_fresh r url code :
  0 < code -> http.bodyAllowedForStatus code = true ->
  gin.response (gin.WriteHeaderNow (http.Redirect (gin.reset (http.Method r)) r url code))
  = Some (redirect_response (http.Method r) code url).
Proof.
  intros Hpos Hbody. rewrite http_Redirect_fresh by done. cbv zeta.
  unfold redirect_response, gin.WriteHeaderNow, gin.Written.
  case_bool_decide; cbn [gin.rw_size]; [|done].
  by rewrite (proj2 (Z.eqb_neq _ (-1))) by lia.
Qed.

Lemma response_redirect_writer m code url :
  0 < code -> http.bodyAllowedForStatus code = true ->
  gin.response (gin.WriteHeaderNow (redirect_writer m code url))
  = Some (redirect_response m code url).
Proof. intros Hpos Hbody. by apply (response_Redirect_fresh (http.mkRequest m "" "" ∅ "")). Qed.

(** The response a writer gives once its header is sent, if nothing was
    sent before: the status and header of the moment, and no body. *)
Lemma response_WriteHeaderNow w :
  gin.Written w = false ->
  gin.response (gin.WriteHeaderNow w)
  = Some (http.mkResponse (gin.rw_status w) (gin.rw_header w) (gin.rw_body w)).
Proof. intros Hw. unfold gin.response, gin.WriteHeaderNow. by rewrite Hw. Qed.

(** A written, well-formed writer has a response, with the status gin
    recorded. *)
Lemma response_Written w :
  writer_ok w -> gin.Written w = true ->
  exists h, gin.response w = Some (http.mkResponse (gin.rw_status w) h (gin.rw_body w)).
Proof.
  intros Hok Hw. apply Written_wire in Hw as [[st h] Hx]; [|done].
  destruct Hok as [_ Hst]. rewrite Hx in Hst. destruct Hst as [_ ->].
  exists h. unfold gin.response. by rewrite Hx.
Qed.

(** The body of the response is the body written by then. *)
Lemma body_WriteHeaderNow w d :
  writer_ok w ->
  http.RespBody (default d (gin.response (gin.WriteHeaderNow w))) = gin.rw_body w.
Proof.
  intros Hok.
  destruct (response_Written _ (WriteHeaderNow_ok _ Hok) (WriteHeaderNow_Written w))
    as [h ->]. cbn. unfold gin.WriteHeaderNow. by case_match.
Qed.

(** The status of the response is the status gin recorded. *)
Lemma status_WriteHeaderNow w d :
  writer_ok w ->
  http.StatusCode (default d (gin.response (gin.WriteHeaderNow w))) = gin.rw_status w.
Proof.
  intros Hok.
  destruct (response_Written _ (WriteHeaderNow_ok _ Hok) (WriteHeaderNow_Written w))
    as [h ->]. cbn. unfold gin.WriteHeaderNow. by case_match.
Qed.

End Fresh.

(** ** What the engine asks of a handler

    The engine's guarantees ([Router]) are proved for handlers that return
    (do not panic), leave the request, the parameters and the abort flag of
    the context alone, change the writer through its operations only, keep
    it well formed, and record only status codes that net/http accepts.  [Handlers] discharges this for each handler
    of the program. *)

Definition valid_status (w : gin.responseWriter) : Prop :=
  100 <= gin.rw_status w <= 999.

Class WellBehaved (h : gin.HandlerFunc) : Prop := {
  wb_returns c : gin.panicked (h c) = false;
  wb_request c : gin.Request (gin.context_of (h c)) = gin.Request c;
  wb_params c : gin.Params (gin.context_of (h c)) = gin.Params c;
  wb_aborted c : gin.Aborted (gin.context_of (h c)) = gin.Aborted c;
  wb_steps c : writer_steps (gin.Writer c) (gin.Writer (gin.context_of (h c)));
  wb_writer_ok c :
    writer_ok (gin.Writer c) -> writer_ok (gin.Writer (gin.context_of (h c)));
  wb_valid_status c :
    writer_ok (gin.Writer c) -> valid_status (gin.Writer c) ->
    valid_status (gin.Writer (gin.context_of (h c)))
}.

Section WellBehavedOps.
Context `{http.UrlOps}.

Lemma valid_status_WriteHeader code w :
  100 <= code <= 999 -> valid_status w -> valid_status (gin.WriteHeader code w).
Proof.
  intros Hc Hw. unfold valid_status, gin.WriteHeader in *.
  repeat case_match; cbn; lia.
Qed.

Lemma valid_status_WriteHeaderNow w :
  valid_status w -> valid_status (gin.WriteHeaderNow w).
Proof. unfold valid_status, gin.WriteHeaderNow. by case_match. Qed.

Lemma valid_status_Write data w : valid_status w -> valid_status (gin.Write data w).
Proof.
  intros Hw%valid_status_WriteHeaderNow. unfold valid_status, gin.Write in *.
  by case_match.
Qed.

Lemma valid_status_SetHeader k v w : valid_status w -> valid_status (gin.SetHeader k v w).
Proof. done. Qed.

Lemma valid_status_writeContentType v w :
  valid_status w -> valid_status (gin.writeContentType v w).
Proof. unfold gin.writeContentType. by repeat case_match. Qed.

Lemma writeContentType_ok v w : writer_ok w -> writer_ok (gin.writeContentType v w).
Proof. unfold gin.writeContentType. repeat case_match; auto with gopher. Qed.

Lemma http_Redirect_ok w r url code :
  writer_ok w -> writer_ok (http.Redirect w r url code).
Proof.
  intros Hw. unfold http.Redirect. cbn.
  repeat case_match; auto 10 with gopher.
Qed.

Lemma http_Redirect_valid w r url code :
  100 <= code <= 999 -> valid_status w -> valid_status (http.Redirect w r url code).
Proof.
  intros Hc Hw. unfold http.Redirect. cbn.
  repeat case_match;
    auto 10 using valid_status_Write, valid_status_WriteHeader, valid_status_SetHeader.
Qed.

Lemma writeContentType_steps v w w' :
  writer_steps w w' -> writer_steps w (gin.writeContentType v w').
Proof. intros Hs. unfold gin.writeContentType. repeat case_match; eauto with gopher. Qed.

Lemma http_Redirect_steps w w' r url code :
  writer_steps w w' -> writer_steps w (http.Redirect w' r url code).
Proof. intros Hs. unfold http.Redirect. cbn. repeat case_match; eauto 10 with gopher. Qed.

(** [c.JSON] with a valid code is well behaved, whatever it encodes. *)
Lemma JSON_WellBehaved `{Marshal A} code (obj : A) :
  100 <= code <= 999 -> WellBehaved (gin.JSON code obj).
Proof.
  intros Hc. split; intros c; unfold gin.JSON, gin.RenderWith; cbn;
    case_match; cbn; try done.
  - eauto using writeContentType_steps with gopher.
  - eauto using writeContentType_steps with gopher.
  - intros Hw. auto using writeContentType_ok with gopher.
  - intros Hw. auto using writeContentType_ok with gopher.
  - intros Hok Hw.
    auto using valid_status_WriteHeaderNow, valid_status_writeContentType,
      valid_status_WriteHeader.
  - intros Hok Hw.
    auto using valid_status_Write, valid_status_writeContentType,
      valid_status_WriteHeader.
Qed.

(** [c.Status] with a valid code is well behaved. *)
Lemma Status_WellBehaved code :
  100 <= code <= 999 -> WellBehaved (fun c => gin.Returned (gin.Status code c)).
Proof.
  intros Hc. split; intros c; cbn; try done.
  - eauto with gopher.
  - auto with gopher.
  - auto using valid_status_WriteHeader.
Qed.

(** [c.Redirect] with a redirection code is well behaved. *)
Lemma Redirect_WellBehaved code location :
  300 <= code <= 308 -> WellBehaved (gin.Redirect code location).
Proof.
  intros Hc. split; intros c; rewrite Redirect_good_code by lia; cbn; try done.
  - apply http_Redirect_steps, writer_steps_refl.
  - apply http_Redirect_ok.
  - intros _. apply http_Redirect_valid. lia.
Qed.

End WellBehavedOps.
