(* ===== verification/Handlers.v ===== *)
(** * Handlers: the Gopher resource and the handler functions of src/main.go

    The struct [Gopher] with its JSON tags, and the seven handlers of the
    program: the anonymous function registered at the root and the six named
    functions [CreateGopher], [GetGophers], [GetGopherByID], [UpdateGopher],
    [DeleteGopher] and [HealthCheck].  Each definition is the body of the Go
    function, written with the operations of [Context].

    The lemmas give, for each handler, the exact state in which it leaves a
    fresh writer, and show that every handler meets the engine's interface
    [WellBehaved].  Five of the six named handlers are stubs ("TODO:
    Implement this" in the source): what they answer depends on nothing of
    the request but its method, which the class [ConstantAnswer] states and
    the instances at the end of the file prove of all seven.

    [decode_Gopher] and [decode_Gophers] read the text of a gopher and of
    a list of gophers back, as a client of the API would: a gopher whose
    id and name are valid UTF-8 reads back as it was
    ([Gopher_text_roundtrip]); bytes that are no UTF-8 come back as U+FFFD
    ([Gopher_text_coerced]), so that gophers that differ in such bytes
    alone share a text ([invalid_ids_share_text]). *)

From Stdlib Require Import ZArith Ascii String List Lia.
From stdpp Require Import base tactics option list strings gmap.
From S2P Require Import Prelude Utf8 Http Json Context.
#[local] Open Scope Z_scope.

(** ** The model of a gopher (src/main.go, lines 52 to 56) *)

Record Gopher := mkGopher {
  ID : string;
  Name : string
}.

#[export] Instance Gopher_eq_dec : EqDecision Gopher.
Proof. solve_decision. Defined.

(** The struct tags [json:"id"] and [json:"name"]: the keys under which the
    encoder writes the two fields, in the order of the fields. *)
#[export] Instance Marshal_Gopher : Marshal Gopher := fun g =>
  JObject [("id", JString (ID g)); ("name", JString (Name g))].

(** ** The handlers *)

Section Handlers.
Context `{http.UrlOps}.

(** The function registered at [/] (lines 30 to 32). *)
Definition RootRedirect : gin.HandlerFunc := fun c =>
  gin.Redirect http.StatusMovedPermanently "/swagger/index.html" c.

(** Lines 67 to 70. *)
Definition CreateGopher : gin.HandlerFunc := fun c =>
  gin.JSON http.StatusCreated (mkGopher "" "") c.

(** Lines 79 to 82. *)
Definition GetGophers : gin.HandlerFunc := fun c =>
  gin.JSON http.StatusOK ([] : list Gopher) c.

(** Lines 92 to 95. *)
Definition GetGopherByID : gin.HandlerFunc := fun c =>
  gin.JSON http.StatusOK (mkGopher "" "") c.

(** Lines 107 to 110. *)
Definition UpdateGopher : gin.HandlerFunc := fun c =>
  gin.JSON http.StatusOK (mkGopher "" "") c.

(** Lines 119 to 122. *)
Definition DeleteGopher : gin.HandlerFunc := fun c =>
  gin.Returned (gin.Status http.StatusNoContent c).

(** Lines 132 to 134. *)
Definition HealthCheck : gin.HandlerFunc := fun c =>
  gin.JSON http.StatusOK ({[ "status" := marshal "ok" ]} : gmap string json) c.

End Handlers.

(** ** The bodies, as text *)

Definition quoted (s : string) : string := http.dquote +:+ s +:+ http.dquote.

(** [{"id":"","name":""}] *)
Definition zero_gopher_text : string :=
  "{" +:+ quoted "id" +:+ ":" +:+ quoted "" +:+ ","
      +:+ quoted "name" +:+ ":" +:+ quoted "" +:+ "}".

(** [{"status":"ok"}] *)
Definition health_text : string :=
  "{" +:+ quoted "status" +:+ ":" +:+ quoted "ok" +:+ "}".

Lemma Marshal_zero_gopher : Marshal_bytes (mkGopher "" "") = zero_gopher_text.
Proof. reflexivity. Qed.

Lemma Marshal_no_gophers : Marshal_bytes ([] : list Gopher) = "[]".
Proof. reflexivity. Qed.

Lemma Marshal_health :
  Marshal_bytes ({[ "status" := marshal "ok" ]} : gmap string json) = health_text.
Proof. unfold Marshal_bytes. by rewrite marshal_map_singleton. Qed.

(** ** Reading a gopher back

    The program never decodes JSON; a client does.  [decode_Gopher] reads
    the text of a response as JSON and takes a gopher from the object the
    encoder writes for the struct: the two keys of the struct tags, in the
    order of the fields, each with a string.  [decode_Gophers] does so for
    an array of them. *)
Definition Gopher_of_json (j : json) : option Gopher :=
  match j with
  | JObject [(k1, JString i); (k2, JString n)] =>
      if bool_decide (k1 = "id") && bool_decide (k2 = "name") then Some (mkGopher i n)
      else None
  | _ => None
  end.

Definition Gophers_of_json (j : json) : option (list Gopher) :=
  match j with
  | JArray l => mapM Gopher_of_json l
  | _ => None
  end.

Definition decode_Gopher (text : string) : option Gopher :=
  decode text ≫= Gopher_of_json.

Definition decode_Gophers (text : string) : option (list Gopher) :=
  decode text ≫= Gophers_of_json.

(** A gopher whose id and name are valid UTF-8. *)
Definition valid_Gopher (g : Gopher) : Prop :=
  utf8.ValidString (ID g) = true /\ utf8.ValidString (Name g) = true.

#[export] Instance valid_Gopher_dec g : Decision (valid_Gopher g).
Proof. unfold valid_Gopher. apply _. Defined.

(** The gopher with its id and name made valid UTF-8. *)
Definition coerce_Gopher (g : Gopher) : Gopher :=
  mkGopher (utf8.coerce (ID g)) (utf8.coerce (Name g)).

Lemma Gopher_of_json_marshal (g : Gopher) : Gopher_of_json (marshal g) = Some g.
Proof. by destruct g. Qed.

Lemma coerce_json_Gopher (g : Gopher) : coerce_json (marshal g) = marshal (coerce_Gopher g).
Proof. reflexivity. Qed.

Lemma coerce_Gopher_valid g : valid_Gopher g -> coerce_Gopher g = g.
Proof. destruct g. intros [Hi Hn]. unfold coerce_Gopher. by rewrite !utf8.coerce_valid. Qed.

(** The text of a gopher reads back as the gopher made valid UTF-8, and
    the text of a list of gophers as the list of them. *)
Lemma Gopher_text_coerced (g : Gopher) (gs : list Gopher) :
  decode_Gopher (Marshal_bytes g) = Some (coerce_Gopher g)
  /\ decode_Gophers (Marshal_bytes gs) = Some (coerce_Gopher <$> gs).
Proof.
  unfold decode_Gopher, decode_Gophers, Marshal_bytes. rewrite !decode_encode.
  cbn [mbind option_bind]. split; [by rewrite coerce_json_Gopher, Gopher_of_json_marshal|].
  cbn. apply mapM_Some. induction gs as [|x gs IH]; constructor; [|done].
  by rewrite coerce_json_Gopher, Gopher_of_json_marshal.
Qed.

(** C26: the text the encoder writes for a gopher whose id and name are
    valid UTF-8, whatever they hold (quotes, backslashes, control
    characters, runes outside ASCII, the line separators the encoder
    escapes), reads back as the same gopher, and the text of a list of
    such gophers as the same list: the encoding of the struct, with its two
    tags, loses nothing of them. *)
Theorem Gopher_text_roundtrip (g : Gopher) (gs : list Gopher) :
  valid_Gopher g -> Forall valid_Gopher gs ->
  decode_Gopher (Marshal_bytes g) = Some g
  /\ decode_Gophers (Marshal_bytes gs) = Some gs.
Proof.
  intros Hg Hgs. destruct (Gopher_text_coerced g gs) as [-> ->].
  rewrite coerce_Gopher_valid by done. split; [done|]. f_equal.
  induction Hgs as [|x gs Hx _ IH]; [done|]. by rewrite fmap_cons, coerce_Gopher_valid, IH.
Qed.

(** Two gophers with the same text differ in invalid bytes at most. *)
Lemma Marshal_bytes_Gopher_inj (g1 g2 : Gopher) :
  Marshal_bytes g1 = Marshal_bytes g2 -> coerce_Gopher g1 = coerce_Gopher g2.
Proof.
  intros Heq%(f_equal decode_Gopher).
  rewrite !(proj1 (Gopher_text_coerced _ [])) in Heq. congruence.
Qed.

(** No other gopher has the text of the zero gopher. *)
Lemma Marshal_bytes_zero (g : Gopher) :
  Marshal_bytes (mkGopher "" "") = Marshal_bytes g -> g = mkGopher "" "".
Proof.
  intros [= Hi Hn]%Marshal_bytes_Gopher_inj. destruct g as [i n]. cbn in *.
  by rewrite (utf8.coerce_empty i), (utf8.coerce_empty n).
Qed.

(** Two ids that are no UTF-8 and differ: the gophers have one text. *)
Example invalid_ids_share_text :
  Marshal_bytes (mkGopher (String "255" "") "") = Marshal_bytes (mkGopher (String "254" "") "")
  /\ ~ valid_Gopher (mkGopher (String "255" "") "").
Proof. split; [by vm_compute|]. intros [Hi _]. by vm_compute in Hi. Qed.

(** ** The JSON answer to a fresh context *)

(** The writer a handler leaves when it answers [code] with the JSON text
    [bytes] to a request of method [m]. *)
Definition json_answer (m : string) (code : Z) (bytes : string) : gin.responseWriter :=
  let h : gmap string (list string) := {[ "Content-Type" := [gin.jsonContentType] ]} in
  gin.mkWriter m h code (Z.of_nat (String.length bytes)) (Some (code, h))
    (if bool_decide (m = "HEAD") then "" else bytes).

(** What the client receives of it. *)
Definition json_response (code : Z) (bytes : string) : http.Response :=
  http.mkResponse code {[ "Content-Type" := [gin.jsonContentType] ]} bytes.

Lemma response_json_answer m code bytes :
  gin.response (gin.WriteHeaderNow (json_answer m code bytes))
  = Some (json_response code (if bool_decide (m = "HEAD") then "" else bytes)).
Proof.
  unfold json_answer, gin.WriteHeaderNow, gin.Written. cbn [gin.rw_size].
  by rewrite (proj2 (Z.eqb_neq _ (-1))) by lia.
Qed.

Section HandlerFacts.
Context `{http.UrlOps}.
Implicit Types (c : gin.Context).

Lemma CreateGopher_fresh c :
  fresh c ->
  CreateGopher c = gin.Returned (gin.with_writer c
    (json_answer (http.Method (gin.Request c)) 201 zero_gopher_text)).
Proof. intros Hc. unfold CreateGopher. by rewrite JSON_fresh. Qed.

Lemma GetGophers_fresh c :
  fresh c ->
  GetGophers c = gin.Returned (gin.with_writer c
    (json_answer (http.Method (gin.Request c)) 200 "[]")).
Proof. intros Hc. unfold GetGophers. by rewrite JSON_fresh. Qed.

Lemma GetGopherByID_fresh c :
  fresh c ->
  GetGopherByID c = gin.Returned (gin.with_writer c
    (json_answer (http.Method (gin.Request c)) 200 zero_gopher_text)).
Proof. intros Hc. unfold GetGopherByID. by rewrite JSON_fresh. Qed.

Lemma UpdateGopher_fresh c :
  fresh c ->
  UpdateGopher c = gin.Returned (gin.with_writer c
    (json_answer (http.Method (gin.Request c)) 200 zero_gopher_text)).
Proof. intros Hc. unfold UpdateGopher. by rewrite JSON_fresh. Qed.

Lemma HealthCheck_fresh c :
  fresh c ->
  HealthCheck c = gin.Returned (gin.with_writer c
    (json_answer (http.Method (gin.Request c)) 200 health_text)).
Proof.
  intros Hc. unfold HealthCheck. rewrite JSON_fresh by done.
  cbn zeta. by rewrite Marshal_health.
Qed.

(** [DeleteGopher] records 204 and writes nothing: the header is still to
    be sent when the handler returns. *)
Lemma DeleteGopher_fresh c :
  fresh c ->
  DeleteGopher c = gin.Returned (gin.with_writer c
    (gin.mkWriter (http.Method (gin.Request c)) ∅ 204 (-1) None "")).
Proof.
  intros Hc. unfold DeleteGopher. f_equal. unfold gin.Status at 1. f_equal.
  by apply Status_fresh.
Qed.

(** The root handler on a fresh context: a redirection to the swagger UI,
    with the short HTML body net/http writes for GET. *)
Lemma RootRedirect_fresh c :
  fresh c ->
  RootRedirect c = gin.Returned (gin.with_writer c
    (http.Redirect (gin.reset (http.Method (gin.Request c))) (gin.Request c)
       "/swagger/index.html" 301)).
Proof.
  intros Hc. unfold RootRedirect. rewrite Redirect_good_code by lia.
  by rewrite Hc.
Qed.

(** ** Every handler meets the engine's interface *)

#[export] Instance RootRedirect_WellBehaved : WellBehaved RootRedirect.
Proof.
  change (WellBehaved (gin.Redirect 301 "/swagger/index.html")).
  apply Redirect_WellBehaved. lia.
Qed.

#[export] Instance CreateGopher_WellBehaved : WellBehaved CreateGopher.
Proof. apply JSON_WellBehaved. lia. Qed.

#[export] Instance GetGophers_WellBehaved : WellBehaved GetGophers.
Proof. apply JSON_WellBehaved. lia. Qed.

#[export] Instance GetGopherByID_WellBehaved : WellBehaved GetGopherByID.
Proof. apply JSON_WellBehaved. lia. Qed.

#[export] Instance UpdateGopher_WellBehaved : WellBehaved UpdateGopher.
Proof. apply JSON_WellBehaved. lia. Qed.

#[export] Instance DeleteGopher_WellBehaved : WellBehaved DeleteGopher.
Proof. apply Status_WellBehaved. lia. Qed.

#[export] Instance HealthCheck_WellBehaved : WellBehaved HealthCheck.
Proof. apply JSON_WellBehaved. lia. Qed.

(** ** Handlers that answer the same to every request

    [ConstantAnswer h answer]: on a fresh context, [h] leaves the writer
    [answer m], where [m] is the method of the request, whatever else the
    request and the context hold.  All seven handlers of the program are of
    this kind: the root handler by design, [HealthCheck] by its purpose, the
    five gopher handlers because they are stubs. *)

Class ConstantAnswer (h : gin.HandlerFunc) (answer : string -> gin.responseWriter) : Prop :=
  constant_answer c :
    fresh c -> h c = gin.Returned (gin.with_writer c (answer (http.Method (gin.Request c)))).

#[global] Hint Mode ConstantAnswer ! - : typeclass_instances.

#[export] Instance CreateGopher_constant :
  ConstantAnswer CreateGopher (fun m => json_answer m 201 zero_gopher_text).
Proof. exact CreateGopher_fresh. Qed.

#[export] Instance GetGophers_constant :
  ConstantAnswer GetGophers (fun m => json_answer m 200 "[]").
Proof. exact GetGophers_fresh. Qed.

#[export] Instance GetGopherByID_constant :
  ConstantAnswer GetGopherByID (fun m => json_answer m 200 zero_gopher_text).
Proof. exact GetGopherByID_fresh. Qed.

#[export] Instance UpdateGopher_constant :
  ConstantAnswer UpdateGopher (fun m => json_answer m 200 zero_gopher_text).
Proof. exact UpdateGopher_fresh. Qed.

#[export] Instance DeleteGopher_constant :
  ConstantAnswer DeleteGopher (fun m => gin.mkWriter m ∅ 204 (-1) None "").
Proof. exact DeleteGopher_fresh. Qed.

#[export] Instance HealthCheck_constant :
  ConstantAnswer HealthCheck (fun m => json_answer m 200 health_text).
Proof. exact HealthCheck_fresh. Qed.

#[export] Instance RootRedirect_constant :
  ConstantAnswer RootRedirect (fun m => redirect_writer m 301 "/swagger/index.html").
Proof. intros c Hc. by rewrite RootRedirect_fresh, http_Redirect_writer. Qed.

End HandlerFacts.

(** ** The round trip at a concrete gopher *)

(** A gopher with a rune of two bytes in its id (U+00E9), and in its name a
    line separator (U+2028), which the encoder escapes, beside the
    characters it escapes for HTML. *)
Definition gopher_utf8 : Gopher :=
  mkGopher (String "195" (String "169" ""))
    ("a" +:+ String "226" (String "128" (String "168" "")) +:+ "<b>").

Example escape_gopher_utf8 :
  escape (ID gopher_utf8) = ID gopher_utf8
  /\ escape (Name gopher_utf8) = "a\u2028\u003cb\u003e".
Proof. by vm_compute. Qed.

Lemma Gopher_text_roundtrip_witness :
  decode_Gopher (Marshal_bytes gopher_utf8) = Some gopher_utf8
  /\ decode_Gophers (Marshal_bytes [gopher_utf8; mkGopher "1" "Gopher"])
     = Some [gopher_utf8; mkGopher "1" "Gopher"].
Proof.
  apply Gopher_text_roundtrip; [|repeat constructor]; by vm_compute.
Defined.
