(* ===== verification/Path.v ===== *)
(** * Path: route patterns, their matcher, and joining of group paths

    gin keeps the routes of a method in a radix tree (tree.go).  The model
    works on whole path segments instead: a pattern is the list of segments
    of the registered path, each a literal, a parameter [:name] or a
    catch-all [*name], and a request path matches it segment by segment.  For
    patterns whose wildcard is the last segment (all the program has) this is
    what the tree computes; a parameter is modelled as matching one non-empty
    segment.

    [path.Clean] and [path.Join] of Go's package [path] and gin's [joinPaths]
    are here because route groups compute the registered path with them:
    [r.Group("/gophers")] followed by [GET("/:id")] registers
    [joinPaths("/gophers", "/:id")].  [Clean] works on a stack of path
    elements; the lemmas give the invariant of the stack and show that
    [Clean] is idempotent.  The last section relates a pattern to its text:
    [parse_pattern] accepts the well-formed patterns and no others, and
    reading and printing are inverse to one another on them. *)

From Stdlib Require Import ZArith Ascii String List Lia.
From stdpp Require Import base tactics option list strings.
From S2P Require Import Prelude.

(** ** Segments of a request path *)

(** The segments of an absolute path: the pieces after the leading slash.
    [/] has the single segment [""]; a path that does not start with a slash
    has none. *)
Definition path_segments (p : string) : option (list string) :=
  match p with
  | String "/" rest => Some (split_on "/" rest)
  | _ => None
  end.

(** ** Patterns *)

Inductive segment : Type :=
| Static (s : string)
| Param (name : string)
| CatchAll (name : string).

#[export] Instance segment_eq_dec : EqDecision segment.
Proof. solve_decision. Defined.

Abbreviation pattern := (list segment) (only parsing).

Definition is_wildcard_char (a : ascii) : bool :=
  bool_decide (a = ":"%char) || bool_decide (a = "*"%char).

Fixpoint has_wildcard_char (s : string) : bool :=
  match s with
  | EmptyString => false
  | String a s' => is_wildcard_char a || has_wildcard_char s'
  end.

(** One segment of a registered path.  gin panics on a wildcard without a
    name and on a name that holds another wildcard; a wildcard that starts
    inside a segment ([/user_:name]) is valid in gin and outside this
    model. *)
Definition parse_segment (s : string) : option segment :=
  match s with
  | String ":" name =>
      if bool_decide (name = "") || has_wildcard_char name then None
      else Some (Param name)
  | String "*" name =>
      if bool_decide (name = "") || has_wildcard_char name then None
      else Some (CatchAll name)
  | _ => if has_wildcard_char s then None else Some (Static s)
  end.

(** A catch-all is allowed as the last segment only. *)
Fixpoint catch_all_last (pat : pattern) : bool :=
  match pat with
  | [] => true
  | [_] => true
  | CatchAll _ :: _ => false
  | _ :: pat' => catch_all_last pat'
  end.

Definition parse_pattern (p : string) : option pattern :=
  segs ← path_segments p;
  pat ← mapM parse_segment segs;
  if catch_all_last pat then Some pat else None.

Definition print_segment (s : segment) : string :=
  match s with
  | Static s => s
  | Param n => String ":" n
  | CatchAll n => String "*" n
  end.

Definition print_pattern (pat : pattern) : string :=
  String "/" (join_with "/" (print_segment <$> pat)).

(** ** The matcher *)

(** [match_segments pat segs]: the parameters bound when the segments of a
    request path match the pattern.  A literal matches itself, a parameter
    one non-empty segment, a catch-all whatever remains (at least one
    segment, which may be empty); the value of a catch-all starts with a
    slash, as in gin. *)
Fixpoint match_segments (pat : pattern) (segs : list string)
    : option (list (string * string)) :=
  match pat, segs with
  | [], [] => Some []
  | Static s :: pat', x :: segs' =>
      if bool_decide (s = x) then match_segments pat' segs' else None
  | Param n :: pat', x :: segs' =>
      if bool_decide (x = "") then None
      else ps ← match_segments pat' segs'; Some ((n, x) :: ps)
  | CatchAll n :: _, x :: segs' =>
      Some [(n, String "/" (join_with "/" (x :: segs')))]
  | _, _ => None
  end.

Definition match_path (pat : pattern) (p : string) : option (list (string * string)) :=
  segs ← path_segments p; match_segments pat segs.

(** ** Package path *)

Module path.

(** One step of [Clean] over the elements seen so far, most recent first. *)
Definition clean_step (rooted : bool) (stack : list string) (seg : string)
    : list string :=
  if bool_decide (seg = "") || bool_decide (seg = ".") then stack
  else if bool_decide (seg = "..") then
    match stack with
    | top :: rest => if bool_decide (top = "..") then seg :: stack else rest
    | [] => if rooted then [] else [seg]
    end
  else seg :: stack.

(** [path.Clean]: the shortest path equivalent to [p] by lexical processing.
    Empty and [.] elements go, [..] takes the element before it with it, a
    rooted path cannot climb above the root, and the empty result is [.]. *)
Definition is_rooted (p : string) : bool :=
  match p with String "/" _ => true | _ => false end.

(** The elements that remain of a path, most recent first. *)
Definition stack_of (p : string) : list string :=
  foldl (clean_step (is_rooted p)) [] (split_on "/" p).

(** The path of a stack. *)
Definition render (rooted : bool) (stack : list string) : string :=
  let body := join_with "/" (reverse stack) in
  if rooted then String "/" body
  else if bool_decide (body = "") then "." else body.

Definition Clean (p : string) : string := render (is_rooted p) (stack_of p).

(** [path.Join(a, b)] for two elements: empty elements are ignored, the rest
    is joined with a slash and cleaned; the result is empty if both are. *)
Definition Join (a b : string) : string :=
  if bool_decide (a = "") && bool_decide (b = "") then ""
  else if bool_decide (a = "") then Clean b
  else if bool_decide (b = "") then Clean a
  else Clean (a +:+ "/" +:+ b).

End path.

(** gin's [joinPaths(absolutePath, relativePath)], by which a route group
    computes the path it registers. *)
Definition joinPaths (absolutePath relativePath : string) : string :=
  if bool_decide (relativePath = "") then absolutePath
  else
    let finalPath := path.Join absolutePath relativePath in
    if bool_decide (last_char relativePath = Some "/"%char)
       && negb (bool_decide (last_char finalPath = Some "/"%char))
    then finalPath +:+ "/"
    else finalPath.

(** ** Lemmas: segments *)

Definition no_slash (s : string) : Prop := contains_char "/" s = false.

#[export] Instance no_slash_dec s : Decision (no_slash s).
Proof. unfold no_slash. apply _. Defined.

Lemma path_segments_slash rest : path_segments (String "/" rest) = Some (split_on "/" rest).
Proof. reflexivity. Qed.

(** Printing segments and reading them back. *)
Lemma path_segments_join segs :
  segs <> [] -> Forall no_slash segs ->
  path_segments (String "/" (join_with "/" segs)) = Some segs.
Proof. intros Hne Hs. rewrite path_segments_slash. f_equal. by apply split_join. Qed.

Lemma path_segments_inv p segs :
  path_segments p = Some segs ->
  p = String "/" (join_with "/" segs) /\ segs <> [] /\ Forall no_slash segs.
Proof.
  destruct p as [|a rest]; [done|]. unfold path_segments.
  destruct (decide (a = "/"%char)) as [->|Hne].
  - intros [= <-]. rewrite join_split. split_and!; auto with gopher.
    apply split_on_pieces.
  - destruct a as [[] [] [] [] [] [] [] []]; done.
Qed.

Lemma path_segments_Some_iff p segs :
  path_segments p = Some segs <->
  p = String "/" (join_with "/" segs) /\ segs <> [] /\ Forall no_slash segs.
Proof.
  split; [apply path_segments_inv|]. intros (-> & Hne & Hs).
  by apply path_segments_join.
Qed.

(** The segments of [/a/rest] for a literal [a] without a slash. *)
Lemma path_segments_prefix a rest :
  no_slash a ->
  path_segments (String "/" (a +:+ String "/" rest)) = Some (a :: split_on "/" rest).
Proof.
  intros Ha. rewrite path_segments_slash, split_on_app_sep.
  by rewrite split_on_no_sep.
Qed.

Lemma path_segments_two a b :
  no_slash a -> no_slash b ->
  path_segments (String "/" (a +:+ String "/" b)) = Some [a; b].
Proof. intros Ha Hb. by rewrite path_segments_prefix, split_on_no_sep. Qed.

(** ** Lemmas: [path.Clean] *)

Section Clean.
Implicit Types (st l : list string) (seg p : string) (rooted : bool).

(** An element that [Clean] keeps as it is. *)
Definition plain (seg : string) : Prop :=
  seg <> "" /\ seg <> "." /\ seg <> ".." /\ no_slash seg.

(** The stacks [Clean] builds: plain elements above, and below them, in a
    path that is not rooted, the [..] that could not be resolved. *)
Definition clean_stack (rooted : bool) (st : list string) : Prop :=
  exists ps k, st = ps ++ replicate k ".." /\ Forall plain ps /\ (rooted = true -> k = 0%nat).

Lemma clean_stack_nil rooted : clean_stack rooted [].
Proof. by exists [], 0%nat. Qed.

Lemma clean_step_plain rooted st seg : plain seg -> path.clean_step rooted st seg = seg :: st.
Proof.
  intros (H1 & H2 & H3 & _). unfold path.clean_step.
  by rewrite !bool_decide_eq_false_2.
Qed.

Lemma clean_step_ok rooted st seg :
  no_slash seg -> clean_stack rooted st -> clean_stack rooted (path.clean_step rooted st seg).
Proof.
  intros Hs (ps & k & -> & Hps & Hk). unfold path.clean_step.
  destruct (decide (seg = "")) as [->|H1]; [by exists ps, k|].
  destruct (decide (seg = ".")) as [->|H2]; [by exists ps, k|].
  rewrite !bool_decide_eq_false_2 by done. cbn [orb].
  case_bool_decide as H3; [subst seg|by exists (seg :: ps), k; split_and!; [|constructor|]].
  destruct ps as [|top ps]; cbn.
  - destruct k as [|k]; cbn.
    + destruct rooted; [by exists [], 0%nat|]. by exists [], 1%nat.
    + rewrite bool_decide_eq_true_2 by done. exists [], (S (S k)). split_and!; [done..|].
      intros Hr. by specialize (Hk Hr).
  - apply Forall_cons in Hps as [(_ & _ & Ht & _) Hps].
    rewrite bool_decide_eq_false_2 by done. by exists ps, k.
Qed.

Lemma clean_stack_no_slash rooted st : clean_stack rooted st -> Forall no_slash st.
Proof.
  intros (ps & k & -> & Hps & _). apply Forall_app. split.
  - eapply Forall_impl; [done|]. by intros x (_ & _ & _ & Hx).
  - apply Forall_replicate. done.
Qed.

Lemma foldl_clean_ok rooted st l :
  Forall no_slash l -> clean_stack rooted st ->
  clean_stack rooted (foldl (path.clean_step rooted) st l).
Proof.
  intros Hl. revert st. induction Hl as [|seg l Hs _ IH]; intros st Hst; [done|].
  cbn. by apply IH, clean_step_ok.
Qed.

(** Cleaning the elements of a clean stack rebuilds it. *)
Lemma foldl_clean_plain rooted st ps :
  Forall plain ps -> foldl (path.clean_step rooted) st ps = reverse ps ++ st.
Proof.
  intros Hps. revert st. induction Hps as [|seg ps Hs _ IH]; intros st; [done|].
  rewrite reverse_cons. cbn [foldl]. rewrite clean_step_plain, IH by done.
  by rewrite <- app_assoc.
Qed.

Lemma foldl_clean_dots k j :
  foldl (path.clean_step false) (replicate j "..") (replicate k "..") = replicate (k + j) "..".
Proof.
  revert j. induction k as [|k IH]; intros j; [done|]. cbn [replicate foldl].
  replace (path.clean_step false (replicate j "..") "..") with (replicate (S j) "..").
  - rewrite IH. f_equal. lia.
  - by destruct j.
Qed.

Lemma foldl_clean_fixed rooted st :
  clean_stack rooted st -> foldl (path.clean_step rooted) [] (reverse st) = st.
Proof.
  intros (ps & k & -> & Hps & Hk). rewrite reverse_app, reverse_replicate, foldl_app.
  assert (foldl (path.clean_step rooted) [] (replicate k "..") = replicate k "..") as ->.
  { destruct rooted; [by rewrite Hk|]. pose proof (foldl_clean_dots k 0) as Hd.
    cbn [replicate] in Hd. rewrite Hd. f_equal. lia. }
  rewrite foldl_clean_plain by by apply Forall_reverse. by rewrite reverse_involutive.
Qed.

(** ** [Clean] is idempotent *)

Lemma is_rooted_String a s : path.is_rooted (String a s) = bool_decide (a = "/"%char).
Proof. by destruct a as [[] [] [] [] [] [] [] []]. Qed.

Lemma stack_of_ok p : clean_stack (path.is_rooted p) (path.stack_of p).
Proof. apply foldl_clean_ok; [apply split_on_pieces|apply clean_stack_nil]. Qed.

(** The path of a clean stack that is not empty: its elements, and not
    rooted unless it is meant to be. *)
Lemma render_segments st :
  st <> [] -> Forall no_slash st -> split_on "/" (join_with "/" (reverse st)) = reverse st.
Proof.
  intros Hne Hs. apply split_join; [by intros ?%reverse_eq_nil|by apply Forall_reverse].
Qed.

Lemma clean_stack_head st x l :
  clean_stack false st -> reverse st = x :: l -> exists a t, x = String a t /\ a <> "/"%char.
Proof.
  intros (ps & k & -> & Hps & _) Hr.
  assert (x ∈ ps ++ replicate k "..") as [Hx|Hx]%elem_of_app.
  { apply elem_of_reverse. rewrite Hr. by left. }
  - pose proof (proj1 (Forall_forall _ _) Hps x Hx) as (Hne & _ & _ & Hs).
    destruct x as [|a t]; [done|]. exists a, t. split; [done|]. intros ->. done.
  - apply elem_of_replicate in Hx as [-> _]. by eexists _, _.
Qed.

Lemma render_rooted st : path.render true st = String "/" (join_with "/" (reverse st)).
Proof. reflexivity. Qed.

Lemma render_free st :
  join_with "/" (reverse st) <> "" -> path.render false st = join_with "/" (reverse st).
Proof. intros Hne. unfold path.render. by rewrite bool_decide_eq_false_2. Qed.

Lemma Clean_render_rooted st :
  clean_stack true st -> path.Clean (path.render true st) = path.render true st.
Proof.
  intros Hst. pose proof (clean_stack_no_slash _ _ Hst) as Hs.
  destruct (decide (st = [])) as [->|Hne]; [done|].
  rewrite render_rooted. unfold path.Clean, path.stack_of. cbn [path.is_rooted].
  rewrite split_on_sep_head, render_segments by done.
  cbn [foldl]. change (path.clean_step true [] "") with (@nil string).
  by rewrite foldl_clean_fixed.
Qed.

(** The path of a clean stack that is not rooted does not start with a
    slash, and is not empty unless the stack is. *)
Lemma render_free_shape st x l :
  clean_stack false st -> reverse st = x :: l ->
  join_with "/" (reverse st) <> "" /\ path.is_rooted (join_with "/" (reverse st)) = false.
Proof.
  intros Hst Hr. destruct (clean_stack_head _ _ _ Hst Hr) as (a & t & -> & Ha).
  destruct (join_with_head "/" (String a t) l) as [u Hu]. rewrite Hr, Hu, app_String.
  split; [done|]. by rewrite is_rooted_String, bool_decide_eq_false_2.
Qed.

Lemma Clean_render_free st :
  clean_stack false st -> path.Clean (path.render false st) = path.render false st.
Proof.
  intros Hst. pose proof (clean_stack_no_slash _ _ Hst) as Hs.
  destruct (reverse st) as [|x l] eqn:Hr; [by apply reverse_eq_nil in Hr as ->|].
  assert (st <> []) as Hne by (by intros ->).
  destruct (render_free_shape _ _ _ Hst Hr) as [Hbody Hroot].
  rewrite render_free by done.
  unfold path.Clean, path.stack_of. rewrite Hroot, render_segments by done.
  rewrite foldl_clean_fixed by done. by apply render_free.
Qed.

Lemma Clean_render rooted st :
  clean_stack rooted st -> path.Clean (path.render rooted st) = path.render rooted st.
Proof. destruct rooted; [apply Clean_render_rooted|apply Clean_render_free]. Qed.

(** [Clean(Clean(p)) = Clean(p)]: a cleaned path is in its shortest form. *)
Lemma Clean_idem p : path.Clean (path.Clean p) = path.Clean p.
Proof. apply Clean_render, stack_of_ok. Qed.

(** A rooted path of plain elements is clean. *)
Lemma Clean_plain l :
  Forall plain l -> path.Clean (String "/" (join_with "/" l)) = String "/" (join_with "/" l).
Proof.
  intros Hl. rewrite <- (reverse_involutive l).
  apply (Clean_render true). exists (reverse l), 0%nat.
  split_and!; [by rewrite app_nil_r|by apply Forall_reverse|done].
Qed.

End Clean.

(** ** Lemmas: the matcher *)

Section Matcher.
Implicit Types (pat : pattern) (segs : list string) (ps : list (string * string)).

Lemma match_segments_nil_l segs ps : match_segments [] segs = Some ps -> segs = [] /\ ps = [].
Proof. destruct segs; cbn; [by intros [= <-]|done]. Qed.

Lemma match_segments_Static s pat segs ps :
  match_segments (Static s :: pat) segs = Some ps <->
  exists segs', segs = s :: segs' /\ match_segments pat segs' = Some ps.
Proof.
  split.
  - destruct segs as [|x segs']; cbn; [done|]. case_bool_decide; [|done].
    subst. eauto.
  - intros (segs' & -> & Hm). cbn. by rewrite bool_decide_eq_true_2.
Qed.

Lemma match_segments_Param n pat segs ps :
  match_segments (Param n :: pat) segs = Some ps <->
  exists x segs' ps', segs = x :: segs' /\ x <> "" /\ ps = (n, x) :: ps'
                      /\ match_segments pat segs' = Some ps'.
Proof.
  split.
  - destruct segs as [|x segs']; cbn; [done|]. case_bool_decide; [done|].
    destruct (match_segments pat segs') as [ps'|] eqn:E; cbn; [|done].
    intros [= <-]. eauto 10.
  - intros (x & segs' & ps' & -> & Hx & -> & Hm). cbn.
    rewrite bool_decide_eq_false_2 by done. by rewrite Hm.
Qed.

Lemma match_segments_CatchAll n pat segs ps :
  match_segments (CatchAll n :: pat) segs = Some ps <->
  segs <> [] /\ ps = [(n, String "/" (join_with "/" segs))].
Proof.
  destruct segs as [|x segs']; cbn.
  - split; [done|by intros [? _]].
  - split; [by intros [= <-]|by intros [_ ->]].
Qed.

(** The three shapes of pattern the program registers. *)
Lemma match_static s segs ps :
  match_segments [Static s] segs = Some ps <-> segs = [s] /\ ps = [].
Proof.
  rewrite match_segments_Static. split.
  - by intros (segs' & -> & [-> ->]%match_segments_nil_l).
  - intros [-> ->]. by exists [].
Qed.

Lemma match_static_param s n segs ps :
  match_segments [Static s; Param n] segs = Some ps <->
  exists x, x <> "" /\ segs = [s; x] /\ ps = [(n, x)].
Proof.
  rewrite match_segments_Static. split.
  - intros (segs' & -> & (x & segs'' & ps' & -> & Hx & -> & Hm)%match_segments_Param).
    apply match_segments_nil_l in Hm as [-> ->]. eauto.
  - intros (x & Hx & -> & ->). eexists. split; [done|].
    apply match_segments_Param. by exists x, [], [].
Qed.

Lemma match_static_catch_all s n segs ps :
  match_segments [Static s; CatchAll n] segs = Some ps <->
  exists segs', segs' <> [] /\ segs = s :: segs'
                /\ ps = [(n, String "/" (join_with "/" segs'))].
Proof.
  rewrite match_segments_Static. split.
  - intros (segs' & -> & [Hne ->]%match_segments_CatchAll). eauto.
  - intros (segs' & Hne & -> & ->). eexists. split; [done|].
    by apply match_segments_CatchAll.
Qed.

(** The paths the three shapes match. *)
Lemma match_path_static s (p : string) ps :
  match_path [Static s] p = Some ps -> p = String "/" s /\ ps = [].
Proof.
  unfold match_path. destruct (path_segments p) as [segs|] eqn:Hp; [cbn|done].
  intros [-> ->]%match_static. by apply path_segments_inv in Hp as [-> _].
Qed.

Lemma match_path_static_param s n (p : string) ps :
  match_path [Static s; Param n] p = Some ps ->
  exists x, x <> "" /\ no_slash x /\ p = String "/" (s +:+ String "/" x) /\ ps = [(n, x)].
Proof.
  unfold match_path. destruct (path_segments p) as [segs|] eqn:Hp; [cbn|done].
  intros (x & Hx & -> & ->)%match_static_param.
  apply path_segments_inv in Hp as (-> & _ & Hs).
  apply Forall_cons in Hs as [_ [Hs _]%Forall_cons]. by exists x.
Qed.

(** The bound parameters are those of the pattern, in order. *)
Definition pattern_params (pat : pattern) : list string :=
  omap (fun s => match s with Static _ => None | Param n => Some n
                              | CatchAll n => Some n end) pat.

Lemma match_segments_params pat segs ps :
  catch_all_last pat = true ->
  match_segments pat segs = Some ps -> ps.*1 = pattern_params pat.
Proof.
  revert segs ps. induction pat as [|[s|n|n] pat IH]; intros segs ps Hlast.
  - by intros [_ ->]%match_segments_nil_l.
  - intros (segs' & -> & Hm)%match_segments_Static. cbn.
    eapply IH; [|done]. by destruct pat.
  - intros (x & segs' & ps' & -> & _ & -> & Hm)%match_segments_Param. cbn.
    f_equal. eapply IH; [|done]. by destruct pat.
  - intros [_ ->]%match_segments_CatchAll. by destruct pat.
Qed.

End Matcher.

(** ** Lemmas: a pattern and its text *)

(** The segments the parser accepts: no wildcard character and no slash in a
    literal or a name, and no wildcard without a name. *)
Definition segment_wf (seg : segment) : Prop :=
  match seg with
  | Static s => has_wildcard_char s = false /\ no_slash s
  | Param n | CatchAll n => n <> "" /\ has_wildcard_char n = false /\ no_slash n
  end.

Definition pattern_wf (pat : pattern) : Prop :=
  pat <> [] /\ Forall segment_wf pat /\ catch_all_last pat = true.

Section Patterns.
Implicit Types (s p : string) (seg : segment) (pat : pattern).

(** A segment that does not start with a wildcard character is a literal. *)
Lemma parse_segment_literal s :
  has_wildcard_char s = false -> parse_segment s = Some (Static s).
Proof.
  destruct s as [|a s]; [done|]. cbn [has_wildcard_char].
  intros [Ha Hs]%orb_false_iff. unfold parse_segment.
  cbn [has_wildcard_char]. rewrite Ha, Hs.
  by destruct a as [[] [] [] [] [] [] [] []].
Qed.

Lemma parse_segment_cases s seg :
  parse_segment s = Some seg ->
  (seg = Static s /\ has_wildcard_char s = false)
  \/ (exists n, n <> "" /\ has_wildcard_char n = false
        /\ ((s = String ":" n /\ seg = Param n) \/ (s = String "*" n /\ seg = CatchAll n))).
Proof.
  destruct (has_wildcard_char s) eqn:Hw; [|rewrite parse_segment_literal by done; naive_solver].
  destruct s as [|a n]; [done|].
  destruct (decide (a = ":"%char)) as [->|Hc]; [|destruct (decide (a = "*"%char)) as [->|Hs]].
  - cbn. case_bool_decide; [done|]. destruct (has_wildcard_char n) eqn:Hn; naive_solver.
  - cbn. case_bool_decide; [done|]. destruct (has_wildcard_char n) eqn:Hn; naive_solver.
  - unfold parse_segment. rewrite Hw. by destruct a as [[] [] [] [] [] [] [] []].
Qed.

Lemma print_parse_segment s seg : parse_segment s = Some seg -> print_segment seg = s.
Proof. intros [[-> _]|(n & _ & _ & [[-> ->]|[-> ->]])]%parse_segment_cases; done. Qed.

Lemma parse_segment_wf s seg : parse_segment s = Some seg -> no_slash s -> segment_wf seg.
Proof.
  intros [[-> Hw]|(n & Hn & Hw & [[-> ->]|[-> ->]])]%parse_segment_cases Hs; cbn; [done|..];
    split_and!; try done; unfold no_slash in *; cbn in Hs; by case_decide.
Qed.

Lemma parse_print_segment seg : segment_wf seg -> parse_segment (print_segment seg) = Some seg.
Proof.
  destruct seg as [s|n|n]; cbn [segment_wf print_segment].
  - intros [Hw _]. by apply parse_segment_literal.
  - intros (Hn & Hw & _). cbn. by rewrite bool_decide_eq_false_2, Hw.
  - intros (Hn & Hw & _). cbn. by rewrite bool_decide_eq_false_2, Hw.
Qed.

Lemma print_segment_no_slash seg : segment_wf seg -> no_slash (print_segment seg).
Proof.
  destruct seg as [s|n|n]; cbn [segment_wf print_segment]; [by intros [_ ?]|..];
    intros (_ & _ & Hs); unfold no_slash; cbn; by case_decide.
Qed.

Lemma parse_pattern_Some p pat :
  parse_pattern p = Some pat ->
  exists segs, path_segments p = Some segs /\ mapM parse_segment segs = Some pat
               /\ catch_all_last pat = true.
Proof.
  unfold parse_pattern. destruct (path_segments p) as [segs|]; cbn; [|done].
  destruct (mapM parse_segment segs) as [pat'|] eqn:Hm; cbn; [|done].
  destruct (catch_all_last pat') eqn:Hl; [|done]. intros [= <-]. by exists segs.
Qed.

(** What the parser accepts prints as the text it was read from. *)
Lemma print_parse_pattern p pat : parse_pattern p = Some pat -> print_pattern pat = p.
Proof.
  intros (segs & Hs & Hm & _)%parse_pattern_Some.
  apply path_segments_inv in Hs as (-> & _ & _). unfold print_pattern. do 2 f_equal.
  apply mapM_Some in Hm. induction Hm; [done|].
  cbn. f_equal; [by apply print_parse_segment|done].
Qed.

(** The parser accepts the well-formed patterns, and nothing else. *)
Lemma parse_pattern_wf p pat : parse_pattern p = Some pat -> pattern_wf pat.
Proof.
  intros (segs & Hs & Hf & Hlast)%parse_pattern_Some.
  apply path_segments_inv in Hs as (_ & Hne & Hs). apply mapM_Some in Hf.
  split_and!; [|clear Hne Hlast|done].
  - intros ->. apply Forall2_nil_inv_r in Hf. done.
  - induction Hf; inv Hs; constructor; eauto using parse_segment_wf.
Qed.

(** A well-formed pattern reads back from its text. *)
Lemma parse_print_pattern pat : pattern_wf pat -> parse_pattern (print_pattern pat) = Some pat.
Proof.
  intros (Hne & Hwf & Hlast). unfold parse_pattern, print_pattern.
  rewrite path_segments_slash, split_join; cbn.
  - replace (mapM parse_segment (print_segment <$> pat)) with (Some pat); [cbn; by rewrite Hlast|].
    symmetry. apply mapM_Some. clear Hne Hlast.
    induction Hwf; constructor; [by apply parse_print_segment|done].
  - by destruct pat.
  - clear Hne Hlast. induction Hwf; constructor; [by apply print_segment_no_slash|done].
Qed.

(** Reading and printing are inverse to one another on the patterns gin
    accepts. *)
Lemma parse_pattern_iff p pat :
  parse_pattern p = Some pat <-> pattern_wf pat /\ print_pattern pat = p.
Proof.
  split; [eauto using parse_pattern_wf, print_parse_pattern|].
  intros [Hwf <-]. by apply parse_print_pattern.
Qed.

End Patterns.
