(* ===== verification/Router.v ===== *)
(** * Router: gin's engine

    [gin.Default()] gives an engine with the logger and recovery middleware;
    [r.GET], [r.POST], ... and the same methods of a route group register a
    handler for a method and a path; [r.Run] serves requests through
    [ServeHTTP] and [handleHTTPRequest].  This file models that part of gin
    (gin.go, routergroup.go, recovery.go): registration with its panics, the
    lookup of a request, the trailing-slash redirect that [gin.Default] leaves
    switched on, and the default 404.

    The routes are a list in registration order, and lookup takes the first
    route of the method whose pattern matches.  gin prefers a literal to a
    parameter where both match; [pairwise_disjoint] states that no two
    patterns of a method can match the same path, which makes the order
    irrelevant, and [App] proves it of the program's routes.  The logger
    is in [Middleware], which serves through the whole handler chain.

    The lemmas characterise registration ([addRoute_Ok]), the lookup and the
    trailing-slash recommendation ([tsr_path_segments], [tsr_path_empty]), give the three ways a
    request ends ([respond_cases]) with the response of each, show that every
    request is answered by a well-formed writer, reached from the reset
    writer by the writer's own operations ([ServeHTTP_steps]), and that
    engines whose routes differ in order only are equivalent
    ([engine_equiv]). *)

From Stdlib Require Import ZArith Ascii String List Lia.
From stdpp Require Import base tactics option list strings gmap.
From S2P Require Import Prelude Http Json Context Path.
#[local] Open Scope Z_scope.

(** ** Routes and the engine *)

Record route := mkRoute {
  r_method : string;
  r_path : string;                  (* the full path, as registered *)
  r_pattern : list segment;
  r_handler : gin.HandlerFunc
}.

Record Engine := mkEngine {
  trees : list route;
  RedirectTrailingSlash : bool
}.

(** [gin.New()], to which [gin.Default()] adds the logger and the recovery
    middleware (the latter is part of [run] below). *)
Definition Default : Engine := mkEngine [] true.

(** ** Registration *)

(** Whether a new pattern cannot be added beside an existing one: it is the
    same route, it names a parameter differently, or one of the two has a
    catch-all where the other goes on. *)
Fixpoint conflicts (p q : list segment) : bool :=
  match p, q with
  | [], [] => true
  | Static a :: p', Static b :: q' => bool_decide (a = b) && conflicts p' q'
  | Param a :: p', Param b :: q' => if bool_decide (a = b) then conflicts p' q' else true
  | CatchAll _ :: _, _ :: _ => true
  | _ :: _, CatchAll _ :: _ => true
  | _, _ => false
  end.

Definition conflicts_with (method : string) (pat : list segment) (r : route) : bool :=
  bool_decide (r_method r = method) && conflicts pat (r_pattern r).

(** [engine.addRoute(method, path, handlers)]. *)
Definition addRoute (method path : string) (h : gin.HandlerFunc) (e : Engine)
    : result Engine :=
  match path with
  | String "/" _ =>
      if bool_decide (method = "") then Panic "HTTP method can not be empty"
      else
        match parse_pattern path with
        | None => Panic "invalid wildcard in path"
        | Some pat =>
            if existsb (conflicts_with method pat) (trees e)
            then Panic "path conflicts with an existing route"
            else Ok (mkEngine (trees e ++ [mkRoute method path pat h])
                       (RedirectTrailingSlash e))
        end
  | _ => Panic "path must begin with '/'"
  end.

(** Registering the routes of a list, in order. *)
Fixpoint register_all (rs : list route) (e : Engine) : result Engine :=
  match rs with
  | [] => Ok e
  | r :: rs' =>
      e' ← addRoute (r_method r) (r_path r) (r_handler r) e; register_all rs' e'
  end.

(** A route as [addRoute] stores it: the pattern is the parse of the path,
    and the method is not empty. *)
Definition well_formed (r : route) : Prop :=
  parse_pattern (r_path r) = Some (r_pattern r) /\ r_method r <> "".

#[export] Instance well_formed_dec r : Decision (well_formed r).
Proof. unfold well_formed. apply _. Defined.

(** The routes of a list can be registered one after the other, with those
    of [existing] there already: none conflicts with a route before it. *)
Fixpoint registrable (rs existing : list route) : bool :=
  match rs with
  | [] => true
  | r :: rs' =>
      negb (existsb (conflicts_with (r_method r) (r_pattern r)) existing)
      && registrable rs' (existing ++ [r])
  end.

(** No route of the list conflicts with one of [existing]. *)
Fixpoint independent (rs existing : list route) : bool :=
  match rs with
  | [] => true
  | r :: rs' =>
      negb (existsb (conflicts_with (r_method r) (r_pattern r)) existing)
      && independent rs' existing
  end.

(** A route group is its base path: [group.Group(relativePath)]. *)
Definition Group (basePath relativePath : string) : string :=
  joinPaths basePath relativePath.

(** [group.handle(httpMethod, relativePath, handlers)]. *)
Definition handle (basePath method relativePath : string) (h : gin.HandlerFunc)
    (e : Engine) : result Engine :=
  addRoute method (joinPaths basePath relativePath) h e.

Definition GET (basePath relativePath : string) := handle basePath http.MethodGet relativePath.
Definition POST (basePath relativePath : string) := handle basePath http.MethodPost relativePath.
Definition PUT (basePath relativePath : string) := handle basePath http.MethodPut relativePath.
Definition DELETE (basePath relativePath : string) := handle basePath http.MethodDelete relativePath.

(** [resolveAddress(addr)], the address [r.Run(addr...)] listens on: the
    argument if there is one, else the port of the environment variable
    [PORT], else [:8080]. *)
Definition resolveAddress (addr : list string) (port_env : string) : result string :=
  match addr with
  | [] => if bool_decide (port_env = "") then Ok ":8080" else Ok (":" +:+ port_env)
  | [a] => Ok a
  | _ => Panic "too many parameters"
  end.

(** ** Lookup *)

(** The first route of the method whose pattern matches the segments. *)
Fixpoint find_route (method : string) (segs : list string) (rs : list route)
    : option (route * list (string * string)) :=
  match rs with
  | [] => None
  | r :: rs' =>
      if bool_decide (r_method r = method) then
        match match_segments (r_pattern r) segs with
        | Some ps => Some (r, ps)
        | None => find_route method segs rs'
        end
      else find_route method segs rs'
  end.

(** [root.getValue(path, ...)] on the tree of the method: the route and the
    parameters it binds. *)
Definition getValue (method p : string) (rs : list route)
    : option (route * list (string * string)) :=
  segs ← path_segments p; find_route method segs rs.

(** The matcher of the trailing-slash recommendation for a path whose final
    slash is taken away: as [match_segments], but a parameter that ends the
    pattern also takes the empty segment (the tree recommends [/gophers/]
    for [/gophers//]). *)
Fixpoint match_lenient (pat : list segment) (segs : list string) : bool :=
  match pat, segs with
  | [], [] => true
  | Static s :: pat', x :: segs' => bool_decide (s = x) && match_lenient pat' segs'
  | [Param _], [_] => true
  | Param _ :: pat', x :: segs' => negb (bool_decide (x = "")) && match_lenient pat' segs'
  | CatchAll _ :: _, _ :: _ => true
  | _, _ => false
  end.

(** The path gin recommends instead of a path that matched no route: the
    path without its final slash, or with one added, if a route of the
    method would then match.  The empty path (that of a request line in
    absolute form, [GET http://host HTTP/1.1], or of a request built with
    an empty URL) is one slash short of the root of the tree: [/] is
    recommended when the method has a route there.  No other path
    without a leading slash is a prefix of the tree's root. *)
Definition tsr_path (method p : string) (rs : list route) : option string :=
  let of_method := filter (fun r => r_method r = method) rs in
  match path_segments p with
  | None =>
      if bool_decide (p = "")
         && existsb (fun r => bool_decide (r_pattern r = [Static ""])) of_method
      then Some "/"
      else None
  | Some segs =>
      match without_final_empty segs with
      | Some base =>
          if existsb (fun r => match_lenient (r_pattern r) base) of_method
          then Some (String "/" (join_with "/" base))
          else None
      | None =>
          if existsb (fun r => bool_decide (is_Some (match_segments (r_pattern r) (segs ++ [""]))))
               of_method
          then Some (p +:+ "/")
          else None
      end
  end.

(** ** Serving a request *)

Section Serve.
Context `{http.UrlOps}.

(** The handlers of a route run behind the recovery middleware: a panic
    becomes [c.AbortWithStatus(500)] on the context as the panic left it. *)
Definition run (h : gin.HandlerFunc) (c : gin.Context) : gin.Context :=
  match h c with
  | gin.Returned c' => c'
  | gin.Panicked _ c' => gin.AbortWithStatus http.StatusInternalServerError c'
  end.

Definition default404Body : string := "404 page not found".

(** [serveError(c, code, defaultMessage)], with no handler registered for
    the case: the status is stored in the writer directly, and the default
    message is written as plain text unless something was written. *)
Definition serveError (code : Z) (defaultMessage : string) (c : gin.Context)
    : gin.Context :=
  let w := gin.Writer c in
  let w := gin.mkWriter (gin.rw_method w) (gin.rw_header w) code (gin.rw_size w)
             (gin.rw_wire w) (gin.rw_body w) in
  if gin.Written w then gin.with_writer c w
  else
    gin.with_writer c
      (gin.Write defaultMessage
         (gin.mkWriter (gin.rw_method w) (<["Content-Type" := ["text/plain"]]> (gin.rw_header w))
            (gin.rw_status w) (gin.rw_size w) (gin.rw_wire w) (gin.rw_body w))).

(** [redirectTrailingSlash(c)] followed by [redirectRequest(c)]: a permanent
    redirect for GET, a temporary one for every other method, to the
    recommended path (behind the prefix a proxy may have announced). *)
Definition redirectTrailingSlash (target : string) (c : gin.Context) : gin.Context :=
  let req := gin.Request c in
  let p :=
    if http.Has "X-Forwarded-Prefix" (http.ReqHeader req)
    then http.forwarded_prefix (http.Get "X-Forwarded-Prefix" (http.ReqHeader req)) target
    else target in
  let rURL := http.url_string p (http.RawQuery req) in
  let code := if bool_decide (http.Method req = http.MethodGet)
              then http.StatusMovedPermanently else http.StatusTemporaryRedirect in
  gin.with_writer c (gin.WriteHeaderNow (http.Redirect (gin.Writer c) req rURL code)).

(** [engine.handleHTTPRequest(c)]. *)
Definition handleHTTPRequest (e : Engine) (c : gin.Context) : gin.Context :=
  let req := gin.Request c in
  match getValue (http.Method req) (http.Path req) (trees e) with
  | Some (r, ps) =>
      let c := gin.mkContext req ps (gin.Writer c) (gin.Aborted c) in
      let c := run (r_handler r) c in
      gin.with_writer c (gin.WriteHeaderNow (gin.Writer c))
  | None =>
      match tsr_path (http.Method req) (http.Path req) (trees e) with
      | Some target =>
          if negb (bool_decide (http.Method req = http.MethodConnect))
             && negb (bool_decide (http.Path req = "/"))
             && RedirectTrailingSlash e
          then redirectTrailingSlash target c
          else serveError http.StatusNotFound default404Body c
      | None => serveError http.StatusNotFound default404Body c
      end
  end.

(** [engine.ServeHTTP(w, req)]: a context from the pool, reset for the
    request, goes through [handleHTTPRequest]. *)
Definition ServeHTTP (e : Engine) (req : http.Request) : gin.Context :=
  handleHTTPRequest e (gin.mkContext req [] (gin.reset (http.Method req)) false).

(** What the client receives of the engine: status, header and body as they
    are handed to net/http.  (The default is never taken: see
    [ServeHTTP_responds].) *)
Definition respond (e : Engine) (req : http.Request) : http.Response :=
  default (http.mkResponse 0 ∅ "") (gin.response (gin.Writer (ServeHTTP e req))).

End Serve.

#[global] Arguments run : simpl never.
#[global] Arguments serveError : simpl never.
#[global] Arguments redirectTrailingSlash : simpl never.
#[global] Arguments getValue : simpl never.
#[global] Arguments tsr_path : simpl never.

(** ** Patterns that cannot match the same path *)

(** [overlap p q]: the two patterns may match a common path.  A literal and
    a parameter overlap when the literal is not empty; a catch-all overlaps
    with whatever goes on at its position. *)
Fixpoint overlap (p q : list segment) : bool :=
  match p, q with
  | [], [] => true
  | Static a :: p', Static b :: q' => bool_decide (a = b) && overlap p' q'
  | Static a :: p', Param _ :: q' => negb (bool_decide (a = "")) && overlap p' q'
  | Param _ :: p', Static b :: q' => negb (bool_decide (b = "")) && overlap p' q'
  | Param _ :: p', Param _ :: q' => overlap p' q'
  | CatchAll _ :: _, _ :: _ => true
  | _ :: _, CatchAll _ :: _ => true
  | _, _ => false
  end.

Definition routes_overlap (r1 r2 : route) : bool :=
  bool_decide (r_method r1 = r_method r2) && overlap (r_pattern r1) (r_pattern r2).

(** No two routes of the table overlap. *)
Fixpoint pairwise_disjoint (rs : list route) : bool :=
  match rs with
  | [] => true
  | r :: rs' => forallb (fun r' => negb (routes_overlap r r')) rs' && pairwise_disjoint rs'
  end.

Section Lookup.
Implicit Types (p q : list segment) (segs : list string) (r : route) (rs : list route).

Lemma overlap_sound p q segs ps1 ps2 :
  match_segments p segs = Some ps1 -> match_segments q segs = Some ps2 ->
  overlap p q = true.
Proof.
  revert q segs ps1 ps2.
  induction p as [|[a|a|a] p IH]; intros [|[b|b|b] q] segs ps1 ps2 Hp Hq;
    try done; destruct segs as [|x segs]; try done; cbn in *;
    repeat case_bool_decide; simplify_eq/=; try done.
  - eauto.
  - destruct (match_segments q segs) eqn:E; [|done]. cbn. eauto.
  - destruct (match_segments p segs) eqn:E; [|done]. cbn. eauto.
  - destruct (match_segments p segs) eqn:E1; [|done].
    destruct (match_segments q segs) eqn:E2; [|done]. eauto.
Qed.

Lemma overlap_sym p q : overlap p q = overlap q p.
Proof.
  revert q. induction p as [|[a|a|a] p IH]; intros [|[b|b|b] q]; cbn; try done;
    rewrite ?IH; try done.
  f_equal. apply bool_decide_ext. naive_solver.
Qed.

Lemma find_route_Some method segs rs r ps :
  find_route method segs rs = Some (r, ps) ->
  r ∈ rs /\ r_method r = method /\ match_segments (r_pattern r) segs = Some ps.
Proof.
  induction rs as [|r' rs IH]; cbn; [done|].
  case_bool_decide as Hm.
  - destruct (match_segments (r_pattern r') segs) as [ps'|] eqn:E.
    + intros [= <- <-]. split_and!; [left|done..].
    + intros (? & ? & ?)%IH. split_and!; [by right|done..].
  - intros (? & ? & ?)%IH. split_and!; [by right|done..].
Qed.

Lemma getValue_Some method (path : string) rs r ps :
  getValue method path rs = Some (r, ps) ->
  r ∈ rs /\ r_method r = method /\ match_path (r_pattern r) path = Some ps.
Proof.
  unfold getValue, match_path. destruct (path_segments path) as [segs|]; [|done].
  apply find_route_Some.
Qed.

Lemma find_route_None method segs rs :
  find_route method segs rs = None <->
  forall r, r ∈ rs -> r_method r = method -> match_segments (r_pattern r) segs = None.
Proof.
  induction rs as [|r' rs IH]; cbn.
  - split; [|done]. by intros _ r ?%elem_of_nil.
  - case_bool_decide as Hm.
    + destruct (match_segments (r_pattern r') segs) as [ps'|] eqn:E.
      * split; [done|]. intros Hall. by rewrite (Hall r') in E by (done || left).
      * rewrite IH. split.
        -- intros Hall r [->|Hr]%elem_of_cons Hr'; [done|by apply Hall].
        -- intros Hall r Hr Hr'. apply Hall; [by right|done].
    + rewrite IH. split.
      * intros Hall r [->|Hr]%elem_of_cons Hr'; [done|by apply Hall].
      * intros Hall r Hr Hr'. apply Hall; [by right|done].
Qed.

Lemma find_route_app method segs rs1 rs2 :
  find_route method segs (rs1 ++ rs2) =
    match find_route method segs rs1 with
    | Some x => Some x
    | None => find_route method segs rs2
    end.
Proof.
  induction rs1 as [|r rs1 IH]; cbn; [done|].
  case_bool_decide; [|done]. by destruct (match_segments (r_pattern r) segs).
Qed.

Lemma pairwise_disjoint_cons r rs :
  pairwise_disjoint (r :: rs) = true <->
  (forall r', r' ∈ rs -> routes_overlap r r' = false) /\ pairwise_disjoint rs = true.
Proof.
  cbn. rewrite andb_true_iff, forallb_forall. split; intros [Hr Hrs]; split; try done.
  - intros r' Hr'%list_elem_of_In. apply Hr in Hr'. by apply negb_true_iff.
  - intros r' Hr'%list_elem_of_In. apply negb_true_iff. by apply Hr.
Qed.

(** In a table without overlaps, the route that matches is found, wherever
    it stands: the order of registration does not matter. *)
Lemma find_route_disjoint method segs rs r ps :
  pairwise_disjoint rs = true ->
  r ∈ rs -> r_method r = method -> match_segments (r_pattern r) segs = Some ps ->
  find_route method segs rs = Some (r, ps).
Proof.
  induction rs as [|r' rs IH]; [by intros _ ?%elem_of_nil|].
  intros [Hr' Hrs]%pairwise_disjoint_cons Hin Hm Hmatch. cbn.
  apply elem_of_cons in Hin as [->|Hin].
  - by rewrite bool_decide_eq_true_2, Hmatch.
  - case_bool_decide as Hm'; [|by apply IH].
    destruct (match_segments (r_pattern r') segs) as [ps'|] eqn:E; [|by apply IH].
    specialize (Hr' r Hin). unfold routes_overlap in Hr'.
    rewrite bool_decide_eq_true_2 in Hr' by congruence.
    by rewrite (overlap_sound _ _ _ _ _ E Hmatch) in Hr'.
Qed.

Lemma routes_overlap_sym r1 r2 : routes_overlap r1 r2 = routes_overlap r2 r1.
Proof.
  unfold routes_overlap. rewrite overlap_sym. f_equal.
  apply bool_decide_ext. naive_solver.
Qed.

Lemma pairwise_disjoint_Permutation rs rs' :
  rs ≡ₚ rs' -> pairwise_disjoint rs = true -> pairwise_disjoint rs' = true.
Proof.
  induction 1 as [|r rs rs' Hp IH|r1 r2 rs|rs1 rs2 rs3 _ IH1 _ IH2]; [done|..].
  - rewrite !pairwise_disjoint_cons. intros [Hr Hrs]. split; [|by apply IH].
    intros r' Hr'. apply Hr. by rewrite Hp.
  - rewrite !pairwise_disjoint_cons. intros (Hr2 & Hr1 & Hrs). split_and!; [| |done].
    + intros r' [->|Hr']%elem_of_cons; [|by apply Hr1].
      rewrite routes_overlap_sym. apply Hr2. by left.
    + intros r' Hr'. apply Hr2. by right.
  - auto.
Qed.

End Lookup.

(** Route tables that list the same routes in another order answer every
    lookup alike, provided no two routes overlap. *)
Lemma find_route_Permutation method segs rs rs' :
  rs ≡ₚ rs' -> pairwise_disjoint rs = true ->
  find_route method segs rs = find_route method segs rs'.
Proof.
  intros Hp Hd. pose proof (pairwise_disjoint_Permutation _ _ Hp Hd) as Hd'.
  destruct (find_route method segs rs) as [[r ps]|] eqn:E.
  - apply find_route_Some in E as (Hin & Hm & Hmatch).
    symmetry. apply find_route_disjoint; [done| |done..]. by rewrite <- Hp.
  - symmetry. apply find_route_None. intros r Hr. rewrite <- Hp in Hr.
    revert r Hr. by apply find_route_None.
Qed.

(** ** Registration: when it succeeds, and what it changes *)

Section Registration.
Implicit Types (e : Engine) (h : gin.HandlerFunc) (r : route).

Lemma parse_pattern_slash p pat :
  parse_pattern p = Some pat -> exists rest, p = String "/" rest.
Proof.
  unfold parse_pattern. destruct (path_segments p) as [segs|] eqn:E; [|done].
  intros _. apply path_segments_inv in E as [-> _]. eauto.
Qed.

(** [addRoute] returns exactly when the path is a well-formed pattern, the
    method is not empty and no route of the method conflicts; it then adds
    the route at the end and changes nothing else. *)
Lemma addRoute_Ok method p h e e' :
  addRoute method p h e = Ok e' <->
  exists pat,
    parse_pattern p = Some pat /\ method <> "" /\
    (forall r, r ∈ trees e -> conflicts_with method pat r = false) /\
    e' = mkEngine (trees e ++ [mkRoute method p pat h]) (RedirectTrailingSlash e).
Proof.
  unfold addRoute. split.
  - destruct p as [|a rest]; [done|].
    destruct (decide (a = "/"%char)) as [->|Hne];
      [|by destruct a as [[] [] [] [] [] [] [] []]].
    case_bool_decide; [done|].
    destruct (parse_pattern _) as [pat|]; [|done].
    destruct (existsb _ _) eqn:Hex; [done|]. intros [= <-].
    exists pat. split_and!; try done.
    intros r Hr%list_elem_of_In. destruct (conflicts_with method pat r) eqn:Hc; [|done].
    assert (existsb (conflicts_with method pat) (trees e) = true) as Hex'
      by (apply existsb_exists; eauto). congruence.
  - intros (pat & Hp & Hm & Hc & ->).
    destruct (parse_pattern_slash _ _ Hp) as [rest ->].
    rewrite bool_decide_eq_false_2, Hp by done.
    destruct (existsb _ _) eqn:Hex; [|done].
    apply existsb_exists in Hex as (r & Hr%list_elem_of_In & Hcr).
    by rewrite Hc in Hcr.
Qed.

(** A request that found its route before a registration finds the same
    route after it. *)
Lemma addRoute_keeps method p h e e' method' q x :
  addRoute method p h e = Ok e' ->
  getValue method' q (trees e) = Some x -> getValue method' q (trees e') = Some x.
Proof.
  intros (pat & _ & _ & _ & ->)%addRoute_Ok. unfold getValue. cbn.
  destruct (path_segments q) as [segs|]; [|done]. cbn.
  rewrite find_route_app. by intros ->.
Qed.

(** A request that found no route before finds the new one if it matches. *)
Lemma addRoute_finds method p h e e' q ps :
  addRoute method p h e = Ok e' ->
  getValue method q (trees e) = None ->
  (exists pat, parse_pattern p = Some pat /\ match_path pat q = Some ps) ->
  exists r, getValue method q (trees e') = Some (r, ps)
            /\ r_method r = method /\ r_path r = p /\ r_handler r = h.
Proof.
  intros (pat & Hp & _ & _ & ->)%addRoute_Ok Hnone (pat' & Hp' & Hmatch).
  assert (pat' = pat) as -> by congruence.
  unfold getValue, match_path in *. cbn.
  destruct (path_segments q) as [segs|]; [|done]. cbn in *.
  rewrite find_route_app, Hnone. cbn.
  rewrite bool_decide_eq_true_2, Hmatch by done. eauto.
Qed.

(** A pattern conflicts with itself: no route can be registered twice. *)
Lemma conflicts_refl pat : pat <> [] -> conflicts pat pat = true.
Proof.
  induction pat as [|[a|a|a] pat IH]; intros Hne; [done|..]; cbn.
  - rewrite bool_decide_eq_true_2 by done. destruct pat; [done|by apply IH].
  - rewrite bool_decide_eq_true_2 by done. destruct pat; [done|by apply IH].
  - done.
Qed.

(** [addRoute] panics when a route of the method conflicts with the new
    path. *)
Lemma addRoute_conflict method p h e pat r :
  parse_pattern p = Some pat -> r ∈ trees e -> r_method r = method ->
  conflicts pat (r_pattern r) = true ->
  exists msg, addRoute method p h e = Panic msg.
Proof.
  intros Hp Hr Hm Hc. destruct (addRoute method p h e) as [e'|msg] eqn:E; [|by eexists].
  apply addRoute_Ok in E as (pat' & Hp' & _ & Hno & _). simplify_eq.
  specialize (Hno r Hr). unfold conflicts_with in Hno.
  by rewrite bool_decide_eq_true_2, Hc in Hno.
Qed.

(** [addRoute] for a path that parses. *)
Lemma addRoute_parsed method p pat h e :
  parse_pattern p = Some pat -> method <> "" ->
  addRoute method p h e =
    if existsb (conflicts_with method pat) (trees e)
    then Panic "path conflicts with an existing route"
    else Ok (mkEngine (trees e ++ [mkRoute method p pat h]) (RedirectTrailingSlash e)).
Proof.
  intros Hp Hm. destruct (parse_pattern_slash _ _ Hp) as [rest ->].
  unfold addRoute. by rewrite bool_decide_eq_false_2, Hp.
Qed.

(** A list of routes registered in order, from what is there: the first
    conflict stops the program. *)
Lemma register_all_registrable rs e :
  Forall well_formed rs ->
  register_all rs e =
    if registrable rs (trees e)
    then Ok (mkEngine (trees e ++ rs) (RedirectTrailingSlash e))
    else Panic "path conflicts with an existing route".
Proof.
  intros Hwf. revert e. induction Hwf as [|r rs [Hp Hm] _ IH]; intros e; cbn.
  - destruct e. by rewrite app_nil_r.
  - rewrite (addRoute_parsed _ _ _ _ _ Hp Hm).
    destruct (existsb _ _); [done|]. cbn. rewrite IH. cbn.
    destruct r. by rewrite <- app_assoc.
Qed.

(** The routes already there matter only through the conflicts they have
    with the new ones. *)
Lemma registrable_app rs ex1 ex2 :
  registrable rs (ex1 ++ ex2) = independent rs ex1 && registrable rs ex2.
Proof.
  revert ex2. induction rs as [|r rs IH]; intros ex2; cbn; [done|].
  rewrite existsb_app, <- app_assoc, IH.
  by destruct (existsb _ ex1), (existsb _ ex2), (independent rs ex1).
Qed.

Lemma registrable_independent rs ex :
  registrable rs ex = independent rs ex && registrable rs [].
Proof. by rewrite <- (app_nil_r ex) at 1; rewrite registrable_app. Qed.

Lemma resolveAddress_one a port_env : resolveAddress [a] port_env = Ok a.
Proof. reflexivity. Qed.

End Registration.

(** ** The trailing-slash recommendation *)

Section Recommendation.
Implicit Types (segs base : list string) (r : route) (rs : list route).

Lemma match_lenient_static s segs : match_lenient [Static s] segs = true <-> segs = [s].
Proof.
  destruct segs as [|x [|y l]]; cbn; [done| |].
  - rewrite andb_true_r, bool_decide_eq_true. split; [by intros ->|by intros [= ->]].
  - rewrite andb_false_r. done.
Qed.

Lemma match_lenient_static_param s n segs :
  match_lenient [Static s; Param n] segs = true <-> exists x, segs = [s; x].
Proof.
  destruct segs as [|x [|y [|z l]]]; cbn; rewrite ?andb_false_r, ?andb_true_r.
  - split; [done|by intros [? ?]].
  - split; [done|by intros [? ?]].
  - rewrite bool_decide_eq_true. split; [intros ->; eauto|by intros [? [= ->]]].
  - split; [done|by intros [? ?]].
Qed.

Lemma match_lenient_static_catch_all s n segs :
  match_lenient [Static s; CatchAll n] segs = true <-> exists x l, segs = s :: x :: l.
Proof.
  destruct segs as [|x [|y l]]; cbn; rewrite ?andb_false_r, ?andb_true_r.
  - split; [done|by intros (? & ? & ?)].
  - split; [done|by intros (? & ? & ?)].
  - rewrite bool_decide_eq_true. split; [intros ->; eauto|by intros (? & ? & [= ->])].
Qed.

Lemma existsb_filter_method (f : route -> bool) method rs :
  existsb f (filter (fun r => r_method r = method) rs) = true <->
  exists r, r ∈ rs /\ r_method r = method /\ f r = true.
Proof.
  rewrite existsb_exists. split.
  - intros (r & [Hm Hr]%list_elem_of_In%list_elem_of_filter & Hf). eauto.
  - intros (r & Hr & Hm & Hf). exists r. split; [|done].
    by apply list_elem_of_In, list_elem_of_filter.
Qed.

(** The recommendation for the empty path. *)
Lemma tsr_path_empty method rs target :
  tsr_path method "" rs = Some target <->
  target = "/" /\ exists r, r ∈ rs /\ r_method r = method /\ r_pattern r = [Static ""].
Proof.
  unfold tsr_path. cbn [path_segments bool_decide decide_rel andb]. rewrite bool_decide_eq_true_2 by done.
  cbn [andb]. case_match eqn:Hex.
  - apply existsb_filter_method in Hex as (r & Hr & Hm & Hp%bool_decide_eq_true).
    split; [intros [= <-]; eauto|by intros [-> _]].
  - split; [done|]. intros [_ (r & Hr & Hm & Hp)].
    assert (existsb (fun r => bool_decide (r_pattern r = [Static ""]))
              (filter (fun r => r_method r = method) rs) = true) as Hex'; [|congruence].
    apply existsb_filter_method. exists r. by rewrite bool_decide_eq_true.
Qed.

(** The recommendation for a path with its segments: the path ends in a
    slash and a route of the method takes it without, or it does not and a
    route takes it with one. *)
Lemma tsr_path_segments method (p : string) segs rs target :
  path_segments p = Some segs ->
  tsr_path method p rs = Some target <->
    ((exists base, segs = base ++ [""] /\ target = String "/" (join_with "/" base) /\
        exists r, r ∈ rs /\ r_method r = method /\ match_lenient (r_pattern r) base = true)
     \/ (last segs <> Some "" /\ target = p +:+ "/" /\
         exists r, r ∈ rs /\ r_method r = method /\
           is_Some (match_segments (r_pattern r) (segs ++ [""])))).
Proof.
  intros Hp. unfold tsr_path. rewrite Hp.
  destruct (without_final_empty segs) as [base|] eqn:Hb.
  - apply without_final_empty_Some in Hb as ->. case_match eqn:Hex.
    + apply existsb_filter_method in Hex. split.
      * intros [= <-]. left. by exists base.
      * intros [(base' & ->%(inj (.++ [""])) & -> & _)|[Hl _]]; [done|].
        by rewrite last_snoc in Hl.
    + split; [done|]. intros [(base' & ->%(inj (.++ [""])) & -> & Hr)|[Hl _]].
      * apply existsb_filter_method in Hr. congruence.
      * by rewrite last_snoc in Hl.
  - apply without_final_empty_None in Hb. case_match eqn:Hex.
    + apply existsb_filter_method in Hex as (r & Hr & Hm & Hs%bool_decide_eq_true).
      split; [intros [= <-]; right; split_and!; [done..|by exists r]|].
      intros [(base & -> & _)|(_ & -> & _)]; [|done].
      by rewrite last_snoc in Hb.
    + split; [done|]. intros [(base & -> & _)|(_ & -> & r & Hr & Hm & Hs)].
      * by rewrite last_snoc in Hb.
      * assert (existsb (fun r => bool_decide (is_Some (match_segments (r_pattern r) (segs ++ [""]))))
                  (filter (fun r => r_method r = method) rs) = true) as Hex'; [|congruence].
        apply existsb_filter_method. exists r. by rewrite bool_decide_eq_true.
Qed.

(** A recommendation is for the empty path or for a path with segments. *)
Lemma tsr_path_Some method (p : string) rs target :
  tsr_path method p rs = Some target ->
  p = "" \/ exists segs, path_segments p = Some segs.
Proof.
  destruct (path_segments p) as [segs|] eqn:Hp; [eauto|].
  unfold tsr_path. rewrite Hp. case_bool_decide; [by left|done].
Qed.

(** Neither test depends on the order of the routes. *)
Lemma existsb_filter_method_Permutation (f : route -> bool) method rs rs' :
  rs ≡ₚ rs' ->
  existsb f (filter (fun r => r_method r = method) rs)
  = existsb f (filter (fun r => r_method r = method) rs').
Proof.
  intros Hp. apply eq_true_iff_eq. rewrite !existsb_filter_method.
  by setoid_rewrite Hp.
Qed.

#[export] Instance tsr_path_Permutation method (p : string) :
  Proper ((≡ₚ) ==> (=)) (tsr_path method p).
Proof.
  intros rs rs' Hp. unfold tsr_path.
  destruct (path_segments p) as [segs|]; [destruct (without_final_empty segs) as [base|]|];
    by rewrite (existsb_filter_method_Permutation _ _ _ _ Hp).
Qed.

End Recommendation.

(** ** Serving: the three outcomes *)

(** [handleHTTPRequest] ends with [WriteHeaderNow]. *)
Definition finish (c : gin.Context) : gin.Context :=
  gin.with_writer c (gin.WriteHeaderNow (gin.Writer c)).

(** All handlers of the engine meet the interface. *)
Definition engine_ok (e : Engine) : Prop :=
  forall r, r ∈ trees e -> WellBehaved (r_handler r).

Section Serving.
Context `{http.UrlOps}.
Implicit Types (e : Engine) (req : http.Request) (c : gin.Context).

Lemma run_WellBehaved h `{!WellBehaved h} c : run h c = gin.context_of (h c).
Proof.
  unfold run. pose proof (wb_returns (h:=h) c) as Hr. by destruct (h c).
Qed.

(** A request that matches a route is answered by the handler of the route,
    run on a fresh writer with the parameters bound. *)
Lemma ServeHTTP_found e req r ps :
  getValue (http.Method req) (http.Path req) (trees e) = Some (r, ps) ->
  ServeHTTP e req =
    finish (run (r_handler r) (gin.mkContext req ps (gin.reset (http.Method req)) false)).
Proof. intros Hg. unfold ServeHTTP, handleHTTPRequest. cbn. by rewrite Hg. Qed.

(** The writer of gin's answer to a request that has no route. *)
Definition not_found_writer (method : string) : gin.responseWriter :=
  let h : gmap string (list string) := {[ "Content-Type" := ["text/plain"] ]} in
  gin.mkWriter method h 404 18 (Some (404, h))
    (if bool_decide (method = "HEAD") then "" else default404Body).

Lemma serveError_fresh c :
  fresh c ->
  serveError 404 default404Body c
  = gin.with_writer c (not_found_writer (http.Method (gin.Request c))).
Proof.
  intros Hc. unfold serveError. rewrite Hc. cbn.
  unfold gin.Write, gin.WriteHeaderNow, gin.Written. cbn. done.
Qed.

Lemma ServeHTTP_not_found e req :
  getValue (http.Method req) (http.Path req) (trees e) = None ->
  tsr_path (http.Method req) (http.Path req) (trees e) = None ->
  ServeHTTP e req = gin.mkContext req [] (not_found_writer (http.Method req)) false.
Proof.
  intros Hg Ht. unfold ServeHTTP, handleHTTPRequest. cbn. rewrite Hg, Ht.
  by rewrite serveError_fresh.
Qed.

(** The URL of gin's trailing-slash redirect: the recommended path, behind
    the prefix of the header [X-Forwarded-Prefix] if the request has one,
    with the query of the request. *)
Definition redirect_url (req : http.Request) (target : string) : string :=
  http.url_string
    (if http.Has "X-Forwarded-Prefix" (http.ReqHeader req)
     then http.forwarded_prefix (http.Get "X-Forwarded-Prefix" (http.ReqHeader req)) target
     else target)
    (http.RawQuery req).

Definition redirect_code (method : string) : Z :=
  if bool_decide (method = "GET") then 301 else 307.

Lemma redirect_url_plain req target :
  http.Has "X-Forwarded-Prefix" (http.ReqHeader req) = false ->
  http.RawQuery req = "" -> http.plain_path target = true ->
  redirect_url req target = target.
Proof.
  intros Hx Hq Hp. unfold redirect_url. by rewrite Hx, Hq, http.url_string_plain.
Qed.

(** The writer of gin's trailing-slash redirect. *)
Definition tsr_writer (req : http.Request) (target : string) : gin.responseWriter :=
  gin.WriteHeaderNow
    (http.Redirect (gin.reset (http.Method req)) req
       (redirect_url req target) (redirect_code (http.Method req))).

Lemma ServeHTTP_redirect e req target :
  getValue (http.Method req) (http.Path req) (trees e) = None ->
  tsr_path (http.Method req) (http.Path req) (trees e) = Some target ->
  http.Method req <> "CONNECT" -> http.Path req <> "/" ->
  RedirectTrailingSlash e = true ->
  ServeHTTP e req = gin.mkContext req [] (tsr_writer req target) false.
Proof.
  intros Hg Ht Hm Hp Hr. unfold ServeHTTP, handleHTTPRequest. cbn.
  by rewrite Hg, Ht, Hr, !bool_decide_eq_false_2 by done.
Qed.

(** ** Every request is answered *)

Lemma finish_Written c : gin.Written (gin.Writer (finish c)) = true.
Proof. apply WriteHeaderNow_Written. Qed.

Lemma serveError_Written code msg c :
  writer_ok (gin.Writer c) -> gin.Written (gin.Writer (serveError code msg c)) = true.
Proof.
  intros Hok. unfold serveError. cbv zeta.
  destruct (gin.Written (gin.mkWriter _ _ _ _ _ _)) eqn:E; cbn; [done|].
  apply Write_Written. destruct Hok as [Hs Hw]. apply Written_false in E. cbn in E.
  split; cbn; [done|]. destruct (gin.rw_wire (gin.Writer c)) as [[st h]|]; [|done].
  by destruct Hw.
Qed.

Lemma redirectTrailingSlash_Written target c :
  gin.Written (gin.Writer (redirectTrailingSlash target c)) = true.
Proof. apply WriteHeaderNow_Written. Qed.

(** Whatever the routes and handlers are, the header of the response is on
    the wire when [ServeHTTP] returns. *)
Lemma ServeHTTP_Written e req : gin.Written (gin.Writer (ServeHTTP e req)) = true.
Proof.
  unfold ServeHTTP, handleHTTPRequest. cbn.
  destruct (getValue _ _ _) as [[r ps]|]; [apply finish_Written|].
  assert (writer_ok (gin.reset (http.Method req))) as Hok by apply reset_ok.
  destruct (tsr_path _ _ _); [|by apply serveError_Written].
  case_match; [apply redirectTrailingSlash_Written|by apply serveError_Written].
Qed.

End Serving.

(** ** What the client receives *)

(** gin's answer to a request that has no route. *)
Definition not_found_response (method : string) : http.Response :=
  http.mkResponse 404 {[ "Content-Type" := ["text/plain"] ]}
    (if bool_decide (method = "HEAD") then "" else default404Body).

Section Responses.
Context `{http.UrlOps}.
Implicit Types (e : Engine) (req : http.Request) (c : gin.Context).

Lemma respond_returned e req r ps c' :
  getValue (http.Method req) (http.Path req) (trees e) = Some (r, ps) ->
  r_handler r (gin.mkContext req ps (gin.reset (http.Method req)) false) = gin.Returned c' ->
  respond e req
  = default (http.mkResponse 0 ∅ "") (gin.response (gin.WriteHeaderNow (gin.Writer c'))).
Proof.
  intros Hg Hh. unfold respond. rewrite (ServeHTTP_found _ _ _ _ Hg).
  unfold run. by rewrite Hh.
Qed.

(** The recovery middleware: a handler that panics before anything is sent
    is answered for with status 500, the header it had set and no body. *)
Lemma respond_recovered e req r ps msg c' :
  getValue (http.Method req) (http.Path req) (trees e) = Some (r, ps) ->
  r_handler r (gin.mkContext req ps (gin.reset (http.Method req)) false)
    = gin.Panicked msg c' ->
  writer_ok (gin.Writer c') -> gin.Written (gin.Writer c') = false ->
  respond e req = http.mkResponse 500 (gin.rw_header (gin.Writer c')) "".
Proof.
  intros Hg Hh Hok Hw. unfold respond. rewrite (ServeHTTP_found _ _ _ _ Hg).
  unfold run. rewrite Hh. unfold finish, gin.AbortWithStatus. cbn.
  rewrite WriteHeaderNow_idem, WriteHeader_set by done.
  rewrite response_WriteHeaderNow by done. cbn. by rewrite unwritten_body.
Qed.

(** A panic after the header is sent changes nothing of what was sent: the
    status line and the header stay, and the body ends where the handler
    left it. *)
Lemma respond_recovered_sent e req r ps msg c' :
  getValue (http.Method req) (http.Path req) (trees e) = Some (r, ps) ->
  r_handler r (gin.mkContext req ps (gin.reset (http.Method req)) false)
    = gin.Panicked msg c' ->
  gin.Written (gin.Writer c') = true ->
  respond e req = default (http.mkResponse 0 ∅ "") (gin.response (gin.Writer c')).
Proof.
  intros Hg Hh Hw. unfold respond. rewrite (ServeHTTP_found _ _ _ _ Hg).
  unfold run. rewrite Hh. unfold finish, gin.AbortWithStatus. cbn.
  by rewrite WriteHeaderNow_idem, WriteHeader_Written, WriteHeaderNow_sent.
Qed.

Lemma respond_not_found e req :
  getValue (http.Method req) (http.Path req) (trees e) = None ->
  tsr_path (http.Method req) (http.Path req) (trees e) = None ->
  respond e req = not_found_response (http.Method req).
Proof. intros Hg Ht. unfold respond. by rewrite ServeHTTP_not_found. Qed.

(** The trailing-slash redirect, as the client sees it. *)
Lemma response_tsr_writer req target :
  gin.response (tsr_writer req target)
  = Some (redirect_response (http.Method req) (redirect_code (http.Method req))
            (redirect_url req target)).
Proof.
  unfold tsr_writer, redirect_code.
  by rewrite response_Redirect_fresh by by case_bool_decide.
Qed.

Lemma respond_redirect e req target :
  getValue (http.Method req) (http.Path req) (trees e) = None ->
  tsr_path (http.Method req) (http.Path req) (trees e) = Some target ->
  http.Method req <> "CONNECT" -> http.Path req <> "/" ->
  RedirectTrailingSlash e = true ->
  respond e req =
    redirect_response (http.Method req) (redirect_code (http.Method req))
      (redirect_url req target).
Proof.
  intros Hg Ht Hm Hp Hr. unfold respond.
  rewrite (ServeHTTP_redirect _ _ _ Hg Ht) by done. cbn [gin.Writer].
  by rewrite response_tsr_writer.
Qed.

(** The three ways a request ends: a handler runs, gin redirects to the
    path with or without the final slash, or gin answers 404. *)
Lemma respond_cases e req :
  (exists r ps, getValue (http.Method req) (http.Path req) (trees e) = Some (r, ps))
  \/ (exists target, respond e req =
         redirect_response (http.Method req) (redirect_code (http.Method req))
           (redirect_url req target))
  \/ respond e req = not_found_response (http.Method req).
Proof.
  destruct (getValue _ _ _) as [[r ps]|] eqn:Hg; [left; eauto|right].
  unfold respond, ServeHTTP, handleHTTPRequest. cbn. rewrite Hg.
  destruct (tsr_path _ _ _) as [target|]; [|right; by rewrite serveError_fresh].
  case_match; [left|right; by rewrite serveError_fresh].
  exists target. change (redirectTrailingSlash target ?c)
    with (gin.mkContext req [] (tsr_writer req target) false).
  cbn [gin.Writer]. by rewrite response_tsr_writer.
Qed.

(** No route of the method: no recommendation either. *)
Lemma tsr_path_no_method method (path : string) rs :
  (forall r, r ∈ rs -> r_method r <> method) -> tsr_path method path rs = None.
Proof.
  intros Hrs. unfold tsr_path.
  assert (filter (fun r => r_method r = method) rs = []) as ->.
  { apply elem_of_nil_inv. intros r [Hm Hr]%list_elem_of_filter. by destruct (Hrs r Hr). }
  cbn [existsb]. rewrite andb_false_r. by repeat case_match.
Qed.

Lemma getValue_no_method method (path : string) rs :
  (forall r, r ∈ rs -> r_method r <> method) -> getValue method path rs = None.
Proof.
  intros Hrs. unfold getValue. destruct (path_segments path) as [segs|]; [cbn|done].
  apply find_route_None. intros r Hr Hm. by destruct (Hrs r Hr).
Qed.

(** ** The writer stays well formed, and every request is answered *)

Lemma serveError_ok code msg c :
  writer_ok (gin.Writer c) -> gin.Written (gin.Writer c) = false ->
  writer_ok (gin.Writer (serveError code msg c)).
Proof.
  intros Hok Hw. unfold serveError. cbv zeta.
  assert (gin.Written (gin.mkWriter (gin.rw_method (gin.Writer c))
            (gin.rw_header (gin.Writer c)) code (gin.rw_size (gin.Writer c))
            (gin.rw_wire (gin.Writer c)) (gin.rw_body (gin.Writer c))) = false) as ->
    by done.
  cbn. apply Write_ok. pose proof (unwritten_body _ Hok Hw) as Hb.
  apply Written_false in Hw. destruct Hok as [Hs Hwire]. split; cbn; [done|].
  destruct (gin.rw_wire (gin.Writer c)) as [[st h]|]; [by destruct Hwire|done].
Qed.

Lemma redirectTrailingSlash_ok target c :
  writer_ok (gin.Writer c) -> writer_ok (gin.Writer (redirectTrailingSlash target c)).
Proof. intros Hok. unfold redirectTrailingSlash. cbn. auto using http_Redirect_ok with gopher. Qed.

Lemma run_ok h `{!WellBehaved h} c :
  writer_ok (gin.Writer c) -> writer_ok (gin.Writer (run h c)).
Proof. intros Hok. rewrite run_WellBehaved by done. by apply wb_writer_ok. Qed.

Lemma ServeHTTP_ok e req : engine_ok e -> writer_ok (gin.Writer (ServeHTTP e req)).
Proof.
  intros He. unfold ServeHTTP, handleHTTPRequest. cbn.
  destruct (getValue _ _ _) as [[r ps]|] eqn:Hg.
  - cbn. apply getValue_Some in Hg as (Hin & _).
    apply WriteHeaderNow_ok, run_ok; [by apply He|apply reset_ok].
  - assert (writer_ok (gin.reset (http.Method req))) as Hok by apply reset_ok.
    destruct (tsr_path _ _ _); [|by apply serveError_ok].
    case_match; [by apply redirectTrailingSlash_ok|by apply serveError_ok].
Qed.

(** Every request to an engine of well-behaved handlers receives a
    response. *)
Lemma ServeHTTP_responds e req :
  engine_ok e -> gin.response (gin.Writer (ServeHTTP e req)) = Some (respond e req).
Proof.
  intros He. unfold respond.
  destruct (response_Written _ (ServeHTTP_ok e req He) (ServeHTTP_Written e req)) as [h ->].
  done.
Qed.

Lemma serveError_valid msg c : valid_status (gin.Writer (serveError 404 msg c)).
Proof.
  unfold serveError. cbv zeta. case_match; cbn; [unfold valid_status; cbn; lia|].
  apply valid_status_Write. unfold valid_status. cbn. lia.
Qed.

Lemma redirectTrailingSlash_valid target c :
  valid_status (gin.Writer c) -> valid_status (gin.Writer (redirectTrailingSlash target c)).
Proof.
  intros Hv. unfold redirectTrailingSlash. cbn.
  apply valid_status_WriteHeaderNow, http_Redirect_valid; [|done].
  case_bool_decide; lia.
Qed.

Lemma ServeHTTP_valid e req : engine_ok e -> valid_status (gin.Writer (ServeHTTP e req)).
Proof.
  intros He. unfold ServeHTTP, handleHTTPRequest. cbn.
  assert (valid_status (gin.reset (http.Method req))) as Hv
    by (unfold valid_status; cbn; lia).
  destruct (getValue _ _ _) as [[r ps]|] eqn:Hg.
  - cbn. apply getValue_Some in Hg as (Hin & _). specialize (He r Hin).
    apply valid_status_WriteHeaderNow. rewrite run_WellBehaved by done.
    apply wb_valid_status; [apply reset_ok|done].
  - destruct (tsr_path _ _ _); [|apply serveError_valid].
    case_match; [by apply redirectTrailingSlash_valid|apply serveError_valid].
Qed.

(** ** The engine too goes through the writer's interface

    Whatever the engine does with the writer of a request is a run of the
    writer's operations from the reset writer, so the invariants of
    [writer_steps] hold of every response. *)

Lemma run_steps h `{!WellBehaved h} c : writer_steps (gin.Writer c) (gin.Writer (run h c)).
Proof. rewrite run_WellBehaved by done. apply wb_steps. Qed.

Lemma serveError_steps code msg c :
  0 < code -> gin.Written (gin.Writer c) = false ->
  writer_steps (gin.Writer c) (gin.Writer (serveError code msg c)).
Proof.
  intros Hc Hw. unfold serveError. cbv zeta.
  assert (gin.Written (gin.mkWriter (gin.rw_method (gin.Writer c))
            (gin.rw_header (gin.Writer c)) code (gin.rw_size (gin.Writer c))
            (gin.rw_wire (gin.Writer c)) (gin.rw_body (gin.Writer c))) = false) as ->
    by done.
  cbn [gin.with_writer gin.Writer].
  eapply writer_steps_then; [|apply step_Write].
  eapply writer_steps_then; [|apply (step_SetHeader "Content-Type" "text/plain")].
  rewrite <- (WriteHeader_set code) by done. apply rtc_once, step_WriteHeader.
Qed.

Lemma ServeHTTP_steps e req :
  engine_ok e -> writer_steps (gin.reset (http.Method req)) (gin.Writer (ServeHTTP e req)).
Proof.
  intros He. unfold ServeHTTP, handleHTTPRequest. cbn.
  destruct (getValue _ _ _) as [[r ps]|] eqn:Hg.
  - cbn. apply getValue_Some in Hg as (Hin & _). specialize (He r Hin).
    eapply writer_steps_then; [|apply step_WriteHeaderNow].
    apply (run_steps (r_handler r) (gin.mkContext req ps (gin.reset (http.Method req)) false)).
  - pose proof (serveError_steps 404 default404Body
        (gin.mkContext req [] (gin.reset (http.Method req)) false)) as Hs.
    destruct (tsr_path _ _ _); [|by apply Hs].
    case_match; [|by apply Hs]. unfold redirectTrailingSlash. cbn.
    eapply writer_steps_then; [|apply step_WriteHeaderNow].
    apply http_Redirect_steps, writer_steps_refl.
Qed.

(** The size gin records accounts for the body, and the method of the
    writer is that of the request. *)
Lemma ServeHTTP_size e req : engine_ok e -> size_ok (gin.Writer (ServeHTTP e req)).
Proof.
  intros He. eapply writer_steps_size;
    [by apply ServeHTTP_steps|apply reset_ok|apply reset_size_ok].
Qed.

Lemma ServeHTTP_method e req :
  engine_ok e -> gin.rw_method (gin.Writer (ServeHTTP e req)) = http.Method req.
Proof. intros He. by rewrite (writer_steps_method _ _ (ServeHTTP_steps e req He)). Qed.

(** The size of a response as served is not negative, and it is the number
    of body bytes the client receives, unless the request is a HEAD. *)
Lemma respond_size e req :
  engine_ok e ->
  0 <= gin.rw_size (gin.Writer (ServeHTTP e req))
  /\ Z.of_nat (String.length (http.RespBody (respond e req)))
     = if bool_decide (http.Method req = "HEAD") then 0
       else gin.rw_size (gin.Writer (ServeHTTP e req)).
Proof.
  intros He. pose proof (ServeHTTP_size e req He) as Hsz.
  pose proof (ServeHTTP_ok e req He) as Hok.
  pose proof (ServeHTTP_Written e req) as Hw%Written_true.
  pose proof (ServeHTTP_responds e req He) as Hr. unfold gin.response in Hr.
  unfold size_ok in Hsz. rewrite ServeHTTP_method in Hsz by done.
  destruct Hok as [Hge _]. split; [lia|].
  destruct (gin.rw_wire _) as [[st h]|]; [|done].
  injection Hr as <-. cbn [http.RespBody]. rewrite Hsz. case_bool_decide; lia.
Qed.

(** The response to a request that has a route, read off the writer the
    handler leaves: the status it recorded and the body it wrote, whose
    length the size accounts for. *)
Lemma respond_found e req r ps :
  engine_ok e ->
  getValue (http.Method req) (http.Path req) (trees e) = Some (r, ps) ->
  let c' := run (r_handler r) (gin.mkContext req ps (gin.reset (http.Method req)) false) in
  http.StatusCode (respond e req) = gin.rw_status (gin.Writer c')
  /\ http.RespBody (respond e req) = gin.rw_body (gin.Writer c')
  /\ gin.Request c' = req
  /\ gin.rw_method (gin.Writer c') = http.Method req
  /\ size_ok (gin.Writer c').
Proof.
  intros He Hg c'. pose proof (getValue_Some _ _ _ _ _ Hg) as (Hin & _).
  specialize (He r Hin). unfold respond. rewrite (ServeHTTP_found _ _ _ _ Hg).
  fold c'. cbn [finish gin.Writer gin.with_writer].
  assert (writer_ok (gin.Writer c')) as Hok by (apply run_ok; [done|apply reset_ok]).
  pose proof (run_steps (r_handler r)
    (gin.mkContext req ps (gin.reset (http.Method req)) false)) as Hs. fold c' in Hs.
  split_and!.
  - by apply status_WriteHeaderNow.
  - by apply body_WriteHeaderNow.
  - unfold c'. rewrite run_WellBehaved by done. apply wb_request.
  - by rewrite (writer_steps_method _ _ Hs).
  - eapply writer_steps_size; [done|apply reset_ok|apply reset_size_ok].
Qed.

(** The status of every response is one net/http accepts. *)
Lemma respond_valid_status e req :
  engine_ok e -> 100 <= http.StatusCode (respond e req) <= 999.
Proof.
  intros He. unfold respond.
  destruct (response_Written _ (ServeHTTP_ok e req He) (ServeHTTP_Written e req)) as [h ->].
  apply (ServeHTTP_valid e req He).
Qed.

End Responses.

(** ** Engines that answer alike

    Two engines are equivalent when they serve every request alike.  The
    order in which the routes were registered is not observable when no two
    of them overlap. *)

Section Equivalence.
Context `{http.UrlOps}.
Implicit Types (e : Engine) (req : http.Request).

Definition engine_equiv (e1 e2 : Engine) : Prop :=
  forall req, ServeHTTP e1 req = ServeHTTP e2 req.

#[export] Instance engine_equiv_equivalence : Equivalence engine_equiv.
Proof.
  split; [done|by intros e1 e2 He req|].
  intros e1 e2 e3 H12 H23 req. by rewrite H12.
Qed.

#[export] Instance respond_proper : Proper (engine_equiv ==> (=) ==> (=)) respond.
Proof. intros e1 e2 He req ? <-. unfold respond. by rewrite He. Qed.

Lemma getValue_Permutation method (path : string) rs rs' :
  rs ≡ₚ rs' -> pairwise_disjoint rs = true ->
  getValue method path rs = getValue method path rs'.
Proof.
  intros Hp Hd. unfold getValue. destruct (path_segments path) as [segs|]; [cbn|done].
  by apply find_route_Permutation.
Qed.

Lemma engine_equiv_Permutation rs rs' tsr :
  rs ≡ₚ rs' -> pairwise_disjoint rs = true ->
  engine_equiv (mkEngine rs tsr) (mkEngine rs' tsr).
Proof.
  intros Hp Hd req. unfold ServeHTTP, handleHTTPRequest. cbn.
  by rewrite (getValue_Permutation _ _ _ _ Hp Hd), (tsr_path_Permutation _ _ _ _ Hp).
Qed.

End Equivalence.
