(* ===== verification/Middleware.v ===== *)
(** * Middleware: the handler chain of [gin.Default()]

    [gin.Default()] is [gin.New()] with [engine.Use(Logger(), Recovery())]:
    every route registered afterwards, and the answer to a request without a
    route, runs behind these two handlers (gin.go, logger.go, recovery.go).
    A middleware is a handler that calls [c.Next()] for the rest of the
    chain; here it is a function of that rest.  What the two write to
    standard output and standard error is a list of lines kept beside the
    outcome of the chain.  The notices gin prints of its own accord in
    debug mode (the routes at start-up, a redirect, a status set too late)
    are not among them: the log of the model is the access log and the
    reports of the recovery.

    [Router] serves a request without the log, with the recovery built into
    [run].  This file serves it through the chain ([ServeHTTP_logged]) and
    shows that the two agree on the context ([ServeHTTP_logged_default]):
    the logger observes and changes nothing.  The lemmas then say what is
    logged in each of the three ways a request ends. *)

From Stdlib Require Import ZArith Ascii String List Lia.
From stdpp Require Import base tactics option list strings gmap.
From S2P Require Import Prelude Http Json Context Path Router.
#[local] Open Scope Z_scope.

(** ** The lines *)

(** [gin.LogFormatterParams], without the time stamp, the latency and the
    client address, which depend on the clock and the connection, and
    without the error message, which stays empty as long as no handler
    calls [c.Error].  The default formatter prints the status, the method
    and the path; the body size is handed to it and left out. *)
Record LogFormatterParams := mkLogParams {
  param_StatusCode : Z;
  param_Method : string;
  param_Path : string;
  param_BodySize : Z
}.

#[export] Instance LogFormatterParams_eq_dec : EqDecision LogFormatterParams.
Proof. solve_decision. Defined.

Inductive line : Type :=
| Access (p : LogFormatterParams)    (* the logger's line for a request *)
| Recovered (msg : string).          (* the recovery's report of a panic *)

#[export] Instance line_eq_dec : EqDecision line.
Proof. solve_decision. Defined.

(** ** Handlers that log, and the chain *)

Definition Handler : Type := gin.Context -> gin.outcome * list line.
Definition Middleware : Type := Handler -> Handler.

(** A handler of the program or a library handler: it logs nothing. *)
Definition quiet (h : gin.HandlerFunc) : Handler := fun c => (h c, []).

(** [c.Next()]: the rest of the chain runs unless the context is aborted. *)
Definition Next (rest : Handler) : Handler := fun c =>
  if gin.Aborted c then (gin.Returned c, []) else rest c.

(** The path the logger prints: read before [c.Next()], with the query. *)
Definition logged_path (req : http.Request) : string :=
  if bool_decide (http.RawQuery req = "") then http.Path req
  else http.Path req +:+ "?" +:+ http.RawQuery req.

(** The line for a request that came as [c] and left the chain as [c']. *)
Definition access (c c' : gin.Context) : line :=
  Access (mkLogParams (gin.rw_status (gin.Writer c')) (http.Method (gin.Request c'))
            (logged_path (gin.Request c)) (gin.rw_size (gin.Writer c'))).

(** [gin.Logger()]: one line when the rest of the chain has returned.  A
    panic that passes through it leaves no line. *)
Definition Logger : Middleware := fun rest c =>
  match Next rest c with
  | (gin.Returned c', out) => (gin.Returned c', out ++ [access c c'])
  | (gin.Panicked msg c', out) => (gin.Panicked msg c', out)
  end.

(** [gin.Recovery()]: a panic of the rest of the chain is reported and
    becomes [c.AbortWithStatus(500)].  (A panic on a broken connection,
    which gin answers without a status, is not one a handler raises.) *)
Definition Recovery : Middleware := fun rest c =>
  match Next rest c with
  | (gin.Returned c', out) => (gin.Returned c', out)
  | (gin.Panicked msg c', out) =>
      (gin.Returned (gin.AbortWithStatus http.StatusInternalServerError c'),
       out ++ [Recovered msg])
  end.

(** The handlers of a route: those of the engine, then its own. *)
Definition chain (ms : list Middleware) (h : gin.HandlerFunc) : Handler :=
  foldr (fun m rest => m rest) (quiet h) ms.

(** [abortIndex], the index an aborted context is set to, which the chain
    of a route must stay below. *)
Definition abortIndex : Z := 63.

(** [group.combineHandlers(handlers)]. *)
Definition combineHandlers (ms : list Middleware) (h : gin.HandlerFunc) : result Handler :=
  if Z.of_nat (length ms) + 1 <? abortIndex then Ok (chain ms h)
  else Panic "too many handlers".

(** The handlers [gin.Default()] gives the engine. *)
Definition default_handlers : list Middleware := [Logger; Recovery].

(** ** Serving through the chain *)

Section Serve.
Context `{http.UrlOps}.

(** [serveError(c, code, defaultMessage)]: the status is stored, the
    handlers of the engine run with none after them, and the default
    message is written if they left the status and wrote nothing. *)
Definition serveError_logged (ms : list Middleware) (code : Z) (defaultMessage : string)
    (c : gin.Context) : gin.outcome * list line :=
  let w := gin.Writer c in
  let c := gin.with_writer c
             (gin.mkWriter (gin.rw_method w) (gin.rw_header w) code (gin.rw_size w)
                (gin.rw_wire w) (gin.rw_body w)) in
  match Next (chain ms gin.Returned) c with
  | (gin.Returned c', out) =>
      let w := gin.Writer c' in
      (gin.Returned
         (if gin.Written w then c'
          else if gin.rw_status w =? code then
            gin.with_writer c'
              (gin.Write defaultMessage
                 (gin.mkWriter (gin.rw_method w)
                    (<["Content-Type" := ["text/plain"]]> (gin.rw_header w))
                    (gin.rw_status w) (gin.rw_size w) (gin.rw_wire w) (gin.rw_body w)))
          else gin.with_writer c' (gin.WriteHeaderNow w)),
       out)
  | (gin.Panicked msg c', out) => (gin.Panicked msg c', out)
  end.

(** [engine.handleHTTPRequest(c)] of an engine whose handlers are [ms].  A
    panic that no handler recovers goes on to the server. *)
Definition handleHTTPRequest_logged (ms : list Middleware) (e : Engine) (c : gin.Context)
    : gin.outcome * list line :=
  let req := gin.Request c in
  match getValue (http.Method req) (http.Path req) (trees e) with
  | Some (r, ps) =>
      let c := gin.mkContext req ps (gin.Writer c) (gin.Aborted c) in
      match Next (chain ms (r_handler r)) c with
      | (gin.Returned c', out) => (gin.Returned (finish c'), out)
      | (gin.Panicked msg c', out) => (gin.Panicked msg c', out)
      end
  | None =>
      match tsr_path (http.Method req) (http.Path req) (trees e) with
      | Some target =>
          if negb (bool_decide (http.Method req = http.MethodConnect))
             && negb (bool_decide (http.Path req = "/"))
             && RedirectTrailingSlash e
          then (gin.Returned (redirectTrailingSlash target c), [])
          else serveError_logged ms http.StatusNotFound default404Body c
      | None => serveError_logged ms http.StatusNotFound default404Body c
      end
  end.

(** [engine.ServeHTTP(w, req)]. *)
Definition ServeHTTP_logged (ms : list Middleware) (e : Engine) (req : http.Request)
    : gin.outcome * list line :=
  handleHTTPRequest_logged ms e (gin.mkContext req [] (gin.reset (http.Method req)) false).

End Serve.

#[global] Arguments Next : simpl never.
#[global] Arguments chain : simpl never.
#[global] Arguments serveError_logged : simpl never.

(** ** The chain of [gin.Default()] *)

Section Chain.
Context `{http.UrlOps}.
Implicit Types (h : gin.HandlerFunc) (c : gin.Context) (e : Engine) (req : http.Request).

Lemma Next_running rest c : gin.Aborted c = false -> Next rest c = rest c.
Proof. intros Ha. unfold Next. by rewrite Ha. Qed.

(** The chain of a handler behind the logger and the recovery: the handler
    runs; if it returns, the logger prints its line; if it panics, the
    recovery reports the panic and aborts with 500, and the logger prints
    the line of that. *)
Lemma chain_default h c :
  gin.Aborted c = false ->
  chain default_handlers h c =
    match h c with
    | gin.Returned c' => (gin.Returned c', [access c c'])
    | gin.Panicked msg c' =>
        let c'' := gin.AbortWithStatus http.StatusInternalServerError c' in
        (gin.Returned c'', [Recovered msg; access c c''])
    end.
Proof.
  intros Ha. unfold chain, default_handlers, Logger, Recovery. cbn [foldr].
  rewrite !Next_running by done. unfold quiet. by destruct (h c).
Qed.

(** Behind the recovery no panic is left, and the context is what [run]
    gives: the logger changes nothing. *)
Lemma chain_default_run h c :
  gin.Aborted c = false -> (chain default_handlers h c).1 = gin.Returned (run h c).
Proof. intros Ha. rewrite chain_default by done. unfold run. by destruct (h c). Qed.

(** The chain of the program's routes is far below the bound. *)
Lemma combineHandlers_default h :
  combineHandlers default_handlers h = Ok (chain default_handlers h).
Proof. reflexivity. Qed.

Lemma combineHandlers_bound ms h :
  is_ok (combineHandlers ms h) = true <-> (length ms < 62)%nat.
Proof.
  unfold combineHandlers, abortIndex. destruct (Z.ltb_spec (Z.of_nat (length ms) + 1) 63);
    cbn; split; (done || lia).
Qed.

(** The answer to a request without a route, behind the default handlers:
    that of [serveError], and one line, printed before the body is
    written. *)
Lemma serveError_logged_default code msg c :
  gin.Aborted c = false ->
  serveError_logged default_handlers code msg c =
    (gin.Returned (serveError code msg c),
     [Access (mkLogParams code (http.Method (gin.Request c)) (logged_path (gin.Request c))
                (gin.rw_size (gin.Writer c)))]).
Proof.
  intros Ha. unfold serveError_logged. cbv zeta.
  rewrite Next_running, chain_default by done. cbn [gin.Writer gin.with_writer].
  unfold serveError. cbv zeta. cbn [gin.rw_status]. rewrite Z.eqb_refl.
  by destruct (gin.Written _).
Qed.

End Chain.

(** ** What is served, and what is logged *)

Definition log_of (x : gin.outcome * list line) : list line := x.2.

Section Logged.
Context `{http.UrlOps}.
Implicit Types (h : gin.HandlerFunc) (c : gin.Context) (e : Engine) (req : http.Request).

(** The context a request of the engine starts with. *)
Definition entry (req : http.Request) (ps : list (string * string)) : gin.Context :=
  gin.mkContext req ps (gin.reset (http.Method req)) false.

(** The logger of [gin.Default()] is transparent, and no panic leaves the
    engine: serving through the chain returns the context [ServeHTTP]
    computes. *)
Lemma ServeHTTP_logged_default e req :
  (ServeHTTP_logged default_handlers e req).1 = gin.Returned (ServeHTTP e req).
Proof.
  unfold ServeHTTP_logged, handleHTTPRequest_logged, ServeHTTP, handleHTTPRequest. cbn.
  destruct (getValue _ _ _) as [[r ps]|].
  - rewrite Next_running, chain_default by done. unfold run. by destruct (r_handler r _).
  - destruct (tsr_path _ _ _); [case_match; [done|]|]; by rewrite serveError_logged_default.
Qed.

(** The log of a request that has a route is that of the route's chain. *)
Lemma log_found e req r ps :
  getValue (http.Method req) (http.Path req) (trees e) = Some (r, ps) ->
  log_of (ServeHTTP_logged default_handlers e req)
  = log_of (chain default_handlers (r_handler r) (entry req ps)).
Proof.
  intros Hg. unfold ServeHTTP_logged, handleHTTPRequest_logged. cbn. rewrite Hg.
  rewrite Next_running by done. fold (entry req ps).
  by destruct (chain _ _ _) as [[c'|msg c'] out].
Qed.

Lemma log_returned e req r ps c' :
  getValue (http.Method req) (http.Path req) (trees e) = Some (r, ps) ->
  r_handler r (entry req ps) = gin.Returned c' ->
  log_of (ServeHTTP_logged default_handlers e req) = [access (entry req ps) c'].
Proof. intros Hg Hh. rewrite (log_found _ _ _ _ Hg), chain_default by done. by rewrite Hh. Qed.

Lemma log_recovered e req r ps msg c' :
  getValue (http.Method req) (http.Path req) (trees e) = Some (r, ps) ->
  r_handler r (entry req ps) = gin.Panicked msg c' ->
  log_of (ServeHTTP_logged default_handlers e req)
  = [Recovered msg; access (entry req ps) (gin.AbortWithStatus 500 c')].
Proof. intros Hg Hh. rewrite (log_found _ _ _ _ Hg), chain_default by done. by rewrite Hh. Qed.

(** The trailing-slash redirect does not go through the handlers of the
    engine: neither the logger nor the recovery writes a line for it. *)
Lemma log_redirect e req target :
  getValue (http.Method req) (http.Path req) (trees e) = None ->
  tsr_path (http.Method req) (http.Path req) (trees e) = Some target ->
  http.Method req <> "CONNECT" -> http.Path req <> "/" ->
  RedirectTrailingSlash e = true ->
  log_of (ServeHTTP_logged default_handlers e req) = [].
Proof.
  intros Hg Ht Hm Hp Hr. unfold ServeHTTP_logged, handleHTTPRequest_logged. cbn.
  by rewrite Hg, Ht, Hr, !bool_decide_eq_false_2 by done.
Qed.

(** The line of a request that is answered 404: the status, and the size
    -1 of a response of which nothing is written yet. *)
Definition not_found_line (req : http.Request) : line :=
  Access (mkLogParams 404 (http.Method req) (logged_path req) (-1)).

Lemma log_not_found e req :
  getValue (http.Method req) (http.Path req) (trees e) = None ->
  tsr_path (http.Method req) (http.Path req) (trees e) = None ->
  log_of (ServeHTTP_logged default_handlers e req) = [not_found_line req].
Proof.
  intros Hg Ht. unfold ServeHTTP_logged, handleHTTPRequest_logged. cbn.
  by rewrite Hg, Ht, serveError_logged_default.
Qed.

(** The log of every request, by the way the request ends. *)
Lemma log_cases e req :
  (exists r ps, getValue (http.Method req) (http.Path req) (trees e) = Some (r, ps)
     /\ log_of (ServeHTTP_logged default_handlers e req)
        = log_of (chain default_handlers (r_handler r) (entry req ps)))
  \/ log_of (ServeHTTP_logged default_handlers e req) = []
  \/ log_of (ServeHTTP_logged default_handlers e req) = [not_found_line req].
Proof.
  destruct (getValue _ _ _) as [[r ps]|] eqn:Hg.
  - left. exists r, ps. split; [done|]. by apply log_found.
  - right. unfold ServeHTTP_logged, handleHTTPRequest_logged. cbn. rewrite Hg.
    destruct (tsr_path _ _ _); [case_match; [by left|]|];
      right; by rewrite serveError_logged_default.
Qed.

(** A handler that meets the interface leaves one line, with the status the
    client receives. *)
Lemma log_WellBehaved h `{!WellBehaved h} c :
  gin.Aborted c = false ->
  log_of (chain default_handlers h c) = [access c (run h c)].
Proof.
  intros Ha. rewrite chain_default by done. rewrite run_WellBehaved by done.
  pose proof (wb_returns (h:=h) c). by destruct (h c).
Qed.

End Logged.
