(* ===== verification/App.v ===== *)
(** * App: the function [main] of src/main.go

    [main] builds the engine with [gin.Default()], registers the eight routes
    and runs the server on port 8000.  [routes] is the sequence of
    registrations, statement by statement; a registration that panics stops
    the program before it serves anything, so [routes] lives in the error
    monad.  [main] ends in one of three ways ([exit]): it serves, it logs that
    listening failed and exits, or it crashes with a panic; whether listening
    succeeds is the operating system's answer, an argument of [main].
    [engine] is the engine the registrations build, and every theorem about
    what the program answers is a theorem about [respond engine].

    [table] lists the eight routes and [routed] is the interface they make:
    which requests go to which handler with which parameters.  The lookup of
    the engine implements exactly that interface ([dispatch_iff]); the
    theorems of the section [Interface] then give the response to each
    request of the interface, and those of [Extension] say what a further
    registration and a panicking handler do.

    The handler of the swagger route, [ginSwagger.WrapHandler(...)], belongs
    to a library and to the generated docs package; it is a parameter
    ([swagger]) of this file.

    The file begins as the source does, with the package clause and the
    imports: [imports] has the declarations and [qualifier] the name each
    gives its package in the file. *)

From Stdlib Require Import ZArith Ascii String List Lia.
From stdpp Require Import base tactics option list strings gmap.
From S2P Require Import Prelude Http Json Context Handlers Path Router.
#[local] Open Scope Z_scope.

(** ** The package clause and the imports *)

(** Line 1: [package main]; with the function [main] the package is a
    program. *)
Definition package_clause : string := "main".

(** An import declaration: the path of the package and the name the
    declaration gives it, if any. *)
Record ImportSpec := mkImport {
  imp_name : option string;
  imp_path : string
}.

(** Lines 3 to 11. *)
Definition imports : list ImportSpec := [
  mkImport None "log";
  mkImport None "net/http";
  mkImport None "github.com/gin-gonic/gin";
  mkImport (Some "swaggerFiles") "github.com/swaggo/files";
  mkImport (Some "ginSwagger") "github.com/swaggo/gin-swagger";
  mkImport (Some "_") "github.com/vyrwu/go-restful-api-example/docs"
].

(** The name the file refers to a package by: that of the declaration or,
    without one, the name of the package itself, which for the three
    imports that have none is the last element of the path.  The blank name
    gives none: such a package is linked for what its initialisation
    does. *)
Definition qualifier (i : ImportSpec) : option string :=
  match imp_name i with
  | Some n => if decide (n = "_") then None else Some n
  | None => last (split_on "/" (imp_path i))
  end.

(** The packages imported for their initialisation alone. *)
Definition linked_only : list string :=
  imp_path <$> filter (fun i => qualifier i = None) imports.

Section App.
Context `{http.UrlOps}.
Variable swagger : gin.HandlerFunc.

(** Line 38: [gopherRoutes := r.Group("/gophers")]. *)
Definition gopherRoutes : string := Group "/" "/gophers".

(** Lines 30 to 45: the registrations, in the order of the source. *)
Definition routes (r : Engine) : result Engine :=
  r ← GET "/" "/" RootRedirect r;
  r ← GET "/" "/swagger/*any" swagger r;
  r ← GET "/" "/health" HealthCheck r;
  r ← POST gopherRoutes "" CreateGopher r;
  r ← GET gopherRoutes "" GetGophers r;
  r ← GET gopherRoutes "/:id" GetGopherByID r;
  r ← PUT gopherRoutes "/:id" UpdateGopher r;
  DELETE gopherRoutes "/:id" DeleteGopher r.

(** Line 47: the argument of [r.Run]. *)
Definition listen_addr : string := ":8000".

Record Server := mkServer {
  srv_engine : Engine;
  srv_address : string
}.

(** How the process goes on after [main] has done its part. *)
Inductive exit : Type :=
| Serving (s : Server)       (* [r.Run] blocks and serves *)
| Fatal (msg : string)       (* [log.Fatalf]: the message is logged, exit status 1 *)
| Crashed (msg : string).    (* a panic before the server listens *)

(** Lines 27 to 50: [main].  [port_env] is the value of the environment
    variable [PORT]; [listen] is the operating system: the error with which
    listening on an address fails, if it does. *)
Definition main (port_env : string) (listen : string -> option string) : exit :=
  match routes Default with
  | Panic msg => Crashed msg
  | Ok r =>
      match resolveAddress [listen_addr] port_env with
      | Panic msg => Crashed msg
      | Ok address =>
          match listen address with
          | Some err => Fatal ("failed to run server: " +:+ err)
          | None => Serving (mkServer r address)
          end
      end
  end.

(** The engine that serves: what the registrations build from
    [gin.Default()]. *)
Definition engine : Engine := recover (routes Default) (fun _ => Default).

(** The routes the registrations leave in the engine: method, full path,
    pattern and handler, one per registration of lines 30 to 44. *)
Definition table : list route := [
  mkRoute "GET" "/" [Static ""] RootRedirect;
  mkRoute "GET" "/swagger/*any" [Static "swagger"; CatchAll "any"] swagger;
  mkRoute "GET" "/health" [Static "health"] HealthCheck;
  mkRoute "POST" "/gophers" [Static "gophers"] CreateGopher;
  mkRoute "GET" "/gophers" [Static "gophers"] GetGophers;
  mkRoute "GET" "/gophers/:id" [Static "gophers"; Param "id"] GetGopherByID;
  mkRoute "PUT" "/gophers/:id" [Static "gophers"; Param "id"] UpdateGopher;
  mkRoute "DELETE" "/gophers/:id" [Static "gophers"; Param "id"] DeleteGopher
].

(** The interface of the program, read off the same lines: [routed m p h ps]
    when a request of method [m] for the path [p] is for the handler [h],
    with the parameters [ps].  An id is one path segment and is not
    empty. *)
Inductive routed : string -> string -> gin.HandlerFunc -> list (string * string) -> Prop :=
| routed_root : routed "GET" "/" RootRedirect []
| routed_swagger rest :
    routed "GET" ("/swagger/" +:+ rest) swagger [("any", "/" +:+ rest)]
| routed_health : routed "GET" "/health" HealthCheck []
| routed_create : routed "POST" "/gophers" CreateGopher []
| routed_list : routed "GET" "/gophers" GetGophers []
| routed_get id :
    id <> "" -> no_slash id ->
    routed "GET" ("/gophers/" +:+ id) GetGopherByID [("id", id)]
| routed_update id :
    id <> "" -> no_slash id ->
    routed "PUT" ("/gophers/" +:+ id) UpdateGopher [("id", id)]
| routed_delete id :
    id <> "" -> no_slash id ->
    routed "DELETE" ("/gophers/" +:+ id) DeleteGopher [("id", id)].

End App.

(** The qualifiers of the file are distinct, as the compiler demands, and
    they are the ones the statements of the file use; the docs package alone
    is imported under the blank name: nothing of the file refers to it, and
    the document the swagger handler serves is what its initialisation
    registers. *)
Lemma imports_qualifiers :
  omap qualifier imports = ["log"; "http"; "gin"; "swaggerFiles"; "ginSwagger"]
  /\ NoDup (omap qualifier imports)
  /\ linked_only = ["github.com/vyrwu/go-restful-api-example/docs"].
Proof. split; [done|split; [|done]]. apply (bool_decide_unpack _). by vm_compute. Qed.

(** ** Registration and lookup *)

Section Lookup.
Context `{http.UrlOps} (swagger : gin.HandlerFunc).
Implicit Types (m p : string) (r : route) (ps : list (string * string))
  (req : http.Request).

Lemma engine_trees : trees (engine swagger) = table swagger.
Proof. reflexivity. Qed.

Lemma table_disjoint : pairwise_disjoint (table swagger) = true.
Proof. reflexivity. Qed.

(** The registrations of [main] are those of the table, in its order: the
    groups and relative paths of the source give the full paths of the
    table. *)
Lemma routes_register_all e : routes swagger e = register_all (table swagger) e.
Proof.
  unfold routes, gopherRoutes, Group, GET, POST, PUT, DELETE, handle, table.
  repeat match goal with
         | |- context [joinPaths ?a ?b] =>
             let p := eval vm_compute in (joinPaths a b) in change (joinPaths a b) with p
         end.
  cbn [register_all r_method r_path r_handler].
  repeat (destruct (addRoute _ _ _ _) as [?|?]; cbn [mbind result_bind]; [|done]).
  done.
Qed.

Lemma table_well_formed : Forall well_formed (table swagger).
Proof. unfold table. by repeat constructor. Qed.

(** The route at a position of the table is found by every request it
    matches. *)
Lemma dispatch_at i r m p segs ps :
  table swagger !! i = Some r -> r_method r = m -> path_segments p = Some segs ->
  match_segments (r_pattern r) segs = Some ps ->
  getValue m p (trees (engine swagger)) = Some (r, ps).
Proof.
  intros Hi Hr Hp Hm. unfold getValue. rewrite Hp, engine_trees. cbn [mbind option_bind].
  apply find_route_disjoint; [apply table_disjoint| |done..].
  by apply list_elem_of_lookup_2 in Hi.
Qed.

(** The route at position [i] of the table serves the request: what is left
    to show is that the path has the segments the pattern matches. *)
Ltac dispatch_to i :=
  eexists; split;
  [eapply (dispatch_at i); [reflexivity|reflexivity|..]|reflexivity].

(** Every request of the interface finds its handler. *)
Lemma lookup_complete m p h ps :
  routed swagger m p h ps ->
  exists r, getValue m p (trees (engine swagger)) = Some (r, ps) /\ r_handler r = h.
Proof.
  destruct 1 as [|rest| | | |id Hid Hs|id Hid Hs|id Hid Hs].
  - dispatch_to 0%nat; reflexivity.
  - dispatch_to 1%nat; [by apply (path_segments_prefix "swagger")|].
    cbn. destruct (split_on_cons "/" rest) as (x & xs & E).
    by rewrite <- (join_split "/" rest) at 2; rewrite E.
  - dispatch_to 2%nat; reflexivity.
  - dispatch_to 3%nat; reflexivity.
  - dispatch_to 4%nat; reflexivity.
  - dispatch_to 5%nat; [by apply (path_segments_two "gophers")|].
    by apply match_static_param; exists id.
  - dispatch_to 6%nat; [by apply (path_segments_two "gophers")|].
    by apply match_static_param; exists id.
  - dispatch_to 7%nat; [by apply (path_segments_two "gophers")|].
    by apply match_static_param; exists id.
Qed.

(** Every request that finds a handler is a request of the interface. *)
Lemma lookup_sound m p r ps :
  getValue m p (trees (engine swagger)) = Some (r, ps) ->
  routed swagger m p (r_handler r) ps.
Proof.
  rewrite engine_trees. unfold getValue.
  destruct (path_segments p) as [segs|] eqn:Hp; [cbn [mbind option_bind]|done].
  apply path_segments_inv in Hp as (-> & Hne & Hs).
  intros (Hin & <- & Hm)%find_route_Some. unfold table in Hin.
  list_cases Hin; subst r; cbn [r_pattern r_handler r_method] in Hm |- *;
    first [ apply match_static in Hm as [-> ->]
          | apply match_static_param in Hm as (x & Hx & -> & ->)
          | apply match_static_catch_all in Hm as (segs' & Hne' & -> & ->) ];
    try (by constructor);
    try (apply Forall_cons in Hs as [_ [Hs _]%Forall_cons]; by constructor).
  destruct segs' as [|y l]; [done|]. rewrite join_with_cons.
  apply (routed_swagger swagger (join_with "/" (y :: l))).
Qed.

End Lookup.

(** ** What the program answers *)

Section Responses.
Context `{http.UrlOps} (swagger : gin.HandlerFunc).
Implicit Types (m p : string) (ps : list (string * string)) (req : http.Request).

Lemma table_ok `{!WellBehaved swagger} : engine_ok (engine swagger).
Proof.
  intros r. rewrite engine_trees. unfold table. intros Hin.
  list_cases Hin; subst r; cbn; apply _.
Qed.

(** A request of the interface is served by its handler, on a context with
    a fresh writer and the parameters of the path. *)
Lemma serve_routed m p h ps req :
  routed swagger m p h ps -> http.Method req = m -> http.Path req = p ->
  ServeHTTP (engine swagger) req
  = finish (run h (gin.mkContext req ps (gin.reset m) false)).
Proof.
  intros Hr <- <-. destruct (lookup_complete _ _ _ _ _ Hr) as (r & Hg & <-).
  by apply ServeHTTP_found.
Qed.

(** The response to a request whose handler answers the same to every
    request: the answer for the method, with the header sent. *)
Lemma respond_constant m p h ps req `{!ConstantAnswer h answer} :
  routed swagger m p h ps -> http.Method req = m -> http.Path req = p ->
  respond (engine swagger) req
  = default (http.mkResponse 0 ∅ "") (gin.response (gin.WriteHeaderNow (answer m))).
Proof.
  intros Hr Hm Hp. unfold respond. rewrite (serve_routed _ _ _ _ _ Hr Hm Hp).
  unfold run. rewrite constant_answer by by rewrite <- Hm. cbn. by rewrite Hm.
Qed.

(** The statuses the handlers of the program record, whatever the request:
    301 at the root, and 200, 201 or 204 elsewhere. *)
Lemma routed_status_exact m p h ps c :
  routed swagger m p h ps -> (forall rest, p <> "/swagger/" +:+ rest) -> fresh c ->
  gin.rw_status (gin.Writer (run h c)) ∈ (if bool_decide (p = "/") then [301] else [200; 201; 204]).
Proof.
  intros Hr Hsw Hc.
  destruct Hr as [|rest| | | |id Hid Hs|id Hid Hs|id Hid Hs];
    [|by destruct (Hsw rest)|..]; rewrite run_WellBehaved by apply _.
  - rewrite RootRedirect_fresh, http_Redirect_fresh by done. cbv zeta.
    case_bool_decide; list_decide.
  - rewrite HealthCheck_fresh by done. list_decide.
  - rewrite CreateGopher_fresh by done. list_decide.
  - rewrite GetGophers_fresh by done. list_decide.
  - rewrite GetGopherByID_fresh by done. list_decide.
  - rewrite UpdateGopher_fresh by done. list_decide.
  - rewrite DeleteGopher_fresh by done. list_decide.
Qed.

Lemma routed_status m p h ps c :
  routed swagger m p h ps -> (forall rest, p <> "/swagger/" +:+ rest) -> fresh c ->
  gin.rw_status (gin.Writer (run h c)) ∈ [200; 201; 204; 301].
Proof.
  intros Hr Hsw Hc. eapply list_subseteq_weaken, routed_status_exact; [|done..].
  case_bool_decide; list_decide.
Qed.

Lemma routed_WellBehaved m p h ps :
  routed swagger m p h ps -> (forall rest, p <> "/swagger/" +:+ rest) -> WellBehaved h.
Proof. destruct 1 as [|rest| | | |id ? ?|id ? ?|id ? ?]; intros Hsw; try apply _. by destruct (Hsw rest). Qed.

(** The status of the response to a request of the interface outside
    /swagger/. *)
Lemma routed_response_status m p h ps req :
  routed swagger m p h ps -> (forall rest, p <> "/swagger/" +:+ rest) ->
  http.Method req = m -> http.Path req = p ->
  http.StatusCode (respond (engine swagger) req) ∈ [200; 201; 204; 301].
Proof.
  intros Hr Hsw <- <-. pose proof (routed_WellBehaved _ _ _ _ Hr Hsw).
  unfold respond. rewrite (serve_routed _ _ _ _ _ Hr eq_refl eq_refl). cbn.
  rewrite status_WriteHeaderNow by (apply run_ok; [done|apply reset_ok]).
  by eapply routed_status.
Qed.

(** Where the routes lie: at the root, under /swagger/, or elsewhere. *)
Lemma routed_cases m p h ps :
  routed swagger m p h ps ->
  (m = "GET" /\ p = "/")
  \/ (m = "GET" /\ exists rest, p = "/swagger/" +:+ rest)
  \/ (p <> "/" /\ forall rest, p <> "/swagger/" +:+ rest).
Proof.
  destruct 1 as [|rest| | | |id ? ?|id ? ?|id ? ?];
    [by left|right; left; eauto|right; right; split; [done|by intros rest [=]]..].
Qed.

(** Away from the root and from /swagger/ the status is 200, 201 or 204. *)
Lemma stub_response_status m p h ps req :
  routed swagger m p h ps -> (forall rest, p <> "/swagger/" +:+ rest) -> p <> "/" ->
  http.Method req = m -> http.Path req = p ->
  http.StatusCode (respond (engine swagger) req) ∈ [200; 201; 204].
Proof.
  intros Hr Hsw Hroot <- <-. pose proof (routed_WellBehaved _ _ _ _ Hr Hsw).
  unfold respond. rewrite (serve_routed _ _ _ _ _ Hr eq_refl eq_refl). cbn.
  rewrite status_WriteHeaderNow by (apply run_ok; [done|apply reset_ok]).
  pose proof (routed_status_exact _ _ _ _
    (gin.mkContext req ps (gin.reset (http.Method req)) false) Hr Hsw eq_refl) as Hst.
  by rewrite bool_decide_eq_false_2 in Hst.
Qed.

(** A request outside the interface finds no route. *)
Lemma lookup_none m p :
  (forall h ps, ~ routed swagger m p h ps) -> getValue m p (trees (engine swagger)) = None.
Proof.
  intros Hn. destruct (getValue _ _ _) as [[r ps]|] eqn:Hg; [|done].
  by apply lookup_sound, Hn in Hg.
Qed.

Lemma table_methods r : r ∈ table swagger -> r_method r ∈ ["GET"; "POST"; "PUT"; "DELETE"].
Proof.
  unfold table. intros Hin.
  list_cases Hin; subst r; cbn; list_decide.
Qed.

(** The recommendations of the engine for the paths of the gophers with a
    slash too many. *)
Lemma tsr_collection m :
  m ∈ ["GET"; "POST"] -> tsr_path m "/gophers/" (trees (engine swagger)) = Some "/gophers".
Proof. intros Hm. by list_cases Hm; subst m. Qed.

Lemma segments_item_slash id :
  no_slash id -> path_segments ("/gophers/" +:+ id +:+ "/") = Some ["gophers"; id; ""].
Proof.
  intros Hs.
  change ("/gophers/" +:+ id +:+ "/")
    with (String "/" ("gophers" +:+ String "/" (id +:+ String "/" ""))).
  by rewrite path_segments_prefix, split_on_app_sep, split_on_no_sep.
Qed.

Lemma tsr_item m id :
  m ∈ ["GET"; "PUT"; "DELETE"] -> no_slash id ->
  tsr_path m ("/gophers/" +:+ id +:+ "/") (trees (engine swagger))
  = Some ("/gophers/" +:+ id).
Proof.
  intros Hm Hs. unfold tsr_path. rewrite segments_item_slash by done.
  by list_cases Hm; subst m.
Qed.

Lemma not_routed_collection_slash m h ps : ~ routed swagger m "/gophers/" h ps.
Proof. inversion 1; simplify_eq/=. Qed.

Lemma not_routed_item_slash m id h ps :
  no_slash id -> ~ routed swagger m ("/gophers/" +:+ id +:+ "/") h ps.
Proof.
  intros Hs. inversion 1 as [|rest| | | |id' Hid Hs'|id' Hid Hs'|id' Hid Hs'];
    simplify_eq/=; unfold no_slash in *; rewrite contains_char_app in Hs';
    apply orb_false_iff in Hs' as [_ Hs']; done.
Qed.

End Responses.

(** ** The interface of the program, request by request *)

Section Interface.
Context `{http.UrlOps} (swagger : gin.HandlerFunc).
Implicit Types (m p id : string) (req : http.Request).

(** C2: the eight registrations of [main] succeed, none of them panics, and
    they leave the eight routes of [table] in the engine, in the order of
    the source, with the trailing-slash redirect switched on. *)
Theorem routes_registered : routes swagger Default = Ok (mkEngine (table swagger) true).
Proof.
  rewrite routes_register_all, (register_all_registrable _ _ (table_well_formed swagger)). done.
Qed.

(** C39: the registrations of [main] on an engine that has routes already:
    they succeed exactly when none of the eight routes conflicts with a route
    that is there, and then add the eight routes after those and change
    nothing else; otherwise the registration that conflicts panics and the
    program stops (the model has one message for every kind of conflict). *)
Theorem routes_on_any_engine e :
  routes swagger e =
    if independent (table swagger) (trees e)
    then Ok (mkEngine (trees e ++ table swagger) (RedirectTrailingSlash e))
    else Panic "path conflicts with an existing route".
Proof.
  rewrite routes_register_all, (register_all_registrable _ _ (table_well_formed swagger)).
  rewrite registrable_independent.
  assert (registrable (table swagger) [] = true) as -> by reflexivity.
  by rewrite andb_true_r.
Qed.

(** C25: [main] never panics: the registrations succeed and the server
    listens on port 8000 whatever the environment variable PORT holds; it
    serves with the routes of [table] if listening succeeds, and logs
    "failed to run server: <error>" and exits if it fails. *)
Theorem main_listens_on_8000 port_env listen :
  main swagger port_env listen =
    match listen ":8000" with
    | Some err => Fatal ("failed to run server: " +:+ err)
    | None => Serving (mkServer (mkEngine (table swagger) true) ":8000")
    end.
Proof.
  unfold main.
  rewrite routes_register_all, (register_all_registrable _ _ (table_well_formed swagger)).
  by rewrite resolveAddress_one.
Qed.

(** C1: the lookup of the engine implements the interface [routed]: a
    request finds a route with handler [h] and parameters [ps] exactly when
    the interface sends it to [h] with [ps]. *)
Theorem dispatch_iff m p h ps :
  (exists r, getValue m p (trees (engine swagger)) = Some (r, ps) /\ r_handler r = h)
  <-> routed swagger m p h ps.
Proof.
  split; [|apply lookup_complete]. intros (r & Hg & <-). by apply lookup_sound.
Qed.

(** C4: GET /gophers/<id>, for every id that is one non-empty path segment,
    is answered 200 with the JSON content type and the zero gopher
    [{"id":"","name":""}]. *)
Theorem get_gopher_by_id_answer req id :
  http.Method req = "GET" -> http.Path req = "/gophers/" +:+ id ->
  id <> "" -> no_slash id ->
  respond (engine swagger) req = json_response 200 zero_gopher_text.
Proof.
  intros Hm Hp Hid Hs.
  rewrite (respond_constant _ _ _ _ _ req (routed_get swagger id Hid Hs)) by done.
  by rewrite response_json_answer.
Qed.

(** C6: PUT /gophers/<id> is answered 200 with the zero gopher, whatever the
    request carries. *)
Theorem update_gopher_answer req id :
  http.Method req = "PUT" -> http.Path req = "/gophers/" +:+ id ->
  id <> "" -> no_slash id ->
  respond (engine swagger) req = json_response 200 zero_gopher_text.
Proof.
  intros Hm Hp Hid Hs.
  rewrite (respond_constant _ _ _ _ _ req (routed_update swagger id Hid Hs)) by done.
  by rewrite response_json_answer.
Qed.

(** C7: DELETE /gophers/<id> is answered 204 with no header of the
    handler's and no body. *)
Theorem delete_gopher_answer req id :
  http.Method req = "DELETE" -> http.Path req = "/gophers/" +:+ id ->
  id <> "" -> no_slash id ->
  respond (engine swagger) req = http.mkResponse 204 ∅ "".
Proof.
  intros Hm Hp Hid Hs.
  by rewrite (respond_constant _ _ _ _ _ req (routed_delete swagger id Hid Hs)).
Qed.

(** C5: POST /gophers is answered 201 with the zero gopher, whatever the
    body of the request. *)
Theorem create_gopher_answer req :
  http.Method req = "POST" -> http.Path req = "/gophers" ->
  respond (engine swagger) req = json_response 201 zero_gopher_text.
Proof.
  intros Hm Hp.
  rewrite (respond_constant _ _ _ _ _ req (routed_create swagger)) by done.
  by rewrite response_json_answer.
Qed.

(** C8: GET /gophers is answered 200 with the empty JSON array. *)
Theorem get_gophers_answer req :
  http.Method req = "GET" -> http.Path req = "/gophers" ->
  respond (engine swagger) req = json_response 200 "[]".
Proof.
  intros Hm Hp.
  rewrite (respond_constant _ _ _ _ _ req (routed_list swagger)) by done.
  by rewrite response_json_answer.
Qed.

(** C9: GET /health is answered 200 with [{"status":"ok"}]. *)
Theorem health_answer req :
  http.Method req = "GET" -> http.Path req = "/health" ->
  respond (engine swagger) req = json_response 200 health_text.
Proof.
  intros Hm Hp.
  rewrite (respond_constant _ _ _ _ _ req (routed_health swagger)) by done.
  by rewrite response_json_answer.
Qed.

(** C10: GET / is answered 301 with [Location: /swagger/index.html], the HTML
    content type and the short HTML body net/http writes for GET. *)
Theorem root_redirects req :
  http.Method req = "GET" -> http.Path req = "/" ->
  respond (engine swagger) req =
    http.mkResponse 301
      (<[ "Content-Type" := ["text/html; charset=utf-8"] ]>
         {[ "Location" := ["/swagger/index.html"] ]})
      ("<a href=" +:+ quoted "/swagger/index.html" +:+ ">Moved Permanently</a>."
       +:+ http.lf +:+ http.lf).
Proof.
  intros Hm Hp. rewrite (respond_constant _ _ _ _ _ req (routed_root swagger)) by done.
  rewrite response_redirect_writer by done. unfold redirect_response.
  by rewrite http.redirect_target_plain, http.html_escape_plain.
Qed.

(** C40: GET /swagger/<rest>, for every rest (empty, or with slashes), runs
    the swagger handler behind the recovery middleware, on a fresh writer,
    with the parameter [any] bound to [/<rest>]. *)
Theorem swagger_served req rest :
  http.Method req = "GET" -> http.Path req = "/swagger/" +:+ rest ->
  ServeHTTP (engine swagger) req =
    finish (run swagger (gin.mkContext req [("any", "/" +:+ rest)] (gin.reset "GET") false)).
Proof. intros Hm Hp. by apply (serve_routed _ _ _ _ _ req (routed_swagger swagger rest)). Qed.

(** C35: a request of a method the program registers no route for (HEAD,
    PATCH, OPTIONS, ...) is answered 404 with gin's plain-text body, whatever
    its path; for HEAD the body is left out. *)
Theorem unknown_method_not_found req :
  http.Method req ∉ ["GET"; "POST"; "PUT"; "DELETE"] ->
  respond (engine swagger) req = not_found_response (http.Method req).
Proof.
  intros Hm.
  assert (forall r, r ∈ trees (engine swagger) -> r_method r <> http.Method req) as Hr.
  { intros r Hin%table_methods Heq. by rewrite Heq in Hin. }
  apply respond_not_found; [by apply getValue_no_method|by apply tsr_path_no_method].
Qed.

(** C11: the status of every response to a request outside /swagger/ is one
    of 200, 201, 204, 301, 307 and 404: the program never answers 400, 409
    or 500. *)
Theorem status_codes req :
  (forall rest, http.Path req <> "/swagger/" +:+ rest) ->
  http.StatusCode (respond (engine swagger) req) ∈ [200; 201; 204; 301; 307; 404].
Proof.
  intros Hsw. destruct (respond_cases (engine swagger) req)
    as [(r & ps & Hg)|[(target & ->)| ->]]; [|unfold redirect_code; cbn..].
  - apply lookup_sound in Hg.
    eapply list_subseteq_weaken, routed_response_status; [list_decide|done..].
  - case_bool_decide; list_decide.
  - list_decide.
Qed.

(** C37: no two routes of the program can match the same request, so the
    order of the registrations is not observable: an engine with the same
    routes in any other order serves every request as the program's does,
    handler, redirect or 404. *)
Theorem registration_order_irrelevant rs req :
  rs ≡ₚ table swagger ->
  ServeHTTP (mkEngine rs true) req = ServeHTTP (engine swagger) req.
Proof.
  intros Hp. apply (engine_equiv_Permutation rs (table swagger) true Hp).
  apply (pairwise_disjoint_Permutation (table swagger)); [done|apply table_disjoint].
Qed.

(** C38: every handler of the program other than that of the swagger UI
    returns from every context, fresh or not (it does not panic), leaves
    the request and the parameters alone and changes the writer only by the
    operations of its interface; so the writer stays well formed, a status
    line and a header already sent are not changed, and the body is only
    added to. *)
Theorem handlers_return r c :
  r ∈ table swagger -> r_path r <> "/swagger/*any" -> writer_ok (gin.Writer c) ->
  exists c', r_handler r c = gin.Returned c' /\ gin.Request c' = gin.Request c
             /\ gin.Params c' = gin.Params c
             /\ writer_steps (gin.Writer c) (gin.Writer c')
             /\ writer_ok (gin.Writer c')
             /\ (forall x, gin.rw_wire (gin.Writer c) = Some x ->
                           gin.rw_wire (gin.Writer c') = Some x).
Proof.
  intros Hin Hp Hok. assert (WellBehaved (r_handler r)) as Hwb.
  { unfold table in Hin. list_cases Hin; subst r; try apply _. done. }
  pose proof (wb_returns c) as Hr. pose proof (wb_request c) as Hq.
  pose proof (wb_params c) as Hps. pose proof (wb_steps c) as Hs.
  destruct (r_handler r c) as [c'|msg c']; [|done]. exists c'.
  split_and!; eauto using writer_steps_ok, writer_steps_wire.
Qed.

(** C18: with a swagger handler that meets the engine's interface, every
    response stays within the bounds of the protocol: its status is a
    three-digit number (net/http panics on any other); the size gin has
    recorded when the request is served is not negative; and the body the
    client receives has exactly that many bytes, or none at all when the
    request is a HEAD. *)
Theorem response_within_bounds `{!WellBehaved swagger} req :
  100 <= http.StatusCode (respond (engine swagger) req) <= 999
  /\ 0 <= gin.rw_size (gin.Writer (ServeHTTP (engine swagger) req))
  /\ Z.of_nat (String.length (http.RespBody (respond (engine swagger) req)))
     = if bool_decide (http.Method req = "HEAD") then 0
       else gin.rw_size (gin.Writer (ServeHTTP (engine swagger) req)).
Proof.
  pose proof (table_ok swagger) as He.
  split; [by apply respond_valid_status|by apply respond_size].
Qed.

(** GET and POST of /gophers/ (the collection, with a final slash) are
    not served by the handlers but redirected to /gophers: 301 for GET, 307
    for POST, to the URL gin builds from the path, the query and the
    forwarded prefix of the request. *)
Theorem collection_trailing_slash req :
  http.Method req ∈ ["GET"; "POST"] -> http.Path req = "/gophers/" ->
  respond (engine swagger) req =
    redirect_response (http.Method req) (redirect_code (http.Method req))
      (redirect_url req "/gophers").
Proof.
  intros Hm Hp. apply respond_redirect; rewrite ?Hp; try done.
  - apply lookup_none. intros h ps. apply not_routed_collection_slash.
  - by apply tsr_collection.
  - intros Hc. rewrite Hc in Hm. by list_cases Hm.
Qed.

(** GET, PUT and DELETE of /gophers/<id>/ are redirected to
    /gophers/<id>; this includes /gophers// (an empty id), which goes to
    /gophers/. *)
Theorem item_trailing_slash req id :
  http.Method req ∈ ["GET"; "PUT"; "DELETE"] ->
  http.Path req = "/gophers/" +:+ id +:+ "/" -> no_slash id ->
  respond (engine swagger) req =
    redirect_response (http.Method req) (redirect_code (http.Method req))
      (redirect_url req ("/gophers/" +:+ id)).
Proof.
  intros Hm Hp Hs. apply respond_redirect; rewrite ?Hp; try done.
  - apply lookup_none. intros h ps. by apply not_routed_item_slash.
  - by apply tsr_item.
  - intros Hc. rewrite Hc in Hm. by list_cases Hm.
Qed.

End Interface.

(** ** Registering more, and handlers that panic *)

Section Extension.
Context `{http.UrlOps} (swagger : gin.HandlerFunc).
Implicit Types (m p : string) (ps : list (string * string)) (req : http.Request).

(** The pattern of every route of the table is the parse of its path. *)
Lemma table_patterns r :
  r ∈ table swagger -> parse_pattern (r_path r) = Some (r_pattern r) /\ r_pattern r <> [].
Proof. unfold table. intros Hin. by list_cases Hin; subst r. Qed.

(** And so the path of a route is the text of its pattern. *)
Lemma table_paths r : r ∈ table swagger -> print_pattern (r_pattern r) = r_path r.
Proof. intros [Hp _]%table_patterns. by apply print_parse_pattern. Qed.

(** No route of the program can be registered a second time: a further
    registration of the method and path of one of the eight routes, with
    whatever handler, panics (as a registration repeated in [main] would,
    before the server starts). *)
Theorem duplicate_registration_panics r h :
  r ∈ table swagger ->
  exists msg, addRoute (r_method r) (r_path r) h (engine swagger) = Panic msg.
Proof.
  intros Hr. destruct (table_patterns r Hr) as [Hp Hne].
  eapply addRoute_conflict; [done|by rewrite engine_trees|done|by apply conflicts_refl].
Qed.

(** A further registration that gin accepts changes no answer of the
    interface: every request the program routes still finds the same
    handler with the same parameters. *)
Theorem extension_keeps_interface method path h e' m p h' ps :
  addRoute method path h (engine swagger) = Ok e' ->
  routed swagger m p h' ps ->
  exists r, getValue m p (trees e') = Some (r, ps) /\ r_handler r = h'.
Proof.
  intros Hadd Hr. destruct (lookup_complete _ _ _ _ _ Hr) as (r & Hg & Hh).
  exists r. split; [|done]. by eapply addRoute_keeps.
Qed.

(** The recovery middleware of [gin.Default()] stands behind the
    swagger route: if its handler panics before it sends anything, the
    request is answered 500 with the header the handler had set and no
    body. *)
Theorem swagger_panic_recovered req rest msg c' :
  http.Method req = "GET" -> http.Path req = "/swagger/" +:+ rest ->
  swagger (gin.mkContext req [("any", "/" +:+ rest)] (gin.reset "GET") false)
    = gin.Panicked msg c' ->
  writer_ok (gin.Writer c') -> gin.Written (gin.Writer c') = false ->
  respond (engine swagger) req = http.mkResponse 500 (gin.rw_header (gin.Writer c')) "".
Proof.
  intros Hm Hp Hpanic Hok Hw.
  destruct (lookup_complete _ _ _ _ _ (routed_swagger swagger rest)) as (r & Hg & Hh).
  eapply respond_recovered; [by rewrite Hm, Hp| |done..]. by rewrite Hh, Hm.
Qed.

End Extension.

(** ** The theorems at concrete requests

    The library functions on URLs are instantiated with [http.url_ops_plain],
    and the swagger route with a handler that returns at once (or, where the
    theorem asks for a well-behaved one, with [HealthCheck]). *)

Section Witnesses.
#[local] Existing Instance http.url_ops_plain.

Definition idle : gin.HandlerFunc := gin.Returned.

Definition request (method path : string) : http.Request :=
  http.mkRequest method path "" ∅ "".

Lemma get_gopher_by_id_answer_witness :
  respond (engine idle) (request "GET" "/gophers/42") = json_response 200 zero_gopher_text.
Proof. by apply (get_gopher_by_id_answer idle _ "42"). Defined.

Lemma update_gopher_answer_witness :
  respond (engine idle) (http.mkRequest "PUT" "/gophers/42" "" ∅ "{}")
  = json_response 200 zero_gopher_text.
Proof. by apply (update_gopher_answer idle _ "42"). Defined.

Lemma delete_gopher_answer_witness :
  respond (engine idle) (request "DELETE" "/gophers/42") = http.mkResponse 204 ∅ "".
Proof. by apply (delete_gopher_answer idle _ "42"). Defined.

Lemma create_gopher_answer_witness :
  respond (engine idle) (http.mkRequest "POST" "/gophers" "" ∅ "{}")
  = json_response 201 zero_gopher_text.
Proof. by apply create_gopher_answer. Defined.

Lemma get_gophers_answer_witness :
  respond (engine idle) (request "GET" "/gophers") = json_response 200 "[]".
Proof. by apply get_gophers_answer. Defined.

Lemma health_answer_witness :
  respond (engine idle) (request "GET" "/health") = json_response 200 health_text.
Proof. by apply health_answer. Defined.

Lemma root_redirects_witness :
  http.StatusCode (respond (engine idle) (request "GET" "/")) = 301
  /\ http.RespHeader (respond (engine idle) (request "GET" "/")) !! "Location"
     = Some ["/swagger/index.html"].
Proof. by rewrite (root_redirects idle (request "GET" "/")). Defined.

Lemma swagger_served_witness :
  ServeHTTP (engine HealthCheck) (request "GET" "/swagger/index.html")
  = finish (run HealthCheck
      (gin.mkContext (request "GET" "/swagger/index.html") [("any", "/index.html")]
         (gin.reset "GET") false)).
Proof. by apply (swagger_served HealthCheck _ "index.html"). Defined.

Lemma unknown_method_not_found_witness :
  respond (engine idle) (request "PATCH" "/gophers/42") = not_found_response "PATCH".
Proof.
  apply (unknown_method_not_found idle (request "PATCH" "/gophers/42")).
  intros Hm. by list_cases Hm.
Defined.

Lemma status_codes_witness :
  http.StatusCode (respond (engine idle) (request "GET" "/gophers/42/7"))
    ∈ [200; 201; 204; 301; 307; 404].
Proof. apply status_codes. by intros rest [=]. Defined.

Lemma registration_order_irrelevant_witness :
  ServeHTTP (mkEngine (reverse (table idle)) true) (request "PUT" "/gophers/42")
  = ServeHTTP (engine idle) (request "PUT" "/gophers/42").
Proof. apply registration_order_irrelevant, reverse_Permutation. Defined.

(** A context whose header went out with 200 before the handler runs. *)
Definition sent : gin.Context :=
  gin.mkContext (request "DELETE" "/gophers/42") [("id", "42")]
    (gin.Write "sent" (gin.reset "DELETE")) false.

Lemma handlers_return_witness :
  exists c', DeleteGopher sent = gin.Returned c'
    /\ gin.Request c' = request "DELETE" "/gophers/42"
    /\ gin.Params c' = [("id", "42")]
    /\ writer_steps (gin.Writer sent) (gin.Writer c')
    /\ writer_ok (gin.Writer c')
    /\ (forall x, gin.rw_wire (gin.Writer sent) = Some x ->
                  gin.rw_wire (gin.Writer c') = Some x).
Proof.
  apply (handlers_return idle (mkRoute "DELETE" "/gophers/:id" [Static "gophers"; Param "id"]
                                 DeleteGopher)); [list_at 7%nat|done|].
  apply (bool_decide_unpack _). reflexivity.
Defined.

Lemma response_within_bounds_witness :
  100 <= http.StatusCode (respond (engine HealthCheck) (request "HEAD" "/health")) <= 999
  /\ 0 <= gin.rw_size (gin.Writer (ServeHTTP (engine HealthCheck) (request "HEAD" "/health")))
  /\ Z.of_nat (String.length
       (http.RespBody (respond (engine HealthCheck) (request "HEAD" "/health"))))
     = if bool_decide ("HEAD" = "HEAD") then 0
       else gin.rw_size (gin.Writer (ServeHTTP (engine HealthCheck) (request "HEAD" "/health"))).
Proof. apply (response_within_bounds HealthCheck). Defined.

Lemma collection_trailing_slash_witness :
  respond (engine idle) (http.mkRequest "POST" "/gophers/" "" ∅ "{}")
  = http.mkResponse 307 {[ "Location" := ["/gophers"] ]} "".
Proof.
  by rewrite (collection_trailing_slash idle) by (list_decide || done).
Defined.

Lemma item_trailing_slash_witness :
  http.StatusCode (respond (engine idle) (request "GET" "/gophers/42/")) = 301
  /\ http.RespHeader (respond (engine idle) (request "GET" "/gophers/42/")) !! "Location"
     = Some ["/gophers/42"].
Proof.
  by rewrite (item_trailing_slash idle _ "42") by (list_decide || done).
Defined.

Lemma duplicate_registration_panics_witness :
  exists msg, addRoute "GET" "/health" idle (engine idle) = Panic msg.
Proof.
  apply (duplicate_registration_panics idle (mkRoute "GET" "/health" [Static "health"] HealthCheck)).
  list_at 2%nat.
Defined.

Lemma extension_keeps_interface_witness :
  exists r, getValue "GET" "/health" (trees (mkEngine (table idle ++
              [mkRoute "GET" "/gophers/:id/name" [Static "gophers"; Param "id"; Static "name"] idle])
              true)) = Some (r, []) /\ r_handler r = HealthCheck.
Proof.
  by apply (extension_keeps_interface idle "GET" "/gophers/:id/name" idle _
              "GET" "/health" HealthCheck [] eq_refl), routed_health.
Defined.

(** A swagger handler that sets a header and panics. *)
Definition faulty : gin.HandlerFunc := fun c =>
  gin.Panicked "no such file" (gin.with_writer c (gin.SetHeader "X-Tried" "yes" (gin.Writer c))).

Lemma swagger_panic_recovered_witness :
  respond (engine faulty) (request "GET" "/swagger/doc.json")
  = http.mkResponse 500 {[ "X-Tried" := ["yes"] ]} "".
Proof.
  by rewrite (swagger_panic_recovered faulty _ "doc.json" "no such file"
                (gin.context_of (faulty (gin.mkContext (request "GET" "/swagger/doc.json")
                   [("any", "/doc.json")] (gin.reset "GET") false)))).
Defined.

End Witnesses.
