(* ===== verification/Coverage.v ===== *)
(** * Coverage: every request and its answer

    [App] gives the answers to the requests of the interface.  This file
    covers the rest.  [gin.Default()] leaves [RedirectTrailingSlash] switched
    on, so beside the eight routes the program answers six more families of
    requests, with a redirect to the path without its final slash or, for
    /swagger and for the empty path, with one added; [redirected] lists
    them.  Everything else is
    answered 404 by gin.

    The theorems show that the list is complete: outside the interface the
    engine recommends a path exactly in these six cases, every request is
    of the interface, or one of the redirects, or answered 404, and 404 is
    the answer to no other request.  They also follow the redirects: each
    leads to a route of the same method, except that of /gophers//, which for
    PUT and DELETE leads to a 404. *)

From Stdlib Require Import ZArith Ascii String List Lia.
From stdpp Require Import base tactics option list strings gmap.
From S2P Require Import Prelude Http Json Context Handlers Path Router App.
#[local] Open Scope Z_scope.

(** [redirected m p t]: a request of method [m] for the path [p] is sent on
    to the path [t].  The first rule is that of a request with the empty
    path (a request line in absolute form, [GET http://host HTTP/1.1], or
    a request built with an empty URL); the id of the last rule may be
    empty. *)
Inductive redirected : string -> string -> string -> Prop :=
| redirected_no_path : redirected "GET" "" "/"
| redirected_root : redirected "GET" "//" "/"
| redirected_swagger : redirected "GET" "/swagger" "/swagger/"
| redirected_health : redirected "GET" "/health/" "/health"
| redirected_collection m :
    m ∈ ["GET"; "POST"] -> redirected m "/gophers/" "/gophers"
| redirected_item m id :
    m ∈ ["GET"; "PUT"; "DELETE"] -> no_slash id ->
    redirected m ("/gophers/" +:+ id +:+ "/") ("/gophers/" +:+ id).

Section Coverage.
Context `{http.UrlOps} (swagger : gin.HandlerFunc).
Implicit Types (m p t : string) (req : http.Request).

(** ** The redirects are what the engine recommends *)

Lemma redirected_tsr m p t :
  redirected m p t -> tsr_path m p (trees (engine swagger)) = Some t.
Proof.
  destruct 1 as [| | | |m Hm|m id Hm Hs]; [done..|by apply tsr_collection|by apply tsr_item].
Qed.

Lemma redirected_not_routed m p t h ps : redirected m p t -> ~ routed swagger m p h ps.
Proof.
  destruct 1 as [| | | |m Hm|m id Hm Hs];
    [inversion 1; simplify_eq/=..|apply not_routed_collection_slash
    |by apply not_routed_item_slash].
Qed.

Lemma not_routed_lookup m p :
  getValue m p (trees (engine swagger)) = None -> forall h ps, ~ routed swagger m p h ps.
Proof. intros Hg h ps (r & Hg' & _)%lookup_complete. congruence. Qed.

(** A path that ends in a slash, finds no route and is recommended without
    the slash. *)
Lemma tsr_slash_off m base r :
  r ∈ table swagger -> r_method r = m -> match_lenient (r_pattern r) base = true ->
  Forall no_slash base ->
  find_route m (base ++ [""]) (table swagger) = None ->
  redirected m (String "/" (join_with "/" (base ++ [""]))) (String "/" (join_with "/" base)).
Proof.
  intros Hr Hm Hl Hs Hnone.
  unfold table in Hr. list_cases Hr; subst r m; cbn [r_pattern r_method] in Hl;
    first [ apply match_lenient_static in Hl as ->
          | apply match_lenient_static_param in Hl as [x ->]
          | apply match_lenient_static_catch_all in Hl as (x & l & ->) ];
    try (cbn; constructor; try list_decide);
    by apply Forall_cons in Hs as [_ [Hx _]%Forall_cons].
Qed.

(** A path that does not end in a slash, finds no route and is recommended
    with one: /swagger, which the catch-all takes once the slash is there. *)
Lemma tsr_slash_on m segs r :
  r ∈ table swagger -> r_method r = m ->
  is_Some (match_segments (r_pattern r) (segs ++ [""])) -> segs <> [] ->
  find_route m segs (table swagger) = None ->
  m = "GET" /\ segs = ["swagger"].
Proof.
  intros Hr Hm [ps Hs] Hne Hnone.
  unfold table in Hr. list_cases Hr; subst r m; cbn [r_pattern r_method] in Hs;
    first [ apply match_static in Hs as [Hs _]
          | apply match_static_param in Hs as (x & Hx & Hs & _)
          | apply match_static_catch_all in Hs as (segs' & Hne' & Hs & _) ];
    destruct segs as [|y [|z l]]; simplify_eq/=; try done; by destruct l.
Qed.

(** The empty path is recommended the root, for GET alone: no other
    method has a route there. *)
Lemma tsr_no_path m t :
  tsr_path m "" (table swagger) = Some t -> redirected m "" t.
Proof.
  intros [-> (r & Hr & <- & Hp)]%tsr_path_empty.
  unfold table in Hr. list_cases Hr; subst r; try done. constructor.
Qed.

(** Where the lookup finds no route, the recommendations of the engine are
    the six redirects. *)
Lemma tsr_redirected m p t :
  getValue m p (trees (engine swagger)) = None ->
  tsr_path m p (trees (engine swagger)) = Some t -> redirected m p t.
Proof.
  rewrite engine_trees. unfold getValue. intros Hg Ht.
  destruct (tsr_path_Some _ _ _ _ Ht) as [->|[segs Hp]]; [by apply tsr_no_path|].
  apply (tsr_path_segments _ _ _ _ _ Hp) in Ht as Hcases. rewrite Hp in Hg. cbn in Hg.
  apply path_segments_inv in Hp as (-> & Hne & Hs).
  destruct Hcases as [(base & -> & -> & r & Hr & Hm & Hl)|(_ & -> & r & Hr & Hm & Hm')].
  - apply (tsr_slash_off m base r); try done. by apply Forall_app in Hs as [Hs _].
  - destruct (tsr_slash_on m segs r) as [-> ->]; try done. constructor.
Qed.

Lemma redirected_method m p t : redirected m p t -> m ∈ ["GET"; "POST"; "PUT"; "DELETE"].
Proof.
  destruct 1 as [| | | |m Hm|m id Hm Hs]; try list_decide; list_cases Hm; subst m; list_decide.
Qed.

Lemma redirected_not_root m p t : redirected m p t -> p <> "/".
Proof. by destruct 1. Qed.

(** The answer to a request that is redirected. *)
Lemma respond_redirected req t :
  redirected (http.Method req) (http.Path req) t ->
  respond (engine swagger) req =
    redirect_response (http.Method req) (redirect_code (http.Method req)) (redirect_url req t).
Proof.
  intros Hr. apply respond_redirect; try done.
  - apply lookup_none. intros h ps. by eapply redirected_not_routed.
  - by apply redirected_tsr.
  - intros Hc. apply redirected_method in Hr. rewrite Hc in Hr. by list_cases Hr.
  - by eapply redirected_not_root.
Qed.

(** The answer to a request that is neither of the interface nor
    redirected. *)
Lemma respond_uncovered req :
  (forall h ps, ~ routed swagger (http.Method req) (http.Path req) h ps) ->
  (forall t, ~ redirected (http.Method req) (http.Path req) t) ->
  respond (engine swagger) req = not_found_response (http.Method req).
Proof.
  intros Hn Hd. apply respond_not_found; [by apply lookup_none|].
  destruct (tsr_path _ _ _) as [t|] eqn:Ht; [|done].
  apply tsr_redirected in Ht; [by destruct (Hd t)|by apply lookup_none].
Qed.

(** A request without a path: GET is sent on to the root, every other
    method is answered 404. *)
Lemma respond_no_path req :
  http.Path req = "" ->
  respond (engine swagger) req =
    if bool_decide (http.Method req = "GET")
    then redirect_response "GET" 301 (redirect_url req "/")
    else not_found_response (http.Method req).
Proof.
  intros Hp. case_bool_decide as Hm.
  - rewrite (respond_redirected req "/"); rewrite ?Hp, ?Hm; [done|constructor].
  - apply respond_uncovered; rewrite Hp.
    + intros h ps. inversion 1; by destruct id.
    + by inversion 1.
Qed.

(** The one redirect of an item with the empty id. *)
Lemma redirected_empty_id m t :
  redirected m "/gophers//" t -> m ∈ ["GET"; "PUT"; "DELETE"] /\ t = "/gophers/".
Proof.
  inversion 1 as [| | | |m' Hm|m' id Hm Hs Hm' Hp Ht]; subst.
  destruct id as [|a id]; [done|]. by destruct id.
Qed.

(** PUT and DELETE of the collection with a final slash find nothing. *)
Lemma respond_dead_end req :
  http.Method req ∈ ["PUT"; "DELETE"] -> http.Path req = "/gophers/" ->
  respond (engine swagger) req = not_found_response (http.Method req).
Proof.
  intros Hm Hp. apply respond_not_found; rewrite Hp; by list_cases Hm; rewrite Hm.
Qed.

(** A redirect of the program leads to a route: the path it names is a
    path of the interface for the same method, unless the request was for
    /gophers// (an item with the empty id). *)
Lemma redirect_reaches_route m p t :
  redirected m p t -> p <> "/gophers//" -> exists h ps, routed swagger m t h ps.
Proof.
  destruct 1 as [| | | |m Hm|m id Hm Hs]; intros Hp.
  - eauto using routed_root.
  - eauto using routed_root.
  - eexists _, _. apply (routed_swagger swagger "").
  - eauto using routed_health.
  - list_cases Hm; subst m; eauto using routed_create, routed_list.
  - assert (id <> "") as Hid by (by intros ->).
    list_cases Hm; subst m; eauto using routed_get, routed_update, routed_delete.
Qed.

(** ** The theorems *)

(** C14: outside the interface, the engine recommends another path exactly
    for the six redirects of [redirected]: the paths of the root, of
    /health, of the collection and of an item with one slash too many, and
    /swagger and the empty path with the slash missing. *)
Theorem trailing_slash_iff m p t :
  (forall h ps, ~ routed swagger m p h ps) ->
  tsr_path m p (trees (engine swagger)) = Some t <-> redirected m p t.
Proof.
  intros Hn. split; [|apply redirected_tsr]. apply tsr_redirected. by apply lookup_none.
Qed.

(** C12: every request is of one of three kinds: it is a request of
    the interface and goes to a handler; or it is one of the redirects and
    is answered 301 (GET) or 307 with the Location of the redirect; or it is
    answered 404 with gin's plain-text body. *)
Theorem request_trichotomy req :
  (exists h ps, routed swagger (http.Method req) (http.Path req) h ps)
  \/ (exists t, redirected (http.Method req) (http.Path req) t /\
        respond (engine swagger) req =
          redirect_response (http.Method req) (redirect_code (http.Method req))
            (redirect_url req t))
  \/ respond (engine swagger) req = not_found_response (http.Method req).
Proof.
  destruct (getValue (http.Method req) (http.Path req) (trees (engine swagger)))
    as [[r ps]|] eqn:Hg; [left; eauto using lookup_sound|right].
  destruct (tsr_path (http.Method req) (http.Path req) (trees (engine swagger)))
    as [t|] eqn:Ht; [left|right; by apply respond_not_found].
  apply tsr_redirected in Ht; [|done]. eauto using respond_redirected.
Qed.

(** C13: outside /swagger/, gin's 404 is the answer to the requests that are
    neither of the interface nor redirected, and to no other: no handler of
    the program and no redirect answers 404. *)
Theorem not_found_iff req :
  (forall rest, http.Path req <> "/swagger/" +:+ rest) ->
  respond (engine swagger) req = not_found_response (http.Method req) <->
  (forall h ps, ~ routed swagger (http.Method req) (http.Path req) h ps) /\
  (forall t, ~ redirected (http.Method req) (http.Path req) t).
Proof.
  intros Hsw. split; [|intros [Hn Hd]; by apply respond_uncovered].
  intros Hr. split.
  - intros h ps Hrt.
    pose proof (routed_response_status _ _ _ _ _ req Hrt Hsw eq_refl eq_refl) as Hst.
    rewrite Hr in Hst. by list_cases Hst.
  - intros t Ht%respond_redirected. rewrite Ht in Hr.
    apply (f_equal http.StatusCode) in Hr. unfold redirect_code in Hr. cbn in Hr.
    by case_bool_decide.
Qed.

(** C36: PUT and DELETE of /gophers// are among the redirects: they are
    answered 307 with the Location /gophers/; and a PUT or DELETE of
    /gophers/ is answered 404: the one redirect of the program that leads
    nowhere. *)
Theorem empty_id_dead_end req req' :
  http.Method req ∈ ["PUT"; "DELETE"] -> http.Path req = "/gophers//" ->
  http.Method req' = http.Method req -> http.Path req' = "/gophers/" ->
  redirected (http.Method req) (http.Path req) "/gophers/"
  /\ respond (engine swagger) req =
       redirect_response (http.Method req) 307 (redirect_url req "/gophers/")
  /\ respond (engine swagger) req' = not_found_response (http.Method req).
Proof.
  intros Hm Hp Hm' Hp'.
  assert (redirected (http.Method req) (http.Path req) "/gophers/") as Hr.
  { rewrite Hp. apply (redirected_item _ ""); [|done].
    eapply list_subseteq_weaken; [|done]. list_decide. }
  split_and!; [done| |].
  - rewrite (respond_redirected req "/gophers/" Hr).
    unfold redirect_code. by list_cases Hm; rewrite Hm.
  - rewrite <- Hm'. apply respond_dead_end; [by rewrite Hm'|done].
Qed.

End Coverage.

(** ** The theorems at concrete requests *)

Section Witnesses.
#[local] Existing Instance http.url_ops_plain.

Lemma trailing_slash_iff_witness :
  tsr_path "GET" "/health/" (trees (engine idle)) = Some "/health"
  <-> redirected "GET" "/health/" "/health".
Proof. by apply trailing_slash_iff, not_routed_lookup. Defined.

Lemma not_found_iff_witness :
  respond (engine idle) (request "GET" "/gophers/42/7") = not_found_response "GET" <->
  (forall h ps, ~ routed idle "GET" "/gophers/42/7" h ps) /\
  (forall t, ~ redirected "GET" "/gophers/42/7" t).
Proof. apply (not_found_iff idle (request "GET" "/gophers/42/7")). by intros rest [=]. Defined.

Lemma respond_no_path_witness :
  respond (engine idle) (request "GET" "")
  = http.mkResponse 301
      {[ "Location" := ["/"]; "Content-Type" := ["text/html; charset=utf-8"] ]}
      ("<a href=" +:+ quoted "/" +:+ ">Moved Permanently</a>." +:+ http.lf +:+ http.lf)
  /\ respond (engine idle) (request "POST" "") = not_found_response "POST".
Proof.
  split; [rewrite (respond_no_path idle (request "GET" ""))
         |rewrite (respond_no_path idle (request "POST" ""))]; by vm_compute.
Defined.

Lemma redirect_reaches_route_witness :
  exists h ps, routed idle "DELETE" "/gophers/42" h ps.
Proof.
  apply (redirect_reaches_route idle "DELETE" "/gophers/42/" "/gophers/42"); [|done].
  apply (redirected_item "DELETE" "42"); [list_decide|done].
Defined.

Lemma empty_id_dead_end_witness :
  respond (engine idle) (request "PUT" "/gophers//")
    = http.mkResponse 307 {[ "Location" := ["/gophers/"] ]} ""
  /\ respond (engine idle) (request "PUT" "/gophers/") = not_found_response "PUT".
Proof.
  by destruct (empty_id_dead_end idle (request "PUT" "/gophers//") (request "PUT" "/gophers/"))
    as (_ & -> & ->); [list_decide|..].
Defined.

End Witnesses.
