(* ===== verification/Logging.v ===== *)
(** * Logging: the access log of the program

    [main] takes its engine from [gin.Default()], so every request the
    program serves goes through the logger and the recovery of [Middleware].
    [serve] is the program as [r.Run] serves it: the engine of [main] behind
    these handlers, with the lines they write.

    The theorems show that the log does not change what the client receives,
    and say what is logged: one line with the status of the response for a
    request that reaches a handler, none for a trailing-slash redirect
    (which does not pass the logger), and a line with 404 for the rest; the
    line of a DELETE is printed before
    its header is sent; a panic of the swagger handler is reported and
    logged as 500, or, if the header had been sent, with the status that
    was sent. *)

From Stdlib Require Import ZArith Ascii String List Lia.
From stdpp Require Import base tactics option list strings gmap.
From S2P Require Import Prelude Http Json Context Handlers Path Router Middleware App Coverage.
#[local] Open Scope Z_scope.

Section Logging.
Context `{http.UrlOps} (swagger : gin.HandlerFunc).
Implicit Types (m p : string) (req : http.Request).

(** The program, serving one request: [r := gin.Default()] with the routes
    of [main], as [r.Run] hands it each request. *)
Definition serve (req : http.Request) : gin.outcome * list line :=
  ServeHTTP_logged default_handlers (engine swagger) req.

(** The line the logger prints for a response. *)
Definition line_of (req : http.Request) (status size : Z) : line :=
  Access (mkLogParams status (http.Method req) (logged_path req) size).

(** ** A request that reaches a handler *)

Lemma routed_not_head m p h ps : routed swagger m p h ps -> m <> "HEAD".
Proof. destruct 1; done. Qed.

(** The line of a request that has a route: the status of the response, and
    a size that is the length of the body, or -1 if there is none and the
    header was not sent by then. *)
Lemma log_routed `{!WellBehaved swagger} req r ps :
  getValue (http.Method req) (http.Path req) (trees (engine swagger)) = Some (r, ps) ->
  exists size,
    log_of (serve req) = [line_of req (http.StatusCode (respond (engine swagger) req)) size]
    /\ Z.max 0 size = Z.of_nat (String.length (http.RespBody (respond (engine swagger) req))).
Proof.
  intros Hg. pose proof (table_ok swagger) as He.
  destruct (respond_found _ _ _ _ He Hg) as (Hst & Hb & Hreq & Hm & Hsz).
  pose proof (getValue_Some _ _ _ _ _ Hg) as (Hin & _). specialize (He r Hin).
  eexists. split.
  - unfold serve. rewrite (log_found _ _ _ _ Hg), log_WellBehaved by done.
    unfold access, line_of, entry. by rewrite Hst, Hreq.
  - rewrite Hb. unfold size_ok in Hsz. rewrite Hm, bool_decide_eq_false_2 in Hsz; [done|].
    by eapply routed_not_head, lookup_sound.
Qed.

(** ** A panic behind the recovery *)

Lemma panic_line c c' :
  writer_ok (gin.Writer c') -> gin.Written (gin.Writer c') = false ->
  access c (gin.AbortWithStatus 500 c')
  = Access (mkLogParams 500 (http.Method (gin.Request c')) (logged_path (gin.Request c)) 0).
Proof.
  intros Hok Hw. unfold access, gin.AbortWithStatus. cbn.
  rewrite WriteHeader_set by done. unfold gin.WriteHeaderNow, gin.Written. cbn.
  apply Written_false in Hw. by rewrite Hw.
Qed.

(** ** The theorems *)

(** The logger of gin.Default() observes and changes nothing, and no
    panic of a handler leaves the engine: serving a request through the
    logger and the recovery returns, with the context (and so the response)
    of the engine that has the recovery alone, whatever the swagger handler
    does. *)
Theorem logging_transparent req :
  (serve req).1 = gin.Returned (ServeHTTP (engine swagger) req).
Proof. apply ServeHTTP_logged_default. Qed.

(** C16: the access log of the program, with a swagger handler that meets
    the engine's interface: for a request of the interface the logger
    writes one line with the status of the response, the method, the path
    with its query, and a size that accounts for the body sent; for a
    trailing-slash redirect, which does not pass the logger, no line; for
    every other request one line with 404 and the size -1, printed before
    gin writes the body. *)
Theorem access_logged `{!WellBehaved swagger} req :
  let resp := respond (engine swagger) req in
  (exists h ps size,
     routed swagger (http.Method req) (http.Path req) h ps
     /\ log_of (serve req) = [line_of req (http.StatusCode resp) size]
     /\ Z.max 0 size = Z.of_nat (String.length (http.RespBody resp)))
  \/ ((exists t, redirected (http.Method req) (http.Path req) t) /\ log_of (serve req) = [])
  \/ (resp = not_found_response (http.Method req) /\ log_of (serve req) = [line_of req 404 (-1)]).
Proof.
  intros resp. unfold resp.
  destruct (getValue (http.Method req) (http.Path req) (trees (engine swagger)))
    as [[r ps]|] eqn:Hg.
  - left. destruct (log_routed req r ps Hg) as (size & Hl & Hs).
    exists (r_handler r), ps, size. eauto using lookup_sound.
  - right. destruct (tsr_path (http.Method req) (http.Path req) (trees (engine swagger)))
      as [t|] eqn:Ht.
    + left. pose proof (tsr_redirected swagger _ _ _ Hg Ht) as Hr. split; [by exists t|].
      apply (log_redirect _ _ t); try done.
      * intros Hc. apply redirected_method in Hr. rewrite Hc in Hr. by list_cases Hr.
      * by eapply redirected_not_root.
    + right. split; [by apply respond_not_found|by apply log_not_found].
Qed.

(** The line of DELETE /gophers/<id> carries the status 204 and the size
    -1: the handler only records the status, and the header is sent when
    the logger has printed its line; the size of the response as served is
    0. *)
Theorem delete_logged_before_header req id :
  http.Method req = "DELETE" -> http.Path req = "/gophers/" +:+ id ->
  id <> "" -> no_slash id ->
  log_of (serve req) = [line_of req 204 (-1)]
  /\ gin.rw_size (gin.Writer (ServeHTTP (engine swagger) req)) = 0.
Proof.
  intros Hm Hp Hid Hs.
  pose proof (routed_delete swagger id Hid Hs) as Hr.
  destruct (lookup_complete _ _ _ _ _ Hr) as (r & Hg & Hh).
  rewrite <- Hm, <- Hp in Hg. split.
  - unfold serve. erewrite log_returned; [|done|rewrite Hh; by apply DeleteGopher_fresh].
    unfold access, line_of. cbn. by rewrite Hm.
  - rewrite (ServeHTTP_found _ _ _ _ Hg), Hh. unfold run.
    by rewrite DeleteGopher_fresh.
Qed.

(** C34: a panic of the swagger handler, raised before it sends anything, is
    reported by the recovery and answered 500 with the header the handler
    had set and no body; the logger then prints the line of the request
    with the status 500 and the size 0. *)
Theorem swagger_panic_logged req rest msg c' :
  http.Method req = "GET" -> http.Path req = "/swagger/" +:+ rest ->
  swagger (entry req [("any", "/" +:+ rest)]) = gin.Panicked msg c' ->
  writer_ok (gin.Writer c') -> gin.Written (gin.Writer c') = false ->
  respond (engine swagger) req = http.mkResponse 500 (gin.rw_header (gin.Writer c')) ""
  /\ log_of (serve req)
     = [Recovered msg;
        Access (mkLogParams 500 (http.Method (gin.Request c')) (logged_path req) 0)].
Proof.
  intros Hm Hp Hpanic Hok Hw.
  destruct (lookup_complete _ _ _ _ _ (routed_swagger swagger rest)) as (r & Hg & Hh).
  rewrite <- Hm, <- Hp in Hg. rewrite <- Hh in Hpanic. split.
  - by eapply respond_recovered.
  - unfold serve. erewrite log_recovered by done. by rewrite panic_line.
Qed.

(** A panic of the swagger handler after it has sent the header: the client
    keeps what was sent, a status that is not 500 and a body that ends where
    the handler left it; the recovery reports the panic; and the line of the
    request has the status that was sent, since gin ignores the 500 it can
    no longer send (earlier versions of gin record it all the same, and
    print 500 for a response that went out as 200). *)
Theorem swagger_panic_after_header req rest msg c' :
  http.Method req = "GET" -> http.Path req = "/swagger/" +:+ rest ->
  swagger (entry req [("any", "/" +:+ rest)]) = gin.Panicked msg c' ->
  gin.Written (gin.Writer c') = true ->
  respond (engine swagger) req
  = default (http.mkResponse 0 ∅ "") (gin.response (gin.Writer c'))
  /\ log_of (serve req)
     = [Recovered msg;
        Access (mkLogParams (gin.rw_status (gin.Writer c')) (http.Method (gin.Request c'))
                  (logged_path req) (gin.rw_size (gin.Writer c')))].
Proof.
  intros Hm Hp Hpanic Hw.
  destruct (lookup_complete _ _ _ _ _ (routed_swagger swagger rest)) as (r & Hg & Hh).
  rewrite <- Hm, <- Hp in Hg. rewrite <- Hh in Hpanic. split.
  - by eapply respond_recovered_sent.
  - unfold serve. erewrite log_recovered by done. unfold access, gin.AbortWithStatus. cbn.
    by rewrite WriteHeader_Written, WriteHeaderNow_sent.
Qed.

End Logging.

(** ** The theorems at concrete requests *)

Section Witnesses.
#[local] Existing Instance http.url_ops_plain.

Lemma access_logged_witness :
  log_of (serve HealthCheck (request "GET" "/gophers/42/7"))
  = [line_of (request "GET" "/gophers/42/7") 404 (-1)].
Proof.
  destruct (access_logged HealthCheck (request "GET" "/gophers/42/7"))
    as [(h & ps & size & Hr & _)|[[[t Hr] _]|[_ Hl]]]; [| |exact Hl].
  - by apply lookup_complete in Hr as (r & Hg & _).
  - by apply (redirected_tsr idle) in Hr.
Defined.

Lemma delete_logged_before_header_witness :
  log_of (serve idle (request "DELETE" "/gophers/42"))
  = [line_of (request "DELETE" "/gophers/42") 204 (-1)]
  /\ gin.rw_size (gin.Writer (ServeHTTP (engine idle) (request "DELETE" "/gophers/42"))) = 0.
Proof. by apply (delete_logged_before_header idle _ "42"). Defined.

Lemma swagger_panic_logged_witness :
  respond (engine faulty) (request "GET" "/swagger/doc.json")
  = http.mkResponse 500 {[ "X-Tried" := ["yes"] ]} ""
  /\ log_of (serve faulty (request "GET" "/swagger/doc.json"))
     = [Recovered "no such file";
        Access (mkLogParams 500 "GET" "/swagger/doc.json" 0)].
Proof.
  by destruct (swagger_panic_logged faulty (request "GET" "/swagger/doc.json") "doc.json"
                 "no such file"
                 (gin.context_of (faulty (entry (request "GET" "/swagger/doc.json")
                    [("any", "/doc.json")])))) as [-> ->].
Defined.

(** A handler that panics with half of its answer sent. *)
Definition late : gin.HandlerFunc := fun c =>
  gin.Panicked "lost" (gin.with_writer c (gin.Write "half" (gin.Writer c))).

Lemma swagger_panic_after_header_witness :
  respond (engine late) (request "GET" "/swagger/doc.json") = http.mkResponse 200 ∅ "half"
  /\ log_of (serve late (request "GET" "/swagger/doc.json"))
     = [Recovered "lost"; Access (mkLogParams 200 "GET" "/swagger/doc.json" 4)].
Proof.
  by destruct (swagger_panic_after_header late (request "GET" "/swagger/doc.json") "doc.json"
                 "lost"
                 (gin.context_of (late (entry (request "GET" "/swagger/doc.json")
                    [("any", "/doc.json")])))) as [-> ->].
Defined.

End Witnesses.
