(* ===== verification/Client.v ===== *)
(** * Client: following the redirects of the program

    The program answers with redirects: the root sends to the swagger UI,
    and gin sends six families of paths to the path with or without the
    final slash ([Coverage]).  A client of the API follows them.  This file
    has the client's side as net/http's [Client] implements it (which
    redirect changes the method, which drops the body, where the next
    request goes) and the chain of requests it makes, and shows that the
    chains of the program end: no request is sent round in a circle.

    [follow n] makes at most [n] further requests, and [hops n] lists the
    requests it makes; Go's client stops after
    ten requests in a row, the first and nine more.  The program needs two
    more, and what the swagger UI adds: its
    handler is a parameter of the development, so the theorem takes the
    number of hops the UI needs as a parameter too. *)

From Stdlib Require Import ZArith Ascii String List Lia.
From stdpp Require Import base tactics option list strings gmap.
From S2P Require Import Prelude Http Json Context Handlers Path Router App Coverage.
#[local] Open Scope Z_scope.

(** ** The client *)

(** [redirectBehavior(reqMethod, resp, ireq)]: the method of the next
    request and whether the body goes with it, for a status that redirects.
    (The body of a request is a string here, which can be sent again.) *)
Definition redirectBehavior (reqMethod : string) (status : Z) : option (string * bool) :=
  if bool_decide (status ∈ [301; 302; 303]) then
    Some (if bool_decide (reqMethod ≠ "GET") && bool_decide (reqMethod ≠ "HEAD")
          then "GET" else reqMethod, false)
  else if bool_decide (status ∈ [307; 308]) then Some (reqMethod, true)
  else None.

(** [resp.Header.Get("Location")]. *)
Definition location (resp : http.Response) : string :=
  http.Get "Location" (http.RespHeader resp).

(** The path and the query of a reference that is an absolute path, as all
    that [http.Redirect] sends are. *)
Fixpoint split_query (s : string) : string * string :=
  match s with
  | EmptyString => ("", "")
  | String a s' =>
      if bool_decide (a = "?"%char) then ("", s')
      else let '(p, q) := split_query s' in (String a p, q)
  end.

(** The request the client makes next, if the response sends it on: none
    for a status that does not redirect, and none without a [Location]. *)
Definition next_request (req : http.Request) (resp : http.Response) : option http.Request :=
  match redirectBehavior (http.Method req) (http.StatusCode resp) with
  | Some (method, includeBody) =>
      if bool_decide (location resp = "") then None
      else
        let '(p, q) := split_query (location resp) in
        Some (http.mkRequest method p q (http.ReqHeader req)
                (if includeBody then http.Body req else ""))
  | None => None
  end.

Section Follow.
Context `{http.UrlOps}.

(** [client.Do(req)] against the engine: the last request made and its
    response, or nothing if more than [fuel] redirects would be needed. *)
Fixpoint follow (fuel : nat) (e : Engine) (req : http.Request)
    : option (http.Request * http.Response) :=
  match next_request req (respond e req) with
  | None => Some (req, respond e req)
  | Some req' =>
      match fuel with
      | O => None
      | S n => follow n e req'
      end
  end.

(** The requests the client makes on the way, the first included. *)
Fixpoint hops (fuel : nat) (e : Engine) (req : http.Request) : list http.Request :=
  req :: match next_request req (respond e req) with
         | None => []
         | Some req' =>
             match fuel with
             | O => []
             | S n => hops n e req'
             end
         end.

(** Go's default policy: the client stops after ten consecutive requests,
    the first and nine that follow a redirect. *)
Definition Do (e : Engine) (req : http.Request) : option (http.Request * http.Response) :=
  follow 9 e req.

End Follow.

(** ** The chain of requests *)

Section Chain.
Context `{http.UrlOps}.
Implicit Types (e : Engine) (req : http.Request) (resp : http.Response) (n : nat) (t : string).

Lemma follow_final n e req :
  next_request req (respond e req) = None -> follow n e req = Some (req, respond e req).
Proof. intros Hn. destruct n; cbn; by rewrite Hn. Qed.

Lemma follow_hop n e req req' :
  next_request req (respond e req) = Some req' -> follow (S n) e req = follow n e req'.
Proof. intros Hn. cbn. by rewrite Hn. Qed.

(** What [follow] returns is the answer of the engine to the last request,
    and it sends no further. *)
Lemma follow_Some n e req req' resp :
  follow n e req = Some (req', resp) ->
  resp = respond e req' /\ next_request req' resp = None.
Proof.
  revert req. induction n as [|n IH]; intros req; cbn;
    destruct (next_request req (respond e req)) eqn:Hn; try done; eauto; by intros [= <- <-].
Qed.

(** More fuel does not change a result. *)
Lemma follow_mono n n' e req x :
  follow n e req = Some x -> (n <= n')%nat -> follow n' e req = Some x.
Proof.
  revert n' req. induction n as [|n IH]; intros n' req; cbn;
    destruct (next_request req (respond e req)) as [req'|] eqn:Hn; try done.
  - intros <- _. by apply follow_final.
  - intros Hf Hle. destruct n' as [|n']; [lia|]. rewrite (follow_hop _ _ _ _ Hn).
    apply IH; [done|lia].
  - intros <- _. by apply follow_final.
Qed.

Lemma follow_settles n n' e req :
  is_Some (follow n e req) -> (n <= n')%nat -> is_Some (follow n' e req).
Proof. intros [x Hx] Hle. exists x. by eapply follow_mono. Qed.

Lemma follow_settles_hop n e req req' :
  next_request req (respond e req) = Some req' -> is_Some (follow n e req') ->
  is_Some (follow (S n) e req).
Proof. intros Hn Hs. by rewrite (follow_hop _ _ _ _ Hn). Qed.

(** The client makes no more requests than it is allowed, and ends with the
    last of them. *)
Lemma length_hops n e req : (length (hops n e req) <= S n)%nat.
Proof.
  revert req. induction n as [|n IH]; intros req; cbn;
    destruct (next_request req (respond e req)) as [req'|]; cbn; try lia.
  specialize (IH req'). lia.
Qed.

Lemma follow_last_hop n e req r resp :
  follow n e req = Some (r, resp) -> last (hops n e req) = Some r.
Proof.
  revert req. induction n as [|n IH]; intros req; cbn;
    destruct (next_request req (respond e req)) as [req'|] eqn:Hn; try done;
    try by intros [= <- <-].
  intros Hf. specialize (IH _ Hf). rewrite last_cons, IH. done.
Qed.

(** A response whose status does not redirect is final. *)
Lemma next_request_status req resp :
  http.StatusCode resp ∉ [301; 302; 303; 307; 308] -> next_request req resp = None.
Proof.
  intros Hs. unfold next_request, redirectBehavior.
  rewrite !bool_decide_eq_false_2; [done|..]; intros Hin; apply Hs;
    eapply list_subseteq_weaken; [|done| |done]; list_decide.
Qed.

(** A query-free reference is its path. *)
Lemma split_query_no_query s : contains_char "?" s = false -> split_query s = (s, "").
Proof.
  induction s as [|a s IH]; [done|]. cbn.
  case_decide as Ha; [done|]. rewrite bool_decide_eq_false_2 by done.
  intros Hs. by rewrite IH.
Qed.

Lemma plain_char_not_query a : http.is_plain_char a = true -> a <> "?"%char.
Proof. by intros Ha ->. Qed.

Lemma all_plain_no_query s : http.all_plain s = true -> contains_char "?" s = false.
Proof.
  induction s as [|a s IH]; [done|]. cbn. intros [Ha Hs]%andb_true_iff.
  apply plain_char_not_query in Ha. case_decide; [done|]. by apply IH.
Qed.

(** The [Location] of a redirect. *)
Lemma location_redirect_response m code url :
  location (redirect_response m code url) = http.redirect_target url.
Proof.
  unfold location, redirect_response, http.Get. cbn [http.RespHeader].
  destruct (_ || _); [rewrite lookup_insert_ne by done|]; by rewrite lookup_singleton_eq.
Qed.

End Chain.

(** ** Requests whose redirects are determined

    The [Location] gin sends is built from the path, the query and the
    forwarded prefix of the request by the URL functions of the library,
    which are left abstract beyond plain paths.  A tame request has no
    query and no forwarded prefix, and the segments of its path are empty
    or plain. *)

Definition tame_segment (s : string) : bool :=
  bool_decide (s = "") || http.plain_segment s.

Definition tame_path (p : string) : bool :=
  match path_segments p with
  | Some segs => forallb tame_segment segs
  | None => true
  end.

Definition tame (req : http.Request) : Prop :=
  http.RawQuery req = ""
  /\ http.Has "X-Forwarded-Prefix" (http.ReqHeader req) = false
  /\ tame_path (http.Path req) = true.

#[export] Instance tame_dec req : Decision (tame req).
Proof. unfold tame. apply _. Defined.

(** The request a redirect to [t] leads to: the same method (gin redirects
    GET with 301 and the others with 307), the path [t], the header kept,
    the body kept unless the method is GET. *)
Definition redirected_request (req : http.Request) (t : string) : http.Request :=
  http.mkRequest (http.Method req) t "" (http.ReqHeader req)
    (if bool_decide (http.Method req = "GET") then "" else http.Body req).

Section Targets.
Context `{http.UrlOps}.
Implicit Types (req : http.Request) (m p t id : string).

Lemma plain_path_nonempty t : http.plain_path t = true -> t <> "".
Proof. by intros Hp ->. Qed.

(** The path of an item whose id is empty or plain is a plain path without
    a query. *)
Lemma plain_item id :
  no_slash id -> tame_segment id = true ->
  http.plain_path ("/gophers/" +:+ id) = true
  /\ contains_char "?" ("/gophers/" +:+ id) = false.
Proof.
  intros Hs Hid. split.
  - unfold http.plain_path.
    change ("/gophers/" +:+ id) with (String "/" ("gophers" +:+ String "/" id)).
    rewrite split_on_sep_head, split_on_app_sep, !split_on_no_sep by done.
    cbn [reverse rev_append app]. unfold tame_segment in Hid.
    change (reverse ["gophers"; id]) with [id; "gophers"]. cbn [forallb].
    by rewrite orb_comm, Hid.
  - rewrite contains_char_app. cbn. unfold tame_segment, http.plain_segment in Hid.
    case_bool_decide as Hid'; [by rewrite Hid'|]. cbn in Hid.
    apply all_plain_no_query. by destruct (http.all_plain id).
Qed.

(** The targets of the program's redirects, for a tame path. *)
Lemma redirected_target m p t :
  redirected m p t -> tame_path p = true ->
  http.plain_path t = true /\ contains_char "?" t = false /\ tame_path t = true.
Proof.
  destruct 1 as [| | | |m Hm|m id Hm Hs]; [done..|]. unfold tame_path.
  rewrite segments_item_slash by done. cbn [forallb].
  intros [_ [Hid _]%andb_true_iff]%andb_true_iff.
  destruct (plain_item id Hs Hid) as [Hp Hq]. split_and!; [done..|].
  change ("/gophers/" +:+ id) with (String "/" ("gophers" +:+ String "/" id)).
  rewrite path_segments_two by done. cbn. by rewrite Hid.
Qed.

(** A redirect to a plain path sends a tame request on to that path. *)
Lemma redirect_hop req resp t :
  tame req -> http.plain_path t = true -> contains_char "?" t = false ->
  resp = redirect_response (http.Method req) (redirect_code (http.Method req)) t ->
  next_request req resp = Some (redirected_request req t).
Proof.
  intros (Hq & Hx & _) Hp Hnq ->. unfold next_request.
  rewrite location_redirect_response, http.redirect_target_plain by done.
  rewrite bool_decide_eq_false_2 by by apply plain_path_nonempty.
  rewrite split_query_no_query by done. unfold redirected_request, redirect_code.
  cbn [http.StatusCode redirect_response]. by case_bool_decide as Hm; [rewrite Hm|].
Qed.

Lemma redirected_request_tame req t :
  tame req -> tame_path t = true -> tame (redirected_request req t).
Proof. by intros (Hq & Hx & _) Ht. Qed.

End Targets.

(** ** The chains of the program end *)

Section Termination.
Context `{http.UrlOps} (swagger : gin.HandlerFunc).
Implicit Types (req : http.Request) (m p t id : string) (n k : nat).

(** The request is answered for good after at most [n] redirects. *)
Definition settles (n : nat) (req : http.Request) : Prop :=
  is_Some (follow n (engine swagger) req).

(** What the theorems ask of the handler of the swagger UI: a tame GET
    under /swagger/ is answered for good after at most [k] redirects. *)
Definition ui_settles (k : nat) : Prop :=
  forall req rest,
    tame req -> http.Method req = "GET" -> http.Path req = "/swagger/" +:+ rest ->
    settles k req.

Lemma settles_final n req :
  http.StatusCode (respond (engine swagger) req) ∉ [301; 302; 303; 307; 308] ->
  settles n req.
Proof. intros Hs. unfold settles. by rewrite follow_final by by apply next_request_status. Qed.

Lemma settles_mono n n' req : settles n req -> (n <= n')%nat -> settles n' req.
Proof. apply follow_settles. Qed.

(** The handlers of the gophers and of the health probe answer for good. *)
Lemma settles_stub n req h ps :
  routed swagger (http.Method req) (http.Path req) h ps ->
  (forall rest, http.Path req <> "/swagger/" +:+ rest) -> http.Path req <> "/" ->
  settles n req.
Proof.
  intros Hr Hsw Hroot. apply settles_final.
  pose proof (stub_response_status _ _ _ _ _ req Hr Hsw Hroot eq_refl eq_refl) as Hst.
  intros Hin. list_cases Hst; rewrite Hst in Hin; by list_cases Hin.
Qed.

Lemma settles_not_found n req :
  respond (engine swagger) req = not_found_response (http.Method req) -> settles n req.
Proof. intros Hr. apply settles_final. rewrite Hr. cbn. intros Hin. by list_cases Hin. Qed.

(** One redirect of gin, followed. *)
Lemma settles_redirected n req t :
  tame req -> redirected (http.Method req) (http.Path req) t ->
  settles n (redirected_request req t) -> settles (S n) req.
Proof.
  intros Ht Hr Hs. destruct Ht as (Hq & Hx & Hp).
  destruct (redirected_target _ _ _ Hr Hp) as (Hplain & Hnq & _).
  eapply follow_settles_hop; [|done]. apply redirect_hop; [done..|].
  by rewrite (respond_redirected swagger req t Hr), redirect_url_plain.
Qed.

(** The root, followed into the swagger UI. *)
Lemma settles_root k req :
  ui_settles k -> tame req -> http.Method req = "GET" -> http.Path req = "/" ->
  settles (S k) req.
Proof.
  intros Hui Ht Hm Hp. eapply follow_settles_hop.
  - apply (redirect_hop req _ "/swagger/index.html"); [done..|].
    rewrite (respond_constant _ _ _ _ _ req (routed_root swagger)) by done.
    rewrite response_redirect_writer by done. by rewrite Hm.
  - apply (Hui _ "index.html"); [by apply redirected_request_tame|done..].
Qed.

(** A request of the interface. *)
Lemma settles_routed k req h ps :
  ui_settles k -> tame req -> routed swagger (http.Method req) (http.Path req) h ps ->
  settles (S k) req.
Proof.
  intros Hui Ht Hr.
  destruct (routed_cases _ _ _ _ _ Hr) as [[Hm Hp]|[[Hm [rest Hp]]|[Hp Hsw]]].
  - by apply settles_root.
  - eapply settles_mono; [by apply (Hui req rest)|lia].
  - by apply (settles_stub _ _ h ps).
Qed.

(** The collection with a final slash: a GET is sent on to /gophers, a PUT
    or DELETE is answered 404. *)
Lemma settles_empty_id n req :
  tame req -> http.Path req = "/gophers/" -> http.Method req ∈ ["GET"; "PUT"; "DELETE"] ->
  settles (S n) req.
Proof.
  intros Ht Hp Hm. apply elem_of_cons in Hm as [Hm|Hm].
  - apply (settles_redirected _ _ "/gophers"); [done|..].
    + rewrite Hm, Hp. apply redirected_collection. list_decide.
    + apply (settles_stub _ _ GetGophers []); cbn; rewrite ?Hm; [apply routed_list|done..].
  - by apply settles_not_found, respond_dead_end.
Qed.

(** The request a redirect of gin leads to. *)
Lemma settles_target k req t :
  ui_settles k -> tame req -> redirected (http.Method req) (http.Path req) t ->
  settles (S k) (redirected_request req t).
Proof.
  intros Hui Ht Hr. destruct (Ht) as (_ & _ & Hp).
  destruct (redirected_target _ _ _ Hr Hp) as (_ & _ & Htame).
  pose proof (redirected_request_tame req t Ht Htame) as Ht1.
  destruct (decide (http.Path req = "/gophers//")) as [Hid|Hid].
  - rewrite Hid in Hr. apply redirected_empty_id in Hr as [Hm ->].
    by apply settles_empty_id.
  - destruct (redirect_reaches_route swagger _ _ _ Hr Hid) as (h & ps & Hrt).
    by apply (settles_routed _ _ h ps).
Qed.

(** Every tame request is answered for good after two redirects and what
    the swagger UI adds. *)
Lemma settles_all k req : ui_settles k -> tame req -> settles (k + 2) req.
Proof.
  intros Hui Ht. replace (k + 2)%nat with (S (S k)) by lia.
  destruct (getValue (http.Method req) (http.Path req) (trees (engine swagger)))
    as [[r ps]|] eqn:Hg.
  - apply lookup_sound in Hg. eapply settles_mono; [by eapply settles_routed|lia].
  - destruct (tsr_path (http.Method req) (http.Path req) (trees (engine swagger)))
      as [t|] eqn:Htsr.
    + pose proof (tsr_redirected swagger _ _ _ Hg Htsr) as Hr.
      eapply settles_redirected; [done..|]. by apply settles_target.
    + by apply settles_not_found, respond_not_found.
Qed.

(** ** The theorem *)

(** C15: the redirects of the program end.  A client that follows them from
    a tame request (no query, no forwarded prefix, plain or empty path
    segments) reaches a response that sends it no further after at most
    two redirects and those of the swagger UI, if the UI needs at most k
    for its own paths; with k up to 7 this is within the ten requests
    after which Go's client gives up. *)
Theorem redirects_terminate k req :
  ui_settles k -> tame req ->
  exists req' resp,
    follow (k + 2) (engine swagger) req = Some (req', resp)
    /\ ((k <= 7)%nat -> Do (engine swagger) req = Some (req', resp))
    /\ resp = respond (engine swagger) req'
    /\ next_request req' resp = None.
Proof.
  intros Hui Ht. destruct (settles_all k req Hui Ht) as [[req' resp] Hf].
  exists req', resp. destruct (follow_Some _ _ _ _ _ Hf) as [Hr Hn].
  split_and!; [done| |done..]. intros Hk. eapply follow_mono; [done|lia].
Qed.

End Termination.

(** ** The theorem at concrete requests *)

Section Witnesses.
#[local] Existing Instance http.url_ops_plain.

(** A swagger handler that answers 200 at once needs no redirect. *)
Lemma idle_ui_settles : ui_settles idle 0.
Proof.
  intros req rest Ht Hm Hp. apply settles_final. unfold respond.
  rewrite (serve_routed idle _ _ _ _ req (routed_swagger idle rest)) by done.
  cbn. intros Hin. by list_cases Hin.
Qed.

Lemma redirects_terminate_witness :
  exists req' resp,
    follow 2 (engine idle) (request "GET" "//") = Some (req', resp)
    /\ ((0 <= 7)%nat -> Do (engine idle) (request "GET" "//") = Some (req', resp))
    /\ resp = respond (engine idle) req'
    /\ next_request req' resp = None.
Proof.
  apply (redirects_terminate idle 0 (request "GET" "//") idle_ui_settles).
  apply (bool_decide_unpack _). reflexivity.
Defined.

(** The two redirects are needed: GET // is sent to /, and from there to
    the swagger UI. *)
Example two_redirects_needed :
  follow 1 (engine idle) (request "GET" "//") = None
  /\ fst <$> follow 2 (engine idle) (request "GET" "//")
     = Some (request "GET" "/swagger/index.html").
Proof. split; reflexivity. Qed.

End Witnesses.
