(* ===== verification/ApiDoc.v ===== *)
(** * ApiDoc: the API annotations of src/main.go, and what they promise

    The comments before [main] and before each handler are declarative
    annotations in the format of swag: general information about the API
    (title, version, host, base path) and, per handler, the operation it
    documents (summary, tags, accepted and produced media types, parameters,
    the success response and the route).  The documentation served under
    /swagger/ is generated from them, so they are the interface the program
    publishes.

    This file holds the annotations as data, one definition per comment
    block, and gives them their meaning: the requests an operation is for
    ([serves]) and the responses that keep its promise ([produces]).  The
    theorems compare the annotations with the program: every documented
    operation is registered under its method and path with the function it
    documents, every request an operation is for receives the documented
    success response, and the documented host is the address [main] listens
    on. *)

From Stdlib Require Import ZArith Ascii String List Lia.
From stdpp Require Import base tactics option list strings gmap.
From S2P Require Import Prelude Http Json Context Handlers Path Router App.
#[local] Open Scope Z_scope.

(** ** The annotation format *)

(** Media types, by the aliases of the format ([json] is the one used). *)
Inductive mime : Type := MimeJSON | MimeXML | MimePlain | MimeHTML.

#[export] Instance mime_eq_dec : EqDecision mime.
Proof. solve_decision. Defined.

Definition mime_type (m : mime) : string :=
  match m with
  | MimeJSON => "application/json"
  | MimeXML => "text/xml"
  | MimePlain => "text/plain"
  | MimeHTML => "text/html"
  end.

(** Where a parameter is found. *)
Inductive param_in : Type := InQuery | InPath | InHeader | InBody | InFormData.

#[export] Instance param_in_eq_dec : EqDecision param_in.
Proof. solve_decision. Defined.

(** The Go types the annotations name. *)
Inductive go_type : Type :=
| TyString
| TyGopher
| TyMap (key value : go_type).

#[export] Instance go_type_eq_dec : EqDecision go_type.
Proof. solve_decision. Defined.

(** [{object} T] and [{array} T]. *)
Inductive schema : Type :=
| Object (t : go_type)
| Array (t : go_type).

#[export] Instance schema_eq_dec : EqDecision schema.
Proof. solve_decision. Defined.

(** [@Param name in type required "description"]. *)
Record param := mkParam {
  param_name : string;
  param_where : param_in;
  param_type : go_type;
  param_required : bool;
  param_description : string
}.

(** The annotations of one handler. *)
Record operation := mkOperation {
  op_summary : string;
  op_description : string;
  op_tags : list string;
  op_accept : list mime;
  op_produce : list mime;
  op_params : list param;
  op_success : Z * option schema;
  op_path : string;
  op_method : string
}.

(** The general annotations. *)
Record info := mkInfo {
  title : string;
  version : string;
  description : string;
  termsOfService : string;
  contact_name : string;
  contact_url : string;
  contact_email : string;
  license_name : string;
  license_url : string;
  host : string;
  BasePath : string
}.

(** ** The annotations of the program *)

(** Lines 13 to 26. *)
Definition general_info : info := {|
  title := "Go Restful API Example";
  version := "1.1";
  description := "This is a sample server for a Go Restful API example.";
  termsOfService := "http://swagger.io/terms/";
  contact_name := "API Support";
  contact_url := "http://www.swagger.io/support";
  contact_email := "support@swagger.io";
  license_name := "Apache 2.0";
  license_url := "http://www.apache.org/licenses/LICENSE-2.0.html";
  host := "localhost:8000";
  BasePath := "/"
|}.

(** Lines 58 to 66. *)
Definition doc_CreateGopher : operation := {|
  op_summary := "Create a new gopher";
  op_description := "Create a new gopher";
  op_tags := ["Gophers"];
  op_accept := [MimeJSON];
  op_produce := [MimeJSON];
  op_params := [mkParam "gopher" InBody TyGopher true "Gopher to create"];
  op_success := (201, Some (Object TyGopher));
  op_path := "/gophers";
  op_method := "post"
|}.

(** Lines 72 to 78. *)
Definition doc_GetGophers : operation := {|
  op_summary := "Get all gophers";
  op_description := "Get all gophers";
  op_tags := ["Gophers"];
  op_accept := [];
  op_produce := [MimeJSON];
  op_params := [];
  op_success := (200, Some (Array TyGopher));
  op_path := "/gophers";
  op_method := "get"
|}.

(** Lines 84 to 91. *)
Definition doc_GetGopherByID : operation := {|
  op_summary := "Get a gopher by ID";
  op_description := "Get a gopher by ID";
  op_tags := ["Gophers"];
  op_accept := [];
  op_produce := [MimeJSON];
  op_params := [mkParam "id" InPath TyString true "Gopher ID"];
  op_success := (200, Some (Object TyGopher));
  op_path := "/gophers/{id}";
  op_method := "get"
|}.

(** Lines 97 to 106. *)
Definition doc_UpdateGopher : operation := {|
  op_summary := "Update a gopher";
  op_description := "Update a gopher";
  op_tags := ["Gophers"];
  op_accept := [MimeJSON];
  op_produce := [MimeJSON];
  op_params := [mkParam "id" InPath TyString true "Gopher ID";
                mkParam "gopher" InBody TyGopher true "Gopher to update"];
  op_success := (200, Some (Object TyGopher));
  op_path := "/gophers/{id}";
  op_method := "put"
|}.

(** Lines 112 to 118. *)
Definition doc_DeleteGopher : operation := {|
  op_summary := "Delete a gopher";
  op_description := "Delete a gopher";
  op_tags := ["Gophers"];
  op_accept := [];
  op_produce := [];
  op_params := [mkParam "id" InPath TyString true "Gopher ID"];
  op_success := (204, None);
  op_path := "/gophers/{id}";
  op_method := "delete"
|}.

(** Lines 124 to 131. *)
Definition doc_HealthCheck : operation := {|
  op_summary := "Check health";
  op_description := "Check Health.";
  op_tags := ["Probes"];
  op_accept := [MimeJSON];
  op_produce := [MimeJSON];
  op_params := [];
  op_success := (200, Some (Object (TyMap TyString TyString)));
  op_path := "/health";
  op_method := "get"
|}.

(** The struct tags [example:"1"] and [example:"Gopher"] (lines 54 and 55):
    the gopher the generated documentation shows. *)
Definition example_gopher : Gopher := mkGopher "1" "Gopher".

(** ** The documented functions

    An annotation block documents the function it stands before. *)

Section Documented.
Context `{http.UrlOps}.

Definition documented : list (operation * gin.HandlerFunc) := [
  (doc_CreateGopher, CreateGopher);
  (doc_GetGophers, GetGophers);
  (doc_GetGopherByID, GetGopherByID);
  (doc_UpdateGopher, UpdateGopher);
  (doc_DeleteGopher, DeleteGopher);
  (doc_HealthCheck, HealthCheck)
].

End Documented.

(** ** The meaning of an operation *)

Definition upper_char (a : ascii) : ascii :=
  let n := Ascii.N_of_ascii a in
  if ((97 <=? n) && (n <=? 122))%N then Ascii.ascii_of_N (n - 32) else a.

Fixpoint upper (s : string) : string :=
  match s with
  | EmptyString => EmptyString
  | String a s' => String (upper_char a) (upper s')
  end.

Fixpoint without_last (s : string) : string :=
  match s with
  | EmptyString => EmptyString
  | String a EmptyString => EmptyString
  | String a s' => String a (without_last s')
  end.

(** The name in [{name}]. *)
Definition brace_name (s : string) : option string :=
  match s with
  | String "{" rest =>
      if bool_decide (last_char rest = Some "}"%char) then Some (without_last rest)
      else None
  | _ => None
  end.

Definition doc_segment (s : string) : segment :=
  match brace_name s with
  | Some n => Param n
  | None => Static s
  end.

(** The pattern of a documented path, under the base path of the API:
    [/gophers/{id}] has a literal and a parameter. *)
Definition doc_pattern (op : operation) : option (list segment) :=
  map doc_segment <$> path_segments (joinPaths (BasePath general_info) (op_path op)).

(** The requests an operation is for: those of its method whose path
    instantiates its path template. *)
Definition serves (op : operation) (req : http.Request) : Prop :=
  http.Method req = upper (op_method op) /\
  exists pat ps, doc_pattern op = Some pat /\ match_path pat (http.Path req) = Some ps.

(** The JSON objects of the schema the generator derives from the struct
    [Gopher]: the two keys of the struct tags, each with a string. *)
Definition is_gopher (j : json) : bool :=
  match j with
  | JObject [(k1, JString _); (k2, JString _)] =>
      bool_decide (k1 = "id") && bool_decide (k2 = "name")
  | _ => false
  end.

(** The JSON values of a Go type. *)
Fixpoint has_type (t : go_type) (j : json) : bool :=
  match t with
  | TyString => match j with JString _ => true | _ => false end
  | TyGopher => is_gopher j
  | TyMap _ value =>
      match j with
      | JObject kvs => forallb (fun kv => has_type value kv.2) kvs
      | _ => false
      end
  end.

Definition conforms (s : schema) (j : json) : bool :=
  match s with
  | Object t => has_type t j
  | Array t => match j with JArray js => forallb (has_type t) js | _ => false end
  end.

(** The media type of a [Content-Type] value: what stands before the
    parameters. *)
Definition media_type (content_type : string) : string :=
  match split_on ";" content_type with
  | t :: _ => t
  | [] => ""
  end.

(** The responses that keep the promise of [@Success] and [@Produce]: the
    documented status; without a schema, no body; with one, a produced media
    type and a body that reads as a JSON value of the schema. *)
Definition produces (op : operation) (resp : http.Response) : Prop :=
  http.StatusCode resp = (op_success op).1 /\
  match (op_success op).2 with
  | None => http.RespBody resp = ""
  | Some s =>
      Exists (fun m => media_type <$> (http.RespHeader resp !! "Content-Type" ≫= head)
                       = Some (mime_type m)) (op_produce op) /\
      conforms s <$> decode (http.RespBody resp) = Some true
  end.

#[export] Instance produces_dec op resp : Decision (produces op resp).
Proof. unfold produces. destruct (op_success op).2; apply _. Defined.

(** Evaluate the method of an operation in [H : _ = upper _]. *)
Ltac compute_method H :=
  match type of H with
  | _ = upper ?s => let m := eval vm_compute in (upper s) in change (upper s) with m in H
  end.

(** ** The annotations and the routes *)

Section Consistency.
Context `{http.UrlOps} (swagger : gin.HandlerFunc).
Implicit Types (op : operation) (h : gin.HandlerFunc) (req : http.Request).

(** The path parameters an operation declares. *)
Definition path_params (op : operation) : list string :=
  param_name <$> filter (fun p => param_where p = InPath) (op_params op).

(** A request an operation is for is a request of the interface, for the
    function the operation documents. *)
Lemma serves_routed op h req :
  (op, h) ∈ documented -> serves op req ->
  exists ps, routed swagger (http.Method req) (http.Path req) h ps
             /\ ps.*1 = path_params op.
Proof.
  intros Hin (Hm & pat & ps & Hpat & Hp). exists ps.
  list_cases Hin; injection Hin as -> ->; vm_compute in Hpat;
    injection Hpat as <-; compute_method Hm; rewrite Hm;
    first [ apply match_path_static in Hp as [-> ->]
          | apply match_path_static_param in Hp as (x & Hx & Hs & -> & ->) ];
    (split; [by constructor|done]).
Qed.

(** The route at position [i] of the table is the one asked for, if it
    is. *)
Ltac route_at i :=
  solve [ eexists; split; [list_at i|]; split; [intros Hp; by list_cases Hp|done] ].

Ltac doc_at i :=
  solve [ eexists; split; [list_at i|done] ].

(** C27: every documented operation is registered, under its method (in
    capitals) and its path (with [:id] for [{id}]), with the function its
    annotations stand before, and the parameters gin binds are the path
    parameters it declares; and every route of the program except / and
    /swagger/*any is documented so. *)
Theorem documentation_matches_routes m pat h :
  (exists op, (op, h) ∈ documented /\ upper (op_method op) = m
              /\ doc_pattern op = Some pat /\ path_params op = pattern_params pat)
  <-> (exists r, r ∈ table swagger /\ (r_path r ∉ ["/"; "/swagger/*any"])
                 /\ r_method r = m /\ r_pattern r = pat /\ r_handler r = h).
Proof.
  split.
  - intros (op & Hin & <- & Hpat & _).
    list_cases Hin; injection Hin as -> ->; vm_compute in Hpat; injection Hpat as <-;
      first [ route_at 2%nat | route_at 3%nat | route_at 4%nat
            | route_at 5%nat | route_at 6%nat | route_at 7%nat ].
  - intros (r & Hin & Hp & <- & <- & <-). unfold table in Hin.
    list_cases Hin; subst r; try (by destruct Hp; list_decide);
      first [ doc_at 0%nat | doc_at 1%nat | doc_at 2%nat
            | doc_at 3%nat | doc_at 4%nat | doc_at 5%nat ].
Qed.

End Consistency.

(** ** The annotations and the responses *)

Section Conformance.
Context `{http.UrlOps} (swagger : gin.HandlerFunc).
Implicit Types (op : operation) (h : gin.HandlerFunc) (req : http.Request).

(** A JSON answer keeps the promise of an operation that produces [json]
    and documents a schema that the encoded value has, as its text is
    read. *)
Lemma json_response_produces op code s j :
  op_success op = (code, Some s) -> MimeJSON ∈ op_produce op ->
  conforms s (coerce_json j) = true ->
  produces op (json_response code (encode j)).
Proof.
  intros Hs Hm Hj. unfold produces. rewrite Hs. split; [done|]. split.
  - apply Exists_exists. by exists MimeJSON.
  - cbn [snd json_response http.RespBody]. rewrite decode_encode. cbn. by rewrite Hj.
Qed.

(** The values the handlers encode. *)
Lemma zero_gopher_json : zero_gopher_text = encode (marshal (mkGopher "" "")).
Proof. reflexivity. Qed.

Lemma no_gophers_json : "[]" = encode (marshal ([] : list Gopher)).
Proof. reflexivity. Qed.

Lemma health_json :
  health_text = encode (marshal ({[ "status" := marshal "ok" ]} : gmap string json)).
Proof. symmetry. apply Marshal_health. Qed.

(** C3: every request a documented operation is for receives the response
    the operation documents: the status of [@Success]; for 204 no body;
    otherwise the media type of [@Produce] and a body that encodes a JSON
    value of the documented schema (a Gopher object, an array of them, a map
    of strings). *)
Theorem documented_success op h req :
  (op, h) ∈ documented -> serves op req -> produces op (respond (engine swagger) req).
Proof.
  intros Hin Hs. destruct (serves_routed swagger _ _ _ Hin Hs) as (ps & Hr & _).
  destruct Hs as [Hm _].
  list_cases Hin; injection Hin as -> ->;
    rewrite (respond_constant _ _ _ _ _ req Hr) by done; compute_method Hm; rewrite Hm;
    rewrite ?response_json_answer; cbn [default bool_decide decide_rel];
    [rewrite zero_gopher_json|rewrite no_gophers_json|rewrite zero_gopher_json
    |rewrite zero_gopher_json|done|rewrite health_json];
    eapply json_response_produces; try done; list_decide.
Qed.

(** Every documented function answers the same to every request. *)
Lemma documented_constant op h :
  (op, h) ∈ documented -> exists answer, ConstantAnswer h answer.
Proof. intros Hin. list_cases Hin; injection Hin as -> ->; eexists; apply _. Qed.

(** C28: the response of a documented operation does not depend on the
    request: two requests an operation is for (with different ids, bodies,
    headers or queries) receive the same response.  The annotations declare
    a required body for POST and PUT and an id for the item operations; the
    functions read neither. *)
Theorem documented_answers_constant op h req1 req2 :
  (op, h) ∈ documented -> serves op req1 -> serves op req2 ->
  respond (engine swagger) req1 = respond (engine swagger) req2.
Proof.
  intros Hin Hs1 Hs2. destruct (documented_constant _ _ Hin) as [answer Hc].
  destruct (serves_routed swagger _ _ _ Hin Hs1) as (ps1 & Hr1 & _).
  destruct (serves_routed swagger _ _ _ Hin Hs2) as (ps2 & Hr2 & _).
  rewrite (respond_constant _ _ _ _ _ req1 Hr1), (respond_constant _ _ _ _ _ req2 Hr2) by done.
  destruct Hs1 as [-> _], Hs2 as [-> _]. done.
Qed.

(** C23: a request a documented operation is for reaches the function the
    operation documents, with exactly the path parameters the operation
    declares bound, in their order. *)
Theorem documented_params_bound op h req :
  (op, h) ∈ documented -> serves op req ->
  exists r ps,
    getValue (http.Method req) (http.Path req) (trees (engine swagger)) = Some (r, ps)
    /\ r_handler r = h /\ ps.*1 = path_params op.
Proof.
  intros Hin Hs. destruct (serves_routed swagger _ _ _ Hin Hs) as (ps & Hr & Hps).
  destruct (lookup_complete _ _ _ _ _ Hr) as (r & Hg & Hh). by exists r, ps.
Qed.

(** C24: the host the annotations give is the address the server listens
    on: whenever [main] serves, it does so on the port of [@host]. *)
Theorem documented_host_is_served port_env listen s :
  main swagger port_env listen = Serving s ->
  host general_info = "localhost" +:+ srv_address s.
Proof.
  unfold main. cbn. destruct (routes swagger Default); [|done].
  destruct (listen listen_addr); [done|]. by intros [= <-].
Qed.

End Conformance.

(** ** The theorems at concrete requests *)

Section Witnesses.
#[local] Existing Instance http.url_ops_plain.

Lemma documented_success_witness :
  produces doc_UpdateGopher
    (respond (engine idle) (http.mkRequest "PUT" "/gophers/42" "" ∅ "{}")).
Proof.
  apply (documented_success idle doc_UpdateGopher UpdateGopher); [list_at 3%nat|].
  split; [done|]. by exists [Static "gophers"; Param "id"], [("id", "42")].
Defined.

Lemma documented_answers_constant_witness :
  respond (engine idle) (http.mkRequest "PUT" "/gophers/1" "" ∅ "{}")
  = respond (engine idle) (http.mkRequest "PUT" "/gophers/2" "x=1" ∅ "").
Proof.
  apply (documented_answers_constant idle doc_UpdateGopher UpdateGopher); [list_at 3%nat|..];
    (split; [done|]); exists [Static "gophers"; Param "id"]; by eexists.
Defined.

Lemma documented_params_bound_witness :
  exists r ps,
    getValue "DELETE" "/gophers/42" (trees (engine idle)) = Some (r, ps)
    /\ r_handler r = DeleteGopher /\ ps.*1 = ["id"].
Proof.
  apply (documented_params_bound idle doc_DeleteGopher DeleteGopher
           (request "DELETE" "/gophers/42")); [list_at 4%nat|].
  split; [done|]. by exists [Static "gophers"; Param "id"], [("id", "42")].
Defined.

Lemma documented_host_is_served_witness :
  host general_info = "localhost" +:+ ":8000".
Proof.
  by apply (documented_host_is_served idle "" (fun _ => None)
              (mkServer (mkEngine (table idle) true) ":8000")).
Defined.

End Witnesses.
