(* ===== verification/Contract.v ===== *)
(** * Contract: the CRUD contract of the specification

    The specification describes what a complete implementation of the API
    would do: a store of gophers with unique, non-empty ids, kept in
    insertion order, and five operations on it that fail with a validation,
    not-found or conflict error, plus the health probe.  The program does not
    implement it (its handlers are stubs); this file states the contract as
    an abstract machine, so that [Conformance] can say precisely where the
    program agrees with it and where it does not, call by call and over
    sequences of calls ([answers]).

    Nothing here is translated from src/: the definitions follow sections 3
    to 8 of the specification.  Where the specification leaves a choice, the
    choice is named: the id of a gopher created without one comes from an
    [IdSupply]; an id that exists is a conflict (sections 7 and 8; section
    4.1 calls it a validation error); an update of an absent gopher is
    not-found before its name is looked at. *)

From Stdlib Require Import ZArith Ascii String List Lia.
From stdpp Require Import base tactics option list strings.
From S2P Require Import Prelude Json Handlers.
#[local] Open Scope Z_scope.

(** ** Errors and their statuses (section 7) *)

Inductive error : Type := ValidationError | NotFoundError | ConflictError.

#[export] Instance error_eq_dec : EqDecision error.
Proof. solve_decision. Defined.

Definition status_of (e : error) : Z :=
  match e with
  | ValidationError => 400
  | NotFoundError => 404
  | ConflictError => 409
  end.

(** ** The store (section 3) *)

Abbreviation store := (list Gopher).

Definition ids (s : store) : list string := ID <$> s.

(** Every stored gopher has a non-empty id, and no two share one. *)
Definition store_ok (s : store) : Prop := NoDup (ids s) /\ "" ∉ ids s.

#[export] Instance store_ok_dec s : Decision (store_ok s).
Proof. unfold store_ok. apply _. Defined.

Fixpoint find (i : string) (s : store) : option Gopher :=
  match s with
  | [] => None
  | g :: s' => if bool_decide (ID g = i) then Some g else find i s'
  end.

Fixpoint replace (i : string) (name : string) (s : store) : store :=
  match s with
  | [] => []
  | g :: s' =>
      if bool_decide (ID g = i) then mkGopher i name :: s' else g :: replace i name s'
  end.

Definition remove (i : string) (s : store) : store :=
  filter (fun g => ID g <> i) s.

(** The strategy that names a gopher created without an id: any that gives
    a new, non-empty id. *)
Class IdSupply := {
  fresh_id : store -> string;
  fresh_id_new s : fresh_id s ∉ ids s;
  fresh_id_nonempty s : fresh_id s <> ""
}.

(** ** The operations (section 4.1) *)

Section Operations.
Context `{IdSupply}.

(** A payload without an id carries the empty one, as a Go struct decoded
    from JSON does. *)
Definition Create (g : Gopher) (s : store) : error + Gopher * store :=
  if bool_decide (Name g = "") then inl ValidationError
  else if bool_decide (ID g = "") then
    let g' := mkGopher (fresh_id s) (Name g) in inr (g', s ++ [g'])
  else if bool_decide (ID g ∈ ids s) then inl ConflictError
  else inr (g, s ++ [g]).

Definition List (s : store) : list Gopher := s.

Definition GetByID (i : string) (s : store) : error + Gopher :=
  match find i s with
  | Some g => inr g
  | None => inl NotFoundError
  end.

Definition Update (i : string) (g : Gopher) (s : store) : error + Gopher * store :=
  match find i s with
  | None => inl NotFoundError
  | Some _ =>
      if bool_decide (Name g = "") then inl ValidationError
      else inr (mkGopher i (Name g), replace i (Name g) s)
  end.

Definition Delete (i : string) (s : store) : error + store :=
  match find i s with
  | None => inl NotFoundError
  | Some _ => inr (remove i s)
  end.

(** ** The HTTP surface (section 6) *)

Inductive call : Type :=
| CallCreate (g : Gopher)
| CallList
| CallGetByID (i : string)
| CallUpdate (i : string) (g : Gopher)
| CallDelete (i : string)
| CallHealthCheck.

(** What the contract answers: a status and, if there is one, the JSON
    value of the body.  The body of an error is left open. *)
Record answer := mkAnswer {
  a_status : Z;
  a_body : option json
}.

Definition failed (e : error) : answer := mkAnswer (status_of e) None.

Definition step (c : call) (s : store) : answer * store :=
  match c with
  | CallCreate g =>
      match Create g s with
      | inr (g', s') => (mkAnswer 201 (Some (marshal g')), s')
      | inl e => (failed e, s)
      end
  | CallList => (mkAnswer 200 (Some (marshal (List s))), s)
  | CallGetByID i =>
      match GetByID i s with
      | inr g => (mkAnswer 200 (Some (marshal g)), s)
      | inl e => (failed e, s)
      end
  | CallUpdate i g =>
      match Update i g s with
      | inr (g', s') => (mkAnswer 200 (Some (marshal g')), s')
      | inl e => (failed e, s)
      end
  | CallDelete i =>
      match Delete i s with
      | inr s' => (mkAnswer 204 None, s')
      | inl e => (failed e, s)
      end
  | CallHealthCheck =>
      (mkAnswer 200 (Some (JObject [("status", JString "ok")])), s)
  end.

(** A call succeeds when the contract answers it with a status below 400. *)
Definition succeeds (c : call) (s : store) : bool := (a_status (step c s).1 <? 400).

(** The states the contract reaches from the empty store. *)
Definition run (cs : list call) (s : store) : store :=
  foldl (fun s c => (step c s).2) s cs.

(** The answers to a sequence of calls, each made on the store the calls
    before it have left. *)
Fixpoint answers (cs : list call) (s : store) : list answer :=
  match cs with
  | [] => []
  | c :: cs' => (step c s).1 :: answers cs' (step c s).2
  end.

(** Every call of the sequence succeeds. *)
Fixpoint all_succeed (cs : list call) (s : store) : bool :=
  match cs with
  | [] => true
  | c :: cs' => succeeds c s && all_succeed cs' (step c s).2
  end.

End Operations.

(** ** The store stays well formed *)

Section Store.
Context `{IdSupply}.
Implicit Types (s : store) (g : Gopher) (i : string).

Lemma find_Some i s g : find i s = Some g -> g ∈ s /\ ID g = i.
Proof.
  induction s as [|g' s IH]; cbn; [done|]. case_bool_decide.
  - intros [= <-]. split; [left|done].
  - intros [Hin Hid]%IH. split; [by right|done].
Qed.

Lemma find_None i s : find i s = None <-> i ∉ ids s.
Proof.
  unfold ids. induction s as [|g s IH]; cbn.
  - split; [intros _; apply not_elem_of_nil|done].
  - rewrite not_elem_of_cons. case_bool_decide as Hid.
    + split; [done|]. by intros [Hne _].
    + rewrite IH. split; [intros Hn; split; [congruence|done]|by intros [_ Hn]].
Qed.

Lemma find_is_Some i s : is_Some (find i s) <-> i ∈ ids s.
Proof.
  destruct (find i s) eqn:E.
  - split; [intros _|by eexists]. apply find_Some in E as [Hin <-].
    unfold ids. by apply list_elem_of_fmap_2.
  - apply find_None in E. split; [by intros [? ?]|done].
Qed.

Lemma ids_app s1 s2 : ids (s1 ++ s2) = ids s1 ++ ids s2.
Proof. apply fmap_app. Qed.

Lemma store_ok_snoc s g :
  store_ok s -> ID g <> "" -> ID g ∉ ids s -> store_ok (s ++ [g]).
Proof.
  intros [Hnd Hne] Hid Hnew. unfold store_ok. rewrite ids_app. cbn. split.
  - apply NoDup_app. split_and!; [done| |apply NoDup_singleton].
    intros x Hx ->%list_elem_of_singleton. done.
  - rewrite elem_of_app, list_elem_of_singleton. intros [Hin|Heq]; [done|congruence].
Qed.

Lemma ids_replace i name s : ids (replace i name s) = ids s.
Proof.
  unfold ids. induction s as [|g s IH]; cbn; [done|].
  case_bool_decide; cbn; [by subst|by rewrite IH].
Qed.

Lemma ids_remove i s : ids (remove i s) = filter (fun x => x <> i) (ids s).
Proof.
  unfold ids, remove. induction s as [|g s IH]; [done|].
  rewrite fmap_cons. destruct (decide (ID g <> i)) as [Hne|Heq].
  - rewrite !filter_cons_True by done. by rewrite fmap_cons, IH.
  - by rewrite !filter_cons_False.
Qed.

Lemma store_ok_remove i s : store_ok s -> store_ok (remove i s).
Proof.
  intros [Hnd Hne]. unfold store_ok. rewrite ids_remove. split.
  - by apply NoDup_filter.
  - rewrite list_elem_of_filter. by intros [_ Hin].
Qed.

(** Every call leaves the store well formed. *)
Lemma step_ok c s : store_ok s -> store_ok (step c s).2.
Proof.
  intros Hok. destruct c as [g| |i|i g|i|]; cbn; try done.
  - unfold Create. repeat case_bool_decide; cbn; try done.
    + apply store_ok_snoc; [done|apply fresh_id_nonempty|apply fresh_id_new].
    + by apply store_ok_snoc.
  - unfold GetByID. by destruct (find i s).
  - unfold Update. destruct (find i s); [|done]. case_bool_decide; [done|]. cbn.
    destruct Hok as [Hnd Hne]. unfold store_ok. by rewrite ids_replace.
  - unfold Delete. destruct (find i s); [|done]. by apply store_ok_remove.
Qed.

Lemma contract_run_ok cs s : store_ok s -> store_ok (run cs s).
Proof.
  revert s. induction cs as [|c cs IH]; intros s Hok; [done|].
  cbn. by apply IH, step_ok.
Qed.

(** ** The testable properties of section 8, of the contract *)

Lemma find_snoc_new i s g : i ∉ ids s -> ID g = i -> find i (s ++ [g]) = Some g.
Proof.
  intros Hnew Hid. induction s as [|g' s IH]; cbn.
  - by rewrite bool_decide_eq_true_2.
  - apply not_elem_of_cons in Hnew as [Hne Hnew].
    rewrite bool_decide_eq_false_2 by done. by apply IH.
Qed.

(** Create followed by GetByID returns the created gopher. *)
Lemma Create_GetByID g s g' s' :
  Create g s = inr (g', s') -> GetByID (ID g') s' = inr g'.
Proof.
  unfold Create, GetByID. repeat case_bool_decide; try done; intros [= <- <-].
  - by rewrite find_snoc_new by (apply fresh_id_new || done).
  - by rewrite find_snoc_new.
Qed.

(** Delete followed by GetByID fails with NotFoundError. *)
Lemma Delete_GetByID i s s' :
  Delete i s = inr s' -> GetByID i s' = inl NotFoundError.
Proof.
  unfold Delete, GetByID. destruct (find i s); [|done]. intros [= <-].
  assert (find i (remove i s) = None) as ->; [|done].
  apply find_None. rewrite ids_remove, list_elem_of_filter. by intros [Hne _].
Qed.

(** The answers of a sequence are as many as its calls, and the store they
    leave is that of [run]. *)
Lemma length_answers cs s : length (answers cs s) = length cs.
Proof. revert s. induction cs as [|c cs IH]; intros s; cbn; [done|]. by rewrite IH. Qed.

Lemma answers_app cs1 cs2 s :
  answers (cs1 ++ cs2) s = answers cs1 s ++ answers cs2 (run cs1 s).
Proof.
  revert s. induction cs1 as [|c cs1 IH]; intros s; cbn; [done|]. by rewrite IH.
Qed.

(** The health probe does not depend on the store. *)
Lemma HealthCheck_any_store s1 s2 :
  (step CallHealthCheck s1).1 = (step CallHealthCheck s2).1.
Proof. reflexivity. Qed.

End Store.

(** ** An id supply

    One strategy among many, to run the contract on examples: the letter [g]
    followed by all the ids of the store, which is longer than each of
    them. *)

Fixpoint all_ids (s : store) : string :=
  match s with
  | [] => ""
  | g :: s' => ID g +:+ all_ids s'
  end.

Lemma length_all_ids s x : x ∈ ids s -> (String.length x <= String.length (all_ids s))%nat.
Proof.
  unfold ids. induction s as [|g s IH]; cbn; [by intros ?%elem_of_nil|].
  rewrite str_length_app. intros [->|Hx%IH]%elem_of_cons; lia.
Qed.

Lemma longer_id_new s : String "g" (all_ids s) ∉ ids s.
Proof. intros Hin%length_all_ids. cbn in Hin. lia. Qed.

Definition longer_ids : IdSupply := {|
  fresh_id s := String "g" (all_ids s);
  fresh_id_new := longer_id_new;
  fresh_id_nonempty s := ltac:(done)
|}.
