(* ===== verification/Conformance.v ===== *)
(** * Conformance: the program against the contract of the specification

    The specification admits that the handlers are stubs and states the
    contract a complete implementation would meet ([Contract]).  This file
    says what the program does with the requests of that contract: it
    answers each with the status the contract has for success and with the
    body of the stub, whatever the store would hold.  So the program agrees
    with the contract on the status of every call that succeeds, on the
    health probe, and on the list of an empty store; and it parts with it on
    every failure and on every body that carries a gopher. *)

From Stdlib Require Import ZArith Ascii String List Lia.
From stdpp Require Import base tactics option list strings gmap.
From S2P Require Import Prelude Http Json Context Handlers Path Router App Contract.
#[local] Open Scope Z_scope.

(** ** The requests of the contract (section 6) *)

(** An id that can stand in a path: one segment, not empty. *)
Definition addressable (i : string) : Prop := i <> "" /\ no_slash i.

#[export] Instance addressable_dec i : Decision (addressable i).
Proof. unfold addressable. apply _. Defined.

(** The request that makes a call.  The body of a create or update is the
    JSON text of the payload. *)
Definition request_for (c : call) (req : http.Request) : Prop :=
  match c with
  | CallCreate g =>
      http.Method req = "POST" /\ http.Path req = "/gophers"
      /\ http.Body req = Marshal_bytes g
  | CallList => http.Method req = "GET" /\ http.Path req = "/gophers"
  | CallGetByID i =>
      http.Method req = "GET" /\ http.Path req = "/gophers/" +:+ i /\ addressable i
  | CallUpdate i g =>
      http.Method req = "PUT" /\ http.Path req = "/gophers/" +:+ i /\ addressable i
      /\ http.Body req = Marshal_bytes g
  | CallDelete i =>
      http.Method req = "DELETE" /\ http.Path req = "/gophers/" +:+ i /\ addressable i
  | CallHealthCheck => http.Method req = "GET" /\ http.Path req = "/health"
  end.

(** The status the contract answers a call with when it succeeds. *)
Definition success_status (c : call) : Z :=
  match c with
  | CallCreate _ => 201
  | CallDelete _ => 204
  | _ => 200
  end.

(** The body the program answers the request of a call with. *)
Definition stub_body (c : call) : string :=
  match c with
  | CallCreate _ | CallGetByID _ | CallUpdate _ _ => zero_gopher_text
  | CallList => "[]"
  | CallDelete _ => ""
  | CallHealthCheck => health_text
  end.

Section Conformance.
Context `{http.UrlOps} `{IdSupply} (swagger : gin.HandlerFunc).
Implicit Types (c : call) (s : store) (req : http.Request) (g : Gopher).

(** The program's answer to the request of a call: the success status and
    the body of the stub. *)
Lemma stub_answer c req :
  request_for c req ->
  http.StatusCode (respond (engine swagger) req) = success_status c
  /\ http.RespBody (respond (engine swagger) req) = stub_body c.
Proof.
  destruct c as [g| |i|i g|i|]; cbn.
  - intros (Hm & Hp & _).
    by rewrite (respond_constant _ _ _ _ _ req (routed_create swagger)),
      response_json_answer.
  - intros (Hm & Hp).
    by rewrite (respond_constant _ _ _ _ _ req (routed_list swagger)),
      response_json_answer.
  - intros (Hm & Hp & Hi & Hs).
    by rewrite (respond_constant _ _ _ _ _ req (routed_get swagger i Hi Hs)),
      response_json_answer.
  - intros (Hm & Hp & [Hi Hs] & _).
    by rewrite (respond_constant _ _ _ _ _ req (routed_update swagger i Hi Hs)),
      response_json_answer.
  - intros (Hm & Hp & Hi & Hs).
    by rewrite (respond_constant _ _ _ _ _ req (routed_delete swagger i Hi Hs)).
  - intros (Hm & Hp).
    by rewrite (respond_constant _ _ _ _ _ req (routed_health swagger)),
      response_json_answer.
Qed.

(** The contract answers a call that succeeds with its success status. *)
Lemma step_success c s :
  succeeds c s = true -> a_status (step c s).1 = success_status c.
Proof.
  unfold succeeds. destruct c as [g| |i|i g|i|]; cbn; try done.
  - destruct (Create g s) as [e|[g' s']]; [by destruct e|done].
  - destruct (GetByID i s) as [e|g']; [by destruct e|done].
  - destruct (Update i g s) as [e|[g' s']]; [by destruct e|done].
  - destruct (Delete i s) as [e|s']; [by destruct e|done].
Qed.

(** C31: on every call that the contract answers with success, in whatever
    state of the store, the program answers the request of the call with
    the same status (201 for create, 204 for delete, 200 for the others). *)
Theorem success_status_agrees c s req :
  request_for c req -> succeeds c s = true ->
  http.StatusCode (respond (engine swagger) req) = a_status (step c s).1.
Proof.
  intros Hreq Hs. rewrite (step_success c s Hs). by apply stub_answer.
Qed.

(** C17: the program reports no failure of the contract: where the contract
    answers a call with a validation, not-found or conflict error (400, 404,
    409), the program answers the request with the success status. *)
Theorem failures_not_reported c s req e :
  request_for c req -> (step c s).1 = failed e ->
  http.StatusCode (respond (engine swagger) req) = success_status c
  /\ http.StatusCode (respond (engine swagger) req) <> status_of e.
Proof.
  intros Hreq Hfail. destruct (stub_answer c req Hreq) as [Hst _].
  split; [done|]. rewrite Hst. by destruct c, e.
Qed.

(** C33: the health probe meets the contract in every state of the store:
    status 200 and the body [{"status":"ok"}]. *)
Theorem health_meets_contract s req :
  request_for CallHealthCheck req ->
  http.StatusCode (respond (engine swagger) req) = a_status (step CallHealthCheck s).1
  /\ Some (http.RespBody (respond (engine swagger) req))
     = encode <$> a_body (step CallHealthCheck s).1.
Proof. intros Hreq. by destruct (stub_answer _ req Hreq) as [-> ->]. Qed.

(** The text of a list of gophers that is not empty is not [[]]. *)
Lemma encode_gophers_nonempty g s : Marshal_bytes (g :: s) <> "[]".
Proof.
  change "[]" with (encode (JArray [])). by intros Heq%encode_inj.
Qed.

(** C32: the program's list meets the contract exactly when the store is
    empty: it answers [[]] in every state, the contract the stored
    gophers. *)
Theorem list_meets_contract_iff_empty s req :
  request_for CallList req ->
  Some (http.RespBody (respond (engine swagger) req)) = encode <$> a_body (step CallList s).1
  <-> s = [].
Proof.
  intros Hreq. destruct (stub_answer _ req Hreq) as [_ ->]. cbn. split.
  - intros Heq%(inj Some). destruct s as [|g s]; [done|].
    destruct (encode_gophers_nonempty g s). symmetry. exact Heq.
  - by intros ->.
Qed.

(** A gopher the contract creates is not the zero gopher: it has a name. *)
Lemma Create_not_zero g s g' s' : Create g s = inr (g', s') -> g' <> mkGopher "" "".
Proof.
  unfold Create. case_bool_decide as Hn; [done|]. case_bool_decide as Hi.
  - by intros [= <- <-] [= _ Hz].
  - case_bool_decide; [done|]. by intros [= <- <-] ->.
Qed.

(** C21: the program does not return the gopher it is asked to create: for
    every payload the contract accepts, the contract answers with the
    created gopher (which has a name, and an id), the program with the zero
    gopher, whose text is another. *)
Theorem created_gopher_not_returned g s g' s' req :
  request_for (CallCreate g) req -> Create g s = inr (g', s') ->
  a_body (step (CallCreate g) s).1 = Some (marshal g')
  /\ http.RespBody (respond (engine swagger) req) <> Marshal_bytes g'.
Proof.
  intros Hreq Hc. split; [cbn; by rewrite Hc|].
  destruct (stub_answer _ req Hreq) as [_ ->]. cbn.
  intros Heq%Marshal_bytes_zero.
  by destruct (Create_not_zero _ _ _ _ Hc).
Qed.

(** The first testable property of the specification fails of the
    program: after a create the contract accepts, GetByID of the created id
    returns the created gopher in the contract, and the zero gopher in the
    program. *)
Theorem create_then_get_diverges g s g' s' req :
  Create g s = inr (g', s') -> request_for (CallGetByID (ID g')) req ->
  a_body (step (CallGetByID (ID g')) s').1 = Some (marshal g')
  /\ http.RespBody (respond (engine swagger) req) <> Marshal_bytes g'.
Proof.
  intros Hc Hreq. split.
  - cbn. by rewrite (Create_GetByID _ _ _ _ Hc).
  - destruct (stub_answer _ req Hreq) as [_ ->]. cbn.
    intros Heq%Marshal_bytes_zero.
    by destruct (Create_not_zero _ _ _ _ Hc).
Qed.

End Conformance.

(** ** The theorems at concrete requests *)

Section Witnesses.
#[local] Existing Instance http.url_ops_plain.
#[local] Existing Instance longer_ids.

Definition gopher_1 : Gopher := mkGopher "1" "Gopher".

Lemma success_status_agrees_witness :
  http.StatusCode (respond (engine idle)
     (http.mkRequest "POST" "/gophers" "" ∅ (Marshal_bytes gopher_1))) = 201.
Proof. by apply (success_status_agrees idle (CallCreate gopher_1) []). Defined.

Lemma failures_not_reported_witness :
  http.StatusCode (respond (engine idle) (request "GET" "/gophers/7")) = 200
  /\ http.StatusCode (respond (engine idle) (request "GET" "/gophers/7")) <> 404.
Proof.
  by apply (failures_not_reported idle (CallGetByID "7") [gopher_1] _ NotFoundError).
Defined.

Lemma health_meets_contract_witness :
  http.StatusCode (respond (engine idle) (request "GET" "/health")) = 200
  /\ Some (http.RespBody (respond (engine idle) (request "GET" "/health")))
     = Some health_text.
Proof. by apply (health_meets_contract idle [gopher_1]). Defined.

Lemma list_meets_contract_iff_empty_witness :
  Some (http.RespBody (respond (engine idle) (request "GET" "/gophers")))
  = Some (Marshal_bytes [gopher_1]) <-> [gopher_1] = [].
Proof. by apply (list_meets_contract_iff_empty idle [gopher_1]). Defined.

Lemma created_gopher_not_returned_witness :
  http.RespBody (respond (engine idle)
     (http.mkRequest "POST" "/gophers" "" ∅ (Marshal_bytes gopher_1)))
  <> Marshal_bytes gopher_1.
Proof.
  by apply (created_gopher_not_returned idle gopher_1 [] gopher_1 [gopher_1]).
Defined.

Lemma create_then_get_diverges_witness :
  http.RespBody (respond (engine idle) (request "GET" "/gophers/1"))
  <> Marshal_bytes gopher_1.
Proof.
  by apply (create_then_get_diverges idle gopher_1 [] gopher_1 [gopher_1]).
Defined.

End Witnesses.
