(* ===== verification/Session.v ===== *)
(** * Session: sequences of calls, in the program and in the contract

    The contract of the specification has a store: what it answers to a
    call depends on the calls before it.  The program has none: it answers
    each request as if it were the first.  This file puts the two side by
    side over a sequence of calls and shows when they agree: on the statuses
    exactly as long as every call succeeds in the contract; and on the
    example scenario of section 8 of the specification up to its last call,
    where the contract answers 404 for the gopher that was deleted and the
    program 200. *)

From Stdlib Require Import ZArith Ascii String List Lia.
From stdpp Require Import base tactics option list strings gmap.
From S2P Require Import Prelude Http Json Context Handlers Path Router App Contract Conformance.
#[local] Open Scope Z_scope.

(** The example scenario of section 8: create a gopher named Gopher, list,
    delete the gopher by the id it was given, and ask for it. *)
Definition scenario (id : string) : list call :=
  [CallCreate (mkGopher "" "Gopher"); CallList; CallDelete id; CallGetByID id].

Section Session.
Context `{http.UrlOps} `{IdSupply} (swagger : gin.HandlerFunc).
Implicit Types (c : call) (cs : list call) (s : store) (req : http.Request)
  (reqs : list http.Request).

(** The program answering the requests of a client one after the other:
    nothing is kept from one to the next. *)
Definition session (reqs : list http.Request) : list http.Response :=
  respond (engine swagger) <$> reqs.

(** The status of the contract's answer is that of success exactly when the
    call succeeds. *)
Lemma step_status_success c s :
  a_status (step c s).1 = success_status c <-> succeeds c s = true.
Proof.
  split; [|apply step_success]. unfold succeeds. intros ->.
  by destruct c.
Qed.

(** The contract on the scenario, from the empty store. *)
Lemma create_first name :
  name <> "" ->
  step (CallCreate (mkGopher "" name)) []
  = (mkAnswer 201 (Some (marshal (mkGopher (fresh_id []) name))),
     [mkGopher (fresh_id []) name]).
Proof.
  intros Hn. cbn. unfold Create. cbn.
  by rewrite bool_decide_eq_false_2, bool_decide_eq_true_2.
Qed.

Lemma delete_only g : step (CallDelete (ID g)) [g] = (mkAnswer 204 None, []).
Proof.
  cbn [step]. unfold Delete. cbn [find]. rewrite bool_decide_eq_true_2 by done.
  unfold remove. by rewrite filter_cons_False by naive_solver.
Qed.

Lemma scenario_answers :
  answers (scenario (fresh_id [])) []
  = [mkAnswer 201 (Some (marshal (mkGopher (fresh_id []) "Gopher")));
     mkAnswer 200 (Some (marshal [mkGopher (fresh_id []) "Gopher"]));
     mkAnswer 204 None; failed NotFoundError].
Proof.
  unfold scenario. cbn [answers]. rewrite create_first by done. cbn [fst snd].
  set (g := mkGopher (fresh_id []) "Gopher").
  change (step CallList [g]) with (mkAnswer 200 (Some (marshal [g])), [g]).
  cbn [fst snd]. by rewrite (delete_only g : step (CallDelete (fresh_id [])) [g] = _).
Qed.

(** ** The theorems *)

(** C29: over a sequence of calls made one after the other, the statuses the
    program answers are those of the contract exactly when every call of
    the sequence succeeds in the contract, each on the store the calls
    before it have left: the program is right about every sequence without
    a failure and wrong about every other. *)
Theorem session_agrees_iff cs reqs s :
  Forall2 request_for cs reqs ->
  http.StatusCode <$> session reqs = a_status <$> answers cs s
  <-> all_succeed cs s = true.
Proof.
  intros Hreqs. revert s. unfold session.
  induction Hreqs as [|c req cs reqs Hreq _ IH]; intros s; [done|].
  cbn [answers all_succeed]. rewrite !fmap_cons, andb_true_iff, <- IH, <- step_status_success.
  destruct (stub_answer swagger c req Hreq) as [-> _].
  split; [intros [= -> ->]|intros [-> ->]]; done.
Qed.

(** C30: on the example scenario of the specification (create, list, delete,
    get) the contract answers 201, 200, 204 and 404, with the created
    gopher in the first two bodies; the program answers 201, 200, 204 and
    200, with the zero gopher, the empty list, nothing, and the zero gopher
    again for the gopher that was deleted. *)
Theorem spec_scenario_diverges reqs :
  Forall2 request_for (scenario (fresh_id [])) reqs ->
  a_status <$> answers (scenario (fresh_id [])) [] = [201; 200; 204; 404]
  /\ http.StatusCode <$> session reqs = [201; 200; 204; 200]
  /\ a_body <$> answers (scenario (fresh_id [])) []
     = [Some (marshal (mkGopher (fresh_id []) "Gopher"));
        Some (marshal [mkGopher (fresh_id []) "Gopher"]); None; None]
  /\ http.RespBody <$> session reqs = [zero_gopher_text; "[]"; ""; zero_gopher_text].
Proof.
  intros (r1 & r2 & r3 & r4 & -> & H1 & H2 & H3 & H4)%Forall2_four.
  rewrite scenario_answers. unfold session. rewrite !fmap_cons, !fmap_nil.
  destruct (stub_answer swagger _ _ H1) as [-> ->], (stub_answer swagger _ _ H2) as [-> ->],
    (stub_answer swagger _ _ H3) as [-> ->], (stub_answer swagger _ _ H4) as [-> ->].
  done.
Qed.

End Session.

(** ** The theorems at concrete sessions *)

Section Witnesses.
#[local] Existing Instance http.url_ops_plain.
#[local] Existing Instance longer_ids.

(** The requests of the scenario, with the id the supply gives. *)
Definition scenario_requests : list http.Request :=
  [http.mkRequest "POST" "/gophers" "" ∅ (Marshal_bytes (mkGopher "" "Gopher"));
   request "GET" "/gophers"; request "DELETE" "/gophers/g"; request "GET" "/gophers/g"].

Lemma scenario_requests_for : Forall2 request_for (scenario "g") scenario_requests.
Proof. repeat constructor; by apply (bool_decide_unpack _). Qed.

Lemma session_agrees_iff_witness :
  http.StatusCode <$> session idle scenario_requests = a_status <$> answers (scenario "g") []
  <-> all_succeed (scenario "g") [] = true.
Proof. apply session_agrees_iff, scenario_requests_for. Defined.

Lemma spec_scenario_diverges_witness :
  a_status <$> answers (scenario "g") [] = [201; 200; 204; 404]
  /\ http.StatusCode <$> session idle scenario_requests = [201; 200; 204; 200]
  /\ a_body <$> answers (scenario "g") []
     = [Some (marshal (mkGopher "g" "Gopher")); Some (marshal [mkGopher "g" "Gopher"]);
        None; None]
  /\ http.RespBody <$> session idle scenario_requests
     = [zero_gopher_text; "[]"; ""; zero_gopher_text].
Proof.
  exact (@spec_scenario_diverges _ longer_ids idle scenario_requests scenario_requests_for).
Defined.

End Witnesses.
