(* ===== verification/Server.v ===== *)
(** * Server: the program serving requests concurrently

    [r.Run(":8000")] (src/main.go, [main]) hands the engine to net/http,
    which serves every request in a goroutine of its own.  What the requests
    share is the engine, which no handler of the program changes, the pool
    the engine keeps its contexts in, and the standard output the logger and
    the recovery of [gin.Default()] print to.

    A request in flight is a [task]: accepted with a context the engine
    took from its pool and reset; handled, with the lines of [Middleware]
    still to be printed; done, when net/http has completed the response and
    the context is back in the pool; or dropped, had a panic left the
    engine.  A [state] holds the tasks in the order of their arrival, the
    pool, and the lines printed so far, each with the task that printed it.
    [server_step] is the transition relation, one rule per action of a
    goroutine, written [s =[ ev ]=> s'] in the lemmas; [exec] is the same as a function, and [run_schedule] follows a
    schedule.

    The theorems: [exec] and [server_step] agree; [state_ok] holds in every
    reachable state (what a request is answered, and the lines printed for
    it, are those of [Logging.serve] alone: the other requests, the order of
    the steps and the contexts in the pool have no part in it, and no
    connection is dropped by a panic); every schedule of the goroutines
    comes to an end after exactly [work] steps, and then every request is
    answered as [Session.session] answers it, and what has been printed is a
    permutation of the logs of the requests.  The steps of the goroutines
    are an instance of [Transition.Measured], with the measure [work]. *)

From Stdlib Require Import ZArith Ascii String List Lia.
From stdpp Require Import base tactics option list strings gmap relations.
From S2P Require Import Prelude Transition Http Json Context Handlers Path Router Middleware App Coverage Logging Client Contract Conformance Session.

(** ** Tasks and states *)

(** A request in flight. *)
Inductive task : Type :=
| Accepted (req : http.Request) (c : gin.Context)
| Logging (req : http.Request) (o : gin.outcome) (pending : list line)
| Done (req : http.Request) (resp : option http.Response)
| Dropped (req : http.Request) (msg : string).

Definition task_req (t : task) : http.Request :=
  match t with Accepted req _ | Logging req _ _ | Done req _ | Dropped req _ => req end.

(** What the client of a task has received in full. *)
Definition task_resp (t : task) : option http.Response :=
  match t with Done _ resp => resp | _ => None end.

Record state : Type := mkState {
  tasks : list task;
  pool : list gin.Context;
  printed : list (nat * line)
}.

(** The standard output of the process. *)
Definition stdout (s : state) : list line := (printed s).*2.

Definition requests (s : state) : list http.Request := task_req <$> tasks s.

Definition init : state := mkState [] [] [].

(** A context the pool makes when it has none to give: [allocateContext]. *)
Definition allocateContext : gin.Context :=
  gin.mkContext (http.mkRequest "" "" "" ∅ "") [] (gin.reset "") false.

(** What [ServeHTTP] does to the context it took from the pool: the writer
    is reset for the new connection, the request is set, and [reset] empties
    the parameters and the abort flag. *)
Definition Context_reset (c0 : gin.Context) (req : http.Request) : gin.Context :=
  gin.mkContext req (take 0 (gin.Params c0)) (gin.reset (http.Method req)) false.

(** The actions of the goroutines: a request arrives and is given the
    context at a position of the pool, or a new one; the handlers of a task
    run; a task prints its next line; a task returns its context and its
    response is completed. *)
Inductive event : Type :=
| Accept (req : http.Request) (reuse : option nat)
| Handle (id : nat)
| Print (id : nat)
| Finish (id : nat).

Definition is_work (ev : event) : Prop :=
  match ev with Accept _ _ => False | _ => True end.

#[global] Instance is_work_dec ev : Decision (is_work ev).
Proof. destruct ev; apply _. Defined.

Section Server.
Context `{http.UrlOps} (swagger : gin.HandlerFunc).
Implicit Types (s : state) (t : task) (req : http.Request) (id : nat) (ev : event).

(** The end of a task: a context that came back is put in the pool and the
    response it holds is the client's; a panic that left the engine drops
    the connection, and the context with it. *)
Definition finished (o : gin.outcome) (req : http.Request) : task :=
  match o with
  | gin.Returned c => Done req (gin.response (gin.Writer c))
  | gin.Panicked msg _ => Dropped req msg
  end.

Definition release (o : gin.outcome) (p : list gin.Context) : list gin.Context :=
  match o with gin.Returned c => c :: p | gin.Panicked _ _ => p end.

Definition accepted (req : http.Request) (c0 : gin.Context) (p : list gin.Context) s : state :=
  mkState (tasks s ++ [Accepted req (Context_reset c0 req)]) p (printed s).

Definition with_task id t s : state := mkState (<[id := t]> (tasks s)) (pool s) (printed s).

(** ** The transition relation *)

Inductive server_step : state -> event -> state -> Prop :=
| step_accept_new req s :
    server_step s (Accept req None) (accepted req allocateContext (pool s) s)
| step_accept_pooled req k c0 s :
    pool s !! k = Some c0 ->
    server_step s (Accept req (Some k)) (accepted req c0 (delete k (pool s)) s)
| step_handle id req c o out s :
    tasks s !! id = Some (Accepted req c) ->
    handleHTTPRequest_logged default_handlers (engine swagger) c = (o, out) ->
    server_step s (Handle id) (with_task id (Logging req o out) s)
| step_print id req o l ls s :
    tasks s !! id = Some (Logging req o (l :: ls)) ->
    server_step s (Print id)
      (mkState (<[id := Logging req o ls]> (tasks s)) (pool s) (printed s ++ [(id, l)]))
| step_finish id req o s :
    tasks s !! id = Some (Logging req o []) ->
    server_step s (Finish id)
      (mkState (<[id := finished o req]> (tasks s)) (release o (pool s)) (printed s)).

Inductive steps : state -> list event -> state -> Prop :=
| steps_nil s : steps s [] s
| steps_cons s ev s' evs s'' : server_step s ev s' -> steps s' evs s'' -> steps s (ev :: evs) s''.

(** [s =[ ev ]=> s'] is one step of the server and [s =[ evs ]=>* s'] a
    sequence of them. *)
#[local] Notation "s '=[' ev ']=>' s'" := (server_step s ev s')
  (at level 70, ev at level 99, no associativity) : go_scope.
#[local] Notation "s '=[' evs ']=>*' s'" := (steps s evs s')
  (at level 70, evs at level 99, no associativity) : go_scope.
#[local] Open Scope go_scope.

Definition reachable s : Prop := exists evs, init =[ evs ]=>* s.

(** ** The same, as a function of the schedule *)

Definition exec ev s : option state :=
  match ev with
  | Accept req None => Some (accepted req allocateContext (pool s) s)
  | Accept req (Some k) => c0 ← pool s !! k; Some (accepted req c0 (delete k (pool s)) s)
  | Handle id =>
      match tasks s !! id with
      | Some (Accepted req c) =>
          let r := handleHTTPRequest_logged default_handlers (engine swagger) c in
          Some (with_task id (Logging req r.1 r.2) s)
      | _ => None
      end
  | Print id =>
      match tasks s !! id with
      | Some (Logging req o (l :: ls)) =>
          Some (mkState (<[id := Logging req o ls]> (tasks s)) (pool s) (printed s ++ [(id, l)]))
      | _ => None
      end
  | Finish id =>
      match tasks s !! id with
      | Some (Logging req o []) =>
          Some (mkState (<[id := finished o req]> (tasks s)) (release o (pool s)) (printed s))
      | _ => None
      end
  end.

Fixpoint run_schedule (evs : list event) s : option state :=
  match evs with
  | [] => Some s
  | ev :: evs => s' ← exec ev s; run_schedule evs s'
  end.

(** ** What is left to do *)

(** The steps a task still takes: its handlers run, each of its lines is
    printed, and it finishes. *)
Definition remaining t : nat :=
  match t with
  | Accepted _ c => 2 + length (handleHTTPRequest_logged default_handlers (engine swagger) c).2
  | Logging _ _ pending => 1 + length pending
  | Done _ _ | Dropped _ _ => 0
  end.

Definition work s : nat := sum_list (remaining <$> tasks s).

(** ** The invariant *)

(** A task is the request served alone, as far as it has come. *)
Definition task_ok (p : list (nat * line)) id t : Prop :=
  match t with
  | Accepted req c => c = entry req [] /\ tagged id p = []
  | Logging req o pending =>
      o = (serve swagger req).1 /\ tagged id p ++ pending = log_of (serve swagger req)
  | Done req resp =>
      resp = gin.response (gin.Writer (ServeHTTP (engine swagger) req))
      /\ tagged id p = log_of (serve swagger req)
  | Dropped _ _ => False
  end.

Definition state_ok s : Prop :=
  (forall id t, tasks s !! id = Some t -> task_ok (printed s) id t)
  /\ Forall (fun x => x.1 < length (tasks s)) (printed s).

(** ** A client among others *)

(** The tasks [ids] are the requests of one client that follows redirects:
    each but the last was answered with a redirect, which the next request
    follows; the last request, [last], was answered [final]. *)
Inductive client_chain s : list nat -> http.Request -> http.Request -> http.Response -> Prop :=
| chain_last id req resp :
    tasks s !! id = Some (Done req (Some resp)) -> next_request req resp = None ->
    client_chain s [id] req req resp
| chain_hop id ids req resp req' last final :
    tasks s !! id = Some (Done req (Some resp)) -> next_request req resp = Some req' ->
    client_chain s ids req' last final ->
    client_chain s (id :: ids) req last final.

(** ** The function and the relation agree *)

Lemma exec_step ev s s' : exec ev s = Some s' <-> s =[ ev ]=> s'.
Proof.
  split.
  - destruct ev as [req [k|]|id|id|id]; cbn; intros Hx;
      repeat case_match; simplify_option_eq; try by econstructor.
    eapply step_handle; [done|apply surjective_pairing].
  - destruct 1 as [| |???? ?? Ht Hh| |]; cbn; simplify_option_eq; try done.
    by rewrite Hh.
Qed.

Lemma run_schedule_steps evs s s' : run_schedule evs s = Some s' <-> s =[ evs ]=>* s'.
Proof.
  revert s. induction evs as [|ev evs IH]; intros s; cbn.
  - split; [intros [= ->]; constructor|by inversion 1].
  - rewrite bind_Some. split.
    + intros (s1 & Hx%exec_step & Hr%IH). by econstructor.
    + inversion 1; subst. eexists. by rewrite exec_step, IH.
Qed.

Lemma steps_app evs1 evs2 s s' s'' :
  s =[ evs1 ]=>* s' -> s' =[ evs2 ]=>* s'' -> s =[ evs1 ++ evs2 ]=>* s''.
Proof. induction 1; cbn; [done|]. intros. econstructor; eauto. Qed.

Lemma steps_snoc_inv evs ev s s'' :
  s =[ evs ++ [ev] ]=>* s'' -> exists s', s =[ evs ]=>* s' /\ s' =[ ev ]=> s''.
Proof.
  revert s. induction evs as [|e evs IH]; intros s; cbn; inversion 1; subst.
  - match goal with Hn : _ =[ [] ]=>* _ |- _ => inversion Hn; subst end.
    eexists. split; [constructor|done].
  - match goal with Hn : _ =[ _ ++ _ ]=>* _ |- _ => apply IH in Hn as (s1 & ? & ?) end.
    eexists. split; [by econstructor|done].
Qed.

(** Rule induction on the reachable states. *)
Lemma reachable_ind' (P : state -> Prop) :
  P init -> (forall s ev s', reachable s -> P s -> s =[ ev ]=> s' -> P s') ->
  forall s, reachable s -> P s.
Proof.
  intros Hi Hs s [evs Hr]. revert s Hr.
  induction evs as [|ev evs IH] using rev_ind; intros s Hr.
  - by inversion Hr; subst.
  - apply steps_snoc_inv in Hr as (s1 & Hr & Hx). eapply Hs; [by eexists|by apply IH|done].
Qed.

(** ** The invariant holds in every reachable state *)

Lemma task_ok_tagged p p' id t : tagged id p' = tagged id p -> task_ok p id t -> task_ok p' id t.
Proof. intros E. destruct t; cbn; by rewrite ?E. Qed.

(** Nothing of the context that was in the pool is left after the reset. *)
Lemma Context_reset_entry c0 req : Context_reset c0 req = entry req [].
Proof. reflexivity. Qed.

Lemma init_ok : state_ok init.
Proof. split; [by intros [|?] ?|constructor]. Qed.

Lemma accepted_ok req c0 p s : state_ok s -> state_ok (accepted req c0 p s).
Proof.
  intros [Ht Hp]. split; cbn.
  - intros id t [[_ Hl]|[-> <-]]%lookup_snoc_Some; [by apply Ht|].
    split; [done|]. by eapply tagged_unused.
  - rewrite length_app. eapply Forall_impl; [done|]. cbn. lia.
Qed.

(** A step of a task keeps the invariant when it keeps that of the task and
    the lines of the others. *)
Lemma update_ok id t t' s p' q :
  state_ok s -> tasks s !! id = Some t -> task_ok p' id t' ->
  (forall j, j <> id -> tagged j p' = tagged j (printed s)) ->
  Forall (fun x => x.1 < length (tasks s)) p' ->
  state_ok (mkState (<[id := t']> (tasks s)) q p').
Proof.
  intros [Ht Hp] Hid Hok Hj Hb. split; cbn; [|by rewrite length_insert].
  intros j u. destruct (decide (j = id)) as [->|Hne].
  - rewrite list_lookup_insert_eq by (by eapply lookup_lt_Some). by intros [= <-].
  - rewrite list_lookup_insert_ne by done. intros Hu.
    eapply task_ok_tagged; [by apply Hj|by apply Ht].
Qed.

Lemma server_step_ok s ev s' : state_ok s -> s =[ ev ]=> s' -> state_ok s'.
Proof.
  intros Hs.
  destruct 1 as [req s|req k c0 s Hk|id req c o out s Ht Hh|id req o l ls s Ht|id req o s Ht];
    try (by apply accepted_ok); destruct (proj1 Hs _ _ Ht) as [-> Hp].
  - eapply update_ok; try done; [|apply Hs].
    cbn. rewrite Hp. unfold serve, ServeHTTP_logged. fold (entry req []). by rewrite Hh.
  - eapply update_ok; try done.
    + cbn. split; [done|]. rewrite tagged_snoc, decide_True by done. by rewrite <- app_assoc.
    + intros j Hj. rewrite tagged_snoc, decide_False by done. apply app_nil_r.
    + apply Forall_app. split; [apply Hs|]. constructor; [|done]. by eapply lookup_lt_Some.
  - eapply update_ok; try done; [|apply Hs].
    unfold serve. rewrite ServeHTTP_logged_default. cbn. by rewrite app_nil_r in Hp.
Qed.

Lemma reachable_ok s : reachable s -> state_ok s.
Proof. apply reachable_ind'; [apply init_ok|]. intros; by eapply server_step_ok. Qed.

(** ** Every schedule comes to an end *)

(** A step of a task takes one from the work that is left. *)
Lemma work_step s ev s' : s =[ ev ]=> s' -> is_work ev -> work s = S (work s').
Proof.
  destruct 1 as [| |id req c o out s Ht Hh|id req o l ls s Ht|id req o s Ht];
    try done; intros _; unfold work, with_task; cbn [tasks];
    match goal with |- context [<[_ := ?t']> _] =>
      pose proof (sum_list_fmap_insert remaining _ _ _ t' Ht) as Hsum end;
    cbn [remaining] in Hsum.
  - rewrite Hh in Hsum. cbn [snd length] in Hsum. lia.
  - cbn [length] in Hsum. lia.
  - destruct o; cbn [finished remaining length] in Hsum |- *; lia.
Qed.

(** The steps of the goroutines as a relation on the states: a system with
    the measure [work], of which [Transition] has the consequences. *)
Definition server_work : relation state :=
  fun s s' => exists ev, is_work ev /\ s =[ ev ]=> s'.

#[global] Instance server_work_measured : Measured server_work (fun _ => True) work.
Proof. split; [done|]. intros s s' _ (ev & Hw & Hx). by eapply work_step. Qed.

(** A schedule of the goroutines is a run of that relation, and a run is a
    schedule. *)
Lemma steps_nsteps evs s s' :
  s =[ evs ]=>* s' -> Forall is_work evs -> nsteps server_work (length evs) s s'.
Proof.
  induction 1 as [|s ev s1 evs s' Hx _ IH]; [constructor|]. intros [Hw Hr]%Forall_cons.
  econstructor; [by exists ev|by apply IH].
Qed.

Lemma nsteps_steps n s s' :
  nsteps server_work n s s' ->
  exists evs, length evs = n /\ Forall is_work evs /\ s =[ evs ]=>* s'.
Proof.
  induction 1 as [s|n s s1 s' (ev & Hw & Hx) _ (evs & <- & Hws & Hr)].
  - exists []. split_and!; [done|constructor|constructor].
  - exists (ev :: evs). split_and!; [done|by constructor|by econstructor].
Qed.

Lemma work_steps evs s s' :
  s =[ evs ]=>* s' -> Forall is_work evs -> length evs + work s' = work s.
Proof.
  intros Hr Hw.
  by destruct (measured_nsteps server_work (fun _ => True) work (length evs) s s')
    as [_ Hm]; [|apply steps_nsteps|].
Qed.

(** While work is left a goroutine can take a step. *)
Lemma progress s : work s <> 0 -> exists ev s', is_work ev /\ s =[ ev ]=> s'.
Proof.
  unfold work. rewrite sum_list_fmap_zero. intros Hn.
  apply not_Forall_Exists in Hn; [|apply _].
  apply Exists_exists in Hn as (t & (id & Ht)%list_elem_of_lookup & Hr).
  destruct t as [req c|req o [|l ls]| |]; cbn in Hr; try done.
  - exists (Handle id). eexists. split; [done|].
    eapply step_handle; [done|apply surjective_pairing].
  - exists (Finish id). eexists. split; [done|]. by econstructor.
  - exists (Print id). eexists. split; [done|]. by econstructor.
Qed.

(** The arrival of a request adds its task, and the work of the task. *)
Lemma accept_tasks s req reuse s' :
  s =[ Accept req reuse ]=> s' -> tasks s' = tasks s ++ [Accepted req (entry req [])].
Proof. by inversion 1. Qed.

Lemma accept_work s req reuse s' :
  s =[ Accept req reuse ]=> s' ->
  work s' = work s + 2 + length (log_of (serve swagger req)).
Proof.
  intros Ht%accept_tasks. unfold work. rewrite Ht, fmap_app, sum_list_with_app. cbn.
  change (handleHTTPRequest_logged _ _ (entry req [])).2 with (log_of (serve swagger req)). lia.
Qed.

(** A step leaves the tasks there are at their places, with their
    requests. *)
Lemma server_step_req s ev s' id t :
  s =[ ev ]=> s' -> tasks s !! id = Some t ->
  exists t', tasks s' !! id = Some t' /\ task_req t' = task_req t.
Proof.
  intros Hx Ht. assert (id < length (tasks s)) by by eapply lookup_lt_Some.
  destruct Hx as [| |i ????? Hi|i ????? Hi|i ??? Hi]; cbn;
    try (exists t; by rewrite lookup_app_l);
    (destruct (decide (i = id)) as [->|];
      [rewrite list_lookup_insert_eq by done; eexists; split; [done|]; simplify_eq
      |exists t; by rewrite list_lookup_insert_ne]); try done.
  by destruct o.
Qed.

(** The goroutines' steps leave the requests as they arrived. *)
Lemma requests_step s ev s' : s =[ ev ]=> s' -> is_work ev -> requests s' = requests s.
Proof.
  destruct 1 as [| |id req c o out s Ht Hh|id req o l ls s Ht|id req o s Ht]; try done;
    intros _; unfold requests, with_task; cbn [tasks]; rewrite list_fmap_insert;
    apply list_insert_id; rewrite list_lookup_fmap, Ht; try done.
  by destruct o.
Qed.

Lemma requests_steps evs s s' :
  s =[ evs ]=>* s' -> Forall is_work evs -> requests s' = requests s.
Proof.
  induction 1 as [|s ev s1 evs s' Hx _ IH]; [done|]. intros [Hw Hr]%Forall_cons.
  by rewrite IH, (requests_step _ _ _ Hx).
Qed.

Lemma reachable_steps evs s s' : reachable s -> s =[ evs ]=>* s' -> reachable s'.
Proof. intros [evs0 H0] Hs. exists (evs0 ++ evs). by eapply steps_app. Qed.

Lemma work_red s : work s <> 0 -> red server_work s.
Proof. intros (ev & s' & Hw & Hx)%progress. by exists s', ev. Qed.

Lemma drains s : exists evs s', Forall is_work evs /\ s =[ evs ]=>* s' /\ work s' = 0.
Proof.
  destruct (measured_wn server_work (fun _ => True) work (fun s _ => work_red s) s)
    as (s' & (evs & _ & Hw & Hr)%nsteps_steps & _ & Hz); [done|].
  by exists evs, s'.
Qed.

(** ** When every goroutine has come to its end *)

Definition ended t : Prop :=
  match t with Done _ _ | Dropped _ _ => True | _ => False end.

Lemma work_zero s : work s = 0 <-> Forall ended (tasks s).
Proof.
  unfold work. rewrite sum_list_fmap_zero, !Forall_forall.
  split; intros Hn t Ht; specialize (Hn t Ht); by destruct t.
Qed.

Lemma quiet_task s id t :
  state_ok s -> work s = 0 -> tasks s !! id = Some t ->
  exists req,
    t = Done req (gin.response (gin.Writer (ServeHTTP (engine swagger) req)))
    /\ tagged id (printed s) = log_of (serve swagger req).
Proof.
  intros [Hs _] Hw%work_zero Ht. specialize (Hs _ _ Ht).
  rewrite Forall_lookup in Hw. specialize (Hw _ _ Ht).
  destruct t as [| |req resp|]; try done. destruct Hs as [-> Hl]. by exists req.
Qed.

Lemma quiet_answers s :
  state_ok s -> work s = 0 ->
  task_resp <$> tasks s
  = (fun req => gin.response (gin.Writer (ServeHTTP (engine swagger) req))) <$> requests s.
Proof.
  intros Hs Hw. unfold requests. rewrite <- list_fmap_compose. apply list_fmap_ext.
  intros id t Ht. by destruct (quiet_task s id t) as (req & -> & _).
Qed.

Lemma quiet_log s :
  state_ok s -> work s = 0 ->
  stdout s ≡ₚ concat ((fun req => log_of (serve swagger req)) <$> requests s).
Proof.
  intros Hs Hw. unfold stdout, requests.
  rewrite (tagged_split (length (tasks s))) by apply Hs.
  apply Permutation_refl'. f_equal. rewrite <- list_fmap_compose. apply fmap_seq_lookup.
  intros id t Ht. by destruct (quiet_task s id t) as (req & -> & ->).
Qed.

Lemma quiet_session `{!WellBehaved swagger} s :
  state_ok s -> work s = 0 -> task_resp <$> tasks s = Some <$> session swagger (requests s).
Proof.
  intros Hs Hw. rewrite quiet_answers by done. unfold session. rewrite <- list_fmap_compose.
  apply list_fmap_ext. intros _ req _. cbn. apply ServeHTTP_responds. by apply table_ok.
Qed.

Lemma run_reachable evs s : run_schedule evs init = Some s -> reachable s.
Proof. intros Hr%run_schedule_steps. by exists evs. Qed.

(** ** The theorems *)

(** C19: the requests the program serves at the same time do not affect one
    another.  In every state the server reaches, whatever the order of the
    goroutines' steps and whatever contexts the pool handed out: no
    connection has been dropped (no panic leaves the engine of
    gin.Default()); the lines printed
    so far for a task are the first lines of the log of its request served
    alone; and a task that is done has the response of its request served
    alone and has printed all of that log. *)
Theorem requests_isolated s id t :
  reachable s -> tasks s !! id = Some t ->
  (forall req msg, t <> Dropped req msg)
  /\ (exists pending,
        tagged id (printed s) ++ pending = log_of (serve swagger (task_req t)))
  /\ (forall req resp, t = Done req resp ->
        resp = gin.response (gin.Writer (ServeHTTP (engine swagger) req))
        /\ tagged id (printed s) = log_of (serve swagger req)).
Proof.
  intros [Hs _]%reachable_ok Ht. specialize (Hs _ _ Ht).
  destruct t as [req c|req o pending|req resp|req msg]; cbn in Hs; [| | |done];
    destruct Hs as [Ho Hl]; (split; [done|split; [|by intros ?? [= <- <-]]]); cbn.
  - exists (log_of (serve swagger req)). by rewrite Hl.
  - by exists pending.
  - exists []. by rewrite app_nil_r.
Qed.

(** What a client has received in full is the response of its request
    served alone. *)
Lemma ok_done_response s id req resp :
  state_ok s -> tasks s !! id = Some (Done req (Some resp)) ->
  resp = respond (engine swagger) req.
Proof. intros [Hs _] Ht. destruct (Hs _ _ Ht) as [Hr _]. unfold respond. by rewrite <- Hr. Qed.

Lemma done_response s id req resp :
  reachable s -> tasks s !! id = Some (Done req (Some resp)) ->
  resp = respond (engine swagger) req.
Proof. intros Hs%reachable_ok. by apply ok_done_response. Qed.

Lemma client_chain_follow s ids req last final :
  reachable s -> client_chain s ids req last final ->
  follow (length ids - 1) (engine swagger) req = Some (last, final).
Proof.
  intros Hs. induction 1 as [id req resp Ht Hn|id ids req resp req' last final Ht Hn Hc IH];
    apply (done_response _ _ _ _ Hs) in Ht; subst resp.
  - by apply follow_final.
  - destruct Hc; cbn [length Nat.sub] in *; rewrite ?Nat.sub_0_r in IH;
      by rewrite (follow_hop _ _ _ _ Hn).
Qed.

(** The other requests do not change where a client that follows
    redirects ends up.  If tasks of a reachable state are the chain of
    requests of one client, then the request it ends with and the response
    it ends with are those of the client alone with the engine, and if the
    chain has no more than ten requests they are what Go's client returns. *)
Theorem client_undisturbed s ids req last final :
  reachable s -> client_chain s ids req last final ->
  follow (length ids - 1) (engine swagger) req = Some (last, final)
  /\ (length ids <= 10 -> Do (engine swagger) req = Some (last, final)).
Proof.
  intros Hs Hc. pose proof (client_chain_follow _ _ _ _ _ Hs Hc) as Hf.
  split; [done|]. intros Hl. eapply follow_mono; [done|lia].
Qed.

(** The goroutines come to an end under every schedule.  A sequence of
    their steps from a state has the length of the work the state has left
    less the work left at its end, and it leaves the requests as they
    arrived; and wherever it stands it can be continued to the end, by
    exactly as many steps as work is left, after which every task has
    ended. *)
Theorem schedule_drains s evs s' :
  s =[ evs ]=>* s' -> Forall is_work evs ->
  length evs + work s' = work s
  /\ requests s' = requests s
  /\ exists evs' s'',
       Forall is_work evs' /\ s' =[ evs' ]=>* s'' /\ length evs' = work s'
       /\ Forall ended (tasks s'').
Proof.
  intros Hr Hw. split; [by apply work_steps|]. split; [by eapply requests_steps|].
  destruct (drains s') as (evs' & s'' & Hw' & Hr' & Hz). exists evs', s''.
  pose proof (work_steps _ _ _ Hr' Hw'). repeat split; [done|done|lia|by apply work_zero].
Qed.

(** C20: the concurrent server refines the sequential one.  When every
    goroutine has come to its end, the responses the clients received are,
    request by request in the order of arrival, those [session] gives for
    the same requests one after the other; the lines of each request are in
    the output in their order; and the output as a whole is a permutation of
    the logs of the requests served one by one. *)
Theorem concurrent_refines_session `{!WellBehaved swagger} s :
  reachable s -> work s = 0 ->
  task_resp <$> tasks s = Some <$> session swagger (requests s)
  /\ (forall id req, requests s !! id = Some req ->
        tagged id (printed s) = log_of (serve swagger req))
  /\ stdout s ≡ₚ concat ((fun req => log_of (serve swagger req)) <$> requests s).
Proof.
  intros Hs%reachable_ok Hw. split; [by apply quiet_session|split; [|by apply quiet_log]].
  unfold requests. intros id req (t & -> & Ht)%list_lookup_fmap_Some.
  by destruct (quiet_task s id t) as (req & -> & ->).
Qed.

(** Every request the server has accepted is answered: from every state it
    reaches, the goroutines have a way to their end, and there each request
    has the response [session] gives it. *)
Corollary every_request_served `{!WellBehaved swagger} s :
  reachable s ->
  exists evs s',
    Forall is_work evs /\ s =[ evs ]=>* s' /\ length evs = work s
    /\ task_resp <$> tasks s' = Some <$> session swagger (requests s).
Proof.
  intros Hs. destruct (drains s) as (evs & s' & Hw & Hr & Hz). exists evs, s'.
  pose proof (work_steps _ _ _ Hr Hw). repeat split; [done|done|lia|].
  rewrite <- (requests_steps _ _ _ Hr Hw).
  by eapply quiet_session; [eapply reachable_ok, reachable_steps|].
Qed.

End Server.

(** ** The theorems at a concrete schedule *)

Section Witnesses.
#[local] Existing Instance http.url_ops_plain.

(** Two requests arrive and are served at the same time, the second ahead
    of the first; a third is given the context the first has returned. *)
Definition arrivals : list event :=
  [Accept (request "DELETE" "/gophers/42") None; Accept (request "GET" "/gophers/42/7") None].

Definition both : list event :=
  [Handle 1; Handle 0; Print 1; Print 0; Finish 0; Finish 1].

Definition interleaved : list event :=
  arrivals ++ [Handle 1; Handle 0; Print 1; Print 0; Finish 0;
               Accept (request "GET" "/health") (Some 0); Finish 1;
               Handle 2; Print 2; Finish 2].

Definition after (swagger : gin.HandlerFunc) (evs : list event) : state :=
  default init (run_schedule swagger evs init).

Lemma requests_isolated_witness :
  tagged 0 (printed (after idle interleaved))
  = log_of (serve idle (request "DELETE" "/gophers/42")).
Proof.
  destruct (requests_isolated idle (after idle interleaved) 0
              (Done (request "DELETE" "/gophers/42")
                 (gin.response (gin.Writer (ServeHTTP (engine idle)
                    (request "DELETE" "/gophers/42")))))) as (_ & _ & Hd).
  - apply (run_reachable idle interleaved). by vm_compute.
  - by vm_compute.
  - by destruct (Hd _ _ eq_refl).
Defined.

Lemma schedule_drains_witness :
  work idle (after idle arrivals) = 6
  /\ requests (after idle (arrivals ++ both)) = requests (after idle arrivals).
Proof.
  destruct (schedule_drains idle (after idle arrivals) both (after idle (arrivals ++ both)))
    as (Hl & Hq & _).
  - apply run_schedule_steps. by vm_compute.
  - by repeat constructor.
  - split; [rewrite <- Hl; by vm_compute|done].
Defined.

Lemma concurrent_refines_session_witness :
  task_resp <$> tasks (after HealthCheck interleaved)
  = Some <$> session HealthCheck
      [request "DELETE" "/gophers/42"; request "GET" "/gophers/42/7"; request "GET" "/health"].
Proof.
  destruct (concurrent_refines_session HealthCheck (after HealthCheck interleaved))
    as (Ha & _ & _); [|by vm_compute|exact Ha].
  apply (run_reachable HealthCheck interleaved). by vm_compute.
Defined.

(** A client follows the two redirects of GET // while a DELETE of another
    client is served. *)
Definition redirected_twice : list event :=
  [Accept (request "GET" "//") None; Accept (request "DELETE" "/gophers/42") None;
   Handle 0; Finish 0; Accept (request "GET" "/") (Some 0);
   Handle 1; Handle 2; Print 2; Print 1; Finish 2;
   Accept (request "GET" "/swagger/index.html") None; Finish 1;
   Handle 3; Print 3; Finish 3].

Lemma client_undisturbed_witness :
  fst <$> Do (engine idle) (request "GET" "//") = Some (request "GET" "/swagger/index.html")
  /\ stdout (after idle redirected_twice)
     = [line_of (request "GET" "/") 301 54; line_of (request "DELETE" "/gophers/42") 204 (-1);
        line_of (request "GET" "/swagger/index.html") 200 (-1)].
Proof.
  split; [|by vm_compute].
  destruct (client_undisturbed idle (after idle redirected_twice) [0; 2; 3]
              (request "GET" "//") (request "GET" "/swagger/index.html")
              (respond (engine idle) (request "GET" "/swagger/index.html"))) as [_ Hd].
  - apply (run_reachable idle redirected_twice). by vm_compute.
  - eapply chain_hop; [by vm_compute|by vm_compute|].
    eapply chain_hop; [by vm_compute|by vm_compute|].
    apply chain_last; by vm_compute.
  - by rewrite Hd by (cbn; lia).
Defined.

End Witnesses.
