(* ===== verification/System.v ===== *)
(** * System: the server and its clients, together

    [Client] has what one client does with one response, [Server] what the
    server does with the requests that arrive.  Here the two run together:
    a [system] is the state of the server and the clients that talk to it.
    A client sends its request, waits until the response is complete, and
    then is done, or follows the redirect with a new request, as long as it
    has requests left (Go's client makes ten at most).  [sys_step] is the
    transition relation: a client sends, a goroutine of the server takes a
    step, a client receives, written [sys =[ e ]=> sys'] in the lemmas;
    [sys_exec] is the same as a function.

    The theorems: every step keeps the invariant [sys_ok] and the [fate] of
    every client, which is what the client would end with were it alone
    with the engine ([follow]); every step takes one from [sys_todo], so the
    system is an instance of [Transition.Measured] and no schedule goes on
    for ever; with a swagger handler that meets the engine's interface a
    state with something left to do can take a step, so every schedule runs
    to a state in which every client has ended as [follow] says.  By then
    the server has seen the requests of all the chains ([Client.hops]) and
    printed the lines of each ([system_log]); and no client has a response
    before the lines of its request are printed
    ([logged_before_received]). *)

From Stdlib Require Import ZArith Ascii String List Lia.
From stdpp Require Import base tactics option list strings gmap relations.
From S2P Require Import Prelude Transition Http Json Context Handlers Path Router Middleware App Coverage Logging Client Server.

(** ** Clients and systems *)

(** A client: about to send a request, with the number of further requests
    it may make after that one; waiting for the response to the request it
    sent, which the server serves as the task [id]; finished with the last
    request it made and the response to it; or stopped, having been
    redirected once too often. *)
Inductive client : Type :=
| Sending (req : http.Request) (fuel : nat)
| Waiting (id : nat) (req : http.Request) (fuel : nat)
| Finished (req : http.Request) (resp : http.Response)
| GaveUp.

Record system : Type := mkSystem {
  server : state;
  clients : list client
}.

(** The server has just started, and each client has its request to
    send. *)
Definition start (fuel : nat) (reqs : list http.Request) : system :=
  mkSystem init ((fun req => Sending req fuel) <$> reqs).

(** What a client does with a response: [Client.next_request] says whether
    it is a redirect to follow. *)
Definition received (req : http.Request) (fuel : nat) (resp : http.Response) : client :=
  match next_request req resp with
  | None => Finished req resp
  | Some req' => match fuel with O => GaveUp | S n => Sending req' n end
  end.

(** How a client ends that is done. *)
Definition outcome (r : option (http.Request * http.Response)) : client :=
  match r with Some (req, resp) => Finished req resp | None => GaveUp end.

Definition has_ended (c : client) : Prop :=
  match c with Finished _ _ | GaveUp => True | _ => False end.

(** The actions: the client [i] sends its request (and the server gives it
    the context at a position of the pool, or a new one); a goroutine takes
    a step; the client [i] receives the response it waits for. *)
Inductive sys_event : Type :=
| Send (i : nat) (reuse : option nat)
| Work (ev : event)
| Receive (i : nat).

Section System.
Context `{http.UrlOps} (swagger : gin.HandlerFunc).
Implicit Types (sys : system) (c : client) (req : http.Request) (e : sys_event).

(** ** The transition relation *)

Inductive sys_step : system -> sys_event -> system -> Prop :=
| step_send i req n reuse srv' sys :
    clients sys !! i = Some (Sending req n) ->
    server_step swagger (server sys) (Accept req reuse) srv' ->
    sys_step sys (Send i reuse)
      (mkSystem srv' (<[i := Waiting (length (tasks (server sys))) req n]> (clients sys)))
| step_work ev srv' sys :
    is_work ev -> server_step swagger (server sys) ev srv' ->
    sys_step sys (Work ev) (mkSystem srv' (clients sys))
| step_receive i id req n req' resp sys :
    clients sys !! i = Some (Waiting id req n) ->
    tasks (server sys) !! id = Some (Done req' (Some resp)) ->
    sys_step sys (Receive i)
      (mkSystem (server sys) (<[i := received req n resp]> (clients sys))).

(** [sys =[ e ]=> sys'] is one step of the system. *)
#[local] Notation "sys '=[' e ']=>' sys'" := (sys_step sys e sys')
  (at level 70, e at level 99, no associativity) : go_scope.
#[local] Open Scope go_scope.

Definition sys_rel : relation system := fun sys sys' => exists e, sys =[ e ]=> sys'.

(** ** The same, as a function of the schedule *)

Definition sys_exec e sys : option system :=
  match e with
  | Send i reuse =>
      match clients sys !! i with
      | Some (Sending req n) =>
          srv' ← exec swagger (Accept req reuse) (server sys);
          Some (mkSystem srv'
                  (<[i := Waiting (length (tasks (server sys))) req n]> (clients sys)))
      | _ => None
      end
  | Work ev =>
      if decide (is_work ev)
      then srv' ← exec swagger ev (server sys); Some (mkSystem srv' (clients sys))
      else None
  | Receive i =>
      match clients sys !! i with
      | Some (Waiting id req n) =>
          match tasks (server sys) !! id with
          | Some (Done _ (Some resp)) =>
              Some (mkSystem (server sys) (<[i := received req n resp]> (clients sys)))
          | _ => None
          end
      | _ => None
      end
  end.

Fixpoint sys_run (es : list sys_event) sys : option system :=
  match es with
  | [] => Some sys
  | e :: es => sys' ← sys_exec e sys; sys_run es sys'
  end.

(** ** What is left to do *)

(** The steps from a request about to be sent to the end of its client:
    the request is sent, its handlers run, its lines are printed, its task
    finishes and the response is received, and if that is a redirect the
    client may follow, the same again. *)
Fixpoint todo (fuel : nat) (req : http.Request) : nat :=
  4 + length (log_of (serve swagger req))
  + match next_request req (respond (engine swagger) req) with
    | Some req' => match fuel with S n => todo n req' | O => 0 end
    | None => 0
    end.

(** What follows the response a client waits for. *)
Definition todo_after (fuel : nat) (req : http.Request) : nat :=
  match next_request req (respond (engine swagger) req) with
  | Some req' => match fuel with S n => todo n req' | O => 0 end
  | None => 0
  end.

Definition client_todo c : nat :=
  match c with
  | Sending req n => todo n req
  | Waiting _ req n => 1 + todo_after n req
  | Finished _ _ | GaveUp => 0
  end.

Definition sys_todo sys : nat :=
  work swagger (server sys) + sum_list (client_todo <$> clients sys).

(** ** The invariant *)

(** The task a client waits for is the task of its request. *)
Definition client_ok (srv : state) c : Prop :=
  match c with
  | Waiting id req _ => exists t, tasks srv !! id = Some t /\ task_req t = req
  | _ => True
  end.

Definition sys_ok sys : Prop :=
  state_ok swagger (server sys) /\ Forall (client_ok (server sys)) (clients sys).

(** What a client ends with, were it alone with the engine. *)
Definition fate c : option (http.Request * http.Response) :=
  match c with
  | Sending req n | Waiting _ req n => follow n (engine swagger) req
  | Finished req resp => Some (req, resp)
  | GaveUp => None
  end.

(** The requests a client has still to send. *)
Definition to_send c : list http.Request :=
  match c with
  | Sending req n => hops n (engine swagger) req
  | Waiting _ req n => tail (hops n (engine swagger) req)
  | Finished _ _ | GaveUp => []
  end.

(** ** The function and the relation agree *)

Lemma sys_exec_step e sys sys' : sys_exec e sys = Some sys' <-> sys =[ e ]=> sys'.
Proof.
  split.
  - destruct e as [i reuse|ev|i]; unfold sys_exec.
    + destruct (clients sys !! i) as [[req n| | |]|] eqn:Hc; try done.
      destruct (exec _ _ _) as [srv'|] eqn:Hs; [|done]. intros [= <-].
      apply exec_step in Hs. by econstructor.
    + case_decide; [|done]. destruct (exec _ _ _) as [srv'|] eqn:Hs; [|done].
      intros [= <-]. apply exec_step in Hs. by econstructor.
    + destruct (clients sys !! i) as [[|id req n| |]|] eqn:Hc; try done.
      destruct (tasks _ !! id) as [[| |req' [resp|]|]|] eqn:Ht; try done.
      intros [= <-]. by econstructor.
  - destruct 1 as [?????? Hc Hs|??? Hw Hs|??????? Hc Ht]; unfold sys_exec.
    + apply exec_step in Hs. by rewrite Hc, Hs.
    + apply exec_step in Hs. by rewrite decide_True, Hs.
    + by rewrite Hc, Ht.
Qed.

(** ** Every step keeps the invariant *)

Lemma client_ok_step srv ev srv' c :
  server_step swagger srv ev srv' -> client_ok srv c -> client_ok srv' c.
Proof.
  intros Hx. destruct c as [|id req n| |]; try done. intros (t & Ht & <-).
  by eapply server_step_req.
Qed.

Lemma start_ok fuel reqs : sys_ok (start fuel reqs).
Proof.
  split; [apply init_ok|]. apply Forall_fmap, Forall_forall. by intros req _.
Qed.

Lemma sys_step_ok sys e sys' : sys_ok sys -> sys =[ e ]=> sys' -> sys_ok sys'.
Proof.
  intros [Hs Hc].
  destruct 1 as [i req n reuse srv' sys Hi Hx|ev srv' sys Hw Hx|i id req n req' resp sys Hi Ht];
    (split; [by eauto using server_step_ok|]); cbn.
  - apply Forall_insert; [eapply Forall_impl; eauto using client_ok_step|].
    cbn. rewrite (accept_tasks _ _ _ _ _ Hx), list_lookup_middle by done. by eexists.
  - eapply Forall_impl; eauto using client_ok_step.
  - apply Forall_insert; [done|]. unfold received. by repeat case_match.
Qed.

(** The response a client receives is the one to its request, served
    alone. *)
Lemma waiting_response sys i id req n req' resp :
  sys_ok sys -> clients sys !! i = Some (Waiting id req n) ->
  tasks (server sys) !! id = Some (Done req' (Some resp)) ->
  resp = respond (engine swagger) req.
Proof.
  intros [Hs Hc] Hi Ht. rewrite Forall_lookup in Hc.
  destruct (Hc _ _ Hi) as (t & Ht' & <-). simplify_eq. by eapply ok_done_response.
Qed.

(** ** Every step keeps the fate of every client *)

Lemma fate_received req n :
  fate (received req n (respond (engine swagger) req)) = follow n (engine swagger) req.
Proof. unfold received. destruct n; cbn; by repeat case_match. Qed.

Lemma sys_step_fate sys e sys' :
  sys_ok sys -> sys =[ e ]=> sys' -> fate <$> clients sys' = fate <$> clients sys.
Proof.
  intros Hok.
  destruct 1 as [i req n reuse srv' sys Hi Hx|ev srv' sys Hw Hx|i id req n req' resp sys Hi Ht];
    cbn; [|done|]; rewrite list_fmap_insert; apply list_insert_id;
    rewrite list_lookup_fmap, Hi; [done|].
  rewrite (waiting_response _ _ _ _ _ _ _ Hok Hi Ht). cbn. by rewrite fate_received.
Qed.

(** ** Every step takes one from what is left to do *)

Lemma todo_unfold n req :
  todo n req = 4 + length (log_of (serve swagger req)) + todo_after n req.
Proof. by destruct n. Qed.

Lemma client_todo_received req n :
  client_todo (received req n (respond (engine swagger) req)) = todo_after n req.
Proof. unfold received, todo_after. by repeat case_match. Qed.

Lemma sys_step_todo sys e sys' :
  sys_ok sys -> sys =[ e ]=> sys' -> sys_todo sys = S (sys_todo sys').
Proof.
  intros Hok.
  destruct 1 as [i req n reuse srv' sys Hi Hx|ev srv' sys Hw Hx|i id req n req' resp sys Hi Ht];
    unfold sys_todo; cbn [server clients].
  - pose proof (sum_list_fmap_insert client_todo _ _ _
      (Waiting (length (tasks (server sys))) req n) Hi) as Hsum.
    cbn [client_todo] in Hsum. rewrite todo_unfold in Hsum.
    rewrite (accept_work _ _ _ _ _ Hx). lia.
  - rewrite (work_step _ _ _ _ Hx Hw). lia.
  - pose proof (sum_list_fmap_insert client_todo _ _ _ (received req n resp) Hi) as Hsum.
    rewrite (waiting_response _ _ _ _ _ _ _ Hok Hi Ht), client_todo_received in Hsum.
    rewrite (waiting_response _ _ _ _ _ _ _ Hok Hi Ht). cbn [client_todo] in Hsum. lia.
Qed.

#[global] Instance sys_measured : Measured sys_rel sys_ok sys_todo.
Proof.
  split; intros sys sys' Hok [e Hx]; [by eapply sys_step_ok|by eapply sys_step_todo].
Qed.

(** ** A state with something left to do can take a step *)

Lemma client_todo_zero c : client_todo c = 0 <-> has_ended c.
Proof. destruct c; cbn; rewrite ?todo_unfold; split; (done || lia). Qed.

Lemma ended_outcome c : has_ended c -> c = outcome (fate c).
Proof. by destruct c. Qed.

Lemma sys_progress `{!WellBehaved swagger} sys : sys_ok sys -> sys_todo sys <> 0 -> red sys_rel sys.
Proof.
  intros [Hs Hc] Hn. destruct (decide (work swagger (server sys) = 0)) as [Hw|Hw].
  - unfold sys_todo in Hn. rewrite Hw, Nat.add_0_l, sum_list_fmap_zero in Hn.
    apply not_Forall_Exists in Hn; [|apply _].
    apply Exists_exists in Hn as (c & (i & Hi)%list_elem_of_lookup & Hr).
    rewrite Forall_lookup in Hc. specialize (Hc _ _ Hi).
    destruct c as [req n|id req n| |]; cbn in Hr; try done.
    + eexists. exists (Send i None). econstructor; [done|constructor].
    + destruct Hc as (t & Ht & <-).
      destruct (quiet_task swagger _ _ _ Hs Hw Ht) as (req & -> & _).
      rewrite ServeHTTP_responds in Ht by by apply table_ok.
      eexists. exists (Receive i). by eapply step_receive.
  - destruct (progress swagger _ Hw) as (ev & srv' & Hwk & Hx).
    eexists. exists (Work ev). by constructor.
Qed.

(** ** Runs *)

Lemma sys_run_nsteps es sys sys' :
  sys_run es sys = Some sys' -> nsteps sys_rel (length es) sys sys'.
Proof.
  revert sys. induction es as [|e es IH]; intros sys; cbn; [intros [= ->]; constructor|].
  intros (sys1 & Hx%sys_exec_step & Hr%IH)%bind_Some. econstructor; [by exists e|done].
Qed.

Lemma sys_run_rtc es sys sys' : sys_run es sys = Some sys' -> rtc sys_rel sys sys'.
Proof. intros Hr%sys_run_nsteps. by eapply rtc_nsteps_2. Qed.

Lemma reached_ok fuel reqs sys : rtc sys_rel (start fuel reqs) sys -> sys_ok sys.
Proof. apply (measured_rtc sys_rel sys_ok sys_todo), start_ok. Qed.

Lemma todo_zero_nf sys : sys_ok sys -> sys_todo sys = 0 -> nf sys_rel sys.
Proof. apply (measured_zero_nf sys_rel sys_ok sys_todo). Qed.

Lemma sys_rtc_fate sys sys' :
  sys_ok sys -> rtc sys_rel sys sys' -> fate <$> clients sys' = fate <$> clients sys.
Proof.
  intros Hok Hr. induction Hr as [|sys sys1 sys' [e Hx] _ IH]; [done|].
  rewrite IH by by eapply sys_step_ok. by eapply sys_step_fate.
Qed.

Lemma start_todo fuel reqs : sys_todo (start fuel reqs) = sum_list (todo fuel <$> reqs).
Proof. unfold sys_todo, start. cbn. by rewrite <- list_fmap_compose. Qed.

(** In a state with nothing left to do every client has ended the way
    [follow] says. *)
Lemma quiet_clients sys :
  sys_todo sys = 0 -> clients sys = outcome <$> (fate <$> clients sys).
Proof.
  unfold sys_todo. intros [_ Hz%sum_list_fmap_zero]%Nat.eq_add_0.
  rewrite <- list_fmap_compose, <- (list_fmap_id (clients sys)) at 1.
  apply list_fmap_ext. intros i c Hc. rewrite Forall_lookup in Hz.
  by apply ended_outcome, client_todo_zero, (Hz i).
Qed.

(** ** The requests the server sees *)

Lemma to_send_received req n :
  to_send (received req n (respond (engine swagger) req))
  = tail (hops n (engine swagger) req).
Proof. unfold received. destruct n; cbn; by repeat case_match. Qed.

(** Every step keeps the requests the server has got and those the clients
    have still to send, taken together. *)
Lemma sys_step_requests sys e sys' :
  sys_ok sys -> sys =[ e ]=> sys' ->
  requests (server sys') ++ (clients sys' ≫= to_send)
  ≡ₚ requests (server sys) ++ (clients sys ≫= to_send).
Proof.
  intros Hok.
  destruct 1 as [i req n reuse srv' sys Hi Hx|ev srv' sys Hw Hx|i id req n req' resp sys Hi Ht];
    cbn [server clients].
  - unfold requests. rewrite (accept_tasks _ _ _ _ _ Hx), fmap_app, <- (assoc (++)).
    f_equiv. symmetry. apply (bind_insert_Permutation _ _ _ _ _ _ Hi). by destruct n.
  - by rewrite (requests_step _ _ _ _ Hx Hw).
  - f_equiv. symmetry. apply (bind_insert_Permutation _ _ _ _ _ [] Hi).
    by rewrite (waiting_response _ _ _ _ _ _ _ Hok Hi Ht), to_send_received.
Qed.

Lemma sys_rtc_requests sys sys' :
  sys_ok sys -> rtc sys_rel sys sys' ->
  requests (server sys') ++ (clients sys' ≫= to_send)
  ≡ₚ requests (server sys) ++ (clients sys ≫= to_send).
Proof.
  intros Hok Hr. induction Hr as [|sys sys1 sys' [e Hx] _ IH]; [done|].
  rewrite IH by by eapply sys_step_ok. by eapply sys_step_requests.
Qed.

Lemma start_to_send fuel reqs :
  clients (start fuel reqs) ≫= to_send = reqs ≫= hops fuel (engine swagger).
Proof. unfold start. cbn. induction reqs as [|req reqs IH]; [done|]. cbn. by rewrite IH. Qed.

Lemma quiet_to_send sys : sys_todo sys = 0 -> clients sys ≫= to_send = [].
Proof.
  unfold sys_todo. intros [_ Hz%sum_list_fmap_zero]%Nat.eq_add_0.
  induction Hz as [|c l Hc%client_todo_zero _ IH]; [done|]. rewrite bind_cons, IH.
  by destruct c.
Qed.

Lemma nf_clients `{!WellBehaved swagger} fuel reqs sys :
  rtc sys_rel (start fuel reqs) sys -> nf sys_rel sys ->
  clients sys = (fun req => outcome (follow fuel (engine swagger) req)) <$> reqs.
Proof.
  intros Hr Hn. pose proof (reached_ok _ _ _ Hr).
  apply (measured_nf_zero sys_rel sys_ok sys_todo sys_progress) in Hn; [|done].
  rewrite (quiet_clients _ Hn), (sys_rtc_fate _ _ (start_ok fuel reqs) Hr).
  unfold start. cbn. by rewrite <- !list_fmap_compose.
Qed.

(** ** The theorems *)

(** The server and its clients come to an end under every schedule.
    From the start, with every client allowed [fuel] redirects, no sequence
    of steps goes on for ever, and one of [n] steps leaves exactly the work
    of the start less [n]: the work of the start is, for every client, what
    its chain of requests takes (a step to send, one for the handlers, one
    for each line of the log, one to finish and one to receive, for every
    request of the chain). *)
Theorem system_terminates fuel reqs :
  sn sys_rel (start fuel reqs)
  /\ forall n sys, nsteps sys_rel n (start fuel reqs) sys ->
       n + sys_todo sys = sum_list (todo fuel <$> reqs).
Proof.
  split; [apply (measured_sn sys_rel sys_ok sys_todo), start_ok|].
  intros n sys Hr. rewrite <- start_todo.
  by destruct (measured_nsteps sys_rel sys_ok sys_todo _ _ _ (start_ok fuel reqs) Hr).
Qed.

(** C22: every client is served, and as if it were alone.  With a swagger
    handler that meets the engine's interface, every state the system
    reaches can be continued to one that has no step; and in a state that
    has no step every client has ended the way [follow] says for its
    request and the engine alone: with the last request of its chain and the
    response to it, or given up if the chain is longer than the client
    allows.  Neither the other clients, nor the schedule, nor the contexts
    the pool hands out have a part in it. *)
Theorem clients_served `{!WellBehaved swagger} fuel reqs sys :
  rtc sys_rel (start fuel reqs) sys ->
  (exists sys', rtc sys_rel sys sys' /\ nf sys_rel sys')
  /\ (nf sys_rel sys ->
      clients sys = (fun req => outcome (follow fuel (engine swagger) req)) <$> reqs).
Proof.
  intros Hr. split; [|by apply nf_clients].
  pose proof (reached_ok _ _ _ Hr) as Hok.
  destruct (measured_wn sys_rel sys_ok sys_todo sys_progress sys Hok) as (sys' & Hn & Hok' & Hz).
  exists sys'. split; [by eapply rtc_nsteps_2|].
  by apply todo_zero_nf.
Qed.

(** What the server has seen and logged when all is done: the requests of
    the chains of all clients, and for each of them the lines [serve]
    prints, in some order (a request that gin answers with a redirect of
    its own is among the requests, and has no line). *)
Theorem system_log `{!WellBehaved swagger} fuel reqs sys :
  rtc sys_rel (start fuel reqs) sys -> nf sys_rel sys ->
  requests (server sys) ≡ₚ reqs ≫= hops fuel (engine swagger)
  /\ stdout (server sys)
     ≡ₚ (reqs ≫= hops fuel (engine swagger)) ≫= (fun req => log_of (serve swagger req)).
Proof.
  intros Hr Hn. pose proof (reached_ok _ _ _ Hr) as Hok.
  apply (measured_nf_zero sys_rel sys_ok sys_todo sys_progress) in Hn; [|done].
  assert (requests (server sys) ≡ₚ reqs ≫= hops fuel (engine swagger)) as Hq.
  { pose proof (sys_rtc_requests _ _ (start_ok fuel reqs) Hr) as Hp.
    by rewrite (quiet_to_send _ Hn), app_nil_r, start_to_send in Hp. }
  split; [done|]. rewrite <- Hq, <- concat_fmap_bind. apply quiet_log; [apply Hok|].
  unfold sys_todo in Hn. lia.
Qed.

(** A client has its response when the server has printed the lines of
    the request, and not before: at the step in which a client receives, the
    lines printed for its task are the whole log of its request, and what
    it goes on with is decided by the response to that request served
    alone. *)
Theorem logged_before_received fuel reqs sys i sys' :
  rtc sys_rel (start fuel reqs) sys -> sys =[ Receive i ]=> sys' ->
  exists id req n,
    clients sys !! i = Some (Waiting id req n)
    /\ tagged id (printed (server sys)) = log_of (serve swagger req)
    /\ clients sys' !! i = Some (received req n (respond (engine swagger) req)).
Proof.
  intros Hok%reached_ok. inversion 1 as [| |? id req n req' resp ? Hi Ht]; subst.
  exists id, req, n. rewrite <- (waiting_response _ _ _ _ _ _ _ Hok Hi Ht).
  destruct Hok as [[Hs _] Hc]. rewrite Forall_lookup in Hc.
  destruct (Hc _ _ Hi) as (t & Ht' & <-). simplify_eq. destruct (Hs _ _ Ht) as [_ Hl].
  split_and!; [done|done|]. cbn. apply list_lookup_insert_eq. by eapply lookup_lt_Some.
Qed.

(** The clients of the API: with Go's client, which makes ten requests at
    most, every client whose request is tame has its answer in the end,
    the one [Do] returns, provided the swagger UI needs no more than seven
    redirects of its own. *)
Corollary tame_clients_answered `{!WellBehaved swagger} k reqs sys :
  ui_settles swagger k -> k <= 7 -> Forall tame reqs ->
  rtc sys_rel (start 9 reqs) sys -> nf sys_rel sys ->
  Forall2 (fun req c => exists last resp,
             c = Finished last resp /\ Do (engine swagger) req = Some (last, resp))
    reqs (clients sys).
Proof.
  intros Hui Hk Ht Hr Hn. rewrite (nf_clients _ _ _ Hr Hn).
  apply Forall2_fmap_r, Forall_Forall2_diag. eapply Forall_impl; [done|].
  intros req [[last resp] Hf]%(settles_all swagger k); [|done].
  exists last, resp. unfold Do.
  by rewrite (follow_mono _ 9 _ _ _ Hf) by lia.
Qed.

End System.

(** ** The theorems at a concrete schedule *)

Section Witnesses.
#[local] Existing Instance http.url_ops_plain.

(** Two clients: one asks for // and follows the two redirects to the
    swagger UI, the other deletes a gopher meanwhile. *)
Definition two_clients : list http.Request :=
  [request "GET" "//"; request "DELETE" "/gophers/42"].

Definition crossing : list sys_event :=
  [Send 0 None; Send 1 None; Work (Handle 1); Work (Handle 0); Work (Finish 0);
   Receive 0; Work (Print 1); Send 0 (Some 0); Work (Finish 1); Work (Handle 2);
   Receive 1; Work (Print 2); Work (Finish 2); Receive 0; Send 0 None;
   Work (Handle 3); Work (Print 3); Work (Finish 3); Receive 0].

Definition at_end (swagger : gin.HandlerFunc) : system :=
  default (start 9 two_clients) (sys_run swagger crossing (start 9 two_clients)).

Lemma crossing_runs :
  sys_run HealthCheck crossing (start 9 two_clients) = Some (at_end HealthCheck).
Proof. by vm_compute. Qed.

Lemma system_terminates_witness :
  length crossing + sys_todo HealthCheck (at_end HealthCheck)
  = sum_list (todo HealthCheck 9 <$> two_clients).
Proof.
  destruct (system_terminates HealthCheck 9 two_clients) as [_ Hn]. apply Hn.
  apply (sys_run_nsteps HealthCheck crossing), crossing_runs.
Defined.

Lemma clients_served_witness :
  clients (at_end HealthCheck)
  = (fun req => outcome (follow 9 (engine HealthCheck) req)) <$> two_clients.
Proof.
  destruct (clients_served HealthCheck 9 two_clients (at_end HealthCheck)) as [_ Hc].
  - apply (sys_run_rtc HealthCheck crossing), crossing_runs.
  - apply Hc, todo_zero_nf; [|by vm_compute].
    apply (reached_ok HealthCheck 9 two_clients), (sys_run_rtc HealthCheck crossing), crossing_runs.
Defined.

(** The system before and after the first client receives the response to
    its first request. *)
Definition before_receive : system :=
  default (start 9 two_clients) (sys_run HealthCheck (take 5 crossing) (start 9 two_clients)).

Definition after_receive : system :=
  default (start 9 two_clients) (sys_exec HealthCheck (Receive 0) before_receive).

Lemma logged_before_received_witness :
  exists id req n,
    clients before_receive !! 0 = Some (Waiting id req n)
    /\ tagged id (printed (server before_receive)) = log_of (serve HealthCheck req)
    /\ clients after_receive !! 0
       = Some (received req n (respond (engine HealthCheck) req)).
Proof.
  apply (logged_before_received HealthCheck 9 two_clients).
  - apply (sys_run_rtc HealthCheck (take 5 crossing)). by vm_compute.
  - apply sys_exec_step. by vm_compute.
Defined.

Lemma system_log_witness :
  requests (server (at_end HealthCheck))
  ≡ₚ [request "GET" "//"; request "GET" "/"; request "GET" "/swagger/index.html";
      request "DELETE" "/gophers/42"].
Proof.
  destruct (system_log HealthCheck 9 two_clients (at_end HealthCheck)) as [Hq _]; [..|exact Hq].
  - apply (sys_run_rtc HealthCheck crossing), crossing_runs.
  - apply todo_zero_nf; [|by vm_compute].
    apply (reached_ok HealthCheck 9 two_clients), (sys_run_rtc HealthCheck crossing), crossing_runs.
Defined.

End Witnesses.
